(* ===== verification/_CoqProject ===== *)
-Q . S2P
Prelude.v
Ordering.v
GoFloat.v
GoTime.v
GoText.v
GoStrconv.v
GoHttp.v
Model.v
Lifecycle.v
LifecycleFacts.v
Ring.v
History.v
HistoryFacts.v
Stability.v
CacheIndex.v
CacheFacts.v
CacheProvider.v
EventTransport.v
AdmissionQueue.v
QueueFacts.v
WorkAccounting.v
Routing.v
CacheAware.v
Registry.v
RequestIds.v
Json.v
Unmarshal.v
Bodies.v
JsonFacts.v
JsonFloat.v
JsonPrint.v
GetJson.v
Gateway.v
GatewayFacts.v
Supervisor.v
SupervisorFacts.v
Proxy.v
ProxyFacts.v
BodyFacts.v
EndToEnd.v
PromText.v
Vllm.v
Emitter.v
EmitterFacts.v
Exec.v
Adapters.v
Nvidia.v
Amd.v
Detect.v
AdapterFacts.v
AdminApi.v
AdminFacts.v
Config.v
Sidecar.v
SidecarFacts.v
Publish.v
ControlPlane.v
Daemon.v
DaemonFacts.v
RouterMain.v
RouterFacts.v
StatusDoc.v
Collector.v
TrajCollector.v
CollectorFacts.v
