(* ===== verification/Prelude.v ===== *)
(** * gpu-sidecar: a verification library

    gpu-sidecar runs beside the GPUs of a host.  A daemon samples the devices with the vendor's tools, keeps their
    history, decides their lifecycle state and publishes it; with the data plane enabled it also queues the
    requests for the local vLLM server and relays the answers.  A router polls the daemons and sends every client
    request to one of them.  This library models the Go code of both, of the collectors and of the event emitter.

    ** The program and the files

    Foundations.  [Prelude] (machine integers, lists, tactics, the hint database [gosidecar]), [Ordering] (scans for
    a best element, [sort.Slice] as the class [SliceSort]), [GoFloat] (float64 as IEEE 754 binary64 on
    [spec_float], computable and without axioms), [GoTime], [GoText] ([strings], [bufio.Scanner]), [GoStrconv]
    (numbers in text, [ParseFloat] included), [Json] and [Unmarshal] (the decoder of [encoding/json], into typed
    variables), [JsonFloat] and [JsonPrint] (its encoder), [JsonFacts].  They model what the program uses of Go's
    standard library; [Bodies] holds what router and sidecar share in reading a request body.

    The control plane of the daemon, bottom up:
    - [Model] ([internal/core/model.go]): the records all parts exchange;
    - [Exec] ([internal/exec]): running a vendor tool with capped output;
    - [Adapters], [Nvidia], [Amd], [Detect] ([internal/adapters]): the adapter interface as the class [AdapterOps],
      the three adapters, fault injection, and the choice of one;
    - [Lifecycle], [Ring], [History], [Stability] ([internal/core]): the state machine of a device, the bounded rings,
      the reliability accounting and the score;
    - [Supervisor] ([internal/engine/supervisor.go]): a poll runs adapter, history, score and machine in this
      order and assembles the published status; draining and readiness;
    - [AdminApi] ([internal/api/server.go]): the HTTP interface over the supervisor; [Publish]: the JSON text of the
      bodies the router polls, from the struct tags;
    - [Config] ([internal/config]) and [Sidecar] ([cmd/sidecar/main.go], [trajectory/sink.go],
      [cache/http_snapshot.go]): the configuration and the wiring of the daemon.

    The data plane of the daemon:
    - [AdmissionQueue], [WorkAccounting], [Proxy] ([internal/dataplane]): the bounded queue as a system of goroutines, the
      token accounting, the request handler;
    - [CacheIndex], [CacheProvider] ([internal/cache]): the prefix index and the observation providers behind the
      class [Provider]; [EventTransport]: the goroutine that feeds the native one;
    - [PromText], [Vllm] ([internal/runtime]): the metrics of the model server;
    - [Emitter] ([internal/trajectory/emitter.go]): the asynchronous event emitter.

    [Daemon] is the running daemon with all of its parts ([cmd/sidecar/main.go]), one step relation over the models
    above.

    The router ([internal/router]): [Routing] and [CacheAware] (the policies behind the class [PolicyOps]), [Registry] (polling,
    rates, the prefix directory), [GetJson] (its requests, from the text of the answers), [RequestIds] (ids and
    headers, shared with the proxy), [Gateway] (the request handler with its retries), [RouterMain]
    ([cmd/router/main.go]: flags, start, mux and runs).

    The collectors: [StatusDoc] (a status as its reader decodes it, from the tags of [internal/core/model.go]), [Collector]
    ([cmd/collector/main.go]: targets, views, rounds and what is printed) and [TrajCollector] ([cmd/trajcollector/main.go]).

    [LifecycleFacts], [HistoryFacts], [CacheFacts], [QueueFacts], [GatewayFacts], [SupervisorFacts], [ProxyFacts], [EmitterFacts], [AdapterFacts],
    [AdminFacts], [SidecarFacts], [DaemonFacts], [RouterFacts], [CollectorFacts] hold the properties of the files they are named after; the smaller
    components carry theirs.  [EndToEnd] composes the request paths of router and sidecar, [BodyFacts] compares what
    they read out of a body, and [ControlPlane] composes what the sidecar publishes with what the router polls.

    ** How state and operations are modelled

    A Go struct is a record with a short prefix per struct; a method is a function from the record to the record.
    An [option] result is [None] exactly where Go would panic.  A mutex makes a method atomic, so a history of a
    component is a list of operations in the order in which they took the lock.  Where several goroutines meet
    without one lock around them (the admission queue, the emitter, the event transport) the program is a step
    relation ([qstep], [estep], [tstep], [dstep]) with one step per locked section, channel operation or [select], and the theorems
    quantify over every interleaving.  The request handlers of router and sidecar are functions of what the
    environment does (answers, reads, writes, cancellations) whose result is the trace of effects in program
    order.  Clock readings are arguments; the iteration order of a map is an argument over which the theorems
    quantify.  Integers are [Z] with the wrap-around written out ([wrap64], [uwrap64]).

    ** What the theorems show

    - The daemon: for all flags, tools and requests its supervisor is set up, never panics and keeps its invariants
      ([SidecarFacts.daemon_never_panics]); a device that its vendor tool reports gone is OFFLINE after the poll and
      refused at admission ([evidence_decides], [gone_device_refused], [gate_exact]); samples are well formed
      ([daemon_samples_honest]); the HTTP interface answers every request and changes state only by an accepted
      drain ([serve_safe], [drain_contract], [device_metrics_truthful], [readiness_contract]).
    - A device: OFFLINE is entered exactly on hard evidence or enough soft failures, left only through a latched
      recovery, and a recovery that sees healthy samples completes ([offline_entered_iff], [recovery_gated],
      [recovery_completes]); the bounded rings refine the full history ([history_refines]); captured output is
      bounded ([run_bounded]).
    - The queue: bounds, order and work conservation in every interleaving ([queue_bounds], [queue_fifo],
      [drain_work_conserving], [work_conserved]), and the slot that leaks when a handler gives up while it is
      dispatched ([leaked_slots_stay]).
    - The handlers: the in-flight slot is released exactly once ([slot_released_once], [response_wellformed]);
      the router never re-routes after the first byte and retries a bounded number of times
      ([no_reroute_after_first_byte], [retry_discipline]); composed, a refusal of the sidecar is what the router
      retries on, a clean stream arrives byte for byte, and a broken one is not noticed ([rejection_rerouted],
      [stream_end_to_end], [truncation_unseen]); what both read out of a body agrees and is bounded by its length
      ([hops_agree]).
    - The whole daemon: it starts unless the poll interval is not positive, and in every interleaving of its parts
      nothing panics, the queue is within its bounds and reported as it is, and a request is admitted only to a
      healthy runtime and an available device ([daemon_system]).
    - The control plane: what any reachable daemon holds is printed, fetched, decoded and arrives in the router's
      state unchanged ([router_mirrors_daemon], from [router_mirrors_sidecar], [decode_encode] and
      [json_float_exact]); from its flags on the
      router contacts configured backends only ([router_contacts_configured], [backends_flag_roundtrip]).
    - Locality and routing: no claimed token that was not observed, a bounded index, nothing left after a restart
      ([no_phantom_locality], [index_bounded], [provider_contract], [restart_forgets]), events applied once and in
      order until [Stop] returns, which it does ([transport_delivers]); every policy names an
      eligible backend, the cache-aware one of minimal cost ([policies_sound], [cache_aware_minimises],
      [lookup_reflects_refresh]).
    - Telemetry: the Prometheus parser inverts its printer and the median is the one of the histogram
      ([parse_render], [quantile_spec], [metrics_honest]); the emitter loses an event only where a counter says so
      and drains after [Stop] ([emitter_conserves], [stop_drains]); a batch is stored as exactly its events
      ([batch_stored], [sink_ledger]); a round of the collector shows every device of every daemon it reaches as the
      daemon holds it and does not depend on who answers first ([collector_mirrors_daemons], [poll_deterministic]).

    ** Bounds and fuel

    Recursion that is not structural has fuel, and a lemma shows it is enough: [drain] of the queue takes one unit
    per waiting ticket ([drain_work_conserving]), the emitter's drain one per queued event ([stop_drains]), the
    JSON decoder two per byte of the text ([json_fuel_enough]), the printer of floats the digits a float64 can need
    ([json_float_exact]), the exchange sort of the histogram one per
    bucket; the router's attempt loop counts down the attempts left, [maxRetries]+1 at the start.  [itoa] prints 20 digits
    at most, enough for 64 bits.  The percentile of a ring is proved for up to 4096 samples
    ([percentile_max]), where the float that computes the rank is exact; the daemon's rings hold 2048.
    The limits of the source are kept: 1 MiB of tool output, 64 KiB and 4 MiB lines of the scanners, a nesting
    depth of 10000 in JSON, the 64-bit widths.

    ** Parameters

    Code that is not in the repository, or whose result Go leaves open, is an argument: [math.Exp] (any function; only the
    score of a device without any fault assumes that it maps -0 to 1), SHA-256 (any digest function), [sort.Slice] ([SliceSort]), the
    order of a map's range, what vendor tools, sidecars, vLLM, clients and collectors answer, the text of times and of errors
    of the standard library, and whether an empty slice or map is nil (the encoder writes [null] or an empty value).

    ** Not modelled

    - command-line parsing, signals, tickers, starting and stopping HTTP servers, log lines;
    - the HTTP client calls themselves (registry, adapter, collector): the text of their answers is an input;
    - the JSON text of the bodies the router does not poll, and the text of [/metrics] lines ([%q] depends on the tables
      of Unicode);
    - escapes in the text of a time: Go reads the raw text of a time member, the model its decoded string;
    - a change of the prefix directory between the attempts of one request (the policies' properties hold for any);
    - real time: a theorem speaks about orders of steps and given clock readings, not about latency. *)

From stdpp Require Import base tactics numbers option strings list sorting relations sets.

#[export] Set Default Goal Selector "!".
Open Scope Z_scope.

(** ** Machine integers

    Go's [int], [int64] and [time.Duration] are 64-bit two's complement on every platform the
    program targets; [uint64] counters wrap modulo 2^64. *)

Definition i64_min : Z := - 2 ^ 63.
Definition i64_max : Z := 2 ^ 63 - 1.
Definition u64_mod : Z := 2 ^ 64.

Definition wrap64 (z : Z) : Z := (z + 2 ^ 63) `mod` 2 ^ 64 - 2 ^ 63.
Definition uwrap64 (z : Z) : Z := z `mod` 2 ^ 64.

Definition in_i64 (z : Z) : Prop := i64_min <= z <= i64_max.
Definition in_u64 (z : Z) : Prop := 0 <= z < u64_mod.

Definition in_i64b (z : Z) : bool := (i64_min <=? z) && (z <=? i64_max).

Lemma in_i64b_spec z : in_i64b z = true <-> in_i64 z.
Proof. unfold in_i64b, in_i64. rewrite andb_true_iff, !Z.leb_le. done. Qed.

Lemma wrap64_id z : in_i64 z -> wrap64 z = z.
Proof.
  unfold in_i64, i64_min, i64_max, wrap64. intros H.
  rewrite Z.mod_small; lia.
Qed.

Lemma wrap64_range z : in_i64 (wrap64 z).
Proof.
  unfold in_i64, i64_min, i64_max, wrap64.
  pose proof (Z.mod_pos_bound (z + 2 ^ 63) (2 ^ 64)). lia.
Qed.

Lemma uwrap64_id z : in_u64 z -> uwrap64 z = z.
Proof. unfold in_u64, u64_mod, uwrap64. intros H. rewrite Z.mod_small; lia. Qed.

Lemma uwrap64_range z : in_u64 (uwrap64 z).
Proof. unfold in_u64, u64_mod, uwrap64. apply Z.mod_pos_bound. lia. Qed.

(** Incrementing a non-negative counter: the 64-bit result is the mathematical one as long as it
    fits. *)
Lemma wrap64_succ z : 0 <= z < i64_max -> wrap64 (z + 1) = z + 1.
Proof. unfold i64_max. intros H. apply wrap64_id. unfold in_i64, i64_min, i64_max. lia. Qed.

Lemma uwrap64_add_l z w : uwrap64 (uwrap64 z + w) = uwrap64 (z + w).
Proof. apply Zplus_mod_idemp_l. Qed.

Lemma uwrap64_add_r z w : uwrap64 (z + uwrap64 w) = uwrap64 (z + w).
Proof. apply Zplus_mod_idemp_r. Qed.

Lemma uwrap64_succ z : 0 <= z < u64_mod - 1 -> uwrap64 (z + 1) = z + 1.
Proof. intros H. apply uwrap64_id. unfold in_u64, u64_mod in *. lia. Qed.

Create HintDb gosidecar.
Create Rewrite HintDb gosidecar.
#[export] Hint Resolve wrap64_range uwrap64_range : gosidecar.
#[export] Hint Rewrite wrap64_id uwrap64_id using (unfold in_i64, in_u64, i64_min, i64_max, u64_mod; lia) : gosidecar.

(** ** Automation *)

(** Split on every [if] and [match] of the goal whose scrutinee is a boolean or an option. *)
Ltac go_split :=
  repeat match goal with
  | |- context [ if ?b then _ else _ ] =>
      lazymatch type of b with
      | bool => let E := fresh "E" in destruct b eqn:E
      | _ => case_decide
      end
  end.

(** The same in a hypothesis. *)
Ltac go_split_in H :=
  repeat match type of H with
  | context [ if ?b then _ else _ ] =>
      lazymatch type of b with
      | bool => let E := fresh "E" in destruct b eqn:E
      | _ => case_decide
      end
  end.

(** Turn boolean tests in the context into propositions. *)
Ltac go_bool :=
  repeat match goal with
  | H : negb _ = true |- _ => apply negb_true_iff in H
  | H : negb _ = false |- _ => apply negb_false_iff in H
  | H : _ && _ = true |- _ => apply andb_true_iff in H; destruct H
  | H : _ || _ = false |- _ => apply orb_false_iff in H; destruct H
  | H : (_ <=? _)%Z = true |- _ => apply Z.leb_le in H
  | H : (_ <=? _)%Z = false |- _ => apply Z.leb_gt in H
  | H : (_ <? _)%Z = true |- _ => apply Z.ltb_lt in H
  | H : (_ <? _)%Z = false |- _ => apply Z.ltb_ge in H
  | H : (_ =? _)%Z = true |- _ => apply Z.eqb_eq in H
  | H : (_ =? _)%Z = false |- _ => apply Z.eqb_neq in H
  end.

Ltac go_auto := go_bool; simplify_eq/=; try (lia || done || congruence).

(** ** Lists *)

(** The last [n] elements of a list: what [s[len(s)-n:]] keeps. *)
Definition lastn {A} (n : nat) (l : list A) : list A := drop (length l - n) l.

Section lastn.
  Context {A : Type}.
  Implicit Types l : list A.

Lemma length_lastn n l : length (lastn n l) = (n `min` length l)%nat.
  Proof. unfold lastn. rewrite length_drop. lia. Qed.

Lemma lastn_all n l : (length l <= n)%nat -> lastn n l = l.
  Proof. intros H. unfold lastn. replace (length l - n)%nat with 0%nat by lia. done. Qed.

Lemma lastn_snoc n l x : lastn (S n) (l ++ [x]) = lastn n l ++ [x].
  Proof.
    unfold lastn. rewrite length_app; cbn [length].
    replace (length l + 1 - S n)%nat with (length l - n)%nat by lia.
    rewrite drop_app_le by lia. done.
  Qed.

Lemma lastn_lastn n m l : lastn n (lastn m l) = lastn (n `min` m) l.
  Proof.
    unfold lastn. rewrite length_drop, drop_drop. f_equal. lia.
  Qed.

Lemma lastn_app_r n l k : (length k <= n)%nat -> lastn n (l ++ k) = lastn (n - length k) l ++ k.
  Proof.
    unfold lastn. intros H. rewrite length_app, drop_app.
    replace (length l + length k - n - length l)%nat with 0%nat by lia.
    rewrite drop_0. f_equal. f_equal. lia.
  Qed.

Lemma lastn_app_le n l k : (n <= length k)%nat -> lastn n (l ++ k) = lastn n k.
  Proof.
    unfold lastn. intros H. rewrite length_app, drop_app_ge by lia.
    f_equal. lia.
  Qed.

Lemma lastn_suffix n l : lastn n l `suffix_of` l.
  Proof. exists (take (length l - n) l). unfold lastn. by rewrite take_drop. Qed.

Lemma lastn_lookup n l i :
    lastn n l !! i = l !! (length l - n + i)%nat.
  Proof. unfold lastn. apply lookup_drop. Qed.
End lastn.

#[export] Hint Rewrite @length_lastn : gosidecar.

(** Counting the elements that satisfy a boolean test. *)
Definition countb {A} (f : A -> bool) (l : list A) : nat := length (List.filter f l).
#[global] Arguments countb : simpl never.

Section countb.
  Context {A : Type} (f : A -> bool).

Lemma countb_nil : countb f [] = 0%nat.
  Proof. done. Qed.

Lemma countb_cons x l : countb f (x :: l) = ((if f x then 1 else 0) + countb f l)%nat.
  Proof. unfold countb. simpl. destruct (f x); done. Qed.

Lemma countb_app l k : countb f (l ++ k) = (countb f l + countb f k)%nat.
  Proof. unfold countb. by rewrite List.filter_app, length_app. Qed.

Lemma countb_le l : (countb f l <= length l)%nat.
  Proof. induction l as [|x l IH]; [done|]. rewrite countb_cons. simpl. destruct (f x); lia. Qed.

Lemma countb_zero l : countb f l = 0%nat <-> Forall (fun x => f x = false) l.
  Proof.
    induction l as [|x l IH]; [split; [constructor | done]|].
    rewrite countb_cons, Forall_cons, <- IH. destruct (f x); split; try lia; naive_solver lia.
  Qed.

Lemma countb_all l : Forall (fun x => f x = true) l -> countb f l = length l.
  Proof. induction 1 as [|x l H _ IH]; [done|]. rewrite countb_cons, H, IH. done. Qed.
End countb.

Lemma countb_ext {A} (f g : A -> bool) l :
  (forall x, x ∈ l -> f x = g x) -> countb f l = countb g l.
Proof.
  induction l as [|x l IH]; intros H; [done|].
  rewrite !countb_cons, (H x) by set_solver. f_equal. apply IH. intros y Hy. apply H. set_solver.
Qed.

Lemma countb_map {A} (f : A -> bool) l : countb f l = countb id (map f l).
Proof. induction l as [|x l IH]; [done|]. cbn [map]. by rewrite !countb_cons, IH. Qed.

Lemma countb_pos {A} (f : A -> bool) l : (0 < countb f l)%nat <-> exists x, x ∈ l /\ f x = true.
Proof.
  induction l as [|x l IH]; [rewrite countb_nil; split; [lia|intros (y & Hy & _); by apply not_elem_of_nil in Hy]|].
  rewrite countb_cons. split.
  - intros H. destruct (f x) eqn:E; [exists x; by split; [left|]|].
    destruct (proj1 IH ltac:(lia)) as (y & Hy & Ey). exists y. by split; [right|].
  - intros (y & [->|Hy]%elem_of_cons & Ey); [rewrite Ey; lia|].
    assert (0 < countb f l)%nat by (apply IH; by exists y). lia.
Qed.

Lemma countb_full {A} (f : A -> bool) l x : countb f l = length l -> x ∈ l -> f x = true.
Proof.
  induction l as [|y l IH]; [by intros _ ?%not_elem_of_nil|]. rewrite countb_cons. cbn [length].
  pose proof (countb_le f l). intros Hc [->|Hx]%elem_of_cons; [destruct (f y); lia || done|].
  apply IH; [destruct (f y); lia|done].
Qed.

Lemma countb_perm {A} (f : A -> bool) (l k : list A) : l ≡ₚ k -> countb f l = countb f k.
Proof.
  induction 1 as [|x l k _ IH|x y l|l k m _ IH1 _ IH2]; rewrite ?countb_cons; lia.
Qed.

(** ** Strings *)

Lemma sapp_nil_r s : String.append s "" = s.
Proof. induction s as [|c s IH]; [done|exact (f_equal (String c) IH)]. Qed.

Lemma sapp_assoc s t u : String.append s (String.append t u) = String.append (String.append s t) u.
Proof. induction s as [|c s IH]; [done|exact (f_equal (String c) IH)]. Qed.

(** ** Pipelines of record updates *)

Declare Scope go_scope.
Delimit Scope go_scope with go.
Notation "x |> f" := (f x) (at level 61, left associativity, only parsing) : go_scope.

(** [wrap64] never exceeds a value that is not below the range. *)
Lemma wrap64_le z : i64_min <= z -> wrap64 z <= z.
Proof.
  unfold wrap64, i64_min. intros H.
  pose proof (Z.mod_le (z + 2 ^ 63) (2 ^ 64)). lia.
Qed.

(** ** Go slices and panics

    An operation that can panic returns an [option]; [None] is the panic.  [s[i]] and [s[i] = v]
    check their index, and [%] panics on a zero divisor. *)

Definition zget {A} (l : list A) (i : Z) : option A :=
  if i <? 0 then None else l !! Z.to_nat i.

Definition zset {A} (l : list A) (i : Z) (v : A) : option (list A) :=
  if (0 <=? i) && (i <? Z.of_nat (length l)) then Some (<[Z.to_nat i := v]> l) else None.

Definition go_rem (a b : Z) : option Z := if b =? 0 then None else Some (Z.rem a b).

Section slices.
  Context {A : Type}.
  Implicit Types l : list A.

Lemma zget_nat l i : zget l (Z.of_nat i) = l !! i.
Proof. unfold zget. rewrite (proj2 (Z.ltb_ge _ _)) by lia. by rewrite Nat2Z.id. Qed.

Lemma zget_Some l i : 0 <= i < Z.of_nat (length l) -> exists x, zget l i = Some x.
Proof.
  intros H. unfold zget. rewrite (proj2 (Z.ltb_ge _ _)) by lia. apply lookup_lt_is_Some. lia.
Qed.

Lemma zset_Some l i v :
  0 <= i < Z.of_nat (length l) -> zset l i v = Some (<[Z.to_nat i := v]> l).
Proof. intros H. unfold zset. by rewrite (proj2 (Z.leb_le _ _)), (proj2 (Z.ltb_lt _ _)) by lia. Qed.

Lemma mapM_Some_ext {B} (f : B -> option A) (g : B -> A) (k : list B) :
  (forall b, b ∈ k -> f b = Some (g b)) -> mapM f k = Some (map g k).
Proof.
  induction k as [|b k IH]; intros H; [done|]. simpl.
  rewrite (H b) by left. simpl. rewrite IH; [done|]. intros c Hc. apply H. by right.
Qed.
End slices.

Lemma go_rem_pos a b : 0 <= a -> 0 < b -> go_rem a b = Some (a `mod` b).
Proof.
  intros Ha Hb. unfold go_rem. rewrite (proj2 (Z.eqb_neq _ _)) by lia.
  f_equal. by apply Z.rem_mod_nonneg.
Qed.
