(* ===== verification/Ordering.v ===== *)
(** * Selection and sorting under a boolean "less" test.

    Go code selects a minimum by scanning ([best := e[0]; for _, b := range e[1:] ...]) or by
    calling [sort.Slice] and taking the first element.  Both are stated here once, over a boolean
    comparison, with the facts the routing policies and the percentile code share. *)

From stdpp Require Import base tactics numbers option list sorting sets strings.
From S2P Require Import Prelude.

(** A strict weak order on the elements that satisfy [P]. *)
Class StrictWeak {A} (P : A -> Prop) (lt : A -> A -> bool) : Prop := {
  sw_irrefl x : P x -> lt x x = false;
  sw_trans x y z : P x -> P y -> P z -> lt x y = true -> lt y z = true -> lt x z = true;
  sw_incomp x y z : P x -> P y -> P z -> lt x y = false -> lt y z = false -> lt x z = false;
}.

(** A strict total order on the elements that satisfy [P]. *)
Class StrictTotal {A} (P : A -> Prop) (lt : A -> A -> bool) : Prop := {
  st_weak :: StrictWeak P lt;
  st_total x y : P x -> P y -> lt x y = false -> lt y x = false -> x = y;
}.

Lemma sw_asym {A} (P : A -> Prop) lt `{!StrictWeak P lt} x y :
  P x -> P y -> lt x y = true -> lt y x = false.
Proof.
  intros Hx Hy Hxy. destruct (lt y x) eqn:Hyx; [|done].
  rewrite <- (sw_irrefl x Hx). symmetry. by apply (sw_trans x y x).
Qed.

(** ** Scanning for the best element *)

(** [best := x; for _, b := range l { if better(b, best) { best = b } }]. *)
Definition scan_best {A} (better : A -> A -> bool) (x : A) (l : list A) : A :=
  fold_left (fun best b => if better b best then b else best) l x.

Lemma scan_best_elem {A} (better : A -> A -> bool) x l : scan_best better x l ∈ x :: l.
  Proof.
    revert x. induction l as [|y l IH]; intros x; simpl; [set_solver|].
    unfold scan_best in *; simpl. destruct (better y x).
    - right. apply IH.
    - destruct (proj1 (elem_of_cons _ _ _) (IH x)) as [-> | Hin]; [left | by do 2 right].
  Qed.

Section scan_best.
  Context {A : Type} (P : A -> Prop) (better : A -> A -> bool) `{!StrictWeak P better}.

  (** No element of the scanned list beats the result. *)
Lemma scan_best_optimal x l :
    P x -> Forall P l -> Forall (fun y => better y (scan_best better x l) = false) (x :: l).
  Proof.
    revert x. induction l as [|y l IH]; intros x Hx Hl.
    { constructor; [by apply (sw_irrefl x) | constructor]. }
    apply Forall_cons in Hl as [Hy Hl]. unfold scan_best in *; simpl.
    assert (Hr : P (fold_left (fun b c => if better c b then c else b) l (if better y x then y else x))).
    { pose proof (scan_best_elem better (if better y x then y else x) l) as He. unfold scan_best in He.
      apply elem_of_cons in He as [-> | He]; [by destruct (better y x)|].
      rewrite Forall_forall in Hl. by apply Hl. }
    destruct (better y x) eqn:Hyx.
    - destruct (Forall_cons_1 _ _ _ (IH y Hy Hl)) as [H1 H2].
      constructor; [|by constructor].
      eapply (sw_incomp x y); eauto. by eapply sw_asym.
    - destruct (Forall_cons_1 _ _ _ (IH x Hx Hl)) as [H1 H2].
      constructor; [done|]. constructor; [|done]. by eapply (sw_incomp y x).
  Qed.

  (** Among equally good elements the scan keeps the first: everything before the result is
      strictly worse than it. *)
Lemma scan_best_first x l :
    P x -> Forall P l ->
    exists l1 l2, x :: l = l1 ++ scan_best better x l :: l2 /\
      Forall (fun y => better (scan_best better x l) y = true) l1.
  Proof.
    revert x. induction l as [|y l IH]; intros x Hx Hl.
    { exists [], []. split; [done | constructor]. }
    apply Forall_cons in Hl as [Hy Hl]. unfold scan_best in *; simpl.
    destruct (better y x) eqn:Hyx.
    - destruct (IH y Hy Hl) as (l1 & l2 & Heq & Hall).
      exists (x :: l1), l2. rewrite Heq. split; [done|]. constructor; [|done].
      destruct l1 as [|z l1]; simpl in Heq; injection Heq as Hz Heq.
      + by rewrite <- Hz.
      + subst z. apply Forall_cons in Hall as [Hz _].
        eapply (sw_trans _ y); eauto.
        pose proof (scan_best_elem better y l) as He. unfold scan_best in He.
        rewrite Forall_forall in Hl. apply elem_of_cons in He as [-> | He]; auto.
    - destruct (IH x Hx Hl) as (l1 & l2 & Heq & Hall).
      destruct l1 as [|z l1]; simpl in Heq; injection Heq as Hz Heq.
      + exists [], (y :: l2). simpl. rewrite <- Hz, <- Heq. split; [done | constructor].
      + subst z. apply Forall_cons in Hall as [Hz Hall].
        exists (x :: y :: l1), l2. split; [simpl; by do 2 f_equal|]. constructor; [done|].
        constructor; [|done].
        destruct (better _ y) eqn:Hby; [done|].
        assert (P (fold_left (fun b c => if better c b then c else b) l x)) as Hr.
        { pose proof (scan_best_elem better x l) as He. unfold scan_best in He.
          rewrite Forall_forall in Hl. apply elem_of_cons in He as [-> | He]; auto. }
        pose proof (sw_incomp _ y x Hr Hy Hx Hby Hyx). congruence.
  Qed.
End scan_best.

(** ** Sorting *)

(** Insertion sort by a boolean comparison; it stands for [sort.Slice] and [sort.Float64s], whose
    result is determined up to elements the comparison cannot tell apart. *)
Fixpoint insert_by {A} (lt : A -> A -> bool) (x : A) (l : list A) : list A :=
  match l with
  | [] => [x]
  | y :: l' => if lt y x then y :: insert_by lt x l' else x :: l
  end.

Definition sort_by {A} (lt : A -> A -> bool) (l : list A) : list A :=
  foldr (insert_by lt) [] l.

(** No later element is less than an earlier one. *)
Definition sorted_by {A} (lt : A -> A -> bool) : list A -> Prop :=
  StronglySorted (fun x y => lt y x = false).

Section sort_by.
  Context {A : Type} (P : A -> Prop) (lt : A -> A -> bool).

Lemma insert_by_perm x l : insert_by lt x l ≡ₚ x :: l.
  Proof.
    induction l as [|y l IH]; [done|]. simpl. destruct (lt y x); [|done].
    rewrite IH. apply Permutation_swap.
  Qed.

Lemma sort_by_perm l : sort_by lt l ≡ₚ l.
  Proof. induction l as [|x l IH]; [done|]. simpl. by rewrite insert_by_perm, IH. Qed.

Lemma length_sort_by l : length (sort_by lt l) = length l.
  Proof. by rewrite (Permutation_length (sort_by_perm l)). Qed.

  Context `{!StrictWeak P lt}.

Lemma insert_by_sorted x l :
    P x -> Forall P l -> sorted_by lt l -> sorted_by lt (insert_by lt x l).
  Proof.
    intros Hx Hl Hs. induction Hs as [|y l Hs IH Hy].
    { repeat constructor. }
    apply Forall_cons in Hl as [Py Hl]. simpl. destruct (lt y x) eqn:Hyx.
    - constructor; [by apply IH|]. rewrite insert_by_perm. constructor; [|done].
      by eapply sw_asym.
    - constructor; [by constructor|]. constructor; [done|].
      apply Forall_forall. intros z Hz.
      rewrite Forall_forall in Hy, Hl. specialize (Hy z Hz). specialize (Hl z Hz).
      by eapply (sw_incomp z y x).
  Qed.

Lemma sort_by_sorted l : Forall P l -> sorted_by lt (sort_by lt l).
  Proof.
    induction 1 as [|x l Hx Hl IH]; [constructor|]. simpl.
    apply insert_by_sorted; [done| |done]. by rewrite sort_by_perm.
  Qed.

  (** The head of a sorted list is a minimum. *)
Lemma sorted_by_head x l : P x -> sorted_by lt (x :: l) -> Forall (fun y => lt y x = false) (x :: l).
  Proof. intros Hx Hs. inversion Hs; subst. constructor; [by apply (sw_irrefl x) | done]. Qed.
End sort_by.

(** Under a strict total order the sorted list is unique, so which algorithm [sort.Slice] runs
    does not matter. *)
Lemma sorted_by_unique {A} (P : A -> Prop) lt `{!StrictTotal P lt} (l k : list A) :
  Forall P l -> sorted_by lt l -> sorted_by lt k -> l ≡ₚ k -> l = k.
Proof.
  intros Hl Hsl. revert k. induction Hsl as [|x l Hsl IH Hx]; intros k Hsk Hp.
  { by apply Permutation_nil_l in Hp. }
  apply Forall_cons in Hl as [Px Hl].
  destruct k as [|y k]; [by apply Permutation_nil_r in Hp|].
  assert (Py : P y).
  { assert (y ∈ x :: l) as Hy by (rewrite Hp; left).
    apply elem_of_cons in Hy as [->|Hy]; [done|]. rewrite Forall_forall in Hl. auto. }
  inversion Hsk as [|? ? Hsk' Hky]; subst.
  assert (x = y) as ->.
  { assert (x ∈ y :: k) as H1 by (rewrite <- Hp; left).
    assert (y ∈ x :: l) as H2 by (rewrite Hp; left).
    apply elem_of_cons in H1 as [->|H1]; [done|].
    apply elem_of_cons in H2 as [->|H2]; [done|].
    rewrite Forall_forall in Hx, Hky.
    apply (st_total (P := P) (lt := lt)); auto. }
  f_equal. apply IH; [done..|]. by apply Permutation_cons_inv in Hp.
Qed.

Lemma sort_by_perm_eq {A} (P : A -> Prop) lt `{!StrictTotal P lt} (l k : list A) :
  Forall P l -> l ≡ₚ k -> sort_by lt l = sort_by lt k.
Proof.
  intros Hl Hp. apply (sorted_by_unique P lt).
  - eapply Permutation_Forall; [symmetry; apply sort_by_perm | done].
  - by apply (sort_by_sorted P lt).
  - apply (sort_by_sorted P lt). by eapply Permutation_Forall.
  - by rewrite !sort_by_perm.
Qed.

(** ** Go's string order

    [<] on strings compares them byte by byte. *)

Definition string_ltb : string -> string -> bool := String.ltb.

Lemma string_compare_refl s : String.compare s s = Eq.
Proof.
  pose proof (String.compare_antisym s s) as H. by destruct (String.compare s s).
Qed.

Lemma ascii_compare_trans c x y z :
  Ascii.compare x y = c -> Ascii.compare y z = c -> Ascii.compare x z = c.
Proof.
  unfold Ascii.compare. destruct c; rewrite ?N.compare_eq_iff, ?N.compare_lt_iff, ?N.compare_gt_iff; lia.
Qed.

Lemma string_compare_trans x y z :
  String.compare x y = Lt -> String.compare y z = Lt -> String.compare x z = Lt.
Proof.
  revert y z. induction x as [|a x IH]; intros [|b y] [|c z]; simpl; try done.
  destruct (Ascii.compare a b) eqn:E1; [| |done];
    destruct (Ascii.compare b c) eqn:E2; try done; intros H1 H2.
  - rewrite (ascii_compare_trans _ _ _ _ E1 E2). by eapply IH.
  - apply Ascii.compare_eq_iff in E1 as ->. by rewrite E2.
  - apply Ascii.compare_eq_iff in E2 as <-. by rewrite E1.
  - by rewrite (ascii_compare_trans _ _ _ _ E1 E2).
Qed.

Lemma string_ltb_spec x y : string_ltb x y = true <-> String.compare x y = Lt.
Proof. unfold string_ltb, String.ltb. by destruct (String.compare x y). Qed.

Lemma string_ltb_irrefl x : string_ltb x x = false.
Proof. unfold string_ltb, String.ltb. by rewrite string_compare_refl. Qed.

Lemma string_ltb_trans x y z : string_ltb x y = true -> string_ltb y z = true -> string_ltb x z = true.
Proof. rewrite !string_ltb_spec. apply string_compare_trans. Qed.

Lemma string_ltb_total x y : string_ltb x y = false -> string_ltb y x = false -> x = y.
Proof.
  unfold string_ltb, String.ltb. rewrite (String.compare_antisym y x).
  destruct (String.compare x y) eqn:E; try done. intros _ _. by apply String.compare_eq_iff.
Qed.

#[export] Instance string_strict_total : StrictTotal (fun _ : string => True) string_ltb.
Proof.
  split; [split|]; intros.
  - apply string_ltb_irrefl.
  - by eapply string_ltb_trans.
  - destruct (string_ltb x z) eqn:E; [|done].
    destruct (string_ltb z y) eqn:E2.
    + pose proof (string_ltb_trans x z y E E2). congruence.
    + assert (y = z) as -> by by apply string_ltb_total. congruence.
  - by apply string_ltb_total.
Qed.

(** ** [sort.Slice]

    What the program relies on: the result is a rearrangement of the slice, and it is sorted when
    the comparison is a strict weak order on its elements.  (Under any other comparison the order
    is left open.) *)
Class SliceSort := {
  slice_sort : forall A : Type, (A -> A -> bool) -> list A -> list A;
  slice_sort_perm : forall A lt (l : list A), slice_sort A lt l ≡ₚ l;
  slice_sort_sorted : forall A (P : A -> Prop) lt (l : list A),
    StrictWeak P lt -> Forall P l -> sorted_by lt (slice_sort A lt l);
}.

#[export] Instance insertion_slice_sort : SliceSort.
Proof.
  refine {| slice_sort := @sort_by |}.
  - intros. apply sort_by_perm.
  - intros A P lt l Hw Hl. by apply (sort_by_sorted P lt).
Defined.

Section slice_sort.
  Context `{!SliceSort}.

Lemma slice_sort_unique {A} (P : A -> Prop) lt `{!StrictTotal P lt} (l k : list A) :
  Forall P l -> l ≡ₚ k -> slice_sort A lt l = slice_sort A lt k.
Proof.
  intros Hl Hp. apply (sorted_by_unique P lt).
  - eapply Permutation_Forall; [symmetry; apply slice_sort_perm | done].
  - apply (slice_sort_sorted A P lt); [apply st_weak|done].
  - apply (slice_sort_sorted A P lt); [apply st_weak|]. by eapply Permutation_Forall.
  - by rewrite !slice_sort_perm.
Qed.

(** The first element of a sorted slice is a minimum. *)
Lemma slice_sort_head {A} (P : A -> Prop) lt `{!StrictWeak P lt} (l : list A) x k :
  Forall P l -> slice_sort A lt l = x :: k -> x ∈ l /\ Forall (fun y => lt y x = false) l.
Proof.
  intros Hl Hs. pose proof (slice_sort_perm A lt l) as Hp. rewrite Hs in Hp.
  assert (Hx : x ∈ l) by (rewrite <- Hp; left). split; [done|].
  rewrite Forall_forall in Hl. rewrite <- Hp.
  apply (sorted_by_head P lt); [by apply Hl|]. rewrite <- Hs.
  by apply (slice_sort_sorted A P lt); [|apply Forall_forall].
Qed.
End slice_sort.
