(* ===== verification/GoFloat.v ===== *)
(** * Go's float64

    [float64] is IEEE 754 binary64 with round-to-nearest-even.  It is represented by the Standard
    Library's [spec_float], whose operations are computable functions on integers, so every
    definition of the development that computes with floats can be evaluated, and no axiom about
    floats is used.  This file fixes the format, the conversions Go makes between floats and
    integers, and the order on floats. *)

From Stdlib Require Import Floats.SpecFloat.
From stdpp Require Import base tactics numbers option list.
From S2P Require Import Prelude Ordering.

Abbreviation f64 := spec_float (only parsing).

Definition prec64 : Z := 53.
Definition emax64 : Z := 1024.

Definition f64_add : f64 -> f64 -> f64 := SFadd 53 1024.
Definition f64_sub : f64 -> f64 -> f64 := SFsub 53 1024.
Definition f64_mul : f64 -> f64 -> f64 := SFmul 53 1024.
Definition f64_div : f64 -> f64 -> f64 := SFdiv 53 1024.
Definition f64_ltb : f64 -> f64 -> bool := SFltb.
Definition f64_leb : f64 -> f64 -> bool := SFleb.
Definition f64_eqb : f64 -> f64 -> bool := SFeqb.

Declare Scope f64_scope.
Delimit Scope f64_scope with f64.
Infix "+~" := f64_add (at level 50, left associativity) : f64_scope.
Infix "-~" := f64_sub (at level 50, left associativity) : f64_scope.
Infix "*~" := f64_mul (at level 40, left associativity) : f64_scope.
Infix "/~" := f64_div (at level 40, left associativity) : f64_scope.
Infix "<~" := f64_ltb (at level 70, no associativity) : f64_scope.
Infix "<=~" := f64_leb (at level 70, no associativity) : f64_scope.
Infix "=~" := f64_eqb (at level 70, no associativity) : f64_scope.
Notation "x >~ y" := (f64_ltb y x) (at level 70, no associativity, only parsing) : f64_scope.
Notation "x >=~ y" := (f64_leb y x) (at level 70, no associativity, only parsing) : f64_scope.

(** ** Conversions *)

(** [float64(n)] of an integer: the nearest float. *)
Definition f64_of_Z (n : Z) : f64 := binary_normalize 53 1024 n 0 false.

(** A Go decimal constant [n/d]: Go converts the exact rational to the nearest float, and so does
    the quotient of two exactly representable integers. *)
Definition f64_lit (n d : Z) : f64 := f64_div (f64_of_Z n) (f64_of_Z d).

Definition f64_zero : f64 := S754_zero false.
Definition f64_one : f64 := f64_of_Z 1.

(** Truncation towards zero of a finite float. *)
Definition f64_trunc (x : f64) : option Z :=
  match x with
  | S754_zero _ => Some 0
  | S754_finite s m e =>
      let a := if 0 <=? e then Zpos m * 2 ^ e else Zpos m / 2 ^ (- e) in
      Some (if s then - a else a)
  | _ => None
  end.

(** [int(x)], [int64(x)], [time.Duration(x)]: truncation; when the value does not fit (or is an
    infinity or NaN) the result is implementation-defined and amd64 returns the minimum integer. *)
Definition f64_to_i64 (x : f64) : Z :=
  match f64_trunc x with
  | Some z => if in_i64b z then z else i64_min
  | None => i64_min
  end.

#[global] Arguments f64_of_Z : simpl never.
#[global] Arguments f64_lit : simpl never.
#[global] Arguments f64_to_i64 : simpl never.
#[global] Arguments f64_add : simpl never.
#[global] Arguments f64_sub : simpl never.
#[global] Arguments f64_mul : simpl never.
#[global] Arguments f64_div : simpl never.
#[global] Arguments f64_ltb : simpl never.
#[global] Arguments f64_leb : simpl never.

(** ** Classification *)

Definition f64_is_nan (x : f64) : bool := match x with S754_nan => true | _ => false end.
Definition f64_is_inf (x : f64) : bool := match x with S754_infinity _ => true | _ => false end.
Definition f64_is_finite (x : f64) : bool :=
  match x with S754_zero _ | S754_finite _ _ _ => true | _ => false end.

Definition not_nan (x : f64) : Prop := f64_is_nan x = false.

(** Sign bit clear and not a NaN: [0 <= x], with [-0] excluded. *)
Definition f64_pos_sign (x : f64) : bool :=
  match x with
  | S754_zero s | S754_infinity s | S754_finite s _ _ => negb s
  | S754_nan => false
  end.

Lemma pos_sign_not_nan x : f64_pos_sign x = true -> not_nan x.
Proof. by destruct x. Qed.

(** ** The order

    [SFcompare] on non-NaN floats is a lexicographic comparison of three integers, so every fact
    about the order is a fact of linear arithmetic. *)

Definition f64_key (x : f64) : Z * Z * Z :=
  match x with
  | S754_infinity true => (-2, 0, 0)
  | S754_finite true m e => (-1, - e, Zneg m)
  | S754_zero _ | S754_nan => (0, 0, 0)
  | S754_finite false m e => (1, e, Zpos m)
  | S754_infinity false => (2, 0, 0)
  end.

Definition key_lt (a b : Z * Z * Z) : Prop :=
  let '(a1, a2, a3) := a in let '(b1, b2, b3) := b in
  a1 < b1 \/ (a1 = b1 /\ (a2 < b2 \/ (a2 = b2 /\ a3 < b3))).

Lemma SFcompare_key x y :
  not_nan x -> not_nan y ->
  match SFcompare x y with
  | Some Lt => key_lt (f64_key x) (f64_key y)
  | Some Eq => f64_key x = f64_key y
  | Some Gt => key_lt (f64_key y) (f64_key x)
  | None => False
  end.
Proof.
  destruct x as [sx|sx| |sx mx ex], y as [sy|sy| |sy my ey]; try done; intros _ _;
    destruct sx; try destruct sy; simpl; try (lia || done).
  all: destruct (Z.compare_spec ex ey); simpl; try lia; subst.
  all: change (Pos.compare_cont Eq mx my) with (Pos.compare mx my).
  all: destruct (Pos.compare_spec mx my); simpl; subst; done || lia.
Qed.

Lemma f64_ltb_key x y :
  not_nan x -> not_nan y -> f64_ltb x y = true <-> key_lt (f64_key x) (f64_key y).
Proof.
  intros Hx Hy. pose proof (SFcompare_key x y Hx Hy) as H. unfold f64_ltb, SFltb.
  destruct (SFcompare x y) as [[]|]; [|done| |done].
  - rewrite H. split; [done|]. destruct (f64_key y) as [[]]. simpl. lia.
  - split; [done|]. destruct (f64_key x) as [[]], (f64_key y) as [[]]. simpl in *. lia.
Qed.

Lemma f64_leb_key x y :
  not_nan x -> not_nan y -> f64_leb x y = true <-> ~ key_lt (f64_key y) (f64_key x).
Proof.
  intros Hx Hy. pose proof (SFcompare_key x y Hx Hy) as H. unfold f64_leb, SFleb.
  destruct (SFcompare x y) as [[]|]; [| | |done].
  - rewrite H. split; [|done]. destruct (f64_key y) as [[]]. simpl. lia.
  - split; [|done]. destruct (f64_key x) as [[]], (f64_key y) as [[]]. simpl in *. lia.
  - split; [done|]. tauto.
Qed.

Lemma f64_eqb_key x y :
  not_nan x -> not_nan y -> f64_eqb x y = true <-> f64_key x = f64_key y.
Proof.
  intros Hx Hy. pose proof (SFcompare_key x y Hx Hy) as H. unfold f64_eqb, SFeqb.
  destruct (SFcompare x y) as [[]|]; [done| | |done].
  all: split; [done|]; intros Heq; rewrite Heq in H; destruct (f64_key y) as [[]]; simpl in H; lia.
Qed.

Ltac f64_order :=
  repeat match goal with
  | H : context [ f64_key ?x ] |- _ => destruct (f64_key x) as [[? ?] ?]
  | |- context [ f64_key ?x ] => destruct (f64_key x) as [[? ?] ?]
  end; simpl in *; simplify_eq/=; try lia.

Lemma f64_ltb_not_nan x y : f64_ltb x y = true -> not_nan x /\ not_nan y.
Proof. unfold f64_ltb, SFltb. by destruct x, y. Qed.

Lemma f64_leb_not_nan x y : f64_leb x y = true -> not_nan x /\ not_nan y.
Proof. unfold f64_leb, SFleb. by destruct x, y. Qed.

Lemma f64_leb_ltb x y : not_nan x -> not_nan y -> f64_leb x y = negb (f64_ltb y x).
Proof.
  intros Hx Hy. pose proof (f64_leb_key x y Hx Hy). pose proof (f64_ltb_key y x Hy Hx).
  destruct (f64_leb x y), (f64_ltb y x); naive_solver.
Qed.

Lemma f64_ltb_leb x y : f64_ltb x y = true -> f64_leb x y = true.
Proof. unfold f64_ltb, f64_leb, SFltb, SFleb. by destruct (SFcompare x y) as [[]|]. Qed.

Lemma f64_leb_refl x : not_nan x -> f64_leb x x = true.
Proof. intros H. apply f64_leb_key; [done..|]. f64_order. Qed.

Lemma f64_leb_trans x y z : f64_leb x y = true -> f64_leb y z = true -> f64_leb x z = true.
Proof.
  intros Hxy Hyz. destruct (f64_leb_not_nan _ _ Hxy), (f64_leb_not_nan _ _ Hyz).
  apply f64_leb_key in Hxy, Hyz; [|done..]. apply f64_leb_key; [done..|]. f64_order.
Qed.

Lemma f64_leb_total x y : not_nan x -> not_nan y -> f64_leb x y = true \/ f64_leb y x = true.
Proof.
  intros Hx Hy. rewrite !f64_leb_key by done. f64_order.
Qed.

Lemma f64_ltb_irrefl x : f64_ltb x x = false.
Proof.
  destruct (f64_ltb x x) eqn:H; [|done]. destruct (f64_ltb_not_nan _ _ H).
  apply f64_ltb_key in H; [|done..]. f64_order.
Qed.

Lemma f64_ltb_trans x y z : f64_ltb x y = true -> f64_ltb y z = true -> f64_ltb x z = true.
Proof.
  intros Hxy Hyz. destruct (f64_ltb_not_nan _ _ Hxy), (f64_ltb_not_nan _ _ Hyz).
  apply f64_ltb_key in Hxy, Hyz; [|done..]. apply f64_ltb_key; [done..|]. f64_order.
Qed.

Lemma f64_ltb_incomp x y z :
  not_nan x -> not_nan y -> not_nan z ->
  f64_ltb x y = false -> f64_ltb y z = false -> f64_ltb x z = false.
Proof.
  rewrite <- !not_true_iff_false. intros Hx Hy Hz. rewrite !f64_ltb_key by done. f64_order.
Qed.

(** Floats without NaN are strictly weakly ordered; the order does not separate [+0] from [-0]. *)
#[export] Instance f64_strict_weak : StrictWeak not_nan f64_ltb.
Proof.
  split; [intros; apply f64_ltb_irrefl | | by apply f64_ltb_incomp].
  intros x y z _ _ _. apply f64_ltb_trans.
Qed.

Lemma f64_eqb_refl x : not_nan x -> f64_eqb x x = true.
Proof. intros H. by apply f64_eqb_key. Qed.

Lemma key_trichotomy a b : a = b <-> ~ key_lt a b /\ ~ key_lt b a.
Proof.
  destruct a as [[a1 a2] a3], b as [[b1 b2] b3]. simpl. split; [intros [= -> -> ->]; lia|].
  intros H. assert (a1 = b1 /\ a2 = b2 /\ a3 = b3) as (-> & -> & ->) by lia. done.
Qed.

Lemma key_lt_trans a b c : key_lt a b -> key_lt b c -> key_lt a c.
Proof. destruct a as [[a1 a2] a3], b as [[b1 b2] b3], c as [[c1 c2] c3]. simpl. lia. Qed.

Lemma key_lt_irrefl a : ~ key_lt a a.
Proof. destruct a as [[a1 a2] a3]. simpl. lia. Qed.

Lemma key_not_lt a b : ~ key_lt a b <-> key_lt b a \/ a = b.
Proof.
  destruct a as [[a1 a2] a3], b as [[b1 b2] b3]. simpl. split.
  - intros H. destruct (decide ((a1, a2, a3) = (b1, b2, b3))) as [E|E]; [by right|left].
    assert (~ (a1 = b1 /\ a2 = b2 /\ a3 = b3)) by (intros (-> & -> & ->); done). lia.
  - intros [H|[= -> -> ->]]; lia.
Qed.

Lemma f64_eqb_ltb x y :
  not_nan x -> not_nan y -> f64_eqb x y = negb (f64_ltb x y) && negb (f64_ltb y x).
Proof.
  intros Hx Hy. apply eq_true_iff_eq.
  rewrite andb_true_iff, !negb_true_iff, <- !not_true_iff_false.
  rewrite f64_eqb_key, !f64_ltb_key by done. apply key_trichotomy.
Qed.

(** Antisymmetry, up to the value. *)
Lemma f64_leb_antisym x y : f64_leb x y = true -> f64_leb y x = true -> f64_eqb x y = true.
Proof.
  intros H1 H2. destruct (f64_leb_not_nan _ _ H1). apply f64_eqb_key; [done..|].
  apply f64_leb_key in H1, H2; [|done..]. by apply key_trichotomy.
Qed.

#[export] Hint Resolve pos_sign_not_nan f64_leb_refl f64_ltb_leb : gosidecar.

(** ** Signs *)

(** [x < 0] and [x > 0] by case. *)
Lemma f64_ltb_zero x : f64_ltb x f64_zero = match x with S754_infinity s | S754_finite s _ _ => s | _ => false end.
Proof. by destruct x as [[]|[]| |[] ? ?]. Qed.

Lemma f64_leb_zero x :
  f64_leb x f64_zero = match x with S754_zero _ => true | S754_infinity s | S754_finite s _ _ => s | S754_nan => false end.
Proof. by destruct x as [[]|[]| |[] ? ?]. Qed.

(** Rounding keeps the sign. *)
Lemma round_aux_nonneg m e l : f64_ltb (binary_round_aux 53 1024 false m e l) f64_zero = false.
Proof.
  unfold binary_round_aux. destruct (shr_fexp _ _ m e l) as [mrs' e'].
  destruct (shr_fexp _ _ _ _ _) as [mrs'' e'']. rewrite f64_ltb_zero.
  destruct (shr_m mrs''); [done| |done]. by destruct (_ <=? _).
Qed.

(** The quotient of a number that is not negative by one that is not below or equal to zero. *)
Lemma f64_div_nonneg x y :
  f64_ltb x f64_zero = false -> f64_leb y f64_zero = false -> f64_ltb (f64_div x y) f64_zero = false.
Proof.
  rewrite f64_ltb_zero, f64_leb_zero. intros Hx Hy. unfold f64_div, SFdiv.
  destruct x as [sx|sx| |sx mx ex], y as [sy|sy| |sy my ey]; try done;
    rewrite ?f64_ltb_zero; simpl in *; subst; try done.
  destruct (SFdiv_core_binary 53 1024 (Zpos mx) ex (Zpos my) ey) as [[mz ez] lz].
  rewrite <- f64_ltb_zero. apply round_aux_nonneg.
Qed.

(** ** Small integers are exact *)

Lemma digits2_bounds m : 2 ^ (Zpos (digits2_pos m) - 1) <= Zpos m < 2 ^ Zpos (digits2_pos m).
Proof.
  induction m as [m IH|m IH|]; [| |by vm_compute]; cbn [digits2_pos]; rewrite Pos2Z.inj_succ;
    replace (Z.succ (Zpos (digits2_pos m)) - 1) with (Z.succ (Zpos (digits2_pos m) - 1)) by lia;
    rewrite !Z.pow_succ_r by lia; rewrite ?(Pos2Z.inj_xI m), ?(Pos2Z.inj_xO m); lia.
Qed.

Lemma shifted_digits d m : Zpos (digits2_pos (Pos.iter xO m d)) = Zpos (digits2_pos m) + Zpos d /\ Zpos (Pos.iter xO m d) = Zpos m * 2 ^ Zpos d.
Proof.
  induction d as [|d IH] using Pos.peano_ind; [cbn; split; [lia|by rewrite Z.mul_comm]|].
  rewrite Pos.iter_succ. destruct IH as [H1 H2]. cbn [digits2_pos]. rewrite !Pos2Z.inj_succ, H1. split; [lia|].
  rewrite (Pos2Z.inj_xO (Pos.iter xO m d)), H2, Z.pow_succ_r by lia. lia.
Qed.

(** The float of an integer below 2^53 is that integer. *)
Lemma f64_of_small n : 0 < n < 2 ^ 53 -> exists m e, f64_of_Z n = S754_finite false m e /\ e <= 0 /\ Zpos m = n * 2 ^ (- e).
Proof.
  intros Hn. destruct n as [|p|p]; [lia| |lia]. unfold f64_of_Z, binary_normalize, binary_round.
  pose proof (digits2_bounds p) as Hd.
  assert (Hle : Zpos (digits2_pos p) <= 53).
  { destruct (Z.le_gt_cases (Zpos (digits2_pos p)) 53) as [|Hgt]; [done|]. exfalso.
    assert (2 ^ 53 <= 2 ^ (Zpos (digits2_pos p) - 1)) by (apply Z.pow_le_mono_r; lia). lia. }
  assert (Hal : exists m e, shl_align p 0 (fexp 53 1024 (Zpos (digits2_pos p) + 0)) = (m, e) /\ -52 <= e <= 0 /\
    Zpos m = Zpos p * 2 ^ (- e) /\ Zpos (digits2_pos m) = 53).
  { unfold shl_align, fexp, emin. rewrite Z.add_0_r, Z.sub_0_r, Z.max_l by lia.
    destruct (Zpos (digits2_pos p) - 53) as [|q|q] eqn:E; [exists p, 0; split_and!; [done|lia|lia|change (2 ^ (- 0)) with 1; lia|lia]|lia|].
    destruct (shifted_digits q p) as [H1 H2]. exists (Pos.iter xO p q), (Zneg q). split_and!; [done|lia|lia|exact H2|lia]. }
  destruct Hal as (m & e & -> & He & Hm & Hdig). exists m, e. split_and!; [|lia|done].
  unfold binary_round_aux, shr_fexp. cbn [Zdigits2]. rewrite Hdig.
  assert (Hs : fexp 53 1024 (53 + e) - e = 0) by (unfold fexp, emin; lia). rewrite Hs. cbn [shr shr_record_of_loc loc_of_shr_record shr_m].
  cbn [round_nearest_even Zdigits2]. rewrite Hdig, Hs. cbn [shr shr_record_of_loc shr_m].
  by rewrite (proj2 (Z.leb_le e _)) by lia.
Qed.

Lemma f64_small_exact n : 0 <= n < 2 ^ 53 -> f64_to_i64 (f64_of_Z n) = n /\ f64_is_finite (f64_of_Z n) = true.
Proof.
  intros Hn. destruct (decide (n = 0)) as [->|Hne]; [by vm_compute|].
  destruct (f64_of_small n) as (m & e & -> & He & Hm); [lia|]. split; [|done]. unfold f64_to_i64, f64_trunc.
  assert ((if 0 <=? e then Zpos m * 2 ^ e else Zpos m / 2 ^ (- e)) = n) as ->.
  { destruct (Z.leb_spec 0 e); [|].
    - replace e with 0 in * by lia. rewrite Hm. cbn. lia.
    - rewrite Hm. apply Z.div_mul. apply Z.pow_nonzero; lia. }
  by rewrite (proj2 (in_i64b_spec n)) by (unfold in_i64, i64_min, i64_max; lia).
Qed.
