(* ===== verification/GoTime.v ===== *)
(** * Durations and instants

    [time.Duration] is an int64 number of nanoseconds.  A [time.Time] is represented by the
    nanoseconds of its reading since the zero [Time]; [IsZero] is the test for [0].  The program
    only ever compares readings of one clock, so the distinction Go keeps between the wall and the
    monotonic part of a reading does not arise. *)

From Stdlib Require Import Floats.SpecFloat.
From stdpp Require Import base tactics numbers.
From S2P Require Import Prelude GoFloat.

Definition nanosecond : Z := 1.
Definition millisecond : Z := 1000000.
Definition second : Z := 1000000000.

(** [d.Seconds()]: whole seconds plus the remaining nanoseconds, both as floats. *)
Definition dur_seconds (d : Z) : f64 :=
  f64_add (f64_of_Z (Z.quot d second)) (f64_div (f64_of_Z (Z.rem d second)) (f64_of_Z second)).

(** [d.Milliseconds()] and [d.Microseconds()] truncate. *)
Definition dur_milliseconds (d : Z) : Z := Z.quot d millisecond.
Definition dur_microseconds (d : Z) : Z := Z.quot d 1000.

(** [time.Duration(s * float64(time.Second))]. *)
Definition dur_of_seconds (s : f64) : Z := f64_to_i64 (f64_mul s (f64_of_Z second)).

(** [float64(d.Microseconds()) / 1000.0]: milliseconds with microsecond resolution. *)
Definition dur_ms_float (d : Z) : f64 := f64_div (f64_of_Z (dur_microseconds d)) (f64_of_Z 1000).

Definition time_zero : Z := 0.
Definition time_is_zero (t : Z) : bool := t =? 0.

(** [t.Sub(u)] saturates at the ends of the int64 range. *)
Definition time_sub (t u : Z) : Z := Z.max i64_min (Z.min i64_max (t - u)).

Definition time_before (t u : Z) : bool := t <? u.
Definition time_after (t u : Z) : bool := u <? t.

Lemma time_sub_range t u : in_i64 (time_sub t u).
Proof. unfold time_sub, in_i64, i64_min, i64_max. lia. Qed.

Lemma time_sub_exact t u : in_i64 (t - u) -> time_sub t u = t - u.
Proof. unfold time_sub, in_i64, i64_min, i64_max. lia. Qed.

(** A saturated difference still compares correctly with a duration. *)
Lemma time_sub_gt t u d : in_i64 d -> d < i64_max -> (d <? time_sub t u) = (d <? t - u).
Proof.
  unfold time_sub, in_i64, i64_min, i64_max. intros H1 H2.
  destruct (Z.ltb_spec d (t - u)); [apply Z.ltb_lt | apply Z.ltb_ge]; lia.
Qed.
#[export] Hint Resolve time_sub_range : gosidecar.
