(* ===== verification/GoText.v ===== *)
(** * Text: the functions of [strings] and [bufio] the program parses with

    A Go string is a sequence of bytes.  White space is what [unicode.IsSpace] accepts, in its UTF-8
    encoding; no such encoding starts inside another rune, so scanning by bytes and by runes agree. *)

From Stdlib Require Import Strings.Ascii.
From stdpp Require Import base tactics numbers option list strings.
From S2P Require Import Prelude.

Definition bytes_of (l : list nat) : string := String.string_of_list_ascii (map ascii_of_nat l).

(** U+0085, U+00A0, U+1680, U+2000 to U+200A, U+2028, U+2029, U+202F, U+205F, U+3000. *)
Definition space_runes : list string :=
  map bytes_of
    ([[194; 133]; [194; 160]; [225; 154; 128]; [226; 128; 168]; [226; 128; 169]; [226; 128; 175];
      [226; 129; 159]; [227; 128; 128]] ++ map (fun n => [226; 128; (128 + n)%nat]) (seq 0 11))%nat.

(** Tab, line feed, vertical tab, form feed, carriage return, space. *)
Definition ascii_space (c : ascii) : bool :=
  let n := nat_of_ascii c in (bool_decide (9 <= n <= 13) || bool_decide (n = 32))%nat.

(** The number of bytes of the white space rune at the head, 0 when there is none. *)
Definition space_width (s : string) : nat :=
  match s with
  | EmptyString => 0
  | String c _ =>
      if ascii_space c then 1
      else match List.find (fun r => String.prefix r s) space_runes with
      | Some r => String.length r
      | None => 0
      end
  end.

(** [skip] bytes of a white space rune are still to be passed over. *)
Fixpoint trim_left (s : string) (skip : nat) : string :=
  match s with
  | EmptyString => EmptyString
  | String _ s' =>
      match skip with
      | S k => trim_left s' k
      | O => match space_width s with O => s | S k => trim_left s' k end
      end
  end.

Definition all_space (s : string) : bool := String.eqb (trim_left s 0) "".

Fixpoint trim_right (s : string) : string :=
  if all_space s then "" else match s with EmptyString => EmptyString | String c s => String c (trim_right s) end.

(** [strings.TrimSpace] *)
Definition TrimSpace (s : string) : string := trim_right (trim_left s 0).

(** [strings.Fields]; [cur] is the field being read. *)
Fixpoint fields_from (s : string) (skip : nat) (cur : string) : list string :=
  let flush := if String.eqb cur "" then [] else [cur] in
  match s with
  | EmptyString => flush
  | String c s' =>
      match skip with
      | S k => fields_from s' k cur
      | O => match space_width s with
             | O => fields_from s' 0 (cur +:+ String c "")%stdpp
             | S k => flush ++ fields_from s' k ""
             end
      end
  end.
Definition Fields (s : string) : list string := fields_from s 0 "".

(** [s[:i]] and [s[i:]] for the index of the first byte that satisfies [p]. *)
Fixpoint cut_at (p : ascii -> bool) (s : string) : option (string * string) :=
  match s with
  | EmptyString => None
  | String c s' =>
      if p c then Some ("", s)
      else match cut_at p s' with Some (a, b) => Some (String c a, b) | None => None end
  end.

(** [strings.HasPrefix] *)
Definition HasPrefix (s p : string) : bool := String.prefix p s.

(** [strings.Contains] *)
Fixpoint Contains (s sub : string) : bool :=
  String.prefix sub s || match s with EmptyString => false | String _ s => Contains s sub end.

(** [strings.Split] at a one-byte separator. *)
Fixpoint split_on (sep : ascii) (s : string) : list string :=
  match s with
  | EmptyString => [EmptyString]
  | String c s =>
      if Ascii.eqb c sep then EmptyString :: split_on sep s
      else match split_on sep s with
      | [] => [String c EmptyString]
      | w :: ws => String c w :: ws
      end
  end.

Definition lf : ascii := ascii_of_nat 10.
Definition cr : ascii := ascii_of_nat 13.

(** One carriage return at the end of a line is dropped. *)
Fixpoint drop_cr (s : string) : string :=
  match s with
  | EmptyString => EmptyString
  | String c EmptyString => if Ascii.eqb c cr then EmptyString else s
  | String c s => String c (drop_cr s)
  end.

Definition slength (s : string) : Z := Z.of_nat (String.length s).

(** [bufio.Scanner] with [ScanLines]: the segments between line feeds, the last one if it is not
    empty; the scan ends at the first segment that does not fit in the buffer. *)
Fixpoint scan_segments (max : Z) (segs : list string) : list string :=
  match segs with
  | [] => []
  | s :: segs =>
      if max <=? slength s then []
      else match segs with
      | [] => if String.eqb s "" then [] else [drop_cr s]
      | _ => drop_cr s :: scan_segments max segs
      end
  end.
Definition scan_lines (max : Z) (text : string) : list string := scan_segments max (split_on lf text).

Definition byte_at (c : ascii) : Z := Z.of_nat (nat_of_ascii c).

Definition is_digit (c : ascii) : bool := (48 <=? byte_at c) && (byte_at c <=? 57).
Fixpoint take_digits (s : string) : string * string :=
  match s with
  | String c s' => if is_digit c then let '(d, r) := take_digits s' in (String c d, r) else (EmptyString, s)
  | EmptyString => (EmptyString, s)
  end.

(** The text behind [lit] when [s] starts with it. *)
Fixpoint after (lit s : string) : option string :=
  match lit, s with
  | EmptyString, _ => Some s
  | String a lit, String b s => if Ascii.eqb a b then after lit s else None
  | _, EmptyString => None
  end.

(** The text behind the first occurrence of [sub]. *)
Fixpoint after_first (sub s : string) : option string :=
  match after sub s with
  | Some r => Some r
  | None => match s with EmptyString => None | String _ s => after_first sub s end
  end.

(** [strings.TrimRight] with a set of ASCII characters. *)
Fixpoint all_of (p : ascii -> bool) (s : string) : bool :=
  match s with EmptyString => true | String c s => p c && all_of p s end.
Fixpoint trim_right_of (p : ascii -> bool) (s : string) : string :=
  if all_of p s then "" else match s with EmptyString => EmptyString | String c s => String c (trim_right_of p s) end.

Definition lower_ascii (c : ascii) : ascii :=
  let n := nat_of_ascii c in if bool_decide (65 <= n <= 90)%nat then ascii_of_nat (n + 32) else c.

(** [strings.ToLower], as far as ASCII text is looked for in the result: besides the capital letters only
    the Kelvin sign and the dotted capital I have an ASCII lower case. *)
Fixpoint to_lower (s : string) (skip : nat) : string :=
  match s with
  | EmptyString => EmptyString
  | String c s' =>
      match skip with
      | S k => to_lower s' k
      | O =>
          if String.prefix (bytes_of [226; 132; 170]%nat) s then String "k" (to_lower s' 2)
          else if String.prefix (bytes_of [196; 176]%nat) s then String "i" (to_lower s' 1)
          else String (lower_ascii c) (to_lower s' 0)
      end
  end.
Definition ToLower (s : string) : string := to_lower s 0.

(** ** Facts *)

Lemma sapp_cons c s t : String.append (String c s) t = String c (String.append s t).
Proof. done. Qed.

(** Text without white space, on the bytes: no byte below is one. *)
Definition plain_byte (c : ascii) : bool :=
  let n := nat_of_ascii c in bool_decide (33 <= n <= 126)%nat.
Fixpoint all_bytes (p : ascii -> bool) (s : string) : bool :=
  match s with EmptyString => true | String c s => p c && all_bytes p s end.
Definition plain (s : string) : bool := all_bytes plain_byte s.

Lemma all_bytes_app p s t : all_bytes p (String.append s t) = all_bytes p s && all_bytes p t.
Proof. induction s as [|c s IH]; [done|]. rewrite sapp_cons. cbn [all_bytes]. by rewrite IH, andb_assoc. Qed.

Lemma all_bytes_impl (p q : ascii -> bool) s :
  (forall c, p c = true -> q c = true) -> all_bytes p s = true -> all_bytes q s = true.
Proof.
  intros H. induction s as [|c s IH]; [done|]. cbn. intros [H1 H2]%andb_true_iff. by rewrite H, IH.
Qed.

Lemma plain_byte_table : forallb (fun n => let c := ascii_of_nat n in
  if plain_byte c then negb (ascii_space c) &&
    forallb (fun r => match r with String d _ => negb (Ascii.eqb d c) | EmptyString => false end) space_runes
  else true) (seq 0 256) = true.
Proof. by vm_compute. Qed.

Lemma plain_width c s : plain_byte c = true -> space_width (String c s) = 0%nat.
Proof.
  intros Hc. pose proof plain_byte_table as H. rewrite forallb_forall in H.
  specialize (H (nat_of_ascii c)). rewrite in_seq, ascii_nat_embedding in H.
  pose proof (nat_ascii_bounded c). specialize (H ltac:(lia)). cbv zeta in H. rewrite Hc in H.
  apply andb_true_iff in H as [H1 H2]. unfold space_width. rewrite (proj1 (negb_true_iff _) H1).
  destruct (List.find _ space_runes) as [r|] eqn:E; [|done]. exfalso.
  apply List.find_some in E as [Hin Hp]. rewrite forallb_forall in H2. specialize (H2 r Hin).
  destruct r as [|d r]; [done|]. apply negb_true_iff in H2. simpl in Hp.
  destruct (Ascii.ascii_dec d c) as [->|]; [by rewrite Ascii.eqb_refl in H2|done].
Qed.

Lemma trim_left_plain s : plain s = true -> trim_left s 0 = s.
Proof.
  destruct s as [|c s]; [done|]. unfold plain. cbn [all_bytes trim_left]. intros [H _]%andb_true_iff.
  by rewrite plain_width.
Qed.

(** A string that starts with a plain byte is not white space. *)
Lemma all_space_plain c s : plain_byte c = true -> all_space (String c s) = false.
Proof. intros H. unfold all_space. cbn [trim_left]. by rewrite plain_width. Qed.

Lemma trim_right_plain s : plain s = true -> trim_right s = s.
Proof.
  unfold plain. induction s as [|c s IH]; [done|]. cbn [all_bytes]. intros [H1 H2]%andb_true_iff.
  cbn [trim_right]. rewrite all_space_plain by done. by rewrite IH.
Qed.

Lemma TrimSpace_plain s : plain s = true -> TrimSpace s = s.
Proof. intros H. unfold TrimSpace. by rewrite trim_left_plain, trim_right_plain. Qed.

(** Two plain words separated by a space, and what starts and ends plainly. *)
Lemma fields_plain s cur : plain s = true -> fields_from s 0 cur =
  (let w := String.append cur s in if String.eqb w "" then [] else [w]).
Proof.
  unfold plain. revert cur. induction s as [|c s IH]; intros cur; [by rewrite sapp_nil_r|].
  cbn [all_bytes]. intros [H1 H2]%andb_true_iff. cbn [fields_from]. rewrite plain_width, IH by done.
  cbv zeta. by rewrite <- sapp_assoc.
Qed.

Lemma Fields_plain s : plain s = true -> s <> ""%string -> Fields s = [s].
Proof.
  intros H Hne. unfold Fields. rewrite fields_plain by done. cbv zeta. change (String.append "" s) with s.
  by destruct (String.eqb_spec s "").
Qed.

Lemma split_on_app sep s rest : all_bytes (fun c => negb (Ascii.eqb c sep)) s = true ->
  split_on sep (s +:+ String sep rest)%stdpp = s :: split_on sep rest.
Proof.
  induction s as [|c s IH]; cbn [all_bytes].
  - intros _. change (String.append "" ?x) with x. cbn [split_on]. by rewrite Ascii.eqb_refl.
  - intros [Hc%negb_true_iff Hs]%andb_true_iff. rewrite sapp_cons. cbn [split_on]. by rewrite Hc, IH.
Qed.

Lemma take_digits_length s d r : take_digits s = (d, r) -> (String.length r + String.length d = String.length s)%nat.
Proof.
  revert d r. induction s as [|c s IH]; intros d r; [by intros [= <- <-]|]. cbn [take_digits].
  destruct (is_digit c); [|intros [= <- <-]; cbn; lia].
  destruct (take_digits s) as [d' r'] eqn:E. intros [= <- <-]. cbn. specialize (IH d' r' eq_refl). lia.
Qed.

Lemma after_length lit s r : after lit s = Some r -> (String.length r + String.length lit = String.length s)%nat.
Proof.
  revert s. induction lit as [|a lit IH]; intros s; [intros [= ->]; cbn; lia|].
  destruct s as [|b s]; [done|]. cbn [after]. destruct (Ascii.eqb a b); [|done].
  intros H%IH. cbn. lia.
Qed.

