(* ===== verification/GoStrconv.v ===== *)
(** * Numbers in text: what the program uses of [strconv] and [fmt]

    Decimal integers and floats, read and printed.  A conversion that returns an error is [None]: no
    caller uses the value that comes with an error. *)

From Stdlib Require Import Strings.Ascii Floats.SpecFloat.
From stdpp Require Import base tactics numbers option list strings.
From S2P Require Import Prelude GoFloat GoText.

Open Scope Z_scope.

(** ** Integers *)

Definition digit (n : Z) : ascii := ascii_of_nat (Z.to_nat (48 + n)).

(** 20 digits are enough for every 64-bit integer. *)
Fixpoint dec_digits (fuel : nat) (n : Z) (acc : string) : string :=
  match fuel with
  | O => acc
  | S fuel =>
      let acc := String (digit (n mod 10)) acc in
      if n <? 10 then acc else dec_digits fuel (n / 10) acc
  end.

(** [%d] *)
Definition itoa (z : Z) : string :=
  if z <? 0 then String "-" (dec_digits 20 (- z) "") else dec_digits 20 z "".

Fixpoint digits_val (s : string) (acc : Z) : option Z :=
  match s with
  | EmptyString => Some acc
  | String c s =>
      let d := Z.of_nat (nat_of_ascii c) - 48 in
      if (0 <=? d) && (d <=? 9) then digits_val s (10 * acc + d) else None
  end.

(** [strconv.Atoi]: an optional sign and at least one digit, within the range of [int]. *)
Definition atoi (s : string) : option Z :=
  let '(neg, ds) :=
    match s with
    | String c r => if Ascii.eqb c "-" then (true, r) else if Ascii.eqb c "+" then (false, r) else (false, s)
    | EmptyString => (false, s)
    end in
  match ds with
  | EmptyString => None
  | _ =>
      n ← digits_val ds 0;
      let v := if (neg : bool) then - n else n in
      if in_i64b v then Some v else None
  end.

(** [strconv.ParseUint(s, 10, 64)]: at least one digit, no sign. *)
Definition ParseUint (s : string) : option Z :=
  match s with
  | EmptyString => None
  | _ => n ← digits_val s 0; if n <? u64_mod then Some n else None
  end.

(** ** Floats with a fixed number of decimals *)

(** The nearest integer to a fraction, the even one when two are as near. *)
Definition round_even (num den : Z) : Z :=
  let q := num / den in
  match 2 * (num mod den) ?= den with
  | Lt => q
  | Gt => q + 1
  | Eq => if Z.even q then q else q + 1
  end.

(** [n / 10^p] in decimal; a float has at most 309 digits before the point. *)
Definition fixed_digits (p : nat) (n : Z) : string :=
  let unit := 10 ^ Z.of_nat p in
  let whole := dec_digits 320 (n / unit) "" in
  match p with
  | O => whole
  | _ => (whole +:+ "." +:+ String.substring 1 p (dec_digits 20 (unit + n mod unit) ""))%stdpp
  end.

(** [fmt]'s [%.pf] *)
Definition FormatFixed (p : nat) (x : f64) : string :=
  let signed s t := if (s : bool) then String "-" t else t in
  match x with
  | S754_nan => "NaN"
  | S754_infinity s => if s then "-Inf" else "+Inf"
  | S754_zero s => signed s (fixed_digits p 0)
  | S754_finite s m e => signed s (fixed_digits p (round_even (Z.pos m * 10 ^ Z.of_nat p * 2 ^ Z.max e 0) (2 ^ Z.max (- e) 0)))
  end.

(** [strconv.ParseBool] *)
Definition ParseBool (s : string) : option bool :=
  if bool_decide (s ∈ (["1"; "t"; "T"; "TRUE"; "true"; "True"] : list string)) then Some true
  else if bool_decide (s ∈ (["0"; "f"; "F"; "FALSE"; "false"; "False"] : list string)) then Some false
  else None.

(** [strconv.FormatBool] *)
Definition FormatBool (b : bool) : string := if b then "true" else "false".

(** ** Letters *)

(** [strings.EqualFold] with text whose letters no rune outside ASCII folds to. *)
Fixpoint map_bytes (f : ascii -> ascii) (s : string) : string :=
  match s with EmptyString => EmptyString | String c s => String (f c) (map_bytes f s) end.
Definition equal_fold (s t : string) : bool := String.eqb (map_bytes lower_ascii s) (map_bytes lower_ascii t).

(** ** Floats *)

(** The float nearest to [n / d], ties to even: the quotient to 65 bits or more, with one bit that
    says whether the rest is zero, is rounded once. *)
Definition f64_ratio (n d : Z) : f64 :=
  let k := Z.max 0 (Z.log2 d - Z.log2 n + 66) in
  let '(q, r) := Z.div_eucl (n * 2 ^ k) d in
  binary_normalize 53 1024 (2 * q + (if r =? 0 then 0 else 1)) (- k - 1) false.

(** [m * b^e] *)
Definition f64_scaled (m b e : Z) : f64 :=
  if m =? 0 then f64_zero else if 0 <=? e then f64_of_Z (m * b ^ e) else f64_ratio m (b ^ (- e)).

Definition digit_of (base : Z) (c : ascii) : option Z :=
  let n := Z.of_nat (nat_of_ascii (lower_ascii c)) in
  if (48 <=? n) && (n <=? 57) then Some (n - 48)
  else if (base =? 16) && (97 <=? n) && (n <=? 102) then Some (n - 87) else None.

(** The mantissa: its digits as a number, how many follow the point, whether there was a point, a
    digit, an underscore; and the rest of the text. *)
Fixpoint read_mantissa (base : Z) (s : string) (m frac : Z) (dot digits under : bool) :
    Z * Z * bool * bool * string :=
  match s with
  | EmptyString => (m, frac, digits, under, s)
  | String c s' =>
      if Ascii.eqb c "_" then read_mantissa base s' m frac dot digits true
      else if Ascii.eqb c "." then
        if dot then (m, frac, digits, under, s) else read_mantissa base s' m frac true digits under
      else match digit_of base c with
      | Some d => read_mantissa base s' (base * m + d) (if dot then frac + 1 else frac) dot true under
      | None => (m, frac, digits, under, s)
      end
  end.

(** The digits of an exponent, which stops growing at 10000. *)
Fixpoint read_exponent (s : string) (e : Z) (under : bool) : Z * bool * string :=
  match s with
  | EmptyString => (e, under, s)
  | String c s' =>
      if Ascii.eqb c "_" then read_exponent s' e true
      else match digit_of 10 c with
      | Some d => read_exponent s' (if e <? 10000 then 10 * e + d else e) under
      | None => (e, under, s)
      end
  end.

(** [underscoreOK]: underscores stand between digits, or between the base prefix and a digit. *)
Inductive seen := SeenStart | SeenDigit | SeenUnder | SeenOther.
Fixpoint underscore_from (hex : bool) (s : string) (saw : seen) : bool :=
  match s with
  | EmptyString => match saw with SeenUnder => false | _ => true end
  | String c s =>
      match digit_of (if hex then 16 else 10) c with
      | Some _ => underscore_from hex s SeenDigit
      | None =>
          if Ascii.eqb c "_" then match saw with SeenDigit => underscore_from hex s SeenUnder | _ => false end
          else match saw with SeenUnder => false | _ => underscore_from hex s SeenOther end
      end
  end.

(** The sign, and the text behind it. *)
Definition read_sign (s : string) : bool * string :=
  match s with
  | String c r => if Ascii.eqb c "-" then (true, r) else if Ascii.eqb c "+" then (false, r) else (false, s)
  | EmptyString => (false, s)
  end.

(** A prefix [0x] with something behind it. *)
Definition hex_prefix (s : string) : option string :=
  match s with
  | String "0" (String x (String c r)) => if Ascii.eqb (lower_ascii x) "x" then Some (String c r) else None
  | _ => None
  end.

(** [special]: infinities, with a sign or not, and NaN, without. *)
Definition special_float (s : string) : option f64 :=
  let '(neg, r) := read_sign s in
  if equal_fold r "inf" || equal_fold r "infinity" then Some (S754_infinity neg)
  else if equal_fold s "nan" then Some S754_nan else None.

(** [strconv.ParseFloat(s, 64)]; a value that rounds to an infinity is an error. *)
Definition ParseFloat (s : string) : option f64 :=
  match special_float s with
  | Some x => Some x
  | None =>
      let '(neg, s) := read_sign s in
      let '(base, body) := match hex_prefix s with Some r => (16, r) | None => (10, s) end in
      let '(m, frac, digits, under, rest) := read_mantissa base body 0 0 false false false in
      if negb (digits : bool) then None
      else
        exp ←
          match rest with
          | String c r =>
              if Ascii.eqb (lower_ascii c) (if base =? 16 then "p" else "e") then
                let '(eneg, r) := read_sign r in
                match r with
                | String d _ =>
                    match digit_of 10 d with
                    | Some _ => let '(e, u, rest) := read_exponent r 0 under in Some (if (eneg : bool) then - e else e, u, rest)
                    | None => None
                    end
                | EmptyString => None
                end
              else if base =? 16 then None else Some (0, under, rest)
          | EmptyString => if base =? 16 then None else Some (0, under, rest)
          end;
        let '(e, under, rest) := exp in
        if negb (String.eqb rest "") then None
        else if under && negb (underscore_from (base =? 16) body (if base =? 16 then SeenDigit else SeenStart)) then None
        else
          let x := if base =? 16 then f64_scaled m 2 (e - 4 * frac) else f64_scaled m 10 (e - frac) in
          if f64_is_inf x then None else Some (if (neg : bool) then SFopp x else x)
  end.

#[global] Arguments ParseFloat : simpl never.

(** [uint64(x)] on amd64: the conversion through [int64], and 2^63 for what fits neither. *)
Definition f64_to_u64 (x : f64) : Z :=
  match f64_trunc x with
  | Some z => if (i64_min <=? z) && (z <? u64_mod) then uwrap64 z else 2 ^ 63
  | None => 2 ^ 63
  end.
#[global] Arguments f64_to_u64 : simpl never.

Example pf1 : map ParseFloat ["0.1"; "1e3"; "-2.5E-1"; "0x1p-2"; "1_000"; "1__0"; "nan"; "-Inf"; "+NaN"; "1e400"; "."; ""; "5e-324"; "0x_1p0"; "12 "]%string =
 [Some (f64_lit 1 10); Some (f64_of_Z 1000); Some (f64_lit (-1) 4); Some (f64_lit 1 4); Some (f64_of_Z 1000); None; Some S754_nan; Some (S754_infinity true); None; None; None; None; Some (S754_finite false 1 (-1074)); Some f64_one; None].
Proof. by vm_compute. Qed.

Example fixed1 : map (FormatFixed 1) [f64_lit 1 4; f64_lit 3 4; f64_lit (-1) 25; f64_of_Z 1234567; f64_lit 1999 20; f64_zero] =
  ["0.2"; "0.8"; "-0.0"; "1234567.0"; "100.0"; "0.0"]%string.
Proof. by vm_compute. Qed.
Example fixed2 : map (fun p => FormatFixed p (f64_lit 5 2)) [0; 1; 3]%nat = ["2"; "2.5"; "2.500"]%string.
Proof. by vm_compute. Qed.
