(* ===== verification/GoHttp.v ===== *)
(** * Where [net/http] panics

    The program builds its requests with [req, _ := http.NewRequest(...)] and drops the error: when [net/url] does not
    parse the address, [req] is nil and its first use is a nil dereference.  Which texts [url.Parse] accepts is left
    open (the rules differ between Go releases): a development that mentions it holds for every choice. *)

From stdpp Require Import base tactics numbers option list strings.
From S2P Require Import Prelude GoText.
Open Scope go_scope.

(** The error of [url.Parse] is nil. *)
Class UrlParse := url_parses : string -> bool.

(** A request built with the error dropped: [None] is the panic of its first use. *)
Definition with_request `{!UrlParse} {A} (url : string) (use : A) : option A :=
  if url_parses url then Some use else None.

(** The paths of a base address. *)
Definition parses_at `{!UrlParse} (base : string) (paths : list string) : bool :=
  forallb (fun path => url_parses (base +:+ path)%stdpp) paths.

(** [WriteHeader] panics for a code that has not three digits. *)
Definition writable (status : Z) : bool := (100 <=? status) && (status <=? 999).

(** One of the checks of [url.Parse], as a concrete choice: no control byte. *)
Definition control_free : UrlParse := fun url =>
  forallb (fun c => let n := Ascii.nat_of_ascii c in (32 <=? n)%nat && negb (n =? 127)%nat) (String.list_ascii_of_string url).

Section requests.
  Context {url_parser : UrlParse}.

Lemma with_request_Some {A} url (use x : A) : with_request url use = Some x <-> url_parses url = true /\ use = x.
Proof. unfold with_request. destruct (url_parses url); split; [by intros [= ->]|by intros [_ ->]|done|by intros [? _]]. Qed.

Lemma with_request_None {A} url (use : A) : with_request url use = None <-> url_parses url = false.
Proof. unfold with_request. by destruct (url_parses url). Qed.

Lemma with_request_is_Some {A} url (use : A) : is_Some (with_request url use) <-> url_parses url = true.
Proof. unfold with_request. destruct (url_parses url); split; [done|by eexists|by intros [? ?]|done]. Qed.

Lemma parses_at_elem base paths path : parses_at base paths = true -> path ∈ paths -> url_parses (base +:+ path)%stdpp = true.
Proof. unfold parses_at. rewrite forallb_forall. intros Hf Hp. apply (Hf path). by apply list_elem_of_In. Qed.
End requests.
