(* ===== verification/Model.v ===== *)
(** * The normalized data contract ([internal/core/model.go])

    The records every other component exchanges.  Fields keep the source's names behind a short
    prefix per struct, because two structs may share a field name. *)

From Stdlib Require Import Floats.SpecFloat.
From stdpp Require Import base tactics numbers option list strings gmap.
From S2P Require Import Prelude GoFloat GoTime.

Inductive Vendor := VendorNVIDIA | VendorAMD | VendorUnknown.

Inductive LifecycleState :=
  | StateUnknown | StateReady | StateBusy | StateDegraded
  | StateDraining | StateOffline | StateRecovering.

#[export] Instance LifecycleState_eq_dec : EqDecision LifecycleState.
Proof. solve_decision. Defined.
#[export] Instance Vendor_eq_dec : EqDecision Vendor.
Proof. solve_decision. Defined.

Definition LifecycleState_eqb (a b : LifecycleState) : bool := bool_decide (a = b).

(** The strings the constants stand for on the wire. *)
Definition LifecycleState_string (s : LifecycleState) : string :=
  match s with
  | StateUnknown => "UNKNOWN"
  | StateReady => "READY"
  | StateBusy => "BUSY"
  | StateDegraded => "DEGRADED"
  | StateDraining => "DRAINING"
  | StateOffline => "OFFLINE"
  | StateRecovering => "RECOVERING"
  end.

(** A value that may be unsupported; the zero value accompanies [Supported = false]. *)
Record Field (T : Type) := mkField { Value : T; Supported : bool }.
Arguments mkField {T}. Arguments Value {T}. Arguments Supported {T}.

Definition Sup {T} (v : T) : Field T := mkField v true.
Definition Unsup {T} (zero : T) : Field T := mkField zero false.

Record Identity := {
  id_SidecarInstanceID : string;
  id_Hostname : string;
  id_BackendID : string;
  id_Vendor : Vendor;
  id_DeviceID : string;
  id_GPUModel : string;
  id_GPUUUID : string;
  id_DriverVersion : string;
  id_RuntimeVersion : string;
  id_BootID : string;
  id_SidecarVersion : string;
}.

(** [Class] is [""], ["hard"] or ["soft"]. *)
Inductive FailureClass := FailureNone | FailureHard | FailureSoft.

#[export] Instance FailureClass_eq_dec : EqDecision FailureClass.
Proof. solve_decision. Defined.

Record ProbeFailure := {
  pf_Class : FailureClass;
  pf_Reason : string;
  pf_Detail : string;
}.

Definition noProbeFailure : ProbeFailure :=
  {| pf_Class := FailureNone; pf_Reason := ""; pf_Detail := "" |}.

Record Health := {
  h_Timestamp : Z;
  h_HeartbeatOK : bool;
  h_GPUVisible : bool;
  h_GPUAccessible : bool;
  h_UtilizationGPU : Field f64;
  h_MemUsedBytes : Field Z;
  h_MemFreeBytes : Field Z;
  h_MemTotalBytes : Field Z;
  h_TemperatureC : Field f64;
  h_PowerWatts : Field f64;
  h_PowerLimitWatts : Field f64;
  h_SMClockMHz : Field f64;
  h_MemClockMHz : Field f64;
  h_ComputeProcs : Field Z;
  h_EffectiveFreeMemRatio : f64;
  h_ProbeLatencyMs : f64;
  h_ProbeFailure : ProbeFailure;
  h_ECCUncorrectable : Field Z;
  h_ECCCorrectable : Field Z;
  h_XIDErrors : Field (list Z);
  h_RASUncorrectable : Field Z;
  h_RASCorrectable : Field Z;
  h_UnsupportedFields : list string;
}.

Record Reliability := {
  rel_LastSuccessfulProbe : option Z;
  rel_LastFailedProbe : option Z;
  rel_ConsecutiveFailures : Z;
  rel_SidecarStartCount : Z;
  rel_WorkerStarts : Z;
  rel_WorkerStops : Z;
  rel_DisconnectCount : Z;
  rel_RejoinCount : Z;
  rel_LastRecoveryMs : f64;
  rel_RecentAvailability : f64;
  rel_RecentFailureRate : f64;
  rel_ProbeLatencyP50Ms : f64;
  rel_ProbeLatencyP95Ms : f64;
  rel_ThroughputVariance : Field f64;
}.

Definition zeroReliability : Reliability :=
  {| rel_LastSuccessfulProbe := None; rel_LastFailedProbe := None; rel_ConsecutiveFailures := 0;
     rel_SidecarStartCount := 0; rel_WorkerStarts := 0; rel_WorkerStops := 0;
     rel_DisconnectCount := 0; rel_RejoinCount := 0; rel_LastRecoveryMs := f64_zero;
     rel_RecentAvailability := f64_zero; rel_RecentFailureRate := f64_zero;
     rel_ProbeLatencyP50Ms := f64_zero; rel_ProbeLatencyP95Ms := f64_zero;
     rel_ThroughputVariance := Unsup f64_zero |}.

(** [Components] is a Go map from component names to contributions. *)
Record StabilityScore := {
  ss_Score : f64;
  ss_Components : gmap string f64;
  ss_UpdatedAt : Z;
}.

Record LifecycleInfo := {
  li_State : LifecycleState;
  li_ReasonCodes : list string;
  li_ConsecutiveSoftFailures : Z;
  li_OfflineFailureThreshold : Z;
  li_HealthyStreak : Z;
  li_RecoveryStreakRequired : Z;
  li_HardOffline : bool;
  li_RecoveryLatched : bool;
  li_RecoveryHealthyStreak : Z;
}.

(** [RuntimeServingCapacity] is always nil on a host sidecar. *)
Record CapacityHint := {
  ch_HostCapacityHint : f64;
  ch_CapacitySemantics : string;
  ch_Components : gmap string f64;
  ch_RuntimeServingCapacitySupported : bool;
}.

Record DeviceStatus := {
  ds_Identity : Identity;
  ds_Health : Health;
  ds_LifecycleState : LifecycleState;
  ds_Lifecycle : LifecycleInfo;
  ds_Reliability : Reliability;
  ds_Stability : StabilityScore;
  ds_Capacity : CapacityHint;
}.

(** [None] stands for the zero status of a device that has not been polled yet. *)
Record HostStatus := {
  hs_SidecarInstanceID : string;
  hs_Hostname : string;
  hs_Vendor : Vendor;
  hs_SidecarVersion : string;
  hs_BootID : string;
  hs_Timestamp : Z;
  hs_UptimeSeconds : f64;
  hs_Devices : list (option DeviceStatus);
}.

Inductive EventKind :=
  | EventStateTransition | EventProbeFailure | EventProbeRecovered | EventDisconnect
  | EventRejoin | EventErrorCounter | EventWorkerObserved | EventWorkerStarted
  | EventWorkerDisappeared | EventWorkerExitObserved | EventWorkerCrashConfirmed
  | EventWorkerOOMConfirmed | EventWorkerTerminationUnknown.

#[export] Instance EventKind_eq_dec : EqDecision EventKind.
Proof. solve_decision. Defined.

(** Values an event carries as evidence ([map[string]any]). *)
Inductive Evidence :=
  | EvBool (b : bool) | EvInt (z : Z) | EvFloat (x : f64) | EvString (s : string).

Record Event := {
  ev_Timestamp : Z;
  ev_DeviceID : string;
  ev_Kind : EventKind;
  ev_From : option LifecycleState;
  ev_To : option LifecycleState;
  ev_Detail : string;
  ev_Evidence : list (string * Evidence);
  ev_TerminationCause : string;
  ev_GroundTruthSource : string;
  ev_ReasonCodes : list string;
}.

Definition CauseUnknown : string := "unknown".

Record HistoryPoint := {
  hp_Timestamp : Z;
  hp_DeviceID : string;
  hp_LifecycleState : LifecycleState;
  hp_StabilityScore : f64;
  hp_UtilGPU : f64;
  hp_MemUsedBytes : Z;
  hp_TemperatureC : f64;
  hp_ProbeOK : bool;
  hp_ProbeLatencyMs : f64;
}.
