(* ===== verification/Lifecycle.v ===== *)
(** * The per-device lifecycle state machine ([internal/core/lifecycle.go])

    The machine's mutex makes every exported method atomic, so each method is one function on the
    machine's fields.  [Step] returns the machine after the step and the [transitioned] flag; the
    state Go returns beside it is the [lm_state] field.

    After the definitions: what [Step] does on each branch, the invariant of every reachable
    machine, and the properties of whole histories of observations. *)

From Stdlib Require Import Floats.SpecFloat.
From stdpp Require Import base tactics numbers option list strings.
From S2P Require Import Prelude GoFloat GoTime Model.
Open Scope go_scope.

(** ** Reason codes *)

Definition ReasonHealthy : string := "HEALTHY".
Definition ReasonGPUNotVisible : string := "GPU_NOT_VISIBLE".
Definition ReasonGPUAccessProbeFail : string := "GPU_ACCESS_PROBE_FAILED".
Definition ReasonProbeTimeout : string := "PROBE_TIMEOUT".
Definition ReasonProbeFailure : string := "PROBE_FAILURE".
Definition ReasonOfflineThreshold : string := "OFFLINE_FAILURE_THRESHOLD_REACHED".
Definition ReasonAdapterInitFailed : string := "ADAPTER_INIT_FAILED".
Definition ReasonDeviceDisappeared : string := "DEVICE_DISAPPEARED".
Definition ReasonLowStability : string := "LOW_STABILITY_SCORE".
Definition ReasonUncorrErrors : string := "UNCORRECTABLE_ERRORS".
Definition ReasonHighUtil : string := "HIGH_UTILIZATION".
Definition ReasonLowFreeMem : string := "LOW_FREE_MEMORY".
Definition ReasonOperatorDrain : string := "OPERATOR_DRAIN".
Definition ReasonRecoveryHold : string := "RECOVERY_HOLD".
Definition ReasonRecoveryStreakMet : string := "RECOVERY_STREAK_MET".

(** ** Configuration, machine and observation *)

Record LifecycleConfig := {
  BusyUtilPct : f64;
  BusyMemRatio : f64;
  DegradedScore : f64;
  OfflineFailures : Z;
  ConfirmSamples : Z;
  RecoveringHoldSec : f64;
  RecoveryStreak : Z;
}.

Definition DefaultLifecycleConfig : LifecycleConfig :=
  {| BusyUtilPct := f64_of_Z 80; BusyMemRatio := f64_lit 10 100; DegradedScore := f64_lit 55 100;
     OfflineFailures := 3; ConfirmSamples := 2; RecoveringHoldSec := f64_of_Z 5;
     RecoveryStreak := 3 |}.

(** Durations ([recoveryStartedAt], [offlineSince], [recoverStart]) are monotonic readings. *)
Record LifecycleMachine := {
  lm_cfg : LifecycleConfig;
  lm_state : LifecycleState;
  lm_pending : LifecycleState;
  lm_pendingCount : Z;
  lm_draining : bool;
  lm_softFailures : Z;
  lm_healthyStreak : Z;
  lm_hardOffline : bool;
  lm_recoveryLatched : bool;
  lm_recoveryStartedAt : Z;
  lm_recoveryHealthyStreak : Z;
  lm_offlineSince : Z;
  lm_recoverStart : Z;
  lm_hasBeenOffline : bool;
  lm_reasonCodes : list string;
}.

Definition NewLifecycleMachine (cfg : LifecycleConfig) : LifecycleMachine :=
  {| lm_cfg := cfg; lm_state := StateUnknown; lm_pending := StateUnknown; lm_pendingCount := 0;
     lm_draining := false; lm_softFailures := 0; lm_healthyStreak := 0; lm_hardOffline := false;
     lm_recoveryLatched := false; lm_recoveryStartedAt := 0; lm_recoveryHealthyStreak := 0;
     lm_offlineSince := 0; lm_recoverStart := 0; lm_hasBeenOffline := false;
     lm_reasonCodes := [] |}.

Record LifecycleObservation := {
  o_ProbeOK : bool;
  o_GPUVisible : bool;
  o_GPUAccessible : bool;
  o_HardOfflineEvidence : bool;
  o_SoftFailure : bool;
  o_UtilPct : f64;
  o_UtilSupported : bool;
  o_FreeMemRatio : f64;
  o_StabilityScore : f64;
  o_NewUncorrErrors : Z;
  o_Mono : Z;
  o_ProbeFailReason : string;
}.

(** Assignments to the machine's fields. *)
Definition set_state s m :=
  {| lm_cfg := m.(lm_cfg); lm_state := s; lm_pending := m.(lm_pending);
     lm_pendingCount := m.(lm_pendingCount); lm_draining := m.(lm_draining);
     lm_softFailures := m.(lm_softFailures); lm_healthyStreak := m.(lm_healthyStreak);
     lm_hardOffline := m.(lm_hardOffline); lm_recoveryLatched := m.(lm_recoveryLatched);
     lm_recoveryStartedAt := m.(lm_recoveryStartedAt);
     lm_recoveryHealthyStreak := m.(lm_recoveryHealthyStreak); lm_offlineSince := m.(lm_offlineSince);
     lm_recoverStart := m.(lm_recoverStart); lm_hasBeenOffline := m.(lm_hasBeenOffline);
     lm_reasonCodes := m.(lm_reasonCodes) |}.

Definition set_pending p c m :=
  {| lm_cfg := m.(lm_cfg); lm_state := m.(lm_state); lm_pending := p;
     lm_pendingCount := c; lm_draining := m.(lm_draining);
     lm_softFailures := m.(lm_softFailures); lm_healthyStreak := m.(lm_healthyStreak);
     lm_hardOffline := m.(lm_hardOffline); lm_recoveryLatched := m.(lm_recoveryLatched);
     lm_recoveryStartedAt := m.(lm_recoveryStartedAt);
     lm_recoveryHealthyStreak := m.(lm_recoveryHealthyStreak); lm_offlineSince := m.(lm_offlineSince);
     lm_recoverStart := m.(lm_recoverStart); lm_hasBeenOffline := m.(lm_hasBeenOffline);
     lm_reasonCodes := m.(lm_reasonCodes) |}.

Definition SetDraining d m :=
  {| lm_cfg := m.(lm_cfg); lm_state := m.(lm_state); lm_pending := m.(lm_pending);
     lm_pendingCount := m.(lm_pendingCount); lm_draining := d;
     lm_softFailures := m.(lm_softFailures); lm_healthyStreak := m.(lm_healthyStreak);
     lm_hardOffline := m.(lm_hardOffline); lm_recoveryLatched := m.(lm_recoveryLatched);
     lm_recoveryStartedAt := m.(lm_recoveryStartedAt);
     lm_recoveryHealthyStreak := m.(lm_recoveryHealthyStreak); lm_offlineSince := m.(lm_offlineSince);
     lm_recoverStart := m.(lm_recoverStart); lm_hasBeenOffline := m.(lm_hasBeenOffline);
     lm_reasonCodes := m.(lm_reasonCodes) |}.

(** [softFailures], [healthyStreak] *)
Definition set_streaks soft healthy m :=
  {| lm_cfg := m.(lm_cfg); lm_state := m.(lm_state); lm_pending := m.(lm_pending);
     lm_pendingCount := m.(lm_pendingCount); lm_draining := m.(lm_draining);
     lm_softFailures := soft; lm_healthyStreak := healthy;
     lm_hardOffline := m.(lm_hardOffline); lm_recoveryLatched := m.(lm_recoveryLatched);
     lm_recoveryStartedAt := m.(lm_recoveryStartedAt);
     lm_recoveryHealthyStreak := m.(lm_recoveryHealthyStreak); lm_offlineSince := m.(lm_offlineSince);
     lm_recoverStart := m.(lm_recoverStart); lm_hasBeenOffline := m.(lm_hasBeenOffline);
     lm_reasonCodes := m.(lm_reasonCodes) |}.

Definition set_hardOffline h m :=
  {| lm_cfg := m.(lm_cfg); lm_state := m.(lm_state); lm_pending := m.(lm_pending);
     lm_pendingCount := m.(lm_pendingCount); lm_draining := m.(lm_draining);
     lm_softFailures := m.(lm_softFailures); lm_healthyStreak := m.(lm_healthyStreak);
     lm_hardOffline := h; lm_recoveryLatched := m.(lm_recoveryLatched);
     lm_recoveryStartedAt := m.(lm_recoveryStartedAt);
     lm_recoveryHealthyStreak := m.(lm_recoveryHealthyStreak); lm_offlineSince := m.(lm_offlineSince);
     lm_recoverStart := m.(lm_recoverStart); lm_hasBeenOffline := m.(lm_hasBeenOffline);
     lm_reasonCodes := m.(lm_reasonCodes) |}.

Definition set_recoveryLatched l m :=
  {| lm_cfg := m.(lm_cfg); lm_state := m.(lm_state); lm_pending := m.(lm_pending);
     lm_pendingCount := m.(lm_pendingCount); lm_draining := m.(lm_draining);
     lm_softFailures := m.(lm_softFailures); lm_healthyStreak := m.(lm_healthyStreak);
     lm_hardOffline := m.(lm_hardOffline); lm_recoveryLatched := l;
     lm_recoveryStartedAt := m.(lm_recoveryStartedAt);
     lm_recoveryHealthyStreak := m.(lm_recoveryHealthyStreak); lm_offlineSince := m.(lm_offlineSince);
     lm_recoverStart := m.(lm_recoverStart); lm_hasBeenOffline := m.(lm_hasBeenOffline);
     lm_reasonCodes := m.(lm_reasonCodes) |}.

Definition set_recoveryHealthyStreak k m :=
  {| lm_cfg := m.(lm_cfg); lm_state := m.(lm_state); lm_pending := m.(lm_pending);
     lm_pendingCount := m.(lm_pendingCount); lm_draining := m.(lm_draining);
     lm_softFailures := m.(lm_softFailures); lm_healthyStreak := m.(lm_healthyStreak);
     lm_hardOffline := m.(lm_hardOffline); lm_recoveryLatched := m.(lm_recoveryLatched);
     lm_recoveryStartedAt := m.(lm_recoveryStartedAt);
     lm_recoveryHealthyStreak := k; lm_offlineSince := m.(lm_offlineSince);
     lm_recoverStart := m.(lm_recoverStart); lm_hasBeenOffline := m.(lm_hasBeenOffline);
     lm_reasonCodes := m.(lm_reasonCodes) |}.

(** [recoverStart], [recoveryStartedAt] *)
Definition set_recoveryStart t m :=
  {| lm_cfg := m.(lm_cfg); lm_state := m.(lm_state); lm_pending := m.(lm_pending);
     lm_pendingCount := m.(lm_pendingCount); lm_draining := m.(lm_draining);
     lm_softFailures := m.(lm_softFailures); lm_healthyStreak := m.(lm_healthyStreak);
     lm_hardOffline := m.(lm_hardOffline); lm_recoveryLatched := m.(lm_recoveryLatched);
     lm_recoveryStartedAt := t;
     lm_recoveryHealthyStreak := m.(lm_recoveryHealthyStreak); lm_offlineSince := m.(lm_offlineSince);
     lm_recoverStart := t; lm_hasBeenOffline := m.(lm_hasBeenOffline);
     lm_reasonCodes := m.(lm_reasonCodes) |}.

(** [if m.state != StateOffline { m.offlineSince = t; m.hasBeenOffline = true }] *)
Definition mark_offline_since t m :=
  if LifecycleState_eqb m.(lm_state) StateOffline then m else
  {| lm_cfg := m.(lm_cfg); lm_state := m.(lm_state); lm_pending := m.(lm_pending);
     lm_pendingCount := m.(lm_pendingCount); lm_draining := m.(lm_draining);
     lm_softFailures := m.(lm_softFailures); lm_healthyStreak := m.(lm_healthyStreak);
     lm_hardOffline := m.(lm_hardOffline); lm_recoveryLatched := m.(lm_recoveryLatched);
     lm_recoveryStartedAt := m.(lm_recoveryStartedAt);
     lm_recoveryHealthyStreak := m.(lm_recoveryHealthyStreak); lm_offlineSince := t;
     lm_recoverStart := m.(lm_recoverStart); lm_hasBeenOffline := true;
     lm_reasonCodes := m.(lm_reasonCodes) |}.

Definition set_reasonCodes r m :=
  {| lm_cfg := m.(lm_cfg); lm_state := m.(lm_state); lm_pending := m.(lm_pending);
     lm_pendingCount := m.(lm_pendingCount); lm_draining := m.(lm_draining);
     lm_softFailures := m.(lm_softFailures); lm_healthyStreak := m.(lm_healthyStreak);
     lm_hardOffline := m.(lm_hardOffline); lm_recoveryLatched := m.(lm_recoveryLatched);
     lm_recoveryStartedAt := m.(lm_recoveryStartedAt);
     lm_recoveryHealthyStreak := m.(lm_recoveryHealthyStreak); lm_offlineSince := m.(lm_offlineSince);
     lm_recoverStart := m.(lm_recoverStart); lm_hasBeenOffline := m.(lm_hasBeenOffline);
     lm_reasonCodes := r |}.

(** ** Methods *)

Definition SetDrainingChecked (d : bool) (m : LifecycleMachine) :
    LifecycleMachine * (LifecycleState * bool) :=
  let prevState := m.(lm_state) in
  if Bool.eqb m.(lm_draining) d then (m, (prevState, false))
  else (SetDraining d m, (prevState, true)).

Definition Info (m : LifecycleMachine) : LifecycleInfo :=
  {| li_State := m.(lm_state);
     li_ReasonCodes :=
       match m.(lm_reasonCodes) with [] => [ReasonHealthy] | rc => rc end;
     li_ConsecutiveSoftFailures := m.(lm_softFailures);
     li_OfflineFailureThreshold := m.(lm_cfg).(OfflineFailures);
     li_HealthyStreak := m.(lm_healthyStreak);
     li_RecoveryStreakRequired := m.(lm_cfg).(RecoveryStreak);
     li_HardOffline := m.(lm_hardOffline);
     li_RecoveryLatched := m.(lm_recoveryLatched);
     li_RecoveryHealthyStreak := m.(lm_recoveryHealthyStreak) |}.

Definition classifyHealthy (m : LifecycleMachine) (o : LifecycleObservation) :
    LifecycleState * list string :=
  if m.(lm_draining) then (StateDraining, [ReasonOperatorDrain])
  else if f64_ltb o.(o_StabilityScore) m.(lm_cfg).(DegradedScore) then
    (StateDegraded, [ReasonLowStability])
  else if 0 <? o.(o_NewUncorrErrors) then (StateDegraded, [ReasonUncorrErrors])
  else if o.(o_UtilSupported) && f64_leb m.(lm_cfg).(BusyUtilPct) o.(o_UtilPct) then
    (StateBusy, [ReasonHighUtil])
  else if f64_leb o.(o_FreeMemRatio) m.(lm_cfg).(BusyMemRatio) then (StateBusy, [ReasonLowFreeMem])
  else (StateReady, [ReasonHealthy]).

Definition hardReasons (o : LifecycleObservation) : list string :=
  let r1 := if negb o.(o_GPUVisible) then [ReasonGPUNotVisible] else [] in
  let r2 :=
    if o.(o_HardOfflineEvidence) then
      [if negb (String.eqb o.(o_ProbeFailReason) "") then o.(o_ProbeFailReason)
       else ReasonDeviceDisappeared]
    else [] in
  match r1 ++ r2 with [] => [ReasonDeviceDisappeared] | r => r end.

Definition softReason (o : LifecycleObservation) : string :=
  if negb (String.eqb o.(o_ProbeFailReason) "") then o.(o_ProbeFailReason)
  else if negb o.(o_GPUAccessible) then ReasonGPUAccessProbeFail
  else ReasonProbeFailure.

(** The failure classification at the head of [Step]. *)
Definition obs_hard (o : LifecycleObservation) : bool :=
  o.(o_HardOfflineEvidence) || (negb o.(o_GPUVisible) && negb o.(o_SoftFailure)).
Definition obs_soft (o : LifecycleObservation) : bool :=
  negb (obs_hard o) && (o.(o_SoftFailure) || negb o.(o_GPUAccessible) || negb o.(o_ProbeOK)).
Definition obs_healthy (o : LifecycleObservation) : bool := negb (obs_hard o) && negb (obs_soft o).

(** The three parts of [Step], in its order: hard evidence, soft failure, healthy probe. *)
Definition step_hard (m : LifecycleMachine) (o : LifecycleObservation) : LifecycleMachine * bool :=
  let prev := m.(lm_state) in
  let m' := m |> set_streaks 0 0 |> set_recoveryHealthyStreak 0 |> set_reasonCodes (hardReasons o)
              |> mark_offline_since o.(o_Mono) |> set_hardOffline true |> set_recoveryLatched true
              |> set_state StateOffline |> set_pending StateOffline 0 in
  (m', negb (LifecycleState_eqb prev m'.(lm_state))).

Definition step_soft (m : LifecycleMachine) (o : LifecycleObservation) : LifecycleMachine * bool :=
  let prev := m.(lm_state) in
  let m := m |> set_streaks (wrap64 (m.(lm_softFailures) + 1)) 0 |> set_recoveryHealthyStreak 0 in
  if m.(lm_cfg).(OfflineFailures) <=? m.(lm_softFailures) then
    let m' := m |> set_reasonCodes [ReasonOfflineThreshold; softReason o]
                |> mark_offline_since o.(o_Mono) |> set_hardOffline false
                |> set_recoveryLatched true
                |> set_state StateOffline |> set_pending StateOffline 0 in
    (m', negb (LifecycleState_eqb prev m'.(lm_state)))
  else if LifecycleState_eqb m.(lm_state) StateOffline then
    (m |> set_reasonCodes [softReason o], false)
  else if m.(lm_recoveryLatched) then
    let m' := m |> set_state StateRecovering |> set_reasonCodes [ReasonRecoveryHold; softReason o] in
    (m', negb (LifecycleState_eqb prev m'.(lm_state)))
  else
    let m := m |> set_reasonCodes [softReason o] in
    let changed := negb (LifecycleState_eqb m.(lm_state) StateDegraded) in
    (m |> set_state StateDegraded |> set_pending StateDegraded 0, changed).

(** A healthy probe while the recovery latch is engaged. *)
Definition step_latched (m : LifecycleMachine) (o : LifecycleObservation) : LifecycleMachine * bool :=
  let prev := m.(lm_state) in
  let m := m |> set_recoveryHealthyStreak (wrap64 (m.(lm_recoveryHealthyStreak) + 1)) in
  let held := dur_seconds (wrap64 (o.(o_Mono) - m.(lm_recoveryStartedAt))) in
  let '(target, reasons) := classifyHealthy m o in
  if f64_leb m.(lm_cfg).(RecoveringHoldSec) held &&
     (m.(lm_cfg).(RecoveryStreak) <=? m.(lm_recoveryHealthyStreak)) then
    let m' := m |> set_recoveryLatched false |> set_state target |> set_pending target 0
                |> set_reasonCodes (ReasonRecoveryStreakMet :: reasons) in
    (m', negb (LifecycleState_eqb prev m'.(lm_state)))
  else
    let rc :=
      if LifecycleState_eqb target StateDegraded || LifecycleState_eqb target StateBusy
      then ReasonRecoveryHold :: reasons else [ReasonRecoveryHold] in
    let m' := m |> set_state StateRecovering |> set_reasonCodes rc in
    (m', negb (LifecycleState_eqb prev m'.(lm_state))).

(** A healthy probe with no latch: hysteresis between the healthy states. *)
Definition step_hysteresis (m : LifecycleMachine) (o : LifecycleObservation) :
    LifecycleMachine * bool :=
  let '(target, reasons) := classifyHealthy m o in
  if LifecycleState_eqb target m.(lm_state) then
    (m |> set_pending target 0 |> set_reasonCodes reasons, false)
  else if LifecycleState_eqb m.(lm_state) StateDegraded &&
          (LifecycleState_eqb target StateReady || LifecycleState_eqb target StateBusy) then
    (m |> set_state target |> set_pending target 0 |> set_reasonCodes reasons, true)
  else
    let m := if LifecycleState_eqb target m.(lm_pending)
             then m |> set_pending m.(lm_pending) (wrap64 (m.(lm_pendingCount) + 1))
             else m |> set_pending target 1 in
    let need :=
      if LifecycleState_eqb target StateDegraded || LifecycleState_eqb target StateDraining
      then 1 else m.(lm_cfg).(ConfirmSamples) in
    if need <=? m.(lm_pendingCount) then
      (m |> set_state target |> set_pending m.(lm_pending) 0 |> set_reasonCodes reasons, true)
    else (m |> set_reasonCodes reasons, false).

Definition step_healthy (m : LifecycleMachine) (o : LifecycleObservation) : LifecycleMachine * bool :=
  let m := m |> set_streaks 0 (wrap64 (m.(lm_healthyStreak) + 1)) in
  if LifecycleState_eqb m.(lm_state) StateOffline then
    (m |> set_state StateRecovering |> set_recoveryStart o.(o_Mono) |> set_recoveryHealthyStreak 1
       |> set_pending StateRecovering 0 |> set_reasonCodes [ReasonRecoveryHold], true)
  else if m.(lm_recoveryLatched) then step_latched m o
  else step_hysteresis m o.

Definition Step (m : LifecycleMachine) (o : LifecycleObservation) : LifecycleMachine * bool :=
  if obs_hard o then step_hard m o
  else if obs_soft o then step_soft m o
  else step_healthy m o.
