(* ===== verification/LifecycleFacts.v ===== *)
(** * Properties of the lifecycle machine

    Histories are lists of operations on one machine ([Step] from the poll loop, [SetDraining] from
    the operator endpoint) in the order in which they took the machine's mutex. *)

From Stdlib Require Import Floats.SpecFloat.
From stdpp Require Import base tactics numbers option list strings.
From S2P Require Import Prelude GoFloat GoTime Model Lifecycle.

(** ** Histories *)

Inductive lc_op :=
  | OpStep (o : LifecycleObservation)
  | OpSetDraining (d : bool).

Definition lc_apply (m : LifecycleMachine) (op : lc_op) : LifecycleMachine :=
  match op with
  | OpStep o => fst (Step m o)
  | OpSetDraining d => fst (SetDrainingChecked d m)
  end.

Definition lc_run (m : LifecycleMachine) (ops : list lc_op) : LifecycleMachine :=
  fold_left lc_apply ops m.

(** The length of the run of observations satisfying [p] that ends the history. *)
Definition suffix_run (p : LifecycleObservation -> bool) (ops : list lc_op) : Z :=
  fold_left (fun k op => match op with
                         | OpStep o => if p o then k + 1 else 0
                         | OpSetDraining _ => k
                         end) ops 0.

Lemma lc_run_snoc m ops op : lc_run m (ops ++ [op]) = lc_apply (lc_run m ops) op.
Proof. unfold lc_run. by rewrite fold_left_app. Qed.

Lemma suffix_run_snoc p ops op :
  suffix_run p (ops ++ [op]) =
  match op with OpStep o => if p o then suffix_run p ops + 1 else 0 | OpSetDraining _ => suffix_run p ops end.
Proof. unfold suffix_run. by rewrite fold_left_app. Qed.

Lemma suffix_run_bounds p ops : 0 <= suffix_run p ops <= Z.of_nat (length ops).
Proof.
  induction ops as [|op ops IH] using rev_ind; [done|].
  rewrite suffix_run_snoc, length_app; simpl. destruct op as [o|d]; [destruct (p o)|]; lia.
Qed.

(** ** One step *)

Lemma LifecycleState_eqb_spec a b : LifecycleState_eqb a b = true <-> a = b.
Proof. unfold LifecycleState_eqb. apply bool_decide_eq_true. Qed.

Lemma LifecycleState_eqb_false a b : LifecycleState_eqb a b = false <-> a <> b.
Proof. unfold LifecycleState_eqb. apply bool_decide_eq_false. Qed.

Lemma LifecycleState_eqb_refl a : LifecycleState_eqb a a = true.
Proof. by apply LifecycleState_eqb_spec. Qed.

Ltac lc_state :=
  repeat match goal with
  | H : LifecycleState_eqb _ _ = true |- _ => apply LifecycleState_eqb_spec in H
  | H : LifecycleState_eqb _ _ = false |- _ => apply LifecycleState_eqb_false in H
  end.

(** Split [Step] into its branches. *)
Ltac lc_cases :=
  unfold step_hard, step_soft, step_healthy, step_latched, step_hysteresis, mark_offline_since in *;
  cbn -[wrap64 classifyHealthy hardReasons softReason LifecycleState_eqb dur_seconds f64_leb] in *;
  repeat match goal with
  | |- context [ let '(_, _) := ?c in _ ] => destruct c eqn:?
  | |- context [ if ?b then _ else _ ] => destruct b eqn:?
  end;
  cbn -[wrap64 classifyHealthy hardReasons softReason LifecycleState_eqb dur_seconds f64_leb] in *;
  go_bool; lc_state.

(** [classifyHealthy] only proposes serving states. *)
Definition serving (s : LifecycleState) : Prop :=
  s = StateReady \/ s = StateBusy \/ s = StateDegraded \/ s = StateDraining.

Lemma classifyHealthy_serving m o t r : classifyHealthy m o = (t, r) -> serving t /\ r <> [].
Proof. unfold classifyHealthy, serving. go_split; intros [= <- <-]; naive_solver. Qed.

Lemma serving_not_out s : serving s -> s <> StateOffline /\ s <> StateRecovering /\ s <> StateUnknown.
Proof. unfold serving. naive_solver. Qed.

(** Use what [classifyHealthy] returns in place of the call. *)
Ltac lc_classify :=
  repeat match goal with
  | H : classifyHealthy _ _ = _ |- _ =>
      let Hs := fresh "Hserv" in
      apply classifyHealthy_serving in H as [Hs _];
      pose proof (serving_not_out _ Hs) as (? & ? & ?)
  end.

Lemma Step_cfg m o : lm_cfg (fst (Step m o)) = lm_cfg m.
Proof. unfold Step. destruct (obs_hard o); [|destruct (obs_soft o)]; lc_cases; done. Qed.

Lemma lc_run_cfg m ops : lm_cfg (lc_run m ops) = lm_cfg m.
Proof.
  induction ops as [|op ops IH] using rev_ind; [done|].
  rewrite lc_run_snoc, <- IH. destruct op as [o|d]; simpl; [apply Step_cfg|].
  unfold SetDrainingChecked. by destruct (Bool.eqb _ _).
Qed.

Lemma Step_flag m o :
  snd (Step m o) = negb (LifecycleState_eqb (lm_state m) (lm_state (fst (Step m o)))).
Proof.
  unfold Step. destruct (obs_hard o); [|destruct (obs_soft o)]; lc_cases;
    repeat match goal with H : lm_state _ = _ |- _ => rewrite H in * end;
    rewrite ?LifecycleState_eqb_refl; try done.
  all: try (symmetry; apply negb_true_iff, LifecycleState_eqb_false; congruence).
Qed.

(** ** The invariant of reachable machines *)

Record lc_inv (m : LifecycleMachine) : Prop := {
  inv_latch : lm_recoveryLatched m = true <->
    lm_state m = StateOffline \/ lm_state m = StateRecovering;
  inv_been : lm_recoveryLatched m = true -> lm_hasBeenOffline m = true;
  inv_soft : in_i64 (lm_softFailures m);
  inv_streak : in_i64 (lm_recoveryHealthyStreak m);
  inv_pending : in_i64 (lm_pendingCount m);
}.

Lemma i64_small z : 0 <= z <= 1 -> in_i64 z.
Proof. unfold in_i64, i64_min, i64_max. lia. Qed.

Create HintDb lc.
#[export] Hint Resolve wrap64_range : lc.
#[export] Hint Extern 1 (in_i64 0) => apply i64_small; lia : lc.
#[export] Hint Extern 1 (in_i64 1) => apply i64_small; lia : lc.

Lemma lc_inv_new cfg : lc_inv (NewLifecycleMachine cfg).
Proof. split; simpl; auto with lc; naive_solver. Qed.

Lemma lc_inv_draining m d : lc_inv m -> lc_inv (fst (SetDrainingChecked d m)).
Proof. unfold SetDrainingChecked. destruct (Bool.eqb _ _); [done|]. by intros []; split. Qed.

Lemma lc_inv_Step m o : lc_inv m -> lc_inv (fst (Step m o)).
Proof.
  intros [Hl Hb Hs Hk Hp]. unfold Step.
  destruct (obs_hard o); [|destruct (obs_soft o)]; lc_cases.
  all: lc_classify; split; cbn -[wrap64]; auto with lc; try tauto; intuition congruence.
Qed.

Lemma lc_inv_run m ops : lc_inv m -> lc_inv (lc_run m ops).
Proof.
  intros Hm. induction ops as [|op ops IH] using rev_ind; [done|].
  rewrite lc_run_snoc. destruct op; simpl; [by apply lc_inv_Step | by apply lc_inv_draining].
Qed.
#[export] Hint Resolve lc_inv_new lc_inv_run : lc.

(** ** What a healthy step does to an OFFLINE or RECOVERING machine *)

Lemma Step_hard m o : obs_hard o = true ->
  lm_state (fst (Step m o)) = StateOffline /\ lm_hardOffline (fst (Step m o)) = true /\
  lm_softFailures (fst (Step m o)) = 0.
Proof. unfold Step. intros ->. lc_cases; done. Qed.

Lemma obs_healthy_split o : obs_healthy o = true <-> obs_hard o = false /\ obs_soft o = false.
Proof. unfold obs_healthy. rewrite andb_true_iff, !negb_true_iff. done. Qed.

Lemma obs_soft_not_hard o : obs_soft o = true -> obs_hard o = false.
Proof. unfold obs_soft. intros H. go_bool. done. Qed.

(** Leaving {OFFLINE, RECOVERING} takes a healthy probe on a RECOVERING machine that has met both
    the hold and the streak. *)
Lemma Step_release m o :
  lc_inv m -> lm_recoveryLatched m = true -> lm_recoveryLatched (fst (Step m o)) = false ->
  lm_state m = StateRecovering /\ obs_healthy o = true /\
  f64_leb (RecoveringHoldSec (lm_cfg m))
    (dur_seconds (wrap64 (o_Mono o - lm_recoveryStartedAt m))) = true /\
  RecoveryStreak (lm_cfg m) <= wrap64 (lm_recoveryHealthyStreak m + 1) /\
  serving (lm_state (fst (Step m o))).
Proof.
  intros [Hl _ _ _ _] Hm. rewrite obs_healthy_split. unfold Step.
  destruct (obs_hard o); [|destruct (obs_soft o)]; lc_cases; try congruence.
  intros _. lc_classify. split_and!; try done. naive_solver.
Qed.

(** While the latch holds, the start of the recovery and its streak evolve like this. *)
Lemma Step_recovering m o :
  lc_inv m -> lm_state (fst (Step m o)) = StateRecovering ->
  (lm_state m = StateOffline /\ obs_healthy o = true /\
     lm_recoveryStartedAt (fst (Step m o)) = o_Mono o /\
     lm_recoveryHealthyStreak (fst (Step m o)) = 1) \/
  (lm_state m = StateRecovering /\
     lm_recoveryStartedAt (fst (Step m o)) = lm_recoveryStartedAt m /\
     lm_recoveryHealthyStreak (fst (Step m o)) =
       if obs_healthy o then wrap64 (lm_recoveryHealthyStreak m + 1) else 0).
Proof.
  intros [Hl _ _ _ _]. unfold obs_healthy, Step.
  destruct (obs_hard o); [|destruct (obs_soft o)]; lc_cases; try done; lc_classify.
  all: intuition congruence.
Qed.

(** ** The history of a RECOVERING machine *)

(** [ops] reached RECOVERING through [e] after [a], and stayed there during [b]. *)
Definition recovering_since (cfg : LifecycleConfig) (a : list lc_op) (e : LifecycleObservation)
    (b : list lc_op) : Prop :=
  obs_healthy e = true /\
    lm_state (lc_run (NewLifecycleMachine cfg) a) = StateOffline /\
    forall b1, b1 `prefix_of` b ->
    lm_state (lc_run (NewLifecycleMachine cfg) (a ++ OpStep e :: b1)) = StateRecovering.

Lemma recovering_since_snoc cfg a e b op :
  recovering_since cfg a e b ->
  lm_state (lc_run (NewLifecycleMachine cfg) ((a ++ OpStep e :: b) ++ [op])) = StateRecovering ->
  recovering_since cfg a e (b ++ [op]).
Proof.
  intros (He & Ha & Hb) Hop. split_and!; [done..|].
  intros b1 [b2 Heq]. destruct b2 as [|x b2 _] using rev_ind.
  - rewrite app_nil_r in Heq. subst b1. by rewrite <- app_assoc in Hop.
  - rewrite app_assoc in Heq. apply app_inj_tail in Heq as [Heq _]. apply Hb. by exists b2.
Qed.

Lemma SetDrainingChecked_recovery d m :
  lm_state (fst (SetDrainingChecked d m)) = lm_state m /\
    lm_recoveryStartedAt (fst (SetDrainingChecked d m)) = lm_recoveryStartedAt m /\
    lm_recoveryHealthyStreak (fst (SetDrainingChecked d m)) = lm_recoveryHealthyStreak m /\
    lm_softFailures (fst (SetDrainingChecked d m)) = lm_softFailures m.
Proof. unfold SetDrainingChecked. by destruct (Bool.eqb _ _). Qed.

(** A RECOVERING machine got there by one healthy probe on an OFFLINE machine, has been RECOVERING
    ever since, and counts no more healthy probes than the history ends with. *)
Lemma recovering_history cfg ops :
  let m := lc_run (NewLifecycleMachine cfg) ops in
  lm_state m = StateRecovering ->
  exists a e b,
    ops = a ++ OpStep e :: b /\ recovering_since cfg a e b /\
    lm_recoveryStartedAt m = o_Mono e /\
    lm_recoveryHealthyStreak m <= suffix_run obs_healthy (OpStep e :: b).
Proof.
  induction ops as [|op ops IH] using rev_ind; [done|].
  intros m' Hr. pose proof Hr as Hr'. subst m'. rewrite lc_run_snoc in *.
  set (m := lc_run _ ops) in *.
  assert (Hinv : lc_inv m) by (apply lc_inv_run, lc_inv_new).
  assert (Hkeep : lm_state m = StateRecovering ->
    exists a e b, ops ++ [op] = a ++ OpStep e :: (b ++ [op]) /\ recovering_since cfg a e (b ++ [op]) /\
    lm_recoveryStartedAt m = o_Mono e /\
    lm_recoveryHealthyStreak m <= suffix_run obs_healthy (OpStep e :: b)).
  { intros Hm. destruct (IH Hm) as (a & e & b & Hops & Hb & Hs & Hk). exists a, e, b.
    split_and!; [by rewrite Hops, <- app_assoc | | done..].
    apply recovering_since_snoc; [done|]. by rewrite <- Hops, lc_run_snoc. }
  destruct op as [o|d]; simpl in *.
  - destruct (Step_recovering m o Hinv Hr) as [(Hoff & Hh & Hat & Hk)|(Hrec & Hat & Hk)].
    + exists ops, o, []. rewrite Hk. split_and!; [done| |done|].
      * split_and!; [done..|]. intros b1 [b2 Heq]. symmetry in Heq.
        apply app_eq_nil in Heq as [-> ->]. by rewrite lc_run_snoc.
      * unfold suffix_run. simpl. rewrite Hh. lia.
    + destruct (Hkeep Hrec) as (a & e & b & Hops & Hb & Hs & Hle).
      exists a, e, (b ++ [OpStep o]). split_and!; [done..|by rewrite Hat|].
      rewrite Hk, app_comm_cons, suffix_run_snoc. destruct (obs_healthy o); [|done].
      pose proof (inv_streak _ Hinv) as [? ?].
      pose proof (wrap64_le (lm_recoveryHealthyStreak m + 1)). lia.
  - destruct (SetDrainingChecked_recovery d m) as (Hst & -> & -> & _). rewrite Hst in Hr.
    destruct (Hkeep Hr) as (a & e & b & Hops & Hb & Hs & Hle).
    exists a, e, (b ++ [OpSetDraining d]). split_and!; [done..|].
    by rewrite app_comm_cons, suffix_run_snoc.
Qed.

(** ** The soft-failure counter *)

Lemma Step_soft_count m o :
  lm_softFailures (fst (Step m o)) =
    if obs_soft o then wrap64 (lm_softFailures m + 1) else 0.
Proof.
  unfold Step. destruct (obs_hard o) eqn:Hh.
  { replace (obs_soft o) with false by (unfold obs_soft; by rewrite Hh). lc_cases; done. }
  destruct (obs_soft o); lc_cases; done.
Qed.

Lemma soft_history cfg ops :
  Z.of_nat (length ops) <= i64_max ->
  lm_softFailures (lc_run (NewLifecycleMachine cfg) ops) = suffix_run obs_soft ops.
Proof.
  induction ops as [|op ops IH] using rev_ind; [done|].
  rewrite length_app, lc_run_snoc, suffix_run_snoc. cbn [length]. intros Hlen.
  pose proof (suffix_run_bounds obs_soft ops).
  destruct op as [o|d]; simpl.
  - rewrite Step_soft_count, IH by lia. destruct (obs_soft o); [|done].
    apply wrap64_succ. lia.
  - destruct (SetDrainingChecked_recovery d (lc_run (NewLifecycleMachine cfg) ops)) as (_ & _ & _ & ->).
    apply IH. lia.
Qed.

Lemma Step_not_hard_offline m o :
  obs_hard o = false -> lm_state m <> StateOffline ->
  lm_state (fst (Step m o)) = StateOffline <->
  obs_soft o = true /\ OfflineFailures (lm_cfg m) <= wrap64 (lm_softFailures m + 1).
Proof.
  intros Hh Hm. unfold Step. rewrite Hh. destruct (obs_soft o); lc_cases; lc_classify.
  all: try (intuition (congruence || lia)).
Qed.

(** ** Hysteresis *)

Lemma classifyHealthy_ext m m' o :
  lm_draining m = lm_draining m' -> lm_cfg m = lm_cfg m' -> classifyHealthy m o = classifyHealthy m' o.
Proof. unfold classifyHealthy. by intros -> ->. Qed.

(** A healthy probe of an unlatched machine that proposes READY or BUSY. *)
Lemma Step_propose m o t :
  lm_recoveryLatched m = false -> lm_state m <> StateOffline -> lm_state m <> StateDegraded ->
  obs_healthy o = true -> fst (classifyHealthy m o) = t -> t = StateReady \/ t = StateBusy ->
  t <> lm_state m ->
  let n := if LifecycleState_eqb t (lm_pending m) then wrap64 (lm_pendingCount m + 1) else 1 in
  let m' := fst (Step m o) in
  lm_recoveryLatched m' = false /\ lm_cfg m' = lm_cfg m /\ lm_draining m' = lm_draining m /\
    lm_pending m' = t /\
    (if ConfirmSamples (lm_cfg m) <=? n then lm_state m' = t
   else lm_state m' = lm_state m /\ lm_pendingCount m' = n).
Proof.
  intros Hl Hoff Hdeg Hh Ht Htt Hne. apply obs_healthy_split in Hh as [Hh Hs].
  unfold Step. rewrite Hh, Hs. unfold step_healthy, step_hysteresis. simpl. rewrite Hl.
  rewrite (proj2 (LifecycleState_eqb_false _ _) Hoff).
  rewrite (classifyHealthy_ext _ m) by done. destruct (classifyHealthy m o) as [t' r].
  simpl in Ht. subst t'. rewrite (proj2 (LifecycleState_eqb_false _ _) Hne), (proj2 (LifecycleState_eqb_false _ _) Hdeg).
  replace (LifecycleState_eqb t StateDegraded || LifecycleState_eqb t StateDraining) with false
    by (by destruct Htt as [-> | ->]).
  destruct (LifecycleState_eqb t (lm_pending m)) eqn:Hp; simpl; lc_state.
  - destruct (_ <=? _); simpl; by subst.
  - destruct (_ <=? _); simpl; done.
Qed.

Lemma hysteresis_pending m os t :
  lm_recoveryLatched m = false -> lm_state m <> StateOffline -> lm_state m <> StateDegraded ->
  t = StateReady \/ t = StateBusy -> t <> lm_state m -> lm_pending m <> t ->
  Z.of_nat (length os) < ConfirmSamples (lm_cfg m) <= i64_max ->
  Forall (fun o => obs_healthy o = true /\ fst (classifyHealthy m o) = t) os -> os <> [] ->
  let m' := lc_run m (map OpStep os) in
  lm_state m' = lm_state m /\ lm_pending m' = t /\ lm_pendingCount m' = Z.of_nat (length os) /\
    lm_recoveryLatched m' = false /\ lm_cfg m' = lm_cfg m /\ lm_draining m' = lm_draining m.
Proof.
  intros Hl Hoff Hdeg Htt Hne Hpend Hlen Hall Hnil.
  induction os as [|o os IH] using rev_ind; [done|]. clear Hnil.
  apply Forall_app in Hall as [Hall Ho]. apply Forall_singleton in Ho as [Hh Hc].
  rewrite length_app in *. cbn [length] in *. rewrite map_app. simpl. rewrite lc_run_snoc. simpl.
  set (m1 := lc_run m (map OpStep os)) in *.
  assert (H1 : lm_state m1 = lm_state m /\ lm_recoveryLatched m1 = false /\ lm_cfg m1 = lm_cfg m /\
    lm_draining m1 = lm_draining m /\
    (if LifecycleState_eqb t (lm_pending m1) then wrap64 (lm_pendingCount m1 + 1) else 1) = Z.of_nat (length os) + 1).
  { destruct os as [|o' os'].
    - subst m1. simpl. by rewrite (proj2 (LifecycleState_eqb_false t (lm_pending m))) by done.
    - destruct IH as (-> & -> & Hcnt & -> & -> & ->); [lia | done | done |].
      rewrite LifecycleState_eqb_refl, Hcnt. split_and!; [done..|]. apply wrap64_succ. simpl in *. lia. }
  destruct H1 as (Hst & Hl1 & Hcfg & Hdr & Hn).
  destruct (Step_propose m1 o t) as (? & -> & -> & -> & Hif); rewrite ?Hst; try done.
  { by rewrite (classifyHealthy_ext _ m). }
  rewrite Hn, Hcfg in Hif. rewrite (proj2 (Z.leb_gt _ _)) in Hif by lia.
  destruct Hif as [-> ->]. split_and!; try done. lia.
Qed.

(** ** Bringing a device back *)

(** During a run of healthy probes that starts with [e] on an OFFLINE machine, the machine either has
    been released or is RECOVERING since [e] and has counted every probe. *)
Lemma healthy_run m e os :
  lc_inv m -> lm_state m = StateOffline -> obs_healthy e = true ->
  Forall (fun o => obs_healthy o = true) os -> Z.of_nat (length os) < i64_max ->
  let m' := lc_run m (map OpStep (e :: os)) in
  lm_recoveryLatched m' = false \/
  (lm_state m' = StateRecovering /\ lm_recoveryStartedAt m' = o_Mono e /\
   lm_recoveryHealthyStreak m' = 1 + Z.of_nat (length os)).
Proof.
  intros Hinv Hoff He. induction os as [|o os IH] using rev_ind; intros Hall Hlen m'; subst m'.
  - right. simpl. apply obs_healthy_split in He as [Hh Hs].
    unfold Step. rewrite Hh, Hs. unfold step_healthy. simpl. by rewrite Hoff.
  - apply Forall_app in Hall as [Hall Ho]. rewrite Forall_singleton in Ho.
    rewrite length_app in Hlen. simpl in Hlen.
    rewrite app_comm_cons, map_app. cbn [map]. rewrite lc_run_snoc.
    specialize (IH Hall ltac:(lia)). cbn [map] in IH.
    set (m1 := lc_run m (OpStep e :: map OpStep os)) in *.
    assert (Hinv1 : lc_inv m1) by (by apply lc_inv_run). cbn [lc_apply].
    pose proof (lc_inv_Step m1 o Hinv1) as Hinv2.
    destruct (lm_recoveryLatched (fst (Step m1 o))) eqn:Hl; [right|by left].
    apply obs_healthy_split in Ho as Ho'. destruct Ho' as [Hh Hs].
    assert (Hrec : lm_state (fst (Step m1 o)) = StateRecovering).
    { apply (inv_latch _ Hinv2) in Hl as [Hl|]; [|done].
      exfalso. revert Hl. unfold Step. rewrite Hh, Hs. lc_cases; lc_classify; congruence. }
    assert (Hm1 : lm_state m1 = StateRecovering /\ lm_recoveryStartedAt m1 = o_Mono e /\
                  lm_recoveryHealthyStreak m1 = 1 + Z.of_nat (length os)).
    { destruct IH as [Hun|]; [|done]. exfalso. revert Hl. unfold Step. rewrite Hh, Hs.
      pose proof (inv_latch _ Hinv1). lc_cases; intuition congruence. }
    destruct Hm1 as (Hs1 & Ht1 & Hk1).
    destruct (Step_recovering m1 o Hinv1 Hrec) as [(? & _)|(_ & -> & ->)]; [congruence|].
    rewrite Ho, Ht1, Hk1, length_app. simpl. split_and!; [done..|].
    rewrite wrap64_id; [lia|]. unfold in_i64, i64_min, i64_max in *. lia.
Qed.

(** ** The properties *)

(** C20: leaving OFFLINE and RECOVERING takes both recovery requirements.  If a probe takes a device
    that is OFFLINE or RECOVERING to any other state, then the device became RECOVERING by a healthy
    probe [e] on an OFFLINE machine, was never OFFLINE since, the hold has elapsed since [e], the
    history since [e] ends with at least [RecoveryStreak] healthy probes (this one included), and the
    new state is a serving one. *)
Theorem recovery_gated cfg ops o :
  let m := lc_run (NewLifecycleMachine cfg) ops in
  let m' := fst (Step m o) in
  lm_state m = StateOffline \/ lm_state m = StateRecovering ->
  lm_state m' <> StateOffline -> lm_state m' <> StateRecovering ->
  exists a e b,
    ops = a ++ OpStep e :: b /\ recovering_since cfg a e b /\
    f64_leb (RecoveringHoldSec cfg) (dur_seconds (wrap64 (o_Mono o - o_Mono e))) = true /\
    RecoveryStreak cfg <= suffix_run obs_healthy (OpStep e :: b ++ [OpStep o]) /\
    obs_healthy o = true /\ serving (lm_state m').
Proof.
  intros m m' Hm Ho Hr. assert (Hinv : lc_inv m) by (apply lc_inv_run, lc_inv_new).
  assert (Hl' : lm_recoveryLatched m' = false).
  { destruct (lm_recoveryLatched m') eqn:E; [|done].
    apply (inv_latch _ (lc_inv_Step m o Hinv)) in E. by destruct E. }
  destruct (Step_release m o Hinv) as (Hrec & Hh & Hhold & Hk & Hs);
    [by apply (inv_latch _ Hinv) | done |].
  destruct (recovering_history cfg ops Hrec) as (a & e & b & Hops & Hb & Hat & Hle).
  exists a, e, b. fold m in Hat, Hle. subst m. rewrite lc_run_cfg in *. simpl in *.
  rewrite Hat in Hhold. split_and!; try done.
  rewrite app_comm_cons, suffix_run_snoc, Hh.
  pose proof (inv_streak _ Hinv) as [? ?].
  pose proof (wrap64_le (lm_recoveryHealthyStreak (lc_run (NewLifecycleMachine cfg) ops) + 1)). lia.
Qed.

(** C21: what puts a device OFFLINE.  A device that is not OFFLINE goes OFFLINE on exactly two kinds
    of probe: one with hard evidence, and a soft failure that makes the run of soft failures since
    the last other probe at least [OfflineFailures] long. *)
Theorem offline_entered_iff cfg ops o :
  Z.of_nat (length ops) < i64_max ->
  let m := lc_run (NewLifecycleMachine cfg) ops in
  lm_state m <> StateOffline ->
  lm_state (fst (Step m o)) = StateOffline <->
  obs_hard o = true \/
  obs_soft o = true /\ OfflineFailures cfg <= suffix_run obs_soft (ops ++ [OpStep o]).
Proof.
  intros Hlen m Hm. destruct (obs_hard o) eqn:Hh.
  - destruct (Step_hard m o Hh) as [-> _]. naive_solver.
  - rewrite Step_not_hard_offline by done. subst m.
    rewrite lc_run_cfg, soft_history, suffix_run_snoc by lia.
    pose proof (suffix_run_bounds obs_soft ops). rewrite wrap64_succ by lia.
    destruct (obs_soft o); simpl; split; intuition congruence.
Qed.

(** C37: recovery completes.  A reachable OFFLINE device whose probes are all healthy from [e] on is
    back in a serving state at the latest at the first probe [o] that comes [RecoveringHoldSec] after
    [e] and completes [RecoveryStreak] probes. *)
Theorem recovery_completes cfg ops e os o :
  let m := lc_run (NewLifecycleMachine cfg) ops in
  lm_state m = StateOffline ->
  obs_healthy e = true -> Forall (fun p => obs_healthy p = true) (os ++ [o]) ->
  RecoveryStreak cfg <= 2 + Z.of_nat (length os) < i64_max ->
  f64_leb (RecoveringHoldSec cfg) (dur_seconds (wrap64 (o_Mono o - o_Mono e))) = true ->
  let m' := lc_run m (map OpStep (e :: os ++ [o])) in
  lm_state m' <> StateOffline /\ lm_state m' <> StateRecovering /\ lm_recoveryLatched m' = false.
Proof.
  intros m Hoff He Hall Hk Hhold m'. apply Forall_app in Hall as [Hall Ho].
  rewrite Forall_singleton in Ho. assert (Hinv : lc_inv m) by (apply lc_inv_run, lc_inv_new).
  assert (Hinv' : lc_inv m') by (by apply lc_inv_run).
  enough (Hl : lm_recoveryLatched m' = false).
  { pose proof (inv_latch _ Hinv'). intuition congruence. }
  subst m'. rewrite app_comm_cons, map_app. cbn [map]. rewrite lc_run_snoc.
  pose proof (healthy_run m e os Hinv Hoff He Hall ltac:(lia)) as Hrun. cbn [map] in Hrun.
  assert (Hcfg : lm_cfg (lc_run m (OpStep e :: map OpStep os)) = cfg).
  { subst m. by rewrite !lc_run_cfg. }
  assert (Hinv1 : lc_inv (lc_run m (OpStep e :: map OpStep os))) by (by apply lc_inv_run).
  set (m1 := lc_run m (OpStep e :: map OpStep os)) in *.
  apply obs_healthy_split in Ho as [Hh Hs]. pose proof (inv_latch _ Hinv1) as Hlatch.
  cbn [lc_apply]. unfold Step. rewrite Hh, Hs. destruct Hrun as [Hun|(Hst & Hat & Hn)].
  - lc_cases; lc_classify; intuition congruence.
  - assert (Hlm : lm_recoveryLatched m1 = true) by tauto.
    unfold step_healthy, step_latched. simpl. rewrite Hst, Hlm. simpl. rewrite Hat, Hcfg, Hhold, Hn.
    rewrite wrap64_id by (unfold in_i64, i64_min, i64_max in *; lia).
    destruct (classifyHealthy _ _). rewrite (proj2 (Z.leb_le _ _)) by lia. done.
Qed.

(** The recovery latch is exactly the OFFLINE/RECOVERING part of the state, on every reachable
    machine; only a machine that has been OFFLINE is latched. *)
Theorem latch_reflects_state cfg ops :
  let m := lc_run (NewLifecycleMachine cfg) ops in
  (lm_recoveryLatched m = true <-> lm_state m = StateOffline \/ lm_state m = StateRecovering) /\
  (lm_recoveryLatched m = true -> lm_hasBeenOffline m = true) /\ lm_cfg m = cfg.
Proof.
  intros m. assert (H : lc_inv m) by (apply lc_inv_run, lc_inv_new).
  split_and!; [apply H..|]. subst m. by rewrite lc_run_cfg.
Qed.

(** The transition flag of [Step] is true exactly when the state changed, on every branch. *)
Theorem transition_reported m o :
  snd (Step m o) = true <-> lm_state (fst (Step m o)) <> lm_state m.
Proof.
  rewrite Step_flag, negb_true_iff, LifecycleState_eqb_false. split; by intros ? ?.
Qed.

(** Hysteresis between READY and BUSY.  While a machine that is neither latched nor DEGRADED sees
    healthy probes that all propose the same other state, it keeps its state until probe number
    [ConfirmSamples], and takes the proposed state there. *)
Theorem hysteresis_confirm m os o t :
  lm_recoveryLatched m = false -> lm_state m <> StateOffline -> lm_state m <> StateDegraded ->
  t = StateReady \/ t = StateBusy -> t <> lm_state m -> lm_pending m <> t ->
  Forall (fun p => obs_healthy p = true /\ fst (classifyHealthy m p) = t) (os ++ [o]) ->
  Z.of_nat (length os) + 1 = ConfirmSamples (lm_cfg m) -> ConfirmSamples (lm_cfg m) <= i64_max ->
  lm_state (lc_run m (map OpStep os)) = lm_state m /\
  lm_state (lc_run m (map OpStep (os ++ [o]))) = t.
Proof.
  intros Hl Hoff Hdeg Htt Hne Hpend Hall Hn Hmax.
  apply Forall_app in Hall as [Hall Ho]. apply Forall_singleton in Ho as [Hh Hc].
  rewrite map_app. cbn [map]. rewrite lc_run_snoc. cbn [lc_apply].
  set (m1 := lc_run m (map OpStep os)).
  assert (H1 : lm_state m1 = lm_state m /\ lm_recoveryLatched m1 = false /\ lm_cfg m1 = lm_cfg m /\
    lm_draining m1 = lm_draining m /\
    (if LifecycleState_eqb t (lm_pending m1) then wrap64 (lm_pendingCount m1 + 1) else 1) =
      Z.of_nat (length os) + 1).
  { destruct os as [|o' os'].
    - subst m1. simpl. by rewrite (proj2 (LifecycleState_eqb_false t (lm_pending m))) by done.
    - subst m1. destruct (hysteresis_pending m (o' :: os') t) as (-> & -> & Hcnt & -> & -> & ->); try done; [lia|].
      rewrite LifecycleState_eqb_refl, Hcnt. split_and!; [done..|]. apply wrap64_succ. lia. }
  destruct H1 as (Hst & Hl1 & Hcfg & Hdr & Hn1). split; [done|].
  destruct (Step_propose m1 o t) as (_ & _ & _ & _ & Hif); rewrite ?Hst; try done.
  { by rewrite (classifyHealthy_ext _ m). }
  rewrite Hn1, Hcfg, Hn, Z.leb_refl in Hif. done.
Qed.

(** ** Concrete histories *)

Definition obs_at (mono : Z) (ok visible hard soft : bool) (util : Z) : LifecycleObservation :=
  {| o_ProbeOK := ok; o_GPUVisible := visible; o_GPUAccessible := visible;
     o_HardOfflineEvidence := hard; o_SoftFailure := soft; o_UtilPct := f64_of_Z util;
     o_UtilSupported := true; o_FreeMemRatio := f64_lit 50 100; o_StabilityScore := f64_one;
     o_NewUncorrErrors := 0; o_Mono := mono; o_ProbeFailReason := "" |}.
Definition good_at (s : Z) : LifecycleObservation := obs_at (s * second) true true false false 10.
Definition lost_at (s : Z) : LifecycleObservation := obs_at (s * second) false false true false 0.
Definition slow_at (s : Z) : LifecycleObservation := obs_at (s * second) false true false true 0.
Definition busy_at (s : Z) : LifecycleObservation := obs_at (s * second) true true false false 95.

Definition lost_history : list lc_op :=
  [OpStep (good_at 0); OpStep (good_at 1); OpStep (lost_at 2); OpStep (good_at 3);
   OpStep (good_at 4)].

Lemma recovery_gated_witness :
  lm_state (fst (Step (lc_run (NewLifecycleMachine DefaultLifecycleConfig) lost_history) (good_at 9)))
    = StateReady /\
  exists a e b,
    lost_history = a ++ OpStep e :: b /\ recovering_since DefaultLifecycleConfig a e b /\
    f64_leb (RecoveringHoldSec DefaultLifecycleConfig)
      (dur_seconds (wrap64 (o_Mono (good_at 9) - o_Mono e))) = true /\
    3 <= suffix_run obs_healthy (OpStep e :: b ++ [OpStep (good_at 9)]) /\
    obs_healthy (good_at 9) = true /\ serving StateReady.
Proof.
  split; [by vm_compute|].
  apply (recovery_gated DefaultLifecycleConfig lost_history (good_at 9)); [right|..]; by vm_compute.
Defined.

Lemma offline_entered_iff_witness :
  lm_state (fst (Step (lc_run (NewLifecycleMachine DefaultLifecycleConfig)
    [OpStep (good_at 0); OpStep (slow_at 1); OpStep (slow_at 2)]) (slow_at 3))) = StateOffline /\
  lm_state (fst (Step (lc_run (NewLifecycleMachine DefaultLifecycleConfig)
    [OpStep (good_at 0); OpStep (slow_at 1)]) (slow_at 3))) <> StateOffline.
Proof.
  split; [|intros H].
  - apply offline_entered_iff; [by vm_compute | by vm_compute |]. right. by vm_compute.
  - apply offline_entered_iff in H; [| by vm_compute | by vm_compute].
    destruct H as [H|[_ H]]; [by vm_compute in H|]. vm_compute in H. by apply H.
Defined.

Lemma recovery_completes_witness :
  let m' := lc_run (lc_run (NewLifecycleMachine DefaultLifecycleConfig) [OpStep (lost_at 2)])
    (map OpStep (good_at 3 :: [good_at 5] ++ [good_at 8])) in
  lm_state m' <> StateOffline /\ lm_state m' <> StateRecovering /\ lm_recoveryLatched m' = false.
Proof.
  apply (recovery_completes DefaultLifecycleConfig [OpStep (lost_at 2)] (good_at 3) [good_at 5]
    (good_at 8)); [by vm_compute | by vm_compute | | by vm_compute | by vm_compute].
  constructor; [by vm_compute|]. constructor; [by vm_compute|]. constructor.
Defined.

Lemma hysteresis_confirm_witness :
  let m := lc_run (NewLifecycleMachine DefaultLifecycleConfig)
    [OpStep (good_at 0); OpStep (good_at 1)] in
  lm_state (lc_run m (map OpStep [busy_at 2])) = lm_state m /\
  lm_state (lc_run m (map OpStep ([busy_at 2] ++ [busy_at 3]))) = StateBusy.
Proof.
  apply hysteresis_confirm;
    [ by vm_compute | by vm_compute | by vm_compute | by right | by vm_compute | by vm_compute
    | | by vm_compute | by vm_compute ].
  constructor; [split; by vm_compute|]. constructor; [split; by vm_compute|]. constructor.
Defined.
