(* ===== verification/Ring.v ===== *)
(** * Fixed-capacity ring buffers ([ring[T]] of [internal/core/history.go])

    The buffer refines a list: after any sequence of pushes, [items] returns the last [cap] pushed
    values, oldest first. *)

From stdpp Require Import base tactics numbers option list.
From S2P Require Import Prelude.

Record ring (A : Type) := mkRing { r_buf : list A; r_head : Z; r_size : Z; r_cap : Z }.
Arguments mkRing {A}. Arguments r_buf {A}. Arguments r_head {A}. Arguments r_size {A}.
Arguments r_cap {A}.

(** [make] panics on a negative length; [zero] is the zero value of the element type. *)
Definition newRing {A} (zero : A) (capacity : Z) : option (ring A) :=
  if capacity <? 0 then None
  else Some (mkRing (replicate (Z.to_nat capacity) zero) 0 0 capacity).

Definition ring_push {A} (v : A) (r : ring A) : option (ring A) :=
  buf ← zset r.(r_buf) r.(r_head) v;
  head ← go_rem (r.(r_head) + 1) r.(r_cap);
  Some (mkRing buf head (if r.(r_size) <? r.(r_cap) then r.(r_size) + 1 else r.(r_size)) r.(r_cap)).

Definition ring_items {A} (r : ring A) : option (list A) :=
  start ← go_rem (r.(r_head) - r.(r_size) + r.(r_cap)) r.(r_cap);
  mapM (fun i => j ← go_rem (start + i) r.(r_cap); zget r.(r_buf) j) (seqZ 0 r.(r_size)).

(** [r] is a ring that has been pushed the values [l], oldest first: it has the last
    [min cap (length l)] of them, the [k]-th newest in the [k]-th slot before [head]. *)
Record ring_rep {A} (r : ring A) (l : list A) : Prop := {
  rr_cap : 0 < r_cap r;
  rr_len : Z.of_nat (length (r_buf r)) = r_cap r;
  rr_head : 0 <= r_head r < r_cap r;
  rr_size : r_size r = Z.min (r_cap r) (Z.of_nat (length l));
  rr_get k : (Z.of_nat k < r_size r) ->
    zget (r_buf r) ((r_head r - 1 - Z.of_nat k) `mod` r_cap r) = l !! (length l - 1 - k)%nat;
}.

(** What [items] returns. *)
Definition ring_view {A} (r : ring A) (l : list A) : list A := lastn (Z.to_nat (r_cap r)) l.

Section ring.
  Context {A : Type}.
  Implicit Types (r : ring A) (l : list A).

Lemma newRing_rep (zero : A) capacity :
  0 < capacity -> exists r, newRing zero capacity = Some r /\ ring_rep r [] /\ r_cap r = capacity.
Proof.
  intros H. unfold newRing. rewrite (proj2 (Z.ltb_ge _ _)) by lia. eexists; split; [done|].
  split; [|done]. split; simpl; try lia. rewrite length_replicate. lia.
Qed.

Lemma zget_insert l i j v :
  0 <= i < Z.of_nat (length l) -> 0 <= j ->
  zget (<[Z.to_nat i := v]> l) j = if j =? i then Some v else zget l j.
Proof.
  intros Hi Hj. unfold zget. rewrite (proj2 (Z.ltb_ge j 0)) by lia.
  destruct (Z.eqb_spec j i) as [->|Hne].
  - apply list_lookup_insert_eq. lia.
  - apply list_lookup_insert_ne. lia.
Qed.

(** Slots at different distances behind [head] are different. *)
Lemma slot_mod h c k : 0 <= h < c -> 0 <= k < c ->
  (h - k) `mod` c = if k <=? h then h - k else h - k + c.
Proof.
  intros Hh Hk. destruct (Z.leb_spec k h); [apply Z.mod_small; lia|].
  symmetry. apply (Z.mod_unique_pos _ _ (-1)); lia.
Qed.

Lemma ring_push_rep r l v :
  ring_rep r l ->
  exists r', ring_push v r = Some r' /\ ring_rep r' (l ++ [v]) /\ r_cap r' = r_cap r.
Proof.
  intros [Hc Hl Hh Hs Hg]. unfold ring_push.
  rewrite zset_Some by lia. simpl. rewrite go_rem_pos by lia. simpl.
  eexists; split; [done|]. split; [|done].
  assert (Hmod : (r_head r + 1) `mod` r_cap r = if r_head r + 1 =? r_cap r then 0 else r_head r + 1).
  { destruct (Z.eqb_spec (r_head r + 1) (r_cap r)) as [->|]; [apply Z.mod_same; lia|].
    apply Z.mod_small. lia. }
  split; simpl; rewrite ?length_insert, ?length_app; cbn [length]; try done.
  - rewrite Hmod. destruct (Z.eqb_spec (r_head r + 1) (r_cap r)); lia.
  - destruct (Z.ltb_spec (r_size r) (r_cap r)); lia.
  - intros k Hk. assert (Hkc : 0 <= Z.of_nat k < r_cap r).
    { destruct (Z.ltb_spec (r_size r) (r_cap r)); lia. }
    replace (((r_head r + 1) `mod` r_cap r - 1 - Z.of_nat k) `mod` r_cap r)
      with ((r_head r - Z.of_nat k) `mod` r_cap r)
      by (rewrite <- Z.sub_add_distr, Zminus_mod_idemp_l; f_equal; lia).
    pose proof (slot_mod (r_head r) (r_cap r) (Z.of_nat k) ltac:(lia) ltac:(lia)) as Hslot.
    rewrite zget_insert by (destruct (Z.leb_spec (Z.of_nat k) (r_head r)); lia).
    destruct (Z.eqb_spec ((r_head r - Z.of_nat k) `mod` r_cap r) (r_head r)) as [Heq|Hne];
      destruct k as [|k].
    + by rewrite lookup_app_r, Nat.sub_0_r, Nat.add_sub, Nat.sub_diag by lia.
    + exfalso. destruct (Z.leb_spec (Z.of_nat (S k)) (r_head r)); lia.
    + exfalso. destruct (Z.leb_spec (Z.of_nat 0) (r_head r)); lia.
    + assert (Hk' : Z.of_nat k < r_size r) by (destruct (Z.ltb_spec (r_size r) (r_cap r)); lia).
      rewrite lookup_app_l by lia.
      replace (length l + 1 - 1 - S k)%nat with (length l - 1 - k)%nat by lia.
      rewrite <- Hg by done. do 2 f_equal. lia.
Qed.

Lemma ring_items_rep r l : ring_rep r l -> ring_items r = Some (ring_view r l).
Proof.
  intros [Hc Hl Hh Hs Hg]. unfold ring_items.
  rewrite go_rem_pos by lia. simpl.
  apply mapM_Some. apply Forall2_same_length_lookup_2.
  { unfold ring_view. rewrite length_seqZ, length_lastn. lia. }
  intros i z x Hz Hx. apply lookup_seqZ in Hz as [-> Hi].
  unfold ring_view in Hx. rewrite lastn_lookup in Hx.
  rewrite go_rem_pos by (pose proof (Z.mod_pos_bound (r_head r - r_size r + r_cap r) (r_cap r)); lia).
  simpl. rewrite <- Hx.
  replace (length l - Z.to_nat (r_cap r) + i)%nat
    with (length l - 1 - (Z.to_nat (r_size r) - 1 - i))%nat by lia.
  rewrite <- Hg by lia. f_equal. rewrite Zplus_mod_idemp_l.
  rewrite <- (Z_mod_plus_full (r_head r - 1 - _) 1). f_equal. lia.
Qed.

(** The number of values [items] returns never exceeds the capacity. *)
Lemma length_ring_view r l : 0 < r_cap r -> Z.of_nat (length (ring_view r l)) <= r_cap r.
Proof. intros H. unfold ring_view. rewrite length_lastn. lia. Qed.

End ring.
