(* ===== verification/History.v ===== *)
(** * Per-device history and reliability accounting ([internal/core/history.go])

    [DeviceHistory]'s mutex makes each method atomic, so a method is a function on the record; it
    returns an option because indexing a ring or a percentile can panic in Go ([None]).  The
    functional specification [HistSpec] keeps the full lists of what was recorded, and
    [hist_rep] relates the bounded rings to them. *)

From Stdlib Require Import Floats.SpecFloat.
From stdpp Require Import base tactics numbers option list strings.
From S2P Require Import Prelude Ordering GoFloat GoTime Model Ring.
Open Scope go_scope.

(** ** Data *)

Record probeRec := {
  pr_mono : Z;
  pr_ok : bool;
  pr_latency : f64;
}.

Definition zero_probeRec : probeRec := {| pr_mono := 0; pr_ok := false; pr_latency := f64_zero |}.
Definition zero_point : HistoryPoint :=
  {| hp_Timestamp := 0; hp_DeviceID := ""; hp_LifecycleState := StateUnknown;
     hp_StabilityScore := f64_zero; hp_UtilGPU := f64_zero; hp_MemUsedBytes := 0;
     hp_TemperatureC := f64_zero; hp_ProbeOK := false; hp_ProbeLatencyMs := f64_zero |}.
Definition zero_event : Event :=
  {| ev_Timestamp := 0; ev_DeviceID := ""; ev_Kind := EventStateTransition; ev_From := None;
     ev_To := None; ev_Detail := ""; ev_Evidence := []; ev_TerminationCause := "";
     ev_GroundTruthSource := ""; ev_ReasonCodes := [] |}.

Record DeviceHistory := {
  dh_probes : ring probeRec;
  dh_points : ring HistoryPoint;
  dh_events : ring Event;
  dh_rel : Reliability;
  dh_lastUncorr : Z;
  dh_haveUncorr : bool;
  dh_disconnects : ring Z;
  dh_windowSec : f64;
}.

Definition NewDeviceHistory (probeCap pointCap eventCap : Z) (windowSec : f64) :
    option DeviceHistory :=
  probes ← newRing zero_probeRec probeCap;
  points ← newRing zero_point pointCap;
  events ← newRing zero_event eventCap;
  disconnects ← newRing 0 64;
  Some {| dh_probes := probes; dh_points := points; dh_events := events; dh_rel := zeroReliability;
          dh_lastUncorr := 0; dh_haveUncorr := false; dh_disconnects := disconnects;
          dh_windowSec := windowSec |}.

(** ** Assignments to groups of fields *)

Definition set_probes p d :=
  {| dh_probes := p; dh_points := d.(dh_points); dh_events := d.(dh_events); dh_rel := d.(dh_rel);
     dh_lastUncorr := d.(dh_lastUncorr); dh_haveUncorr := d.(dh_haveUncorr);
     dh_disconnects := d.(dh_disconnects); dh_windowSec := d.(dh_windowSec) |}.
Definition set_points p d :=
  {| dh_probes := d.(dh_probes); dh_points := p; dh_events := d.(dh_events); dh_rel := d.(dh_rel);
     dh_lastUncorr := d.(dh_lastUncorr); dh_haveUncorr := d.(dh_haveUncorr);
     dh_disconnects := d.(dh_disconnects); dh_windowSec := d.(dh_windowSec) |}.
Definition set_events e d :=
  {| dh_probes := d.(dh_probes); dh_points := d.(dh_points); dh_events := e; dh_rel := d.(dh_rel);
     dh_lastUncorr := d.(dh_lastUncorr); dh_haveUncorr := d.(dh_haveUncorr);
     dh_disconnects := d.(dh_disconnects); dh_windowSec := d.(dh_windowSec) |}.
Definition set_rel r d :=
  {| dh_probes := d.(dh_probes); dh_points := d.(dh_points); dh_events := d.(dh_events); dh_rel := r;
     dh_lastUncorr := d.(dh_lastUncorr); dh_haveUncorr := d.(dh_haveUncorr);
     dh_disconnects := d.(dh_disconnects); dh_windowSec := d.(dh_windowSec) |}.
Definition set_uncorr last have d :=
  {| dh_probes := d.(dh_probes); dh_points := d.(dh_points); dh_events := d.(dh_events);
     dh_rel := d.(dh_rel); dh_lastUncorr := last; dh_haveUncorr := have;
     dh_disconnects := d.(dh_disconnects); dh_windowSec := d.(dh_windowSec) |}.
Definition set_disconnects c d :=
  {| dh_probes := d.(dh_probes); dh_points := d.(dh_points); dh_events := d.(dh_events);
     dh_rel := d.(dh_rel); dh_lastUncorr := d.(dh_lastUncorr); dh_haveUncorr := d.(dh_haveUncorr);
     dh_disconnects := c; dh_windowSec := d.(dh_windowSec) |}.

(** Assignments to [Reliability]: the probe outcome, the window ratios, the percentiles, the
    counters, the throughput variance. *)
Definition rel_outcome ok fail consecutive r :=
  {| rel_LastSuccessfulProbe := ok; rel_LastFailedProbe := fail;
     rel_ConsecutiveFailures := consecutive; rel_SidecarStartCount := r.(rel_SidecarStartCount);
     rel_WorkerStarts := r.(rel_WorkerStarts); rel_WorkerStops := r.(rel_WorkerStops);
     rel_DisconnectCount := r.(rel_DisconnectCount); rel_RejoinCount := r.(rel_RejoinCount);
     rel_LastRecoveryMs := r.(rel_LastRecoveryMs);
     rel_RecentAvailability := r.(rel_RecentAvailability);
     rel_RecentFailureRate := r.(rel_RecentFailureRate);
     rel_ProbeLatencyP50Ms := r.(rel_ProbeLatencyP50Ms);
     rel_ProbeLatencyP95Ms := r.(rel_ProbeLatencyP95Ms);
     rel_ThroughputVariance := r.(rel_ThroughputVariance) |}.
Definition rel_window avail fail r :=
  {| rel_LastSuccessfulProbe := r.(rel_LastSuccessfulProbe);
     rel_LastFailedProbe := r.(rel_LastFailedProbe);
     rel_ConsecutiveFailures := r.(rel_ConsecutiveFailures);
     rel_SidecarStartCount := r.(rel_SidecarStartCount);
     rel_WorkerStarts := r.(rel_WorkerStarts); rel_WorkerStops := r.(rel_WorkerStops);
     rel_DisconnectCount := r.(rel_DisconnectCount); rel_RejoinCount := r.(rel_RejoinCount);
     rel_LastRecoveryMs := r.(rel_LastRecoveryMs);
     rel_RecentAvailability := avail; rel_RecentFailureRate := fail;
     rel_ProbeLatencyP50Ms := r.(rel_ProbeLatencyP50Ms);
     rel_ProbeLatencyP95Ms := r.(rel_ProbeLatencyP95Ms);
     rel_ThroughputVariance := r.(rel_ThroughputVariance) |}.
Definition rel_latency p50 p95 r :=
  {| rel_LastSuccessfulProbe := r.(rel_LastSuccessfulProbe);
     rel_LastFailedProbe := r.(rel_LastFailedProbe);
     rel_ConsecutiveFailures := r.(rel_ConsecutiveFailures);
     rel_SidecarStartCount := r.(rel_SidecarStartCount);
     rel_WorkerStarts := r.(rel_WorkerStarts); rel_WorkerStops := r.(rel_WorkerStops);
     rel_DisconnectCount := r.(rel_DisconnectCount); rel_RejoinCount := r.(rel_RejoinCount);
     rel_LastRecoveryMs := r.(rel_LastRecoveryMs);
     rel_RecentAvailability := r.(rel_RecentAvailability);
     rel_RecentFailureRate := r.(rel_RecentFailureRate);
     rel_ProbeLatencyP50Ms := p50; rel_ProbeLatencyP95Ms := p95;
     rel_ThroughputVariance := r.(rel_ThroughputVariance) |}.
Definition rel_counts sidecar starts stops disc rejoin recovery r :=
  {| rel_LastSuccessfulProbe := r.(rel_LastSuccessfulProbe);
     rel_LastFailedProbe := r.(rel_LastFailedProbe);
     rel_ConsecutiveFailures := r.(rel_ConsecutiveFailures);
     rel_SidecarStartCount := sidecar; rel_WorkerStarts := starts; rel_WorkerStops := stops;
     rel_DisconnectCount := disc; rel_RejoinCount := rejoin; rel_LastRecoveryMs := recovery;
     rel_RecentAvailability := r.(rel_RecentAvailability);
     rel_RecentFailureRate := r.(rel_RecentFailureRate);
     rel_ProbeLatencyP50Ms := r.(rel_ProbeLatencyP50Ms);
     rel_ProbeLatencyP95Ms := r.(rel_ProbeLatencyP95Ms);
     rel_ThroughputVariance := r.(rel_ThroughputVariance) |}.
Definition rel_variance v r :=
  {| rel_LastSuccessfulProbe := r.(rel_LastSuccessfulProbe);
     rel_LastFailedProbe := r.(rel_LastFailedProbe);
     rel_ConsecutiveFailures := r.(rel_ConsecutiveFailures);
     rel_SidecarStartCount := r.(rel_SidecarStartCount);
     rel_WorkerStarts := r.(rel_WorkerStarts); rel_WorkerStops := r.(rel_WorkerStops);
     rel_DisconnectCount := r.(rel_DisconnectCount); rel_RejoinCount := r.(rel_RejoinCount);
     rel_LastRecoveryMs := r.(rel_LastRecoveryMs);
     rel_RecentAvailability := r.(rel_RecentAvailability);
     rel_RecentFailureRate := r.(rel_RecentFailureRate);
     rel_ProbeLatencyP50Ms := r.(rel_ProbeLatencyP50Ms);
     rel_ProbeLatencyP95Ms := r.(rel_ProbeLatencyP95Ms);
     rel_ThroughputVariance := v |}.

(** ** Percentiles and the window *)

(** The order of [sort.Float64s]: NaNs first. *)
Definition float64s_less (a b : f64) : bool :=
  f64_ltb a b || (f64_is_nan a && negb (f64_is_nan b)).

Definition percentile (sorted : list f64) (p : f64) : option f64 :=
  let n := Z.of_nat (length sorted) in
  if n =? 0 then Some f64_zero
  else if n =? 1 then zget sorted 0
  else
    let rank := f64_mul (f64_div p (f64_of_Z 100)) (f64_of_Z (n - 1)) in
    let lo := f64_to_i64 rank in
    if n - 1 <=? lo then zget sorted (n - 1)
    else
      let frac := f64_sub rank (f64_of_Z lo) in
      a ← zget sorted lo;
      b ← zget sorted (lo + 1);
      Some (f64_add a (f64_mul frac (f64_sub b a))).

Definition window_cutoff (windowSec : f64) (now : Z) : Z :=
  wrap64 (now - dur_of_seconds windowSec).

(** The loop of [recomputeWindow] over the ring's records: [total], [okc], [lats]. *)
Definition window_scan (cutoff : Z) (items : list probeRec) : Z * Z * list f64 :=
  fold_left
    (fun '(total, okc, lats) p =>
       if p.(pr_mono) <? cutoff then (total, okc, lats)
       else if p.(pr_ok) then (total + 1, okc + 1, lats ++ [p.(pr_latency)])
       else (total + 1, okc, lats))
    items (0, 0, []).

Definition recomputeWindow (now : Z) (d : DeviceHistory) : option DeviceHistory :=
  items ← ring_items d.(dh_probes);
  let '(total, okc, lats) := window_scan (window_cutoff d.(dh_windowSec) now) items in
  let rel :=
    if 0 <? total then
      rel_window (f64_div (f64_of_Z okc) (f64_of_Z total))
        (f64_div (f64_of_Z (total - okc)) (f64_of_Z total)) d.(dh_rel)
    else d.(dh_rel) in
  match lats with
  | [] => Some (set_rel rel d)
  | _ =>
      let lats := sort_by float64s_less lats in
      p50 ← percentile lats (f64_of_Z 50);
      p95 ← percentile lats (f64_of_Z 95);
      Some (set_rel (rel_latency p50 p95 rel) d)
  end.

(** ** Methods *)

Definition RecordProbe (ok : bool) (latencyMs : f64) (mono wall : Z) (d : DeviceHistory) :
    option DeviceHistory :=
  probes ← ring_push {| pr_mono := mono; pr_ok := ok; pr_latency := latencyMs |} d.(dh_probes);
  let rel := d.(dh_rel) in
  let rel' :=
    if ok then rel_outcome (Some wall) rel.(rel_LastFailedProbe) 0 rel
    else rel_outcome rel.(rel_LastSuccessfulProbe) (Some wall)
           (wrap64 (rel.(rel_ConsecutiveFailures) + 1)) rel in
  recomputeWindow mono (d |> set_probes probes |> set_rel rel').

Definition ObserveUncorr (cur : Z) (supported : bool) (d : DeviceHistory) : DeviceHistory * Z :=
  if negb supported then (d, 0)
  else if negb d.(dh_haveUncorr) then (set_uncorr cur true d, 0)
  else
    let delta := if d.(dh_lastUncorr) <? cur then uwrap64 (cur - d.(dh_lastUncorr)) else 0 in
    (set_uncorr cur d.(dh_haveUncorr) d, delta).

Definition AddPoint (p : HistoryPoint) (d : DeviceHistory) : option DeviceHistory :=
  points ← ring_push p d.(dh_points); Some (set_points points d).
Definition AddEvent (e : Event) (d : DeviceHistory) : option DeviceHistory :=
  events ← ring_push e d.(dh_events); Some (set_events events d).
Definition Points (d : DeviceHistory) : option (list HistoryPoint) := ring_items d.(dh_points).
Definition Events (d : DeviceHistory) : option (list Event) := ring_items d.(dh_events).

(** The counters of [Reliability] the [Mark...] methods touch. *)
Definition MarkWorkerStart (d : DeviceHistory) : DeviceHistory :=
  let r := d.(dh_rel) in
  set_rel (rel_counts r.(rel_SidecarStartCount) (wrap64 (r.(rel_WorkerStarts) + 1))
             r.(rel_WorkerStops) r.(rel_DisconnectCount) r.(rel_RejoinCount)
             r.(rel_LastRecoveryMs) r) d.
Definition MarkWorkerStop (d : DeviceHistory) : DeviceHistory :=
  let r := d.(dh_rel) in
  set_rel (rel_counts r.(rel_SidecarStartCount) r.(rel_WorkerStarts)
             (wrap64 (r.(rel_WorkerStops) + 1)) r.(rel_DisconnectCount) r.(rel_RejoinCount)
             r.(rel_LastRecoveryMs) r) d.
Definition MarkSidecarStart (d : DeviceHistory) : DeviceHistory :=
  let r := d.(dh_rel) in
  set_rel (rel_counts (wrap64 (r.(rel_SidecarStartCount) + 1)) r.(rel_WorkerStarts)
             r.(rel_WorkerStops) r.(rel_DisconnectCount) r.(rel_RejoinCount)
             r.(rel_LastRecoveryMs) r) d.
Definition MarkDisconnect (mono : Z) (d : DeviceHistory) : option DeviceHistory :=
  let r := d.(dh_rel) in
  let rel := rel_counts r.(rel_SidecarStartCount) r.(rel_WorkerStarts) r.(rel_WorkerStops)
               (wrap64 (r.(rel_DisconnectCount) + 1)) r.(rel_RejoinCount)
               r.(rel_LastRecoveryMs) r in
  disconnects ← ring_push mono d.(dh_disconnects);
  Some (d |> set_rel rel |> set_disconnects disconnects).
Definition MarkRejoin (recoveryMs : f64) (d : DeviceHistory) : DeviceHistory :=
  let r := d.(dh_rel) in
  set_rel (rel_counts r.(rel_SidecarStartCount) r.(rel_WorkerStarts) r.(rel_WorkerStops)
             r.(rel_DisconnectCount) (wrap64 (r.(rel_RejoinCount) + 1)) recoveryMs r) d.

Definition DisconnectsInWindow (now : Z) (d : DeviceHistory) : option Z :=
  items ← ring_items d.(dh_disconnects);
  let cutoff := window_cutoff d.(dh_windowSec) now in
  Some (fold_left (fun c t => if cutoff <=? t then c + 1 else c) items 0).

Definition Snapshot (d : DeviceHistory) : Reliability := d.(dh_rel).

Definition SetThroughputVariance (cov : f64) (d : DeviceHistory) : DeviceHistory :=
  set_rel (rel_variance (Sup cov) d.(dh_rel)) d.
