(* ===== verification/HistoryFacts.v ===== *)
(** * Properties of the device history

    A history is specified by the list of operations performed on it; [hist_rep] says what the
    bounded record must then contain. *)

From Stdlib Require Import Floats.SpecFloat.
From stdpp Require Import base tactics numbers option list strings sorting.
From S2P Require Import Prelude Ordering GoFloat GoTime Model Ring History.
Open Scope go_scope.

(** ** Operations *)

Inductive hist_op :=
  | HRecordProbe (ok : bool) (latencyMs : f64) (mono wall : Z)
  | HObserveUncorr (cur : Z) (supported : bool)
  | HAddPoint (p : HistoryPoint)
  | HAddEvent (e : Event)
  | HWorkerStart | HWorkerStop | HSidecarStart
  | HDisconnect (mono : Z)
  | HRejoin (recoveryMs : f64)
  | HVariance (cov : f64).

Definition hist_apply (d : DeviceHistory) (op : hist_op) : option DeviceHistory :=
  match op with
  | HRecordProbe ok l mono wall => RecordProbe ok l mono wall d
  | HObserveUncorr cur sup => Some (fst (ObserveUncorr cur sup d))
  | HAddPoint p => AddPoint p d
  | HAddEvent e => AddEvent e d
  | HWorkerStart => Some (MarkWorkerStart d)
  | HWorkerStop => Some (MarkWorkerStop d)
  | HSidecarStart => Some (MarkSidecarStart d)
  | HDisconnect mono => MarkDisconnect mono d
  | HRejoin ms => Some (MarkRejoin ms d)
  | HVariance cov => Some (SetThroughputVariance cov d)
  end.

Definition hist_run (d : option DeviceHistory) (ops : list hist_op) : option DeviceHistory :=
  fold_left (fun d op => d ← d; hist_apply d op) ops d.

Lemma hist_run_snoc d ops op : hist_run d (ops ++ [op]) = (d' ← hist_run d ops; hist_apply d' op).
Proof. unfold hist_run. by rewrite fold_left_app. Qed.

(** ** What was recorded *)

Definition probes_of : list hist_op -> list probeRec := omap (fun op =>
  match op with
  | HRecordProbe ok l mono _ => Some {| pr_mono := mono; pr_ok := ok; pr_latency := l |}
  | _ => None
  end).
Definition points_of : list hist_op -> list HistoryPoint := omap (fun op =>
  match op with HAddPoint p => Some p | _ => None end).
Definition events_of : list hist_op -> list Event := omap (fun op =>
  match op with HAddEvent e => Some e | _ => None end).
Definition disconnects_of : list hist_op -> list Z := omap (fun op =>
  match op with HDisconnect mono => Some mono | _ => None end).
Definition rejoins_of : list hist_op -> list f64 := omap (fun op =>
  match op with HRejoin ms => Some ms | _ => None end).

(** The number of failed probes since the last successful one. *)
Definition trailing_failures (l : list probeRec) : Z :=
  fold_left (fun k p => if p.(pr_ok) then 0 else k + 1) l 0.

Record hist_rep (d : DeviceHistory) (ops : list hist_op) : Prop := {
  hr_probes : ring_rep (dh_probes d) (probes_of ops);
  hr_points : ring_rep (dh_points d) (points_of ops);
  hr_events : ring_rep (dh_events d) (events_of ops);
  hr_disconnects : ring_rep (dh_disconnects d) (disconnects_of ops);
  hr_consecutive : rel_ConsecutiveFailures (dh_rel d) = trailing_failures (probes_of ops);
  hr_disccount : rel_DisconnectCount (dh_rel d) = Z.of_nat (length (disconnects_of ops));
  hr_rejoins : rel_RejoinCount (dh_rel d) = Z.of_nat (length (rejoins_of ops));
}.

(** ** The window *)

Definition window_of (cutoff : Z) (items : list probeRec) : list probeRec :=
  List.filter (fun p => negb (p.(pr_mono) <? cutoff)) items.

Lemma window_scan_spec cutoff items :
  window_scan cutoff items =
  (Z.of_nat (length (window_of cutoff items)),
   Z.of_nat (countb pr_ok (window_of cutoff items)),
   map pr_latency (List.filter pr_ok (window_of cutoff items))).
Proof.
  unfold window_scan, window_of. induction items as [|p items IH] using rev_ind; [done|].
  rewrite fold_left_app, IH, !List.filter_app. simpl.
  destruct (pr_mono p <? cutoff); simpl; rewrite ?app_nil_r; [done|].
  rewrite countb_app, map_app, length_app. unfold countb. simpl.
  destruct (pr_ok p); simpl; rewrite ?app_nil_r; f_equal; [f_equal; lia | f_equal; lia].
Qed.

(** ** Percentiles never index out of range *)

(** The longest sample list for which the rank computation is checked. *)
Definition percentile_max : Z := 4096.

Definition rank_ok (p : f64) (n : Z) : bool :=
  0 <=? f64_to_i64 (f64_mul (f64_div p (f64_of_Z 100)) (f64_of_Z (n - 1))).

Lemma ranks_ok :
  forallb (fun n => rank_ok (f64_of_Z 50) n && rank_ok (f64_of_Z 95) n) (seqZ 2 percentile_max) = true.
Proof. by vm_compute. Qed.

Lemma percentile_Some l p :
  p = f64_of_Z 50 \/ p = f64_of_Z 95 -> Z.of_nat (length l) <= percentile_max ->
  exists v, percentile l p = Some v.
Proof.
  intros Hp Hlen. unfold percentile.
  destruct (Z.eqb_spec (Z.of_nat (length l)) 0); [by eexists|].
  destruct (Z.eqb_spec (Z.of_nat (length l)) 1); [apply zget_Some; lia|].
  pose proof ranks_ok as Hall. rewrite forallb_forall in Hall.
  specialize (Hall (Z.of_nat (length l))). rewrite andb_true_iff in Hall.
  destruct Hall as [H50 H95].
  { apply list_elem_of_In, elem_of_seqZ. unfold percentile_max in *. lia. }
  assert (Hr : rank_ok p (Z.of_nat (length l)) = true) by (by destruct Hp as [-> | ->]).
  unfold rank_ok in Hr. apply Z.leb_le in Hr.
  set (lo := f64_to_i64 _) in *. destruct (Z.leb_spec (Z.of_nat (length l) - 1) lo).
  { apply zget_Some. lia. }
  destruct (zget_Some l lo) as [a ->]; [lia|]. destruct (zget_Some l (lo + 1)) as [b ->]; [lia|].
  by eexists.
Qed.

(** [recomputeWindow] does not panic and changes nothing but the window statistics. *)
Lemma recomputeWindow_Some now d probes :
  ring_rep (dh_probes d) probes -> r_cap (dh_probes d) <= percentile_max ->
  let win := window_of (window_cutoff (dh_windowSec d) now) (ring_view (dh_probes d) probes) in
  exists d', recomputeWindow now d = Some d' /\
    dh_probes d' = dh_probes d /\ dh_points d' = dh_points d /\ dh_events d' = dh_events d /\
    dh_disconnects d' = dh_disconnects d /\ dh_windowSec d' = dh_windowSec d /\
    rel_ConsecutiveFailures (dh_rel d') = rel_ConsecutiveFailures (dh_rel d) /\
    rel_DisconnectCount (dh_rel d') = rel_DisconnectCount (dh_rel d) /\
    rel_RejoinCount (dh_rel d') = rel_RejoinCount (dh_rel d) /\
    (win <> [] ->
     rel_RecentAvailability (dh_rel d') =
       f64_div (f64_of_Z (Z.of_nat (countb pr_ok win))) (f64_of_Z (Z.of_nat (length win))) /\
     rel_RecentFailureRate (dh_rel d') =
       f64_div (f64_of_Z (Z.of_nat (length win) - Z.of_nat (countb pr_ok win)))
         (f64_of_Z (Z.of_nat (length win)))).
Proof.
  intros Hrep Hcap win. unfold recomputeWindow. rewrite (ring_items_rep _ _ Hrep). simpl.
  rewrite window_scan_spec. fold win.
  pose proof (length_ring_view (dh_probes d) probes (rr_cap _ _ Hrep)) as Hlen.
  assert (Hwin : (length win <= length (ring_view (dh_probes d) probes))%nat)
    by apply filter_length_le.
  assert (Hpos : win <> [] -> (0 <? Z.of_nat (length win)) = true).
  { intros Hne. apply Z.ltb_lt. destruct win; [done|]. simpl. lia. }
  destruct (map pr_latency (List.filter pr_ok win)) as [|x lats] eqn:Hlats.
  - eexists; split; [done|]. go_split; simpl; split_and!; try done.
    all: intros Hne; specialize (Hpos Hne); congruence.
  - assert (Hll : Z.of_nat (length (sort_by float64s_less (x :: lats))) <= percentile_max).
    { rewrite length_sort_by, <- Hlats, length_map.
      pose proof (filter_length_le pr_ok win). lia. }
    destruct (percentile_Some _ (f64_of_Z 50) ltac:(by left) Hll) as [p50 H50].
    destruct (percentile_Some _ (f64_of_Z 95) ltac:(by right) Hll) as [p95 H95].
    cbv beta iota zeta. rewrite H50, H95.
    eexists; split; [done|]. go_split; simpl; split_and!; try done.
    all: intros Hne; specialize (Hpos Hne); congruence.
Qed.

(** ** The refinement *)

Lemma hist_rep_new probeCap pointCap eventCap windowSec :
  0 < probeCap -> 0 < pointCap -> 0 < eventCap ->
  exists d, NewDeviceHistory probeCap pointCap eventCap windowSec = Some d /\ hist_rep d [] /\
    r_cap (dh_probes d) = probeCap /\ r_cap (dh_points d) = pointCap /\
    r_cap (dh_events d) = eventCap /\ r_cap (dh_disconnects d) = 64 /\ dh_windowSec d = windowSec.
Proof.
  intros H1 H2 H3. unfold NewDeviceHistory.
  destruct (newRing_rep zero_probeRec probeCap H1) as (a & -> & Ha & ?).
  destruct (newRing_rep zero_point pointCap H2) as (b & -> & Hb & ?).
  destruct (newRing_rep zero_event eventCap H3) as (c & -> & Hc & ?).
  destruct (newRing_rep 0 64 eq_refl) as (e & He & Hd & ?). rewrite He.
  eexists; split; [done|]. split_and!; try done.
Qed.

(** The fields an operation leaves alone. *)
Definition same_caps (d d' : DeviceHistory) : Prop :=
  r_cap (dh_probes d') = r_cap (dh_probes d) /\ r_cap (dh_points d') = r_cap (dh_points d) /\
  r_cap (dh_events d') = r_cap (dh_events d) /\
  r_cap (dh_disconnects d') = r_cap (dh_disconnects d) /\ dh_windowSec d' = dh_windowSec d.

Lemma length_omap_le {A B} (f : A -> option B) (l : list A) :
  (length (omap f l) <= length l)%nat.
Proof. induction l as [|x l IH]; [done|]. csimpl. destruct (f x); csimpl; lia. Qed.

Lemma trailing_failures_snoc l p :
  trailing_failures (l ++ [p]) = if pr_ok p then 0 else trailing_failures l + 1.
Proof. unfold trailing_failures. by rewrite fold_left_app. Qed.

Lemma trailing_failures_bound l : 0 <= trailing_failures l <= Z.of_nat (length l).
Proof.
  induction l as [|p l IH] using rev_ind; [done|].
  rewrite trailing_failures_snoc, length_app. simpl. destruct (pr_ok p); lia.
Qed.

Lemma RecordProbe_rep d ops ok l mono wall :
  hist_rep d ops -> r_cap (dh_probes d) <= percentile_max -> Z.of_nat (length ops) < i64_max ->
  exists d', RecordProbe ok l mono wall d = Some d' /\
    hist_rep d' (ops ++ [HRecordProbe ok l mono wall]) /\ same_caps d d'.
Proof.
  intros [Hp Hpt He Hd Hc Hdc Hr] Hcap Hlen. unfold RecordProbe.
  set (p := {| pr_mono := mono; pr_ok := ok; pr_latency := l |}).
  destruct (ring_push_rep _ _ p Hp) as (r' & -> & Hr' & Hcr). simpl.
  set (d1 := set_rel _ _).
  destruct (recomputeWindow_Some mono d1 (probes_of ops ++ [p])) as
    (d' & -> & Hd1 & Hd2 & Hd3 & Hd4 & Hd5 & Hc1 & Hc2 & Hc3 & _); [done | subst d1; simpl; lia |].
  exists d'. split; [done|]. split; [|by split_and!; rewrite ?Hd1, ?Hd2, ?Hd3, ?Hd4, ?Hd5].
  assert (Hprobes : probes_of (ops ++ [HRecordProbe ok l mono wall]) = probes_of ops ++ [p]).
  { unfold probes_of. by rewrite omap_app. }
  pose proof (trailing_failures_bound (probes_of ops)).
  pose proof (length_omap_le (fun op => match op with
    | HRecordProbe ok l mono _ => Some {| pr_mono := mono; pr_ok := ok; pr_latency := l |}
    | _ => None end) ops).
  split; rewrite ?Hprobes; unfold points_of, events_of, disconnects_of, rejoins_of in *;
    rewrite ?omap_app, ?length_app; simpl; rewrite ?app_nil_r, ?Nat.add_0_r.
  all: rewrite ?Hd1, ?Hd2, ?Hd3, ?Hd4, ?Hc1, ?Hc2, ?Hc3; subst d1; simpl; try done.
  - rewrite trailing_failures_snoc. simpl. destruct ok; [done|]. simpl. rewrite Hc.
    unfold probes_of in *. apply wrap64_succ. lia.
  - by destruct ok.
  - by destruct ok.
Qed.

(** Every operation succeeds and keeps the representation. *)
Lemma hist_apply_rep d ops op :
  hist_rep d ops -> r_cap (dh_probes d) <= percentile_max -> Z.of_nat (length ops) < i64_max ->
  exists d', hist_apply d op = Some d' /\ hist_rep d' (ops ++ [op]) /\ same_caps d d'.
Proof.
  intros Hrep Hcap Hlen. destruct op as [ok l mono wall|cur sup|p|e| | | |mono|ms|cov]; simpl.
  1: by apply RecordProbe_rep.
  all: destruct Hrep as [Hp Hpt He Hd Hc Hdc Hr].
  3: unfold AddEvent; destruct (ring_push_rep _ _ e He) as (r' & -> & Hr' & Hcr).
  2: unfold AddPoint; destruct (ring_push_rep _ _ p Hpt) as (r' & -> & Hr' & Hcr).
  7: unfold MarkDisconnect; destruct (ring_push_rep _ _ mono Hd) as (r' & -> & Hr' & Hcr).
  all: eexists; split; [done|].
  1: unfold ObserveUncorr; destruct sup; [destruct (dh_haveUncorr d)|].
  all: split; [|by split_and!].
  all: pose proof (length_omap_le (fun op => match op with HDisconnect mono => Some mono | _ => None end) ops).
  all: pose proof (length_omap_le (fun op => match op with HRejoin ms => Some ms | _ => None end) ops).
  all: split; unfold probes_of, points_of, events_of, disconnects_of, rejoins_of in *;
    rewrite ?omap_app, ?length_app; simpl; rewrite ?app_nil_r, ?Nat.add_0_r; try done.
  all: rewrite ?Hdc, ?Hr, ?wrap64_succ by lia; lia.
Qed.

Lemma hist_run_rep probeCap pointCap eventCap windowSec ops :
  0 < probeCap <= percentile_max -> 0 < pointCap -> 0 < eventCap ->
  Z.of_nat (length ops) <= i64_max ->
  exists d, hist_run (NewDeviceHistory probeCap pointCap eventCap windowSec) ops = Some d /\
    hist_rep d ops /\
    r_cap (dh_probes d) = probeCap /\ r_cap (dh_points d) = pointCap /\
    r_cap (dh_events d) = eventCap /\ r_cap (dh_disconnects d) = 64 /\ dh_windowSec d = windowSec.
Proof.
  intros H1 H2 H3. induction ops as [|op ops IH] using rev_ind; intros Hlen.
  - apply hist_rep_new; lia.
  - rewrite length_app in Hlen. simpl in Hlen.
    destruct IH as (d & Hrun & Hrep & Hc1 & Hc2 & Hc3 & Hc4 & Hc5); [lia|].
    rewrite hist_run_snoc, Hrun. simpl.
    destruct (hist_apply_rep d ops op Hrep) as (d' & -> & Hrep' & ?&?&?&?&?); [lia..|].
    exists d'. split_and!; try done; congruence.
Qed.

(** ** The properties *)

(** C24: the bounded history refines the list of what was recorded.  From a new history with positive
    capacities, no sequence of operations panics; [Points] and [Events] then return exactly the last
    [pointCap] points and [eventCap] events in order, the consecutive-failure counter is the number
    of failed probes since the last good one, and [DisconnectsInWindow] counts those of the last 64
    disconnects that lie in the window. *)
Theorem history_refines probeCap pointCap eventCap windowSec ops now :
  0 < probeCap <= percentile_max -> 0 < pointCap -> 0 < eventCap ->
  Z.of_nat (length ops) <= i64_max ->
  exists d, hist_run (NewDeviceHistory probeCap pointCap eventCap windowSec) ops = Some d /\
    Points d = Some (lastn (Z.to_nat pointCap) (points_of ops)) /\
    Events d = Some (lastn (Z.to_nat eventCap) (events_of ops)) /\
    rel_ConsecutiveFailures (Snapshot d) = trailing_failures (probes_of ops) /\
    rel_DisconnectCount (Snapshot d) = Z.of_nat (length (disconnects_of ops)) /\
    rel_RejoinCount (Snapshot d) = Z.of_nat (length (rejoins_of ops)) /\
    DisconnectsInWindow now d =
      Some (Z.of_nat (countb (Z.leb (window_cutoff windowSec now)) (lastn 64 (disconnects_of ops)))).
Proof.
  intros H1 H2 H3 Hlen.
  destruct (hist_run_rep probeCap pointCap eventCap windowSec ops) as
    (d & Hrun & [Hp Hpt He Hd Hc Hdc Hr] & Hc1 & Hc2 & Hc3 & Hc4 & Hc5); [done..|].
  exists d. unfold Points, Events, DisconnectsInWindow, Snapshot.
  rewrite (ring_items_rep _ _ Hpt), (ring_items_rep _ _ He), (ring_items_rep _ _ Hd).
  unfold ring_view. rewrite Hc2, Hc3, Hc4, Hc5. split_and!; try done.
  cbn [mbind option_bind]. f_equal. change (Z.to_nat 64) with 64%nat.
  generalize (lastn 64 (disconnects_of ops)). clear.
  intros l. induction l as [|t l IH] using rev_ind; [done|].
  rewrite fold_left_app, countb_app, IH. simpl. unfold countb. simpl.
  destruct (_ <=? t); simpl; lia.
Qed.

(** The availability of a device is the share of successful probes in its window.  Right after a
    probe is recorded, among the last [probeCap] probes those not older than the window give
    [RecentAvailability] as the quotient of the successful ones by all, and [RecentFailureRate] as
    the quotient of the others, whenever the window holds a probe, which it does if it has a
    non-negative length. *)
Theorem availability_of_window probeCap pointCap eventCap windowSec ops ok latency mono wall :
  0 < probeCap <= percentile_max -> 0 < pointCap -> 0 < eventCap ->
  Z.of_nat (length ops) < i64_max ->
  in_i64 (mono - dur_of_seconds windowSec) -> 0 <= dur_of_seconds windowSec ->
  exists d, hist_run (NewDeviceHistory probeCap pointCap eventCap windowSec)
              (ops ++ [HRecordProbe ok latency mono wall]) = Some d /\
    let win := window_of (window_cutoff windowSec mono)
      (lastn (Z.to_nat probeCap) (probes_of (ops ++ [HRecordProbe ok latency mono wall]))) in
    win <> [] /\
    rel_RecentAvailability (Snapshot d) =
      f64_div (f64_of_Z (Z.of_nat (countb pr_ok win))) (f64_of_Z (Z.of_nat (length win))) /\
    rel_RecentFailureRate (Snapshot d) =
      f64_div (f64_of_Z (Z.of_nat (countb (fun p => negb (pr_ok p)) win)))
        (f64_of_Z (Z.of_nat (length win))).
Proof.
  intros H1 H2 H3 Hlen Hcut Hpos.
  destruct (hist_run_rep probeCap pointCap eventCap windowSec ops) as
    (d & Hrun & Hrep & Hc1 & Hc2 & Hc3 & Hc4 & Hc5); [done..|lia|].
  rewrite hist_run_snoc, Hrun. cbn [mbind option_bind hist_apply]. unfold RecordProbe.
  set (p := {| pr_mono := mono; pr_ok := ok; pr_latency := latency |}).
  destruct (ring_push_rep _ _ p (hr_probes _ _ Hrep)) as (r' & -> & Hr' & Hcr). simpl.
  set (d1 := set_rel _ _).
  destruct (recomputeWindow_Some mono d1 (probes_of ops ++ [p])) as
    (d' & -> & _ & _ & _ & _ & _ & _ & _ & _ & Hwin); [done | subst d1; simpl; lia |].
  exists d'. split; [done|]. cbv zeta.
  replace (probes_of (ops ++ [_])) with (probes_of ops ++ [p]) by (unfold probes_of; by rewrite omap_app).
  unfold ring_view in Hwin. simpl in Hwin. rewrite Hcr, Hc1, Hc5 in Hwin.
  set (win := window_of _ _) in *.
  assert (Hne : win <> []).
  { intros Hnil. assert (Hin : p ∈ lastn (Z.to_nat probeCap) (probes_of ops ++ [p])).
    { destruct (Z.to_nat probeCap) eqn:E; [lia|]. rewrite lastn_snoc. apply elem_of_app. right. by left. }
    assert (Hp : p ∈ win).
    { subst win. unfold window_of. apply list_elem_of_In, filter_In.
      split; [by apply list_elem_of_In|]. apply negb_true_iff, Z.ltb_ge. unfold window_cutoff.
      rewrite wrap64_id by done. simpl. lia. }
    rewrite Hnil in Hp. by apply elem_of_nil in Hp. }
  unfold Snapshot. destruct (Hwin Hne) as [-> ->]. split_and!; try done. f_equal. f_equal.
  clear. induction win as [|q win IH]; [done|]. rewrite !countb_cons. simpl. destruct (pr_ok q); simpl; lia.
Qed.

(** The deltas a sequence of counter readings reports. *)
Fixpoint uncorr_deltas (d : DeviceHistory) (readings : list (Z * bool)) : list Z :=
  match readings with
  | [] => []
  | (cur, sup) :: rest => let '(d', delta) := ObserveUncorr cur sup d in delta :: uncorr_deltas d' rest
  end.

Lemma uncorr_deltas_from d prev rest :
  dh_haveUncorr d = true -> dh_lastUncorr d = prev -> in_u64 prev ->
  Forall (fun c => in_u64 c) rest -> StronglySorted Z.le (prev :: rest) ->
  foldr Z.add 0 (uncorr_deltas d (map (fun c => (c, true)) rest)) = List.last rest prev - prev.
Proof.
  revert d prev. induction rest as [|c rest IH]; intros d prev Hhave Hprev Hp Hall Hs; [simpl; lia|].
  apply Forall_cons in Hall as [Hc Hall].
  inversion Hs as [|? ? Hs' Hle]; subst. apply Forall_cons in Hle as [Hle _].
  cbn [map uncorr_deltas]. unfold ObserveUncorr. simpl. rewrite Hhave. simpl.
  rewrite (IH _ c); [ | done | done | done | done | done ].
  assert (Hlast : List.last rest c = match rest with [] => c | _ :: _ => List.last rest (dh_lastUncorr d) end).
  { destruct rest as [|x rest]; [done|]. clear. revert x. induction rest as [|y rest IH]; intros x; [done|].
    simpl in *. apply IH. }
  rewrite <- Hlast. unfold in_u64, u64_mod in *.
  destruct (Z.ltb_spec (dh_lastUncorr d) c); [rewrite uwrap64_id by (unfold in_u64, u64_mod; lia)|]; lia.
Qed.

(** Error deltas telescope.  For readings of an error counter that never goes down, the deltas
    reported from a new history add up to the last reading minus the first; the first reading itself
    counts for nothing. *)
Theorem uncorr_deltas_telescope probeCap pointCap eventCap windowSec d first rest :
  NewDeviceHistory probeCap pointCap eventCap windowSec = Some d ->
  Forall (fun c => in_u64 c) (first :: rest) -> StronglySorted Z.le (first :: rest) ->
  foldr Z.add 0 (uncorr_deltas d (map (fun c => (c, true)) (first :: rest))) =
    List.last rest first - first.
Proof.
  unfold NewDeviceHistory. intros Hd Hall Hs.
  repeat match type of Hd with context [ newRing ?a ?b ] => destruct (newRing a b); simplify_eq/= end.
  apply Forall_cons in Hall as [Hf Hall]. rewrite Z.add_0_l. by apply uncorr_deltas_from.
Qed.

(** ** Concrete histories *)

Definition sample_ops : list hist_op :=
  [HRecordProbe true (f64_of_Z 3) 1000000000 10; HDisconnect 1500000000;
   HRecordProbe false (f64_of_Z 9) 2000000000 20; HAddPoint zero_point;
   HRecordProbe true (f64_of_Z 4) 3000000000 30; HAddEvent zero_event; HDisconnect 3500000000].

Lemma history_refines_witness :
  exists d, hist_run (NewDeviceHistory 2 1 1 (f64_of_Z 2)) sample_ops = Some d /\
    Points d = Some [zero_point] /\ Events d = Some [zero_event] /\
    rel_ConsecutiveFailures (Snapshot d) = 0 /\ rel_DisconnectCount (Snapshot d) = 2 /\
    rel_RejoinCount (Snapshot d) = 0 /\
    DisconnectsInWindow 4000000000 d = Some 1.
Proof.
  apply (history_refines 2 1 1 (f64_of_Z 2) sample_ops 4000000000);
    unfold percentile_max, i64_max; simpl; lia.
Defined.

Lemma availability_of_window_witness :
  exists d, hist_run (NewDeviceHistory 3 1 1 (f64_of_Z 2))
              (sample_ops ++ [HRecordProbe false f64_one 4000000000 0]) = Some d /\
    [{| pr_mono := 2000000000; pr_ok := false; pr_latency := f64_of_Z 9 |};
     {| pr_mono := 3000000000; pr_ok := true; pr_latency := f64_of_Z 4 |};
     {| pr_mono := 4000000000; pr_ok := false; pr_latency := f64_one |}] <> [] /\
    rel_RecentAvailability (Snapshot d) = f64_div (f64_of_Z 1) (f64_of_Z 3) /\
    rel_RecentFailureRate (Snapshot d) = f64_div (f64_of_Z 2) (f64_of_Z 3).
Proof.
  apply (availability_of_window 3 1 1 (f64_of_Z 2) sample_ops false f64_one 4000000000 0);
    unfold percentile_max, i64_max, in_i64, i64_min; simpl; try lia; by vm_compute.
Defined.

Lemma uncorr_deltas_telescope_witness :
  exists d, NewDeviceHistory 1 1 1 f64_one = Some d /\
    foldr Z.add 0 (uncorr_deltas d (map (fun c => (c, true)) [5; 5; 7; 12])) = 7.
Proof.
  destruct (NewDeviceHistory 1 1 1 f64_one) as [d|] eqn:E; [|by vm_compute in E].
  exists d. split; [done|].
  apply (uncorr_deltas_telescope 1 1 1 f64_one d 5 [5; 7; 12] E);
    repeat constructor; unfold in_u64, u64_mod; lia.
Defined.
