(* ===== verification/Stability.v ===== *)
(** * The stability score ([internal/core/stability.go])

    [math.Exp] is a parameter of the section: its result is not specified to the last bit.  The
    score is an asymmetric exponentially weighted average of an instantaneous score that combines
    seven clamped signals. *)

From Stdlib Require Import Floats.SpecFloat.
From stdpp Require Import base tactics numbers option list strings gmap.
From S2P Require Import Prelude Ordering GoFloat GoTime Model.

Record StabilityConfig := {
  WAvailability : f64;
  WFailures : f64;
  WDisconnect : f64;
  WRecovery : f64;
  WErrors : f64;
  WLatency : f64;
  WThroughput : f64;
  AlphaUp : f64;
  AlphaDown : f64;
}.

Definition DefaultStabilityConfig : StabilityConfig :=
  {| WAvailability := f64_lit 30 100; WFailures := f64_lit 20 100; WDisconnect := f64_lit 15 100;
     WRecovery := f64_lit 10 100; WErrors := f64_lit 10 100; WLatency := f64_lit 10 100;
     WThroughput := f64_lit 5 100; AlphaUp := f64_lit 60 100; AlphaDown := f64_lit 8 100 |}.

Record StabilityCalc := {
  sc_cfg : StabilityConfig;
  sc_smamooth : f64;
  sc_started : bool;
}.

Definition NewStabilityCalc (cfg : StabilityConfig) : StabilityCalc :=
  {| sc_cfg := cfg; sc_smamooth := f64_one; sc_started := false |}.

Definition clamp01 (x : f64) : f64 :=
  if f64_is_nan x || f64_is_inf x then f64_zero
  else if f64_ltb x f64_zero then f64_zero
  else if f64_ltb f64_one x then f64_one
  else x.

Record StabilityInputs := {
  si_RecentAvailability : f64;
  si_ConsecutiveFailures : Z;
  si_DisconnectsInWindow : Z;
  si_LastRecoveryMs : f64;
  si_ErrorCountDelta : Z;
  si_LatencyP95Ms : f64;
  si_LatencyP50Ms : f64;
  si_ThroughputVariance : f64;
  si_WorkerDisappearancesObserved : Z;
  si_ConfirmedAbnormalWorkerExits : Z;
  si_ConfirmedOOMEvents : Z;
  si_RapidRestartEvents : Z;
}.

(** A negative constant: Go negates the nearest float. *)
Definition f64_neg_lit (n d : Z) : f64 := SFopp (f64_lit n d).

Section stability.
  Variable exp : f64 -> f64.

Definition instantaneous (s : StabilityCalc) (i : StabilityInputs) : f64 * gmap string f64 :=
  let c := s.(sc_cfg) in
  let avail := clamp01 i.(si_RecentAvailability) in
  let failScore := exp (f64_mul (f64_neg_lit 7 10) (f64_of_Z i.(si_ConsecutiveFailures))) in
  let discScore := exp (f64_mul (f64_neg_lit 5 10) (f64_of_Z i.(si_DisconnectsInWindow))) in
  let recScore :=
    if f64_ltb f64_zero i.(si_LastRecoveryMs)
    then exp (f64_div (SFopp i.(si_LastRecoveryMs)) (f64_of_Z 30000)) else f64_one in
  let errScore := exp (f64_mul (f64_neg_lit 15 10) (f64_of_Z i.(si_ErrorCountDelta))) in
  let latScore :=
    if f64_ltb f64_zero i.(si_LatencyP50Ms) && f64_ltb f64_zero i.(si_LatencyP95Ms) then
      let ratio := f64_div i.(si_LatencyP95Ms) i.(si_LatencyP50Ms) in
      clamp01 (f64_sub f64_one (f64_div (f64_sub ratio f64_one) (f64_of_Z 9)))
    else f64_one in
  let thrScore :=
    if f64_leb f64_zero i.(si_ThroughputVariance)
    then clamp01 (f64_sub f64_one (f64_mul i.(si_ThroughputVariance) (f64_of_Z 2)))
    else f64_one in
  let failScore :=
    if 0 <? i.(si_ConfirmedAbnormalWorkerExits) then
      f64_mul failScore
        (exp (f64_mul (f64_neg_lit 6 10) (f64_of_Z i.(si_ConfirmedAbnormalWorkerExits))))
    else failScore in
  let failScore :=
    if 0 <? i.(si_ConfirmedOOMEvents) then
      f64_mul failScore (exp (f64_mul (f64_neg_lit 8 10) (f64_of_Z i.(si_ConfirmedOOMEvents))))
    else failScore in
  let failScore :=
    if 0 <? i.(si_RapidRestartEvents) then
      f64_mul failScore (exp (f64_mul (f64_neg_lit 4 10) (f64_of_Z i.(si_RapidRestartEvents))))
    else failScore in
  let comps : gmap string f64 := list_to_map
    [("availability", f64_mul c.(WAvailability) avail);
     ("failures", f64_mul c.(WFailures) failScore);
     ("disconnect", f64_mul c.(WDisconnect) discScore);
     ("recovery", f64_mul c.(WRecovery) recScore);
     ("errors", f64_mul c.(WErrors) errScore);
     ("latency", f64_mul c.(WLatency) latScore);
     ("throughput", f64_mul c.(WThroughput) thrScore)] in
  let at_ k := default f64_zero (comps !! k) in
  let raw :=
    f64_add (f64_add (f64_add (f64_add (f64_add (f64_add (at_ "availability") (at_ "failures"))
      (at_ "disconnect")) (at_ "recovery")) (at_ "errors")) (at_ "latency")) (at_ "throughput") in
  (clamp01 raw, comps).

Definition Update (i : StabilityInputs) (now : Z) (s : StabilityCalc) :
    StabilityCalc * StabilityScore :=
  let '(inst, comps) := instantaneous s i in
  let ewma alpha :=
    f64_add (f64_mul alpha inst) (f64_mul (f64_sub f64_one alpha) s.(sc_smamooth)) in
  let smooth :=
    if negb s.(sc_started) then inst
    else if f64_ltb inst s.(sc_smamooth) then ewma s.(sc_cfg).(AlphaUp)
    else ewma s.(sc_cfg).(AlphaDown) in
  ({| sc_cfg := s.(sc_cfg); sc_smamooth := smooth; sc_started := true |},
   {| ss_Score := clamp01 smooth;
      ss_Components := <["smoothed" := smooth]> (<["instantaneous" := inst]> comps);
      ss_UpdatedAt := now |}).

Definition Score (s : StabilityCalc) : f64 := clamp01 s.(sc_smamooth).
End stability.

(** ** Range *)

(** [0 <= x <= 1], which excludes NaN. *)
Definition in_unit (x : f64) : bool := f64_leb f64_zero x && f64_leb x f64_one.

Lemma one_not_nan : not_nan f64_one.
Proof. by vm_compute. Qed.
#[export] Hint Resolve one_not_nan : gosidecar.

Lemma clamp01_unit x : in_unit (clamp01 x) = true.
Proof.
  unfold clamp01, in_unit. destruct (f64_is_nan x) eqn:Hn; [by vm_compute|].
  destruct (f64_is_inf x); [by vm_compute|]. simpl.
  destruct (f64_ltb x f64_zero) eqn:H0; [by vm_compute|].
  destruct (f64_ltb f64_one x) eqn:H1; [by vm_compute|].
  rewrite !f64_leb_ltb, H0, H1 by (done || auto with gosidecar). done.
Qed.

Lemma clamp01_id x : in_unit x = true -> clamp01 x = x.
Proof.
  unfold in_unit. intros H. apply andb_true_iff in H as [H0 H1].
  destruct (f64_leb_not_nan _ _ H0) as [_ Hn]. unfold clamp01.
  rewrite f64_leb_ltb in H0, H1 by (done || auto with gosidecar). go_bool. rewrite H0, H1, Hn.
  destruct x as [| [] | |]; try done.
Qed.

Lemma clamp01_idem x : clamp01 (clamp01 x) = clamp01 x.
Proof. apply clamp01_id, clamp01_unit. Qed.

(** ** A healthy device

    Signals without any penalty; the number of observed worker disappearances is left free. *)
Definition clean_inputs (i : StabilityInputs) : Prop :=
  si_RecentAvailability i = f64_one /\ si_ConsecutiveFailures i = 0 /\
  si_DisconnectsInWindow i = 0 /\ f64_ltb f64_zero (si_LastRecoveryMs i) = false /\
  si_ErrorCountDelta i = 0 /\
  (f64_ltb f64_zero (si_LatencyP50Ms i) && f64_ltb f64_zero (si_LatencyP95Ms i) = true ->
   f64_div (si_LatencyP95Ms i) (si_LatencyP50Ms i) = f64_one) /\
  f64_leb f64_zero (si_ThroughputVariance i) = false /\
  si_ConfirmedAbnormalWorkerExits i <= 0 /\ si_ConfirmedOOMEvents i <= 0 /\
  si_RapidRestartEvents i <= 0.

(** [Exp(-0) = 1]. *)
Definition exp_law (exp : f64 -> f64) : Prop := exp (S754_zero true) = f64_one.

Lemma clean_instantaneous exp s i :
  exp_law exp -> sc_cfg s = DefaultStabilityConfig -> clean_inputs i ->
  fst (instantaneous exp s i) = f64_one.
Proof.
  intros He Hc (Ha & Hf & Hd & Hr & Herr & Hlat & Ht & Hx & Hoom & Hrr).
  unfold instantaneous. rewrite Hc, Ha, Hf, Hd, Hr, Herr, Ht.
  rewrite (proj2 (Z.ltb_ge _ _) Hx), (proj2 (Z.ltb_ge _ _) Hoom), (proj2 (Z.ltb_ge _ _) Hrr).
  replace (f64_mul (f64_neg_lit 7 10) (f64_of_Z 0)) with (S754_zero true) by (by vm_compute).
  replace (f64_mul (f64_neg_lit 5 10) (f64_of_Z 0)) with (S754_zero true) by (by vm_compute).
  replace (f64_mul (f64_neg_lit 15 10) (f64_of_Z 0)) with (S754_zero true) by (by vm_compute).
  rewrite He. destruct (_ && _) eqn:Hp; [rewrite (Hlat eq_refl)|]; by vm_compute.
Qed.

Definition update_all exp (s : StabilityCalc) (ins : list (StabilityInputs * Z)) : StabilityCalc :=
  fold_left (fun s '(i, now) => fst (Update exp i now s)) ins s.

Lemma update_clean exp s i now :
  exp_law exp -> sc_cfg s = DefaultStabilityConfig -> sc_smamooth s = f64_one -> clean_inputs i ->
  let s' := fst (Update exp i now s) in
  sc_cfg s' = DefaultStabilityConfig /\ sc_smamooth s' = f64_one.
Proof.
  intros He Hc Hs Hi. unfold Update. pose proof (clean_instantaneous exp s i He Hc Hi) as Hinst.
  destruct (instantaneous exp s i) as [inst comps]. simpl in *. subst inst.
  split; [done|]. rewrite Hs, Hc. destruct (sc_started s); by vm_compute.
Qed.

(** ** The properties *)

(** The published score is a number between 0 and 1, whatever the inputs, the configuration and
    the exponential function, NaN and infinities included; it is the clamped state, which is also
    what [Score] returns until the next update. *)
Theorem score_in_unit_interval exp s i now :
  let '(s', score) := Update exp i now s in
  in_unit (ss_Score score) = true /\ Score s' = ss_Score score /\
  ss_Components score !! "smoothed" = Some (sc_smamooth s') /\
  in_unit (fst (instantaneous exp s i)) = true.
Proof.
  unfold Update, Score. destruct (instantaneous exp s i) as [inst comps] eqn:E. simpl.
  split_and!; [apply clamp01_unit | done | by rewrite lookup_insert_eq |].
  unfold instantaneous in E. injection E as <- _. apply clamp01_unit.
Qed.

(** A device whose signals stay clean keeps the score 1 exactly, through every rounding of the
    average, however many worker disappearances of unknown cause are observed meanwhile. *)
Theorem clean_device_scores_one exp ins :
  exp_law exp -> Forall (fun '(i, _) => clean_inputs i) ins ->
  Score (update_all exp (NewStabilityCalc DefaultStabilityConfig) ins) = f64_one.
Proof.
  intros He Hall.
  enough (H : forall s, sc_cfg s = DefaultStabilityConfig -> sc_smamooth s = f64_one ->
    Score (update_all exp s ins) = f64_one) by (by apply H).
  induction Hall as [|[i now] ins Hi Hall IH]; intros s Hc Hs.
  - unfold Score. simpl. rewrite Hs. by vm_compute.
  - destruct (update_clean exp s i now) as [? ?]; [done..|]. by apply IH.
Qed.

Definition clean_sample (disappearances : Z) : StabilityInputs :=
  {| si_RecentAvailability := f64_one; si_ConsecutiveFailures := 0; si_DisconnectsInWindow := 0;
     si_LastRecoveryMs := f64_zero; si_ErrorCountDelta := 0; si_LatencyP95Ms := f64_of_Z 4;
     si_LatencyP50Ms := f64_of_Z 4; si_ThroughputVariance := f64_of_Z (-1);
     si_WorkerDisappearancesObserved := disappearances; si_ConfirmedAbnormalWorkerExits := 0;
     si_ConfirmedOOMEvents := 0; si_RapidRestartEvents := 0 |}.

Lemma clean_device_scores_one_witness :
  Score (update_all (fun _ => f64_one) (NewStabilityCalc DefaultStabilityConfig)
    [(clean_sample 0, 10); (clean_sample 7, 20)]) = f64_one.
Proof.
  apply clean_device_scores_one; [done|].
  repeat constructor; try (by vm_compute); by (intros; vm_compute).
Defined.
