(* ===== verification/CacheIndex.v ===== *)
(** * The prefix index ([internal/cache/model.go], [internal/cache/index.go])

    A bounded store of cache-locality metadata.  Two things of the Go code are made explicit.  The
    clock: a method that reads the clock several times takes the successive readings as a function
    [clk : nat -> Z], so time may pass between them; a method that reads it once takes that reading.
    The iteration order of a map: a [range] takes its order from an argument [rng], any enumeration
    of the map, and the theorems hold for every one of them. *)

From Stdlib Require Import Floats.SpecFloat.
From stdpp Require Import base tactics numbers option list strings gmap fin_maps.
From S2P Require Import Prelude Ordering GoFloat GoTime.
Open Scope go_scope.

(** ** Data *)

Inductive Mode := ModeDisabled | ModeExplicit | ModeVLLMEvents.

#[export] Instance Mode_eq_dec : EqDecision Mode.
Proof. solve_decision. Defined.

Definition Mode_string (m : Mode) : string :=
  match m with
  | ModeDisabled => "disabled" | ModeExplicit => "explicit" | ModeVLLMEvents => "vllm_events"
  end.

Definition ParseMode (s : string) : Mode :=
  if String.eqb s "explicit" then ModeExplicit
  else if String.eqb s "vllm_events" || String.eqb s "vllm-events" then ModeVLLMEvents
  else if String.eqb s "disabled" || String.eqb s "" then ModeDisabled
  else ModeDisabled.

Record PrefixQuery := { PrefixKeyHash : string; PrefixTokens : Z }.

Definition Eligible (q : PrefixQuery) : bool := negb (String.eqb q.(PrefixKeyHash) "").

Record MatchResult := {
  mr_Supported : bool;
  mr_MatchSupported : bool;
  mr_MatchedPrefixTokens : Z;
  mr_Confidence : f64;
  mr_SnapshotAgeMs : Z;
  mr_Reason : string;
}.

Definition NoMatch (reason : string) : MatchResult :=
  {| mr_Supported := false; mr_MatchSupported := false; mr_MatchedPrefixTokens := 0;
     mr_Confidence := f64_zero; mr_SnapshotAgeMs := 0; mr_Reason := reason |}.

Record CacheSnapshot := {
  cs_Enabled : bool;
  cs_Provider : string;
  cs_Supported : bool;
  cs_MatchSupported : bool;
  cs_Ready : bool;
  cs_Confidence : f64;
  cs_SnapshotAgeMs : Z;
  cs_LastEventSequence : Z;
  cs_CacheResetEpoch : Z;
  cs_IndexEntries : Z;
  cs_IndexMaxEntries : Z;
  cs_KVHeadroom : f64;
  cs_KVHeadroomSupported : bool;
  cs_EventsReceivedTotal : Z;
  cs_EventsDroppedTotal : Z;
  cs_SequenceGapsTotal : Z;
  cs_StaleInvalidations : Z;
  cs_DuplicateEventsTotal : Z;
  cs_OutOfOrderEventsTotal : Z;
  cs_ResetsTotal : Z;
  cs_UpdatedAt : Z;
}.

Record IndexEntry := {
  ie_Key : string;
  ie_Parent : string;
  ie_MatchedTokens : Z;
  ie_BlockSize : Z;
  ie_Present : bool;
  ie_LastSeq : Z;
  ie_UpdatedAt : Z;
}.

Record IndexConfig := {
  MaxEntries : Z;
  EntryTTL : Z;
  StaleAfter : Z;
  BlockSize : Z;
}.

Definition DefaultIndexConfig : IndexConfig :=
  {| MaxEntries := 100000; EntryTTL := 10 * 60 * second; StaleAfter := 30 * second;
     BlockSize := 16 |}.

Abbreviation entry_map := (gmap string IndexEntry) (only parsing).

Record Index := {
  ix_cfg : IndexConfig;
  ix_entries : entry_map;
  ix_lastSeq : Z;
  ix_haveSeq : bool;
  ix_resetEpoch : Z;
  ix_lastUpdate : Z;
  ix_startedAt : Z;
  ix_eventsReceived : Z;
  ix_eventsDropped : Z;
  ix_sequenceGaps : Z;
  ix_duplicates : Z;
  ix_outOfOrder : Z;
  ix_staleInvalidated : Z;
  ix_resets : Z;
}.

Definition NewIndex (cfg : IndexConfig) (now : Z) : Index :=
  let cfg :=
    if cfg.(MaxEntries) <=? 0 then
      {| MaxEntries := DefaultIndexConfig.(MaxEntries); EntryTTL := cfg.(EntryTTL);
         StaleAfter := cfg.(StaleAfter); BlockSize := cfg.(BlockSize) |}
    else cfg in
  {| ix_cfg := cfg; ix_entries := ∅; ix_lastSeq := 0; ix_haveSeq := false; ix_resetEpoch := 0;
     ix_lastUpdate := time_zero; ix_startedAt := now; ix_eventsReceived := 0;
     ix_eventsDropped := 0; ix_sequenceGaps := 0; ix_duplicates := 0; ix_outOfOrder := 0;
     ix_staleInvalidated := 0; ix_resets := 0 |}.

(** ** Assignments to groups of fields *)

Definition set_entries (m : entry_map) (x : Index) : Index :=
  {| ix_cfg := x.(ix_cfg); ix_entries := m; ix_lastSeq := x.(ix_lastSeq);
     ix_haveSeq := x.(ix_haveSeq); ix_resetEpoch := x.(ix_resetEpoch);
     ix_lastUpdate := x.(ix_lastUpdate); ix_startedAt := x.(ix_startedAt);
     ix_eventsReceived := x.(ix_eventsReceived); ix_eventsDropped := x.(ix_eventsDropped);
     ix_sequenceGaps := x.(ix_sequenceGaps); ix_duplicates := x.(ix_duplicates);
     ix_outOfOrder := x.(ix_outOfOrder); ix_staleInvalidated := x.(ix_staleInvalidated);
     ix_resets := x.(ix_resets) |}.
Definition set_seq (last : Z) (have : bool) (x : Index) : Index :=
  {| ix_cfg := x.(ix_cfg); ix_entries := x.(ix_entries); ix_lastSeq := last;
     ix_haveSeq := have; ix_resetEpoch := x.(ix_resetEpoch);
     ix_lastUpdate := x.(ix_lastUpdate); ix_startedAt := x.(ix_startedAt);
     ix_eventsReceived := x.(ix_eventsReceived); ix_eventsDropped := x.(ix_eventsDropped);
     ix_sequenceGaps := x.(ix_sequenceGaps); ix_duplicates := x.(ix_duplicates);
     ix_outOfOrder := x.(ix_outOfOrder); ix_staleInvalidated := x.(ix_staleInvalidated);
     ix_resets := x.(ix_resets) |}.
Definition set_lastUpdate (t : Z) (x : Index) : Index :=
  {| ix_cfg := x.(ix_cfg); ix_entries := x.(ix_entries); ix_lastSeq := x.(ix_lastSeq);
     ix_haveSeq := x.(ix_haveSeq); ix_resetEpoch := x.(ix_resetEpoch);
     ix_lastUpdate := t; ix_startedAt := x.(ix_startedAt);
     ix_eventsReceived := x.(ix_eventsReceived); ix_eventsDropped := x.(ix_eventsDropped);
     ix_sequenceGaps := x.(ix_sequenceGaps); ix_duplicates := x.(ix_duplicates);
     ix_outOfOrder := x.(ix_outOfOrder); ix_staleInvalidated := x.(ix_staleInvalidated);
     ix_resets := x.(ix_resets) |}.
Definition set_epoch (epoch resets startedAt : Z) (x : Index) : Index :=
  {| ix_cfg := x.(ix_cfg); ix_entries := x.(ix_entries); ix_lastSeq := x.(ix_lastSeq);
     ix_haveSeq := x.(ix_haveSeq); ix_resetEpoch := epoch;
     ix_lastUpdate := x.(ix_lastUpdate); ix_startedAt := startedAt;
     ix_eventsReceived := x.(ix_eventsReceived); ix_eventsDropped := x.(ix_eventsDropped);
     ix_sequenceGaps := x.(ix_sequenceGaps); ix_duplicates := x.(ix_duplicates);
     ix_outOfOrder := x.(ix_outOfOrder); ix_staleInvalidated := x.(ix_staleInvalidated);
     ix_resets := resets |}.
(** The counters [eventsReceived], [eventsDropped], [sequenceGaps], [duplicates], [outOfOrder],
    [staleInvalidated]. *)
Definition set_counters (received dropped gaps dups ooo stale : Z) (x : Index) : Index :=
  {| ix_cfg := x.(ix_cfg); ix_entries := x.(ix_entries); ix_lastSeq := x.(ix_lastSeq);
     ix_haveSeq := x.(ix_haveSeq); ix_resetEpoch := x.(ix_resetEpoch);
     ix_lastUpdate := x.(ix_lastUpdate); ix_startedAt := x.(ix_startedAt);
     ix_eventsReceived := received; ix_eventsDropped := dropped; ix_sequenceGaps := gaps;
     ix_duplicates := dups; ix_outOfOrder := ooo; ix_staleInvalidated := stale;
     ix_resets := x.(ix_resets) |}.

Definition inc_received x := set_counters (uwrap64 (x.(ix_eventsReceived) + 1))
  x.(ix_eventsDropped) x.(ix_sequenceGaps) x.(ix_duplicates) x.(ix_outOfOrder) x.(ix_staleInvalidated) x.
Definition inc_dropped x := set_counters x.(ix_eventsReceived)
  (uwrap64 (x.(ix_eventsDropped) + 1)) x.(ix_sequenceGaps) x.(ix_duplicates) x.(ix_outOfOrder) x.(ix_staleInvalidated) x.
Definition inc_gaps x := set_counters x.(ix_eventsReceived) x.(ix_eventsDropped)
  (uwrap64 (x.(ix_sequenceGaps) + 1)) x.(ix_duplicates) x.(ix_outOfOrder) x.(ix_staleInvalidated) x.
Definition inc_duplicates x := set_counters x.(ix_eventsReceived) x.(ix_eventsDropped)
  x.(ix_sequenceGaps) (uwrap64 (x.(ix_duplicates) + 1)) x.(ix_outOfOrder) x.(ix_staleInvalidated) x.
Definition inc_outOfOrder x := set_counters x.(ix_eventsReceived) x.(ix_eventsDropped)
  x.(ix_sequenceGaps) x.(ix_duplicates) (uwrap64 (x.(ix_outOfOrder) + 1)) x.(ix_staleInvalidated) x.
Definition inc_stale x := set_counters x.(ix_eventsReceived) x.(ix_eventsDropped)
  x.(ix_sequenceGaps) x.(ix_duplicates) x.(ix_outOfOrder) (uwrap64 (x.(ix_staleInvalidated) + 1)) x.

(** ** Events *)

(** Returns the index and [accept]. *)
Definition checkSeqLocked (seq : Z) (x : Index) : Index * bool :=
  if negb x.(ix_haveSeq) then (set_seq seq true x, true)
  else if seq =? wrap64 (x.(ix_lastSeq) + 1) then (set_seq seq x.(ix_haveSeq) x, true)
  else if seq =? x.(ix_lastSeq) then (x, true)
  else if seq <? x.(ix_lastSeq) then (inc_outOfOrder x, true)
  else (x |> inc_gaps |> set_seq seq x.(ix_haveSeq), true).

(** One [range] over the entries for the oldest: the state is [(first, oldest, oldestKey)]. *)
Definition oldest_scan (l : list (string * IndexEntry)) : bool * Z * string :=
  fold_left
    (fun '(first, oldest, oldestKey) '(k, e) =>
       if first || time_before e.(ie_UpdatedAt) oldest then (false, e.(ie_UpdatedAt), k)
       else (first, oldest, oldestKey))
    l (true, time_zero, "").

Fixpoint evict_loop (rng : nat -> entry_map -> list (string * IndexEntry)) (over : nat)
    (x : Index) : Index :=
  match over with
  | O => x
  | S over' =>
      let '(_, _, oldestKey) := oldest_scan (rng over x.(ix_entries)) in
      if String.eqb oldestKey "" then x
      else evict_loop rng over'
             (x |> set_entries (delete oldestKey x.(ix_entries)) |> inc_dropped)
  end.

Definition evictIfNeededLocked (rng : nat -> entry_map -> list (string * IndexEntry)) (x : Index) :
    Index :=
  let over := Z.of_nat (size x.(ix_entries)) - x.(ix_cfg).(MaxEntries) in
  if over <=? 0 then x else evict_loop rng (Z.to_nat over) x.

Definition ApplyStore (rng : nat -> entry_map -> list (string * IndexEntry)) (now : Z)
    (seq : Z) (key parent : string) (matchedTokens blockSize : Z) (x : Index) : Index :=
  let x := inc_received x in
  let '(x, accept) := checkSeqLocked seq x in
  if negb accept then x else
  let t := now in
  let x := set_lastUpdate t x in
  match x.(ix_entries) !! key with
  | Some e =>
      if e.(ie_Present) && (e.(ie_LastSeq) =? seq) then inc_duplicates x
      else
        let e' :=
          {| ie_Key := e.(ie_Key); ie_Parent := parent;
             ie_MatchedTokens := if 0 <? matchedTokens then matchedTokens else e.(ie_MatchedTokens);
             ie_BlockSize := if 0 <? blockSize then blockSize else e.(ie_BlockSize);
             ie_Present := true; ie_LastSeq := seq; ie_UpdatedAt := t |} in
        set_entries (<[key := e']> x.(ix_entries)) x
  | None =>
      let e :=
        {| ie_Key := key; ie_Parent := parent; ie_MatchedTokens := matchedTokens;
           ie_BlockSize := blockSize; ie_Present := true; ie_LastSeq := seq; ie_UpdatedAt := t |} in
      evictIfNeededLocked rng (set_entries (<[key := e]> x.(ix_entries)) x)
  end.

Definition ApplyRemove (now : Z) (seq : Z) (key : string) (x : Index) : Index :=
  let x := inc_received x in
  let '(x, accept) := checkSeqLocked seq x in
  if negb accept then x else
  let t := now in
  let x := set_lastUpdate t x in
  match x.(ix_entries) !! key with
  | Some e =>
      let e' :=
        {| ie_Key := e.(ie_Key); ie_Parent := e.(ie_Parent); ie_MatchedTokens := e.(ie_MatchedTokens);
           ie_BlockSize := e.(ie_BlockSize); ie_Present := false; ie_LastSeq := seq;
           ie_UpdatedAt := t |} in
      set_entries (<[key := e']> x.(ix_entries)) x
  | None => x
  end.

Definition ApplyClear (now : Z) (seq : Z) (x : Index) : Index :=
  let x := inc_received x in
  let '(x, _) := checkSeqLocked seq x in
  x |> set_entries ∅
    |> set_epoch (wrap64 (x.(ix_resetEpoch) + 1)) (uwrap64 (x.(ix_resets) + 1)) x.(ix_startedAt)
    |> set_lastUpdate now.

Definition IndexReset (now : Z) (x : Index) : Index :=
  x |> set_entries ∅ |> set_seq 0 false
    |> set_epoch (wrap64 (x.(ix_resetEpoch) + 1)) (uwrap64 (x.(ix_resets) + 1)) now
    |> set_lastUpdate time_zero.

(** ** Reads *)

Definition isStaleLocked (now : Z) (x : Index) : bool :=
  if x.(ix_cfg).(StaleAfter) <=? 0 then false
  else if time_is_zero x.(ix_lastUpdate) then true
  else x.(ix_cfg).(StaleAfter) <? time_sub now x.(ix_lastUpdate).

(** Two readings of the clock. *)
Definition confidenceLocked (now1 now2 : Z) (x : Index) : f64 :=
  if time_is_zero x.(ix_lastUpdate) || isStaleLocked now1 x then f64_zero
  else
    let age := time_sub now2 x.(ix_lastUpdate) in
    let conf :=
      if 0 <? x.(ix_cfg).(StaleAfter) then
        let c := f64_sub f64_one
                   (f64_div (dur_seconds age) (dur_seconds x.(ix_cfg).(StaleAfter))) in
        if f64_ltb c f64_zero then f64_zero else c
      else f64_one in
    let conf :=
      if 0 <? x.(ix_sequenceGaps) then
        let penalty := f64_mul (f64_lit 25 100) (f64_of_Z x.(ix_sequenceGaps)) in
        let penalty := if f64_ltb (f64_lit 75 100) penalty then f64_lit 75 100 else penalty in
        f64_mul conf (f64_sub f64_one penalty)
      else conf in
    if f64_ltb conf f64_zero then f64_zero else conf.

Definition lookupKeyLocked (now : Z) (key : string) (x : Index) : Z * bool :=
  match x.(ix_entries) !! key with
  | None => (0, false)
  | Some e =>
      if negb e.(ie_Present) then (0, false)
      else if (0 <? x.(ix_cfg).(EntryTTL)) &&
              (x.(ix_cfg).(EntryTTL) <? time_sub now e.(ie_UpdatedAt)) then (0, false)
      else (e.(ie_MatchedTokens), true)
  end.

Definition ageMsLocked (now : Z) (x : Index) : Z :=
  if time_is_zero x.(ix_lastUpdate) then -1
  else dur_milliseconds (time_sub now x.(ix_lastUpdate)).

(** Returns [(tokens, confidence, ageMs)]; the clock is read up to five times. *)
Definition LookupKey (clk : nat -> Z) (key : string) (x : Index) : Z * f64 * Z :=
  if isStaleLocked (clk 0%nat) x then (0, f64_zero, ageMsLocked (clk 1%nat) x)
  else
    let conf := confidenceLocked (clk 1%nat) (clk 2%nat) x in
    let '(t, present) := lookupKeyLocked (clk 3%nat) key x in
    if negb present then (0, conf, ageMsLocked (clk 4%nat) x)
    else (t, conf, ageMsLocked (clk 4%nat) x).

Definition SnapshotMeta (clk : nat -> Z) (x : Index) : Index * CacheSnapshot :=
  let stale := isStaleLocked (clk 0%nat) x in
  let x := if stale && negb (time_is_zero x.(ix_lastUpdate)) then inc_stale x else x in
  let conf := confidenceLocked (clk 1%nat) (clk 2%nat) x in
  let present := Z.of_nat (countb (fun '(_, e) => e.(ie_Present)) (map_to_list x.(ix_entries))) in
  let age := if negb (time_is_zero x.(ix_lastUpdate))
             then dur_milliseconds (time_sub (clk 3%nat) x.(ix_lastUpdate)) else -1 in
  (x,
   {| cs_Enabled := false; cs_Provider := ""; cs_Supported := false; cs_MatchSupported := false;
      cs_Ready := negb stale && negb (time_is_zero x.(ix_lastUpdate));
      cs_Confidence := conf; cs_SnapshotAgeMs := age; cs_LastEventSequence := x.(ix_lastSeq);
      cs_CacheResetEpoch := x.(ix_resetEpoch); cs_IndexEntries := present;
      cs_IndexMaxEntries := x.(ix_cfg).(MaxEntries); cs_KVHeadroom := f64_zero;
      cs_KVHeadroomSupported := false; cs_EventsReceivedTotal := x.(ix_eventsReceived);
      cs_EventsDroppedTotal := x.(ix_eventsDropped); cs_SequenceGapsTotal := x.(ix_sequenceGaps);
      cs_StaleInvalidations := x.(ix_staleInvalidated);
      cs_DuplicateEventsTotal := x.(ix_duplicates); cs_OutOfOrderEventsTotal := x.(ix_outOfOrder);
      cs_ResetsTotal := x.(ix_resets); cs_UpdatedAt := x.(ix_lastUpdate) |}).

Definition IndexLen (x : Index) : Z := Z.of_nat (size x.(ix_entries)).

(** The entries [Directory] may publish. *)
Definition dir_ok (ttl now : Z) (e : IndexEntry) : bool :=
  e.(ie_Present) && ((ttl <=? 0) || (time_sub now e.(ie_UpdatedAt) <=? ttl)).

(** [sort.Slice(cand, func(i, j) { cand[i].t.After(cand[j].t) })]. *)
Definition newer (a b : string * IndexEntry) : bool :=
  time_after (snd a).(ie_UpdatedAt) (snd b).(ie_UpdatedAt).

(** [out[c.key] = c.tok] in order. *)
Definition emit (l : list (string * IndexEntry)) : gmap string Z :=
  fold_left (fun out '(k, e) => <[k := e.(ie_MatchedTokens)]> out) l ∅.

Definition Directory (clk : nat -> Z) (rng : entry_map -> list (string * IndexEntry)) (max : Z)
    (x : Index) : gmap string Z :=
  if isStaleLocked (clk 0%nat) x || time_is_zero x.(ix_lastUpdate) then ∅
  else
    let max := if max <=? 0 then x.(ix_cfg).(MaxEntries) else max in
    let ttl := x.(ix_cfg).(EntryTTL) in
    let now := clk 1%nat in
    let cand := List.filter (fun '(_, e) => dir_ok ttl now e) (rng x.(ix_entries)) in
    if Z.of_nat (size x.(ix_entries)) <=? max then emit cand
    else
      let cand := sort_by newer cand in
      emit (if max <? Z.of_nat (length cand) then take (Z.to_nat max) cand else cand).
