(* ===== verification/CacheFacts.v ===== *)
(** * Properties of the prefix index

    A history is a list of operations in the order in which they took the index's lock, each with
    its clock readings and the iteration orders its [range] loops happened to use. *)

From Stdlib Require Import Floats.SpecFloat.
From stdpp Require Import base tactics numbers option list strings gmap fin_maps sorting.
From S2P Require Import Prelude Ordering GoFloat GoTime CacheIndex.
Open Scope go_scope.

(** ** Histories *)

Abbreviation range_order := (entry_map -> list (string * IndexEntry)) (only parsing).

Inductive cache_op :=
  | CStore (rng : nat -> range_order) (now seq : Z) (key parent : string) (tokens blockSize : Z)
  | CRemove (now seq : Z) (key : string)
  | CClear (now seq : Z)
  | CReset (now : Z)
  | CSnapshot (clk : nat -> Z).

Definition cache_apply (x : Index) (op : cache_op) : Index :=
  match op with
  | CStore rng now seq key parent tokens bs => ApplyStore rng now seq key parent tokens bs x
  | CRemove now seq key => ApplyRemove now seq key x
  | CClear now seq => ApplyClear now seq x
  | CReset now => IndexReset now x
  | CSnapshot clk => fst (SnapshotMeta clk x)
  end.

Definition cache_run (x : Index) (ops : list cache_op) : Index := fold_left cache_apply ops x.

Lemma cache_run_snoc x ops op : cache_run x (ops ++ [op]) = cache_apply (cache_run x ops) op.
Proof. unfold cache_run. by rewrite fold_left_app. Qed.

(** [rng] really enumerates the map, in some order. *)
Definition enumerates (rng : range_order) : Prop := forall m, rng m ≡ₚ map_to_list m.

Definition op_ranges (op : cache_op) : Prop :=
  match op with CStore rng _ _ _ _ _ _ => forall n, enumerates (rng n) | _ => True end.

(** The operation does not store the empty key. *)
Definition op_keyed (op : cache_op) : Prop :=
  match op with CStore _ _ _ key _ _ _ => key <> "" | _ => True end.

(** ** Sequence numbers *)

(** [checkSeqLocked] accepts every event and touches only the sequence fields and two counters. *)
Lemma checkSeqLocked_frame seq x :
  snd (checkSeqLocked seq x) = true /\
  ix_entries (fst (checkSeqLocked seq x)) = ix_entries x /\
  ix_cfg (fst (checkSeqLocked seq x)) = ix_cfg x /\
  ix_lastUpdate (fst (checkSeqLocked seq x)) = ix_lastUpdate x.
Proof. unfold checkSeqLocked. go_split; done. Qed.

(** ** Eviction *)

Lemma oldest_scan_spec l :
  l <> [] ->
  exists e k, oldest_scan l = (false, ie_UpdatedAt e, k) /\ (k, e) ∈ l /\
    Forall (fun '(_, e') => ie_UpdatedAt e <= ie_UpdatedAt e') l.
Proof.
  induction l as [|[k e] l IH] using rev_ind; [done|]. intros _.
  unfold oldest_scan in *. rewrite fold_left_app. destruct (decide (l = [])) as [->|Hne].
  - exists e, k. simpl. split_and!; [done|by left|]. repeat constructor. lia.
  - destruct (IH Hne) as (e0 & k0 & -> & Hin & Hall). simpl. unfold time_before.
    destruct (Z.ltb_spec (ie_UpdatedAt e) (ie_UpdatedAt e0)).
    + exists e, k. split_and!; [done | apply elem_of_app; right; by left |].
      apply Forall_app; split; [|repeat constructor; lia].
      eapply Forall_impl; [exact Hall|]. intros [k' e']; lia.
    + exists e0, k0. split_and!; [done | apply elem_of_app; by left |].
      apply Forall_app; split; [done|]. repeat constructor. lia.
Qed.

(** One eviction, on a non-empty map without the empty key: some least recently updated entry
    goes. *)
Lemma evict_one rng x :
  enumerates (rng 1%nat) -> ix_entries x <> ∅ -> ix_entries x !! "" = None ->
  exists k e, ix_entries x !! k = Some e /\
    evict_loop rng 1 x = inc_dropped (set_entries (delete k (ix_entries x)) x) /\
    map_Forall (fun _ e' => ie_UpdatedAt e <= ie_UpdatedAt e') (ix_entries x).
Proof.
  intros Hr Hne Hk. simpl.
  destruct (oldest_scan_spec (rng 1%nat (ix_entries x))) as (e & k & Hs & Hin & Hall).
  { intros Hnil. apply Hne, map_to_list_empty_iff. specialize (Hr (ix_entries x)).
    rewrite Hnil in Hr. by apply Permutation_nil_l in Hr. }
  rewrite (Hr (ix_entries x)) in Hin. apply elem_of_map_to_list in Hin.
  exists k, e. rewrite Hs. split; [done|]. split.
  - destruct (String.eqb_spec k "") as [->|_]; [congruence | done].
  - intros k' e' He'. rewrite Forall_forall in Hall.
    apply (Hall (k', e')). rewrite (Hr (ix_entries x)). by apply elem_of_map_to_list.
Qed.

(** What a store of a key does to the entries, when the bound held before. *)
Lemma ApplyStore_entries rng now seq key parent tokens bs x :
  (forall n, enumerates (rng n)) -> key <> "" -> ix_entries x !! "" = None ->
  Z.of_nat (size (ix_entries x)) <= MaxEntries (ix_cfg x) -> 0 < MaxEntries (ix_cfg x) ->
  let x' := ApplyStore rng now seq key parent tokens bs x in
  let m := ix_entries x in
  ix_cfg x' = ix_cfg x /\ ix_lastUpdate x' = now /\
  ((exists e, m !! key = Some e /\ ie_Present e = true /\ ie_LastSeq e = seq /\ ix_entries x' = m) \/
   (exists e0 e, m !! key = Some e0 /\ ix_entries x' = <[key := e]> m /\
      ie_Present e = true /\ ie_LastSeq e = seq /\ ie_UpdatedAt e = now /\
      ie_MatchedTokens e = if 0 <? tokens then tokens else ie_MatchedTokens e0) \/
   (exists e, m !! key = None /\ ie_Present e = true /\ ie_LastSeq e = seq /\
      ie_UpdatedAt e = now /\ ie_MatchedTokens e = tokens /\
      ((Z.of_nat (size m) < MaxEntries (ix_cfg x) /\ ix_entries x' = <[key := e]> m) \/
       (exists k ek, <[key := e]> m !! k = Some ek /\ Z.of_nat (size m) = MaxEntries (ix_cfg x) /\
          ix_entries x' = delete k (<[key := e]> m) /\
          map_Forall (fun _ e' => ie_UpdatedAt ek <= ie_UpdatedAt e') (<[key := e]> m))))).
Proof.
  intros Hr Hkey Hnil Hsize Hpos. unfold ApplyStore.
  destruct (checkSeqLocked_frame seq (inc_received x)) as (Hacc & He & Hc & _).
  destruct (checkSeqLocked seq (inc_received x)) as [x1 acc]. simpl in *. subst acc. simpl.
  destruct (ix_entries x1 !! key) as [e|] eqn:Hlk; rewrite He in Hlk.
  - destruct (ie_Present e && (ie_LastSeq e =? seq)) eqn:Hd; simpl.
    + split_and!; [done..|]. left. exists e. go_bool. done.
    + split_and!; [done..|]. right; left. rewrite He. by exists e; eexists.
  - set (e := {| ie_Key := key |}). set (x2 := set_entries _ _).
    assert (Hm : ix_entries x2 = <[key := e]> (ix_entries x)) by (simpl; by rewrite He).
    assert (Hsz : size (ix_entries x2) = S (size (ix_entries x))).
    { rewrite Hm. by apply map_size_insert_None. }
    unfold evictIfNeededLocked. replace (ix_cfg x2) with (ix_cfg x) by (simpl; by rewrite Hc).
    destruct (Z.leb_spec (Z.of_nat (size (ix_entries x2)) - MaxEntries (ix_cfg x)) 0) as [Hle|Hgt].
    + simpl. split_and!; [done..|]. right; right. exists e. split_and!; try done. left.
      rewrite He. split; [lia|done].
    + replace (Z.to_nat _) with 1%nat by lia.
      destruct (evict_one rng x2) as (k & ek & Hk & -> & Hmin); [done | | |].
      { rewrite Hm. apply insert_non_empty. }
      { rewrite Hm, lookup_insert_ne by done. done. }
      rewrite Hm in Hk, Hmin. simpl. split_and!; [done..|]. right; right. exists e.
      split_and!; try done. right. exists k, ek. rewrite He. split_and!; [done|lia|done|done].
Qed.

(** ** The bound *)

Record cache_inv (x : Index) : Prop := {
  ci_pos : 0 < MaxEntries (ix_cfg x);
  ci_size : Z.of_nat (size (ix_entries x)) <= MaxEntries (ix_cfg x);
  ci_keyed : ix_entries x !! "" = None;
}.

Lemma cache_inv_new cfg now : cache_inv (NewIndex cfg now).
Proof.
  unfold NewIndex. destruct (Z.leb_spec (MaxEntries cfg) 0); split; simpl; try done.
  all: rewrite ?map_size_empty; simpl; lia.
Qed.

Lemma ApplyRemove_entries now seq key x :
  ix_cfg (ApplyRemove now seq key x) = ix_cfg x /\
  ((ix_entries x !! key = None /\ ix_entries (ApplyRemove now seq key x) = ix_entries x) \/
   exists e0 e, ix_entries x !! key = Some e0 /\ ie_Present e = false /\
     ix_entries (ApplyRemove now seq key x) = <[key := e]> (ix_entries x)).
Proof.
  unfold ApplyRemove. destruct (checkSeqLocked_frame seq (inc_received x)) as (Hacc & He & Hc & _).
  destruct (checkSeqLocked seq (inc_received x)) as [x1 acc]. simpl in *. subst acc. simpl.
  rewrite He. destruct (ix_entries x !! key) as [e|] eqn:Hlk; simpl; (split; [done|]).
  - right. exists e; eexists. split; [done|]. split; [|reflexivity]. done.
  - left. done.
Qed.

Lemma ApplyClear_entries now seq x :
  ix_entries (ApplyClear now seq x) = ∅ /\ ix_cfg (ApplyClear now seq x) = ix_cfg x.
Proof.
  unfold ApplyClear. destruct (checkSeqLocked_frame seq (inc_received x)) as (_ & _ & Hc & _).
  destruct (checkSeqLocked seq (inc_received x)) as [x1 acc]. simpl in *. done.
Qed.

Lemma SnapshotMeta_entries clk x :
  ix_entries (fst (SnapshotMeta clk x)) = ix_entries x /\
  ix_cfg (fst (SnapshotMeta clk x)) = ix_cfg x.
Proof. unfold SnapshotMeta. simpl. go_split; done. Qed.

Lemma cache_inv_apply x op :
  cache_inv x -> op_ranges op -> op_keyed op -> cache_inv (cache_apply x op).
Proof.
  intros [Hp Hs Hk] Hr Hkey. destruct op as [rng now seq key parent tokens bs|now seq key|now seq|now|clk]; cbn [cache_apply].
  - simpl in Hr, Hkey.
    destruct (ApplyStore_entries rng now seq key parent tokens bs x) as (Hc & _ & Hcases); try done.
    destruct Hcases as [(e & _ & _ & _ & He)|[(e0 & e & Hlk & He & _)|(e & Hlk & _ & _ & _ & _ & Hcases)]].
    + split; rewrite ?Hc, ?He; done.
    + split; rewrite ?Hc, ?He; [done| |by rewrite lookup_insert_ne].
      by rewrite map_size_insert, Hlk.
    + assert (Hsz : size (<[key := e]> (ix_entries x)) = S (size (ix_entries x)))
        by (by apply map_size_insert_None).
      destruct Hcases as [[Hlt He]|(k & ek & Hek & Heq & He & _)]; split; rewrite ?Hc, ?He; try done.
      * lia.
      * by rewrite lookup_insert_ne.
      * assert (Hd : size (delete k (<[key := e]> (ix_entries x))) = pred (S (size (ix_entries x)))).
        { rewrite <- Hsz. apply map_size_delete_Some. by exists ek. }
        rewrite Hd. simpl. lia.
      * destruct (decide (k = "")) as [->|]; [apply lookup_delete_eq|].
        rewrite lookup_delete_ne by done. by rewrite lookup_insert_ne.
  - destruct (ApplyRemove_entries now seq key x) as [Hc [[_ He]|(e0 & e & Hlk & _ & He)]];
      split; rewrite ?Hc, ?He; try done.
    + by rewrite map_size_insert, Hlk.
    + rewrite lookup_insert_ne; [done|]. intros ->. congruence.
  - destruct (ApplyClear_entries now seq x) as [He Hc]. split; rewrite ?Hc, ?He, ?map_size_empty; try done.
    simpl. lia.
  - split; simpl; rewrite ?map_size_empty; try done. simpl. lia.
  - destruct (SnapshotMeta_entries clk x) as [He Hc]. split; rewrite ?Hc, ?He; done.
Qed.

Lemma cache_inv_run x ops :
  cache_inv x -> Forall op_ranges ops -> Forall op_keyed ops -> cache_inv (cache_run x ops).
Proof.
  intros Hx Hr Hk. induction ops as [|op ops IH] using rev_ind; [done|].
  apply Forall_app in Hr as [Hr Hr1], Hk as [Hk Hk1].
  rewrite cache_run_snoc. apply cache_inv_apply; [by apply IH | by inversion Hr1 | by inversion Hk1].
Qed.

(** ** No phantom locality

    What the events say about one key: whether the last event that concerns it left it stored, and
    with which token counts it was stored since the last clear. *)

Definition touch (key : string) (st : bool * list Z) (op : cache_op) : bool * list Z :=
  match op with
  | CStore _ _ _ k _ tokens _ => if String.eqb k key then (true, tokens :: snd st) else st
  | CRemove _ _ k => if String.eqb k key then (false, snd st) else st
  | CClear _ _ | CReset _ => (false, [])
  | CSnapshot _ => st
  end.

Definition touched (key : string) (ops : list cache_op) : bool * list Z :=
  fold_left (touch key) ops (false, []).

Lemma touched_snoc key ops op : touched key (ops ++ [op]) = touch key (touched key ops) op.
Proof. unfold touched. by rewrite fold_left_app. Qed.

(** An entry of the index agrees with the events on its key. *)
Definition entry_true (ops : list cache_op) (key : string) (e : IndexEntry) : Prop :=
  ie_MatchedTokens e ∈ snd (touched key ops) /\ (ie_Present e = true -> fst (touched key ops) = true).

(** Eviction only removes entries. *)
Lemma evict_loop_sub rng n x :
  ix_entries (evict_loop rng n x) ⊆ ix_entries x /\ ix_cfg (evict_loop rng n x) = ix_cfg x.
Proof.
  revert x. induction n as [|n IH]; intros x; simpl; [done|].
  destruct (oldest_scan _) as [[? ?] k]. destruct (String.eqb k ""); [done|].
  destruct (IH (inc_dropped (set_entries (delete k (ix_entries x)) x))) as [Hs Hc]. simpl in *.
  split; [|done]. etransitivity; [exact Hs|]. apply delete_subseteq.
Qed.

Lemma ApplyStore_sub rng now seq key parent tokens bs x k e :
  ix_entries (ApplyStore rng now seq key parent tokens bs x) !! k = Some e ->
  (exists e0, ix_entries x !! k = Some e0 /\ (e = e0 \/ k = key /\ ie_MatchedTokens e = ie_MatchedTokens e0)) \/
  k = key /\ ie_MatchedTokens e = tokens.
Proof.
  unfold ApplyStore. destruct (checkSeqLocked_frame seq (inc_received x)) as (Hacc & He & Hc & _).
  destruct (checkSeqLocked seq (inc_received x)) as [x1 acc]. simpl in *. subst acc. simpl.
  rewrite He. destruct (ix_entries x !! key) as [e0|] eqn:Hlk.
  - destruct (_ && _); simpl.
    { rewrite ?He. intros H. left. exists e. split; [done|by left]. }
    destruct (decide (k = key)) as [->|Hne].
    + rewrite lookup_insert_eq. intros [= <-]. simpl. destruct (0 <? tokens); [by right|].
      left. exists e0. tauto.
    + rewrite lookup_insert_ne by done. intros H. left. exists e. split; [done|by left].
  - intros H. set (x2 := set_entries _ _) in H.
    assert (Hsub : ix_entries (evictIfNeededLocked rng x2) ⊆ ix_entries x2).
    { unfold evictIfNeededLocked. destruct (_ <=? 0); [done|]. apply evict_loop_sub. }
    apply (lookup_weaken _ _ _ _ H) in Hsub. subst x2. simpl in Hsub.
    destruct (decide (k = key)) as [->|Hne].
    + rewrite lookup_insert_eq in Hsub. injection Hsub as <-. by right.
    + rewrite lookup_insert_ne in Hsub by done. left. exists e. tauto.
Qed.

Lemma entries_true cfg now0 ops k e :
  ix_entries (cache_run (NewIndex cfg now0) ops) !! k = Some e -> entry_true ops k e.
Proof.
  revert e. induction ops as [|op ops IH] using rev_ind; intros e.
  { simpl. by rewrite lookup_empty. }
  rewrite cache_run_snoc. unfold entry_true. rewrite touched_snoc.
  set (x := cache_run _ ops) in *.
  destruct op as [rng now seq key parent tokens bs|now seq key|now seq|now|clk]; cbn [cache_apply touch].
  - intros H. apply ApplyStore_sub in H as [(e0 & He0 & Hcase)|[-> Ht]].
    + specialize (IH e0 He0) as [Hin Hp]. destruct (String.eqb_spec key k) as [->|Hne]; simpl.
      * split; [|done]. right. destruct Hcase as [-> | [_ ->]]; done.
      * destruct Hcase as [-> | [-> _]]; [done|congruence].
    + rewrite String.eqb_refl. simpl. split; [rewrite Ht; left|done].
  - destruct (ApplyRemove_entries now seq key x) as [_ [[Hn ->]|(e0 & e1 & Hlk & Hp & Hx)]].
    + intros H. destruct (String.eqb_spec key k) as [->|Hne]; [congruence|]. by apply IH.
    + unfold ApplyRemove in *.
      destruct (checkSeqLocked_frame seq (inc_received x)) as (Hacc & He & _).
      destruct (checkSeqLocked seq (inc_received x)) as [x1 acc]. simpl in *. subst acc. simpl.
      rewrite He, Hlk. simpl.
      destruct (String.eqb_spec key k) as [->|Hne].
      * rewrite lookup_insert_eq. intros [= <-]. simpl. split; [|done]. apply (IH e0 Hlk).
      * rewrite lookup_insert_ne by done. apply IH.
  - destruct (ApplyClear_entries now seq x) as [-> _]. by rewrite lookup_empty.
  - unfold IndexReset. cbn. by rewrite lookup_empty.
  - destruct (SnapshotMeta_entries clk x) as [-> _]. apply IH.
Qed.

(** ** Sequence tracking *)

Definition op_seq (op : cache_op) : option Z :=
  match op with
  | CStore _ _ seq _ _ _ _ | CRemove _ seq _ | CClear _ seq => Some seq
  | _ => None
  end.

(** The sequence numbers received since the last [Reset]. *)
Definition seqs_since (ops : list cache_op) : list Z :=
  fold_left (fun l op => match op with
                         | CReset _ => []
                         | _ => match op_seq op with Some s => l ++ [s] | None => l end
                         end) ops [].

Definition max_seq (l : list Z) : option Z :=
  match l with [] => None | s :: l' => Some (foldr Z.max s l') end.

Lemma max_seq_snoc l s :
  max_seq (l ++ [s]) = Some (match max_seq l with Some m => Z.max m s | None => s end).
Proof.
  destruct l as [|a l]; [done|]. simpl. f_equal. induction l as [|b l IH]; simpl; lia.
Qed.

(** The sequence fields and counters an event leaves. *)
Lemma cache_apply_seq x op s :
  op_seq op = Some s ->
  let x1 := fst (checkSeqLocked s (inc_received x)) in
  ix_lastSeq (cache_apply x op) = ix_lastSeq x1 /\ ix_haveSeq (cache_apply x op) = ix_haveSeq x1 /\
  ix_sequenceGaps (cache_apply x op) = ix_sequenceGaps x1 /\
  ix_outOfOrder (cache_apply x op) = ix_outOfOrder x1 /\
  ix_eventsReceived (cache_apply x op) = ix_eventsReceived x1.
Proof.
  intros Hop x1. subst x1.
  destruct op as [rng now seq key parent tokens bs|now seq key|now seq|now|clk]; simplify_eq/=.
  - unfold ApplyStore. destruct (checkSeqLocked_frame s (inc_received x)) as (Hacc & _).
    destruct (checkSeqLocked s (inc_received x)) as [x1 acc]. simpl in *. subst acc. simpl.
    destruct (ix_entries x1 !! key) as [e|]; [destruct (_ && _); done|].
    unfold evictIfNeededLocked. set (x2 := set_entries _ _).
    assert (Hl : forall n x2, ix_lastSeq (evict_loop rng n x2) = ix_lastSeq x2 /\
      ix_haveSeq (evict_loop rng n x2) = ix_haveSeq x2 /\
      ix_sequenceGaps (evict_loop rng n x2) = ix_sequenceGaps x2 /\
      ix_outOfOrder (evict_loop rng n x2) = ix_outOfOrder x2 /\
      ix_eventsReceived (evict_loop rng n x2) = ix_eventsReceived x2).
    { clear. intros n. induction n as [|n IH]; intros x2; simpl; [done|].
      destruct (oldest_scan _) as [[? ?] k]. destruct (String.eqb k ""); [done|].
      destruct (IH (inc_dropped (set_entries (delete k (ix_entries x2)) x2))) as (-> & -> & -> & -> & ->).
      done. }
    destruct (_ <=? 0); [done|]. by destruct (Hl (Z.to_nat (Z.of_nat (size (ix_entries x2)) - MaxEntries (ix_cfg x2))) x2) as (-> & -> & -> & -> & ->).
  - unfold ApplyRemove. destruct (checkSeqLocked_frame s (inc_received x)) as (Hacc & _).
    destruct (checkSeqLocked s (inc_received x)) as [x1 acc]. simpl in *. subst acc. simpl.
    by destruct (ix_entries x1 !! key).
  - unfold ApplyClear. destruct (checkSeqLocked s (inc_received x)) as [x1 acc]. done.
Qed.

Lemma seqs_since_snoc ops op :
  seqs_since (ops ++ [op]) =
    match op with
    | CReset _ => []
    | _ => match op_seq op with Some s => seqs_since ops ++ [s] | None => seqs_since ops end
    end.
Proof. unfold seqs_since. by rewrite fold_left_app. Qed.

Lemma lastSeq_run cfg now0 ops :
  Forall (fun op => match op_seq op with Some s => in_i64 s /\ s < i64_max | None => True end) ops ->
  let x := cache_run (NewIndex cfg now0) ops in
  match max_seq (seqs_since ops) with
  | Some m => ix_haveSeq x = true /\ ix_lastSeq x = m /\ in_i64 m /\ m < i64_max
  | None => ix_haveSeq x = false /\ ix_lastSeq x = 0
  end.
Proof.
  induction ops as [|op ops IH] using rev_ind; intros Hall; [done|].
  apply Forall_app in Hall as [Hall Hop]. apply Forall_cons in Hop as [Hop _].
  specialize (IH Hall). rewrite cache_run_snoc, seqs_since_snoc.
  set (x := cache_run _ ops) in *. cbv zeta in IH. destruct (op_seq op) as [s|] eqn:Hs.
  - destruct (cache_apply_seq x op s Hs) as (H1 & H2 & _). cbv zeta. rewrite H1, H2.
    replace (match op with CReset _ => [] | _ => seqs_since ops ++ [s] end) with (seqs_since ops ++ [s])
      by (by destruct op).
    rewrite max_seq_snoc. unfold checkSeqLocked. simpl.
    destruct (max_seq (seqs_since ops)) as [m|].
    + destruct IH as (Hh & Hl & Hm & Hlt). rewrite Hh, Hl. simpl.
      rewrite wrap64_id by (unfold in_i64, i64_min, i64_max in *; lia).
      destruct (Z.eqb_spec s (m + 1)); [rewrite Z.max_r by lia; done|].
      destruct (Z.eqb_spec s m); [rewrite Z.max_l by lia; done|].
      destruct (Z.ltb_spec s m); simpl.
      * rewrite Z.max_l by lia. done.
      * rewrite Z.max_r by lia. done.
    + destruct IH as (-> & ->). simpl. done.
  - destruct op; simplify_eq/=; [done|]. unfold SnapshotMeta. simpl. go_split; done.
Qed.

(** ** Staleness *)

Lemma isStale_zero now x : 0 < StaleAfter (ix_cfg x) -> ix_lastUpdate x = 0 -> isStaleLocked now x = true.
Proof. intros H H0. unfold isStaleLocked. by rewrite (proj2 (Z.leb_gt _ _)), H0 by lia. Qed.

Lemma confidence_stale now1 now2 x :
  isStaleLocked now1 x = true -> confidenceLocked now1 now2 x = f64_zero.
Proof. unfold confidenceLocked. intros ->. by rewrite orb_true_r. Qed.

Lemma LookupKey_tokens clk key x :
  fst (fst (LookupKey clk key x)) =
    if isStaleLocked (clk 0%nat) x then 0 else fst (lookupKeyLocked (clk 3%nat) key x).
Proof.
  unfold LookupKey. destruct (isStaleLocked _ _); [done|].
  unfold lookupKeyLocked. destruct (ix_entries x !! key) as [e|]; [|done].
  destruct (ie_Present e); [|done]. by destruct (_ && _).
Qed.

Lemma lookup_present clk key x :
  fst (fst (LookupKey clk key x)) <> 0 ->
  isStaleLocked (clk 0%nat) x = false /\
  exists e, ix_entries x !! key = Some e /\ ie_Present e = true /\
    ie_MatchedTokens e = fst (fst (LookupKey clk key x)) /\
    (0 < EntryTTL (ix_cfg x) -> time_sub (clk 3%nat) (ie_UpdatedAt e) <= EntryTTL (ix_cfg x)).
Proof.
  rewrite LookupKey_tokens. destruct (isStaleLocked _ _); [done|]. intros H. split; [done|].
  unfold lookupKeyLocked in *. destruct (ix_entries x !! key) as [e|]; [|done].
  destruct (ie_Present e) eqn:Hp; [|done]. exists e. simpl in *.
  destruct (0 <? EntryTTL (ix_cfg x)) eqn:Ht; simpl in *; [|by go_bool; split_and!; try done; lia].
  destruct (EntryTTL (ix_cfg x) <? time_sub (clk 3%nat) (ie_UpdatedAt e)) eqn:Hu; [done|].
  go_bool. split_and!; try done.
Qed.

(** ** The directory *)

(** No key is listed with two entries. *)
Definition functional (l : list (string * IndexEntry)) : Prop :=
  forall k e e', (k, e) ∈ l -> (k, e') ∈ l -> e = e'.

Lemma emit_Some l k t :
  functional l -> emit l !! k = Some t <-> exists e, (k, e) ∈ l /\ ie_MatchedTokens e = t.
Proof.
  unfold emit. induction l as [|[k' e'] l IH] using rev_ind; intros Hf.
  { simpl. rewrite lookup_empty. split; [done|]. by intros (e & ?%elem_of_nil & _). }
  rewrite fold_left_app. simpl. rewrite lookup_insert_Some, IH.
  2: { intros k1 e1 e2 H1 H2. apply (Hf k1); apply elem_of_app; by left. }
  assert (Hk' : (k', e') ∈ l ++ [(k', e')]) by (apply elem_of_app; right; by left).
  split.
  - intros [[-> <-]|[Hne (e & Hin & <-)]]; [by exists e'|].
    exists e. split; [|done]. apply elem_of_app. by left.
  - intros (e & Hin & <-). destruct (decide (k' = k)) as [->|Hne].
    + left. split; [done|]. by rewrite (Hf k e' e).
    + right. split; [done|]. exists e. split; [|done].
      apply elem_of_app in Hin as [Hin|Hin]; [done|]. apply list_elem_of_singleton in Hin. congruence.
Qed.

Lemma size_emit l : (size (emit l) <= length l)%nat.
Proof.
  unfold emit. induction l as [|[k e] l IH] using rev_ind; [done|].
  rewrite fold_left_app, length_app. simpl. rewrite map_size_insert. case_match; simpl; lia.
Qed.

#[export] Instance newer_weak : StrictWeak (fun _ => True) newer.
Proof.
  split; unfold newer, time_after; intros; rewrite ?Z.ltb_lt, ?Z.ltb_ge in *; try lia.
Qed.

Lemma take_sorted_split {A} (R : A -> A -> Prop) n (l : list A) x y :
  StronglySorted R l -> x ∈ take n l -> y ∈ drop n l -> R x y.
Proof.
  intros Hs. revert n. induction Hs as [|a l Hs IH Ha]; intros [|n]; simpl.
  1-3: by intros ?%elem_of_nil.
  rewrite elem_of_cons. intros [->|Hx] Hy; [|by apply (IH n)].
  rewrite Forall_forall in Ha. apply Ha. rewrite <- (take_drop n l). apply elem_of_app. by right.
Qed.

(** The truncated directory: the first [max] of the entries sorted newest first. *)
Lemma directory_cut (live : gmap string IndexEntry) srt max :
  sorted_by newer srt -> (forall k e, (k, e) ∈ srt <-> live !! k = Some e) ->
  functional srt -> length srt = size live -> 0 < max < Z.of_nat (length srt) ->
  let d := emit (take (Z.to_nat max) srt) in
  (forall k t, d !! k = Some t -> exists e, live !! k = Some e /\ ie_MatchedTokens e = t) /\
  Z.of_nat (size d) <= max /\
  (Z.of_nat (size live) <= max -> dom d = dom live) /\
  (forall k e k' e', k ∈ dom d -> live !! k = Some e -> live !! k' = Some e' -> k' ∉ dom d ->
     ie_UpdatedAt e' <= ie_UpdatedAt e).
Proof.
  intros Hs Hsrt Hfun Hlen Hmax d. set (top := take (Z.to_nat max) srt) in *.
  assert (Htop : forall p, p ∈ top -> p ∈ srt).
  { intros p Hp. rewrite <- (take_drop (Z.to_nat max) srt). apply elem_of_app. by left. }
  assert (Hft : functional top) by (intros k e e' H1 H2; apply (Hfun k); by apply Htop).
  split_and!.
  - intros k t Ht. apply emit_Some in Ht as (e & Hin & <-); [|done].
    exists e. split; [|done]. apply Hsrt. by apply Htop.
  - assert (length top <= Z.to_nat max)%nat by (unfold top; rewrite length_take; lia).
    pose proof (size_emit top). unfold d. lia.
  - lia.
  - intros k e k' e' Hk He He' Hk'. apply elem_of_dom in Hk as [t Ht].
    apply emit_Some in Ht as (e1 & Hin & _); [|done].
    assert (e1 = e) as -> by (apply (Hfun k); [by apply Htop | by apply Hsrt]).
    assert (Hdrop : (k', e') ∈ drop (Z.to_nat max) srt).
    { apply Hsrt in He'. rewrite <- (take_drop (Z.to_nat max) srt) in He'.
      apply elem_of_app in He' as [Hin'|]; [|done]. exfalso. apply Hk', elem_of_dom.
      exists (ie_MatchedTokens e'). apply emit_Some; [done|]. by exists e'. }
    pose proof (take_sorted_split _ _ _ _ _ Hs Hin Hdrop) as Hle.
    unfold newer, time_after in Hle. simpl in Hle. apply Z.ltb_ge in Hle. done.
Qed.

(** ** The properties *)

(** C25: the index is bounded as long as every store names a key.  Whatever such events arrive, in whatever order the
    [range] loops visit the map, it never holds more than [MaxEntries] entries (the configured value, or the
    default one for a configured value that is not positive).  A store event must carry a key by the contract of
    [BlockEvent] (the key is empty for [all_cleared] only); nothing in the code checks it, and one that does not
    breaks the bound ([empty_key_overflows]). *)
Theorem index_bounded cfg now0 ops :
  Forall op_ranges ops -> Forall op_keyed ops ->
  IndexLen (cache_run (NewIndex cfg now0) ops) <= MaxEntries (ix_cfg (NewIndex cfg now0)) /\
  0 < MaxEntries (ix_cfg (NewIndex cfg now0)).
Proof.
  intros Hr Hk. pose proof (cache_inv_run _ ops (cache_inv_new cfg now0) Hr Hk) as [Hp Hs _].
  assert (Hc : ix_cfg (cache_run (NewIndex cfg now0) ops) = ix_cfg (NewIndex cfg now0)).
  { clear -Hr Hk. induction ops as [|op ops IH] using rev_ind; [done|].
    apply Forall_app in Hr as [Hr Hr1], Hk as [Hk Hk1]. apply Forall_cons in Hr1 as [Hr1 _].
    apply Forall_cons in Hk1 as [Hk1 _]. rewrite cache_run_snoc, <- (IH Hr Hk).
    pose proof (cache_inv_run _ ops (cache_inv_new cfg now0) Hr Hk) as [Hp Hs Hn].
    destruct op; cbn [cache_apply]; [ | apply ApplyRemove_entries | apply ApplyClear_entries | done
                                    | apply SnapshotMeta_entries ].
    by apply ApplyStore_entries. }
  rewrite Hc in Hs. split; [done|apply (cache_inv_new cfg now0)].
Qed.

(** Eviction removes the oldest.  When a store of a new key meets a full index, exactly one entry
    goes, and every entry that stays was updated no earlier than the one that went. *)
Theorem eviction_takes_oldest cfg now0 ops rng now seq key parent tokens bs :
  Forall op_ranges ops -> Forall op_keyed ops -> (forall n, enumerates (rng n)) -> key <> "" ->
  let x := cache_run (NewIndex cfg now0) ops in
  let x' := ApplyStore rng now seq key parent tokens bs x in
  IndexLen x = MaxEntries (ix_cfg x) -> ix_entries x !! key = None ->
  exists k ek, IndexLen x' = IndexLen x /\ ix_entries x' !! k = None /\
    (ix_entries x !! k = Some ek \/ k = key /\ ie_UpdatedAt ek = now) /\
    map_Forall (fun _ e => ie_UpdatedAt ek <= ie_UpdatedAt e) (ix_entries x').
Proof.
  intros Hr Hk Hrng Hkey x x' Hfull Hnew.
  pose proof (cache_inv_run _ ops (cache_inv_new cfg now0) Hr Hk) as [Hp Hs Hn]. fold x in Hp, Hs, Hn.
  destruct (ApplyStore_entries rng now seq key parent tokens bs x) as (_ & _ & Hcases); try done.
  fold x' in Hcases. unfold IndexLen in *.
  destruct Hcases as [(e & Hlk & _)|[(e0 & e & Hlk & _)|(e & _ & _ & _ & Hu & _ & Hcases)]]; try congruence.
  destruct Hcases as [[Hlt _]|(k & ek & Hek & _ & He & Hmin)]; [lia|].
  exists k, ek. rewrite He. split_and!.
  - rewrite map_size_delete, Hek. rewrite map_size_insert_None by done. simpl. lia.
  - apply lookup_delete_eq.
  - destruct (decide (k = key)) as [->|Hne].
    + rewrite lookup_insert_eq in Hek. injection Hek as <-. by right.
    + rewrite lookup_insert_ne in Hek by done. by left.
  - intros k' e' H'. apply (Hmin k'). by eapply lookup_delete_Some.
Qed.

(** C26: no phantom locality.  If a lookup claims tokens for a key, then the last event that concerns
    that key (removals of it, clears and resets included) stored it, some store of it since the last
    clear or reset carried that token count, and at the lookup's first clock reading the index had
    been updated within [StaleAfter]. *)
Theorem no_phantom_locality cfg now0 ops clk key :
  let x := cache_run (NewIndex cfg now0) ops in
  let tokens := fst (fst (LookupKey clk key x)) in
  tokens <> 0 ->
  fst (touched key ops) = true /\ tokens ∈ snd (touched key ops) /\
  (0 < StaleAfter (ix_cfg x) -> ix_lastUpdate x <> 0 /\
   time_sub (clk 0%nat) (ix_lastUpdate x) <= StaleAfter (ix_cfg x)).
Proof.
  intros x tokens Ht. destruct (lookup_present clk key x Ht) as (Hst & e & Hlk & Hp & Htok & _).
  destruct (entries_true cfg now0 ops key e Hlk) as [Hin Hpres]. fold tokens in Htok.
  rewrite <- Htok. split_and!; [by apply Hpres | done |]. intros Hpos.
  unfold isStaleLocked in Hst. rewrite (proj2 (Z.leb_gt _ _)) in Hst by lia.
  unfold time_is_zero in Hst. destruct (Z.eqb_spec (ix_lastUpdate x) 0); [done|]. go_bool. done.
Qed.

(** Warm after a store, cold after a removal, a clear or a reset.  On a reachable index, right
    after a store of a key with a positive token count (not a replay of the batch that already stored
    it) a lookup within the staleness and TTL windows returns that count, if the key was known or
    there was room for it; and after a removal of the key, a clear or a reset it returns 0. *)
Theorem lookup_follows_events cfg now0 ops rng now seq key parent tokens bs clk now2 seq2 :
  Forall op_ranges ops -> Forall op_keyed ops -> (forall n, enumerates (rng n)) -> key <> "" ->
  let x := cache_run (NewIndex cfg now0) ops in
  0 < tokens -> 0 < now ->
  (forall e, ix_entries x !! key = Some e -> ie_Present e = false \/ ie_LastSeq e <> seq) ->
  (is_Some (ix_entries x !! key) \/ IndexLen x < MaxEntries (ix_cfg x)) ->
  (forall n, now <= clk n /\ clk n - now <= StaleAfter (ix_cfg x) < i64_max /\
             clk n - now <= EntryTTL (ix_cfg x) < i64_max) ->
  let x' := ApplyStore rng now seq key parent tokens bs x in
  fst (fst (LookupKey clk key x')) = tokens /\
  fst (fst (LookupKey clk key (ApplyRemove now2 seq2 key x'))) = 0 /\
  fst (fst (LookupKey clk key (ApplyClear now2 seq2 x'))) = 0 /\
  fst (fst (LookupKey clk key (IndexReset now2 x'))) = 0.
Proof.
  intros Hr Hk Hrng Hkey x Htok Hnow Hdup Hroom Hclk x'.
  pose proof (cache_inv_run _ ops (cache_inv_new cfg now0) Hr Hk) as [Hp Hs Hn]. fold x in Hp, Hs, Hn.
  destruct (ApplyStore_entries rng now seq key parent tokens bs x) as (Hc & Hlu & Hcases); try done.
  fold x' in Hc, Hlu, Hcases. unfold IndexLen in Hroom.
  assert (Hent : exists e, ix_entries x' !! key = Some e /\ ie_Present e = true /\
                           ie_UpdatedAt e = now /\ ie_MatchedTokens e = tokens).
  { destruct Hcases as [(e & Hlk & Hpr & Hsq & _)|[(e0 & e & Hlk & -> & Hpr & _ & Hu & Ht)|
                        (e & Hlk & Hpr & _ & Hu & Ht & [[_ ->]|(k & ek & _ & Hsz & _)])]].
    - destruct (Hdup e Hlk); congruence.
    - exists e. rewrite lookup_insert_eq, Ht, (proj2 (Z.ltb_lt _ _)) by lia. done.
    - exists e. rewrite lookup_insert_eq. done.
    - destruct Hroom as [[? ?]|]; [congruence|lia]. }
  destruct Hent as (e & He & Hpr & Hu & Ht). split_and!.
  - rewrite LookupKey_tokens. unfold isStaleLocked, lookupKeyLocked, time_is_zero.
    rewrite Hc, Hlu, He, Hpr, Hu, Ht. simpl.
    pose proof (Hclk 0%nat). pose proof (Hclk 3%nat).
    rewrite (proj2 (Z.eqb_neq now 0)) by lia.
    assert (Hsub : forall n b, now <= clk n -> clk n - now <= b < i64_max ->
      (b <? time_sub (clk n) now) = false).
    { intros n b ? ?. apply Z.ltb_ge. unfold time_sub, i64_min, i64_max in *. lia. }
    rewrite !Hsub by tauto. rewrite andb_false_r. by destruct (_ <=? 0).
  - rewrite LookupKey_tokens. unfold lookupKeyLocked.
    destruct (ApplyRemove_entries now2 seq2 key x') as [_ [[? _]|(e0 & e1 & _ & Hp1 & ->)]]; [congruence|].
    rewrite lookup_insert_eq, Hp1. by destruct (isStaleLocked _ _).
  - rewrite LookupKey_tokens. unfold lookupKeyLocked.
    destruct (ApplyClear_entries now2 seq2 x') as [-> _]. rewrite lookup_empty. by destruct (isStaleLocked _ _).
  - rewrite LookupKey_tokens. unfold lookupKeyLocked. simpl. rewrite lookup_empty. by destruct (isStaleLocked _ _).
Qed.

(** A stale index publishes nothing.  If at every clock reading of a call the index is stale (or
    never received an event), a lookup returns no tokens and confidence 0, the snapshot is not ready
    and has confidence 0, and the directory handed to the router is empty. *)
Theorem stale_publishes_nothing x clk rng max key :
  0 < StaleAfter (ix_cfg x) ->
  (forall n, isStaleLocked (clk n) x = true) ->
  fst (LookupKey clk key x) = (0, f64_zero) /\
  cs_Ready (snd (SnapshotMeta clk x)) = false /\ cs_Confidence (snd (SnapshotMeta clk x)) = f64_zero /\
  Directory clk rng max x = ∅.
Proof.
  intros Hpos Hst. unfold LookupKey, Directory. rewrite !Hst. split_and!; [done| | |done].
  - unfold SnapshotMeta. cbv zeta. cbn [snd cs_Ready]. by rewrite Hst.
  - unfold SnapshotMeta. cbv zeta. cbn [snd cs_Confidence].
    apply confidence_stale. rewrite <- (Hst 1%nat). by destruct (_ && _).
Qed.

(** Gaps and late batches are told apart exactly.  After any history, an event whose sequence
    number exceeds the largest one received since the last reset by more than one counts one gap, a
    smaller number counts one out-of-order event, and any other counts neither; the largest number is
    what the index keeps. *)
Theorem gap_detection_exact cfg now0 ops op s m :
  Forall (fun op => match op_seq op with Some s => in_i64 s /\ s < i64_max | None => True end) ops ->
  op_seq op = Some s -> max_seq (seqs_since ops) = Some m ->
  let x := cache_run (NewIndex cfg now0) ops in
  let x' := cache_apply x op in
  ix_lastSeq x' = Z.max m s /\
  ix_sequenceGaps x' = (if m + 1 <? s then uwrap64 (ix_sequenceGaps x + 1) else ix_sequenceGaps x) /\
  ix_outOfOrder x' = (if s <? m then uwrap64 (ix_outOfOrder x + 1) else ix_outOfOrder x) /\
  ix_eventsReceived x' = uwrap64 (ix_eventsReceived x + 1).
Proof.
  intros Hall Hs Hm x x'. pose proof (lastSeq_run cfg now0 ops Hall) as Hl.
  rewrite Hm in Hl. destruct Hl as (Hh & Hl & Hmi & Hlt). fold x in Hh, Hl.
  destruct (cache_apply_seq x op s Hs) as (H1 & _ & H3 & H4 & H5). fold x' in H1, H3, H4, H5.
  rewrite H1, H3, H4, H5. unfold checkSeqLocked. simpl. rewrite Hh, Hl. simpl.
  rewrite wrap64_id by (unfold in_i64, i64_min, i64_max in *; lia).
  destruct (Z.eqb_spec s (m + 1)); [|destruct (Z.eqb_spec s m); [|destruct (Z.ltb_spec s m)]]; simpl.
  all: destruct (Z.ltb_spec (m + 1) s), (Z.ltb_spec s m); try lia; split_and!; try done; lia.
Qed.

(** The directory publishes the newest live entries.  On an index that is not stale, [Directory]
    publishes exactly token counts of present, unexpired entries; it publishes every one of them when
    they fit the limit; otherwise it publishes [max] of them, and none it leaves out is newer than one
    it publishes, whatever order the map was visited in. *)
Theorem directory_newest x clk rng max :
  enumerates rng -> 0 < max -> ix_lastUpdate x <> 0 -> isStaleLocked (clk 0%nat) x = false ->
  let live := filter (fun '(_, e) => dir_ok (EntryTTL (ix_cfg x)) (clk 1%nat) e = true) (ix_entries x) in
  let d := Directory clk rng max x in
  (forall k t, d !! k = Some t -> exists e, live !! k = Some e /\ ie_MatchedTokens e = t) /\
  Z.of_nat (size d) <= max /\
  (Z.of_nat (size live) <= max -> dom d = dom live) /\
  (forall k e k' e', k ∈ dom d -> live !! k = Some e -> live !! k' = Some e' -> k' ∉ dom d ->
     ie_UpdatedAt e' <= ie_UpdatedAt e).
Proof.
  intros Hr Hmax Hlu Hst live d. subst d. unfold Directory. rewrite Hst. unfold time_is_zero.
  rewrite (proj2 (Z.eqb_neq _ _) Hlu), (proj2 (Z.leb_gt max 0)) by lia. cbn [orb].
  set (cand := List.filter _ _).
  assert (Hcand : forall k e, (k, e) ∈ cand <-> live !! k = Some e).
  { intros k e. subst cand live. rewrite list_elem_of_In, filter_In, <- list_elem_of_In, (Hr (ix_entries x)).
    rewrite elem_of_map_to_list, map_lookup_filter_Some. done. }
  assert (Hfun : functional cand).
  { intros k e e' H1 H2. apply Hcand in H1, H2. congruence. }
  assert (Hlen : length cand = size live).
  { rewrite <- length_map_to_list. apply Permutation_length, NoDup_Permutation.
    - apply NoDup_ListNoDup, List.NoDup_filter, NoDup_ListNoDup. rewrite (Hr (ix_entries x)).
      apply NoDup_map_to_list.
    - apply NoDup_map_to_list.
    - intros [k e]. by rewrite Hcand, elem_of_map_to_list. }
  assert (Hdom : forall l, functional l -> (forall k e, (k, e) ∈ l <-> live !! k = Some e) ->
                 dom (emit l) = dom live).
  { intros l Hl Hiff. apply set_eq. intros k. rewrite !elem_of_dom. split; intros [t Ht].
    - apply emit_Some in Ht as (e & Hin & _); [|done]. exists e. by apply Hiff.
    - exists (ie_MatchedTokens t). apply emit_Some; [done|]. exists t. by rewrite Hiff. }
  destruct (Z.leb_spec (Z.of_nat (size (ix_entries x))) max) as [Hfit|Hbig].
  - pose proof (Hdom cand Hfun Hcand) as Hd. split_and!; [ | | done | ].
    + intros k t Ht. apply emit_Some in Ht as (e & Hin & <-); [|done]. exists e. by rewrite <- Hcand.
    + pose proof (size_emit cand). pose proof (map_size_filter (M := gmap string)
        (fun '(_, e) => dir_ok (EntryTTL (ix_cfg x)) (clk 1%nat) e = true) (ix_entries x)) as Hle.
      fold live in Hle. lia.
    + intros k e k' e' _ _ Hk' Hni. exfalso. apply Hni. rewrite Hd. by apply elem_of_dom_2 in Hk'.
  - pose proof (sort_by_perm newer cand) as Hperm. set (srt := sort_by newer cand) in *.
    assert (Hs : sorted_by newer srt) by (apply (sort_by_sorted (fun _ => True) newer); by apply Forall_true).
    assert (Hsrt : forall k e, (k, e) ∈ srt <-> live !! k = Some e) by (intros; by rewrite Hperm).
    assert (Hfs : functional srt) by (intros k e e' H1 H2; apply Hsrt in H1, H2; congruence).
    assert (Hls : length srt = size live) by (by rewrite Hperm).
    destruct (Z.ltb_spec max (Z.of_nat (length srt))) as [Hcut|Hnocut].
    + apply (directory_cut live srt); [done..|lia].
    + pose proof (Hdom srt Hfs Hsrt) as Hd. split_and!; [ | | done | ].
      * intros k t Ht. apply emit_Some in Ht as (e & Hin & <-); [|done]. exists e. by rewrite <- Hsrt.
      * pose proof (size_emit srt). lia.
      * intros k e k' e' _ _ Hk' Hni. exfalso. apply Hni. rewrite Hd. by apply elem_of_dom_2 in Hk'.
Qed.

(** ** Concrete histories *)

Definition any_order (n : nat) : range_order := map_to_list.

Lemma any_order_enumerates n : enumerates (any_order n).
Proof. intros m. reflexivity. Qed.

Definition small_cfg : IndexConfig :=
  {| MaxEntries := 2; EntryTTL := 600 * second; StaleAfter := 30 * second; BlockSize := 16 |}.
Definition sample_events : list cache_op :=
  [CStore any_order 100 1 "a" "" 64 0; CStore any_order 200 2 "b" "a" 32 0;
   CRemove 250 4 "a"; CStore any_order 300 3 "a" "" 16 0].

Lemma sample_events_ok : Forall op_ranges sample_events /\ Forall op_keyed sample_events.
Proof.
  split; repeat constructor; intros; simpl; try apply any_order_enumerates; discriminate.
Qed.

(** An empty key stored first is never evicted, and nothing else is either. *)
Example empty_key_overflows :
  let store now key := CStore any_order now now key "" 16 0 in
  let x := cache_run (NewIndex small_cfg 0) [store 1 ""; store 2 "a"; store 3 "b"; store 4 "c"] in
  (IndexLen x, MaxEntries (ix_cfg x)) = (4, 2).
Proof. by vm_compute. Qed.

Lemma index_bounded_witness :
  IndexLen (cache_run (NewIndex small_cfg 0) sample_events) <= 2 /\ 0 < 2.
Proof. apply (index_bounded small_cfg 0 sample_events); apply sample_events_ok. Defined.

Lemma eviction_takes_oldest_witness :
  exists k ek,
    let x := cache_run (NewIndex small_cfg 0) sample_events in
    let x' := ApplyStore any_order 400 5 "c" "" 8 0 x in
    IndexLen x' = IndexLen x /\ ix_entries x' !! k = None /\
    (ix_entries x !! k = Some ek \/ k = "c" /\ ie_UpdatedAt ek = 400) /\
    map_Forall (fun _ e => ie_UpdatedAt ek <= ie_UpdatedAt e) (ix_entries x').
Proof.
  apply (eviction_takes_oldest small_cfg 0 sample_events any_order 400 5 "c" "" 8 0);
    [ apply sample_events_ok | apply sample_events_ok | apply any_order_enumerates
    | discriminate | by vm_compute | by vm_compute ].
Defined.

Lemma no_phantom_locality_witness :
  fst (touched "b" sample_events) = true /\ 32 ∈ snd (touched "b" sample_events).
Proof.
  destruct (no_phantom_locality small_cfg 0 sample_events (fun _ => 350) "b") as (H1 & H2 & _);
    [by vm_compute|]. split; [exact H1 | exact H2].
Defined.

Lemma lookup_follows_events_witness :
  let x' := ApplyStore any_order 400 5 "a" "" 8 0 (cache_run (NewIndex small_cfg 0) sample_events) in
  fst (fst (LookupKey (fun _ => 401) "a" x')) = 8 /\
  fst (fst (LookupKey (fun _ => 401) "a" (ApplyRemove 500 6 "a" x'))) = 0 /\
  fst (fst (LookupKey (fun _ => 401) "a" (ApplyClear 500 6 x'))) = 0 /\
  fst (fst (LookupKey (fun _ => 401) "a" (IndexReset 500 x'))) = 0.
Proof.
  destruct sample_events_ok as [Hr Hk]. intros x'.
  refine (lookup_follows_events small_cfg 0 sample_events any_order 400 5 "a" "" 8 0
           (fun _ => 401) 500 6 Hr Hk any_order_enumerates _ eq_refl eq_refl _ _ _).
  - discriminate.
  - intros e He. right. vm_compute in He. injection He as <-. simpl. lia.
  - left. vm_compute. by eexists.
  - intros n. unfold i64_max. vm_compute. split; [done|]. split; done.
Defined.

Lemma stale_publishes_nothing_witness :
  let x := cache_run (NewIndex small_cfg 0) sample_events in
  let clk (n : nat) := 40 * second in
  fst (LookupKey clk "a" x) = (0, f64_zero) /\
  cs_Ready (snd (SnapshotMeta clk x)) = false /\ cs_Confidence (snd (SnapshotMeta clk x)) = f64_zero /\
  Directory clk map_to_list 10 x = ∅.
Proof.
  apply (stale_publishes_nothing (cache_run (NewIndex small_cfg 0) sample_events)
           (fun _ => 40 * second) map_to_list 10 "a"); [by vm_compute | intros _; by vm_compute].
Defined.

Lemma gap_detection_exact_witness :
  let x := cache_run (NewIndex small_cfg 0) sample_events in
  let x' := cache_apply x (CRemove 500 9 "b") in
  ix_lastSeq x' = 9 /\ ix_sequenceGaps x' = 2 /\ ix_outOfOrder x' = 1 /\ ix_eventsReceived x' = 5.
Proof.
  destruct (gap_detection_exact small_cfg 0 sample_events (CRemove 500 9 "b") 9 4)
    as (H1 & H2 & H3 & H4); [ | done | done | ].
  - repeat constructor; unfold in_i64, i64_min, i64_max; simpl; lia.
  - split; [exact H1|]. split; [exact H2|]. split; [exact H3 | exact H4].
Defined.

Lemma directory_newest_witness :
  Z.of_nat (size (Directory (fun _ => 400) map_to_list 1
    (cache_run (NewIndex small_cfg 0) sample_events))) <= 1.
Proof.
  destruct (directory_newest (cache_run (NewIndex small_cfg 0) sample_events) (fun _ => 400)
           map_to_list 1) as (_ & H & _);
    [intros m; reflexivity | done | by vm_compute | by vm_compute | exact H].
Defined.
