(* ===== verification/CacheProvider.v ===== *)
(** * Cache-observation providers ([internal/cache/provider.go], [explicit_provider.go],
      [vllm_provider.go])

    [Provider] is the interface of the Go package; [ProviderHonest] states what an implementation
    promises to the router (never a match it cannot vouch for, nothing left after a runtime
    restart).  The three implementations are instances, and so is [AnyProvider], the interface value
    [NewProvider] returns. *)

From Stdlib Require Import Floats.SpecFloat Ascii.
From stdpp Require Import base tactics numbers option list strings gmap fin_maps.
From S2P Require Import Prelude Ordering GoFloat GoTime CacheIndex CacheFacts.
Open Scope go_scope.

(** ** Key hashing

    SHA-256 is a parameter: a function from strings to the 32 bytes of the digest. *)

Definition hexdigit (n : Z) : ascii :=
  ascii_of_N (Z.to_N (if n <? 10 then 48 + n else 87 + n)).

(** [hex.EncodeToString]. *)
Fixpoint EncodeToString (bytes : list Z) : string :=
  match bytes with
  | [] => EmptyString
  | b :: rest => String (hexdigit (b / 16)) (String (hexdigit (b mod 16)) (EncodeToString rest))
  end.

Definition HashKey (sha256 : string -> list Z) (raw : string) : string :=
  if String.eqb raw "" then "" else EncodeToString (sha256 raw).

(** ** The interface *)

Record ProviderConfig := {
  pc_Mode : Mode;
  pc_Index : IndexConfig;
  pc_ExplicitHeaderEnabled : bool;
  pc_EventEndpoint : string;
}.

Class Provider (P : Type) := {
  p_Mode : P -> Mode;
  p_Snapshot : (nat -> Z) -> P -> P * CacheSnapshot;
  p_Lookup : (nat -> Z) -> PrefixQuery -> P -> MatchResult;
  p_OnRuntimeRestart : Z -> P -> P;
  p_SetKVHeadroom : f64 -> bool -> P -> P;
  p_Directory : (nat -> Z) -> (entry_map -> list (string * IndexEntry)) -> Z -> P -> gmap string Z;
}.

(** What the router relies on, for provider states satisfying [inv]. *)
Class ProviderHonest (P : Type) `{Provider P} (inv : P -> Prop) : Prop := {
  (** a provider that cannot match claims nothing and publishes nothing *)
  ph_unsupported p clk q : mr_MatchSupported (p_Lookup clk q p) = false ->
    mr_MatchedPrefixTokens (p_Lookup clk q p) = 0 /\ mr_Confidence (p_Lookup clk q p) = f64_zero /\
    forall clk' rng max, p_Directory clk' rng max p = ∅;
  (** a match is within what the request claims *)
  ph_bound p clk q : inv p -> 0 <= PrefixTokens q ->
    0 <= mr_MatchedPrefixTokens (p_Lookup clk q p) <= PrefixTokens q;
  (** a match comes with a confidence that is not zero *)
  ph_confident p clk q : mr_MatchedPrefixTokens (p_Lookup clk q p) <> 0 ->
    f64_leb (mr_Confidence (p_Lookup clk q p)) f64_zero = false;
  (** a restart leaves no locality *)
  ph_restart p now clk q :
    mr_MatchedPrefixTokens (p_Lookup clk q (p_OnRuntimeRestart now p)) = 0 /\
    forall clk' rng max, (forall m, rng m ≡ₚ map_to_list m) ->
      p_Directory clk' rng max (p_OnRuntimeRestart now p) = ∅;
  ph_restart_inv p now : inv p -> inv (p_OnRuntimeRestart now p);
  ph_headroom_inv p h s : inv p -> inv (p_SetKVHeadroom h s p);
  ph_snapshot_inv p clk : inv p -> inv (fst (p_Snapshot clk p));
}.

(** ** Disabled *)

Inductive DisabledProvider := NewDisabledProvider.

Definition disabled_Lookup (q : PrefixQuery) : MatchResult := NoMatch "cache_observation_disabled".

Definition disabled_Snapshot : CacheSnapshot :=
  {| cs_Enabled := false; cs_Provider := Mode_string ModeDisabled; cs_Supported := false;
     cs_MatchSupported := false; cs_Ready := false; cs_Confidence := f64_zero; cs_SnapshotAgeMs := -1;
     cs_LastEventSequence := -1; cs_CacheResetEpoch := 0; cs_IndexEntries := 0;
     cs_IndexMaxEntries := 0; cs_KVHeadroom := f64_zero; cs_KVHeadroomSupported := false;
     cs_EventsReceivedTotal := 0; cs_EventsDroppedTotal := 0; cs_SequenceGapsTotal := 0;
     cs_StaleInvalidations := 0; cs_DuplicateEventsTotal := 0; cs_OutOfOrderEventsTotal := 0;
     cs_ResetsTotal := 0; cs_UpdatedAt := time_zero |}.

#[export] Instance disabled_provider : Provider DisabledProvider := {
  p_Mode _ := ModeDisabled;
  p_Snapshot _ p := (p, disabled_Snapshot);
  p_Lookup _ q _ := disabled_Lookup q;
  p_OnRuntimeRestart _ p := p;
  p_SetKVHeadroom _ _ p := p;
  p_Directory _ _ _ _ := ∅;
}.

#[export] Instance disabled_honest : ProviderHonest DisabledProvider (fun _ => True).
Proof. split; simpl; try done. Qed.

(** ** Explicit keys *)

Record ExplicitProvider := {
  ep_cfg : ProviderConfig;
  ep_index : Index;
  ep_seq : Z;
  ep_kvHeadroom : f64;
  ep_kvSupported : bool;
  ep_started : bool;
  ep_resetEpoch : Z;
}.

(** The index configuration a provider uses: the default one when [MaxEntries] is 0. *)
Definition provider_index_cfg (cfg : ProviderConfig) : ProviderConfig :=
  if cfg.(pc_Index).(MaxEntries) =? 0 then
    {| pc_Mode := cfg.(pc_Mode); pc_Index := DefaultIndexConfig;
       pc_ExplicitHeaderEnabled := cfg.(pc_ExplicitHeaderEnabled);
       pc_EventEndpoint := cfg.(pc_EventEndpoint) |}
  else cfg.

Definition NewExplicitProvider (cfg : ProviderConfig) (now : Z) : ExplicitProvider :=
  let cfg := provider_index_cfg cfg in
  {| ep_cfg := cfg; ep_index := NewIndex cfg.(pc_Index) now; ep_seq := 0; ep_kvHeadroom := f64_zero;
     ep_kvSupported := false; ep_started := false; ep_resetEpoch := 0 |}.

Definition ep_set_index (x : Index) (p : ExplicitProvider) : ExplicitProvider :=
  {| ep_cfg := p.(ep_cfg); ep_index := x; ep_seq := p.(ep_seq); ep_kvHeadroom := p.(ep_kvHeadroom);
     ep_kvSupported := p.(ep_kvSupported); ep_started := p.(ep_started);
     ep_resetEpoch := p.(ep_resetEpoch) |}.

Definition explicit_Start (p : ExplicitProvider) : ExplicitProvider :=
  {| ep_cfg := p.(ep_cfg); ep_index := p.(ep_index); ep_seq := p.(ep_seq);
     ep_kvHeadroom := p.(ep_kvHeadroom); ep_kvSupported := p.(ep_kvSupported); ep_started := true;
     ep_resetEpoch := p.(ep_resetEpoch) |}.

Definition explicit_OnRuntimeRestart (now : Z) (p : ExplicitProvider) : ExplicitProvider :=
  {| ep_cfg := p.(ep_cfg); ep_index := IndexReset now p.(ep_index); ep_seq := p.(ep_seq);
     ep_kvHeadroom := p.(ep_kvHeadroom); ep_kvSupported := p.(ep_kvSupported);
     ep_started := p.(ep_started); ep_resetEpoch := wrap64 (p.(ep_resetEpoch) + 1) |}.

Definition explicit_SetKVHeadroom (h : f64) (supported : bool) (p : ExplicitProvider) :
    ExplicitProvider :=
  {| ep_cfg := p.(ep_cfg); ep_index := p.(ep_index); ep_seq := p.(ep_seq); ep_kvHeadroom := h;
     ep_kvSupported := supported; ep_started := p.(ep_started);
     ep_resetEpoch := p.(ep_resetEpoch) |}.

(** The sequence number is taken before the index is locked, so observations of two requests may
    reach the index in either order; each is one call of [Observe]. *)
Definition Observe (rng : nat -> entry_map -> list (string * IndexEntry)) (now : Z)
    (keyHash : string) (tokens : Z) (p : ExplicitProvider) : ExplicitProvider :=
  if String.eqb keyHash "" || (tokens <=? 0) then p
  else
    let s := wrap64 (p.(ep_seq) + 1) in
    {| ep_cfg := p.(ep_cfg); ep_index := ApplyStore rng now s keyHash "" tokens 0 p.(ep_index);
       ep_seq := s; ep_kvHeadroom := p.(ep_kvHeadroom); ep_kvSupported := p.(ep_kvSupported);
       ep_started := p.(ep_started); ep_resetEpoch := p.(ep_resetEpoch) |}.

Definition explicit_Lookup (clk : nat -> Z) (q : PrefixQuery) (p : ExplicitProvider) : MatchResult :=
  let answer tokens conf age reason :=
    {| mr_Supported := true; mr_MatchSupported := true; mr_MatchedPrefixTokens := tokens;
       mr_Confidence := conf; mr_SnapshotAgeMs := age; mr_Reason := reason |} in
  if negb (Eligible q) then answer 0 f64_one 0 "no_prefix_key"
  else
    let '(recorded, conf, ageMs) := LookupKey clk q.(PrefixKeyHash) p.(ep_index) in
    if recorded =? 0 then answer 0 conf ageMs "cold_prefix"
    else
      let matched := if recorded <? q.(PrefixTokens) then recorded else q.(PrefixTokens) in
      if f64_leb conf f64_zero then answer 0 f64_zero ageMs "stale_record"
      else answer matched conf ageMs "warm_prefix".

Definition cs_with (s : CacheSnapshot) (provider : string) (matchSupported ready : bool)
    (age : Z) (headroom : f64) (headroomSupported : bool) (updated : Z) : CacheSnapshot :=
  {| cs_Enabled := true; cs_Provider := provider; cs_Supported := true;
     cs_MatchSupported := matchSupported; cs_Ready := ready; cs_Confidence := s.(cs_Confidence);
     cs_SnapshotAgeMs := age; cs_LastEventSequence := s.(cs_LastEventSequence);
     cs_CacheResetEpoch := s.(cs_CacheResetEpoch); cs_IndexEntries := s.(cs_IndexEntries);
     cs_IndexMaxEntries := s.(cs_IndexMaxEntries); cs_KVHeadroom := headroom;
     cs_KVHeadroomSupported := headroomSupported;
     cs_EventsReceivedTotal := s.(cs_EventsReceivedTotal);
     cs_EventsDroppedTotal := s.(cs_EventsDroppedTotal);
     cs_SequenceGapsTotal := s.(cs_SequenceGapsTotal);
     cs_StaleInvalidations := s.(cs_StaleInvalidations);
     cs_DuplicateEventsTotal := s.(cs_DuplicateEventsTotal);
     cs_OutOfOrderEventsTotal := s.(cs_OutOfOrderEventsTotal);
     cs_ResetsTotal := s.(cs_ResetsTotal); cs_UpdatedAt := updated |}.

(** [nz]: the current time in place of a zero time. *)
Definition nz (now t : Z) : Z := if time_is_zero t then now else t.

Definition explicit_Snapshot (clk : nat -> Z) (p : ExplicitProvider) :
    ExplicitProvider * CacheSnapshot :=
  let '(x, s) := SnapshotMeta clk p.(ep_index) in
  (ep_set_index x p,
   cs_with s (Mode_string ModeExplicit) true
     (if negb s.(cs_Ready) then p.(ep_started) else s.(cs_Ready))
     (if s.(cs_SnapshotAgeMs) <? 0 then 0 else s.(cs_SnapshotAgeMs))
     p.(ep_kvHeadroom) p.(ep_kvSupported) (nz (clk 4%nat) s.(cs_UpdatedAt))).

#[export] Instance explicit_provider : Provider ExplicitProvider := {
  p_Mode _ := ModeExplicit;
  p_Snapshot := explicit_Snapshot;
  p_Lookup := explicit_Lookup;
  p_OnRuntimeRestart := explicit_OnRuntimeRestart;
  p_SetKVHeadroom := explicit_SetKVHeadroom;
  p_Directory clk rng max p := Directory clk rng max p.(ep_index);
}.

(** ** Native vLLM events *)

Inductive BlockEventKind := EventBlockStored | EventBlockRemoved | EventAllCleared.

Record BlockEvent := {
  be_Kind : BlockEventKind;
  be_Seq : Z;
  be_BlockKeyHash : string;
  be_ParentKeyHash : string;
  be_BlockSize : Z;
}.

Record VLLMProvider := {
  vp_cfg : ProviderConfig;
  vp_index : Index;
  vp_kvHeadroom : f64;
  vp_kvSupported : bool;
  vp_started : bool;
  vp_matchSupported : bool;
}.

Definition NewVLLMProvider (cfg : ProviderConfig) (now : Z) : VLLMProvider :=
  let cfg := provider_index_cfg cfg in
  {| vp_cfg := cfg; vp_index := NewIndex cfg.(pc_Index) now; vp_kvHeadroom := f64_zero;
     vp_kvSupported := false; vp_started := false; vp_matchSupported := false |}.

Definition vp_set_index (x : Index) (p : VLLMProvider) : VLLMProvider :=
  {| vp_cfg := p.(vp_cfg); vp_index := x; vp_kvHeadroom := p.(vp_kvHeadroom);
     vp_kvSupported := p.(vp_kvSupported); vp_started := p.(vp_started);
     vp_matchSupported := p.(vp_matchSupported) |}.

Definition Ingest (rng : nat -> entry_map -> list (string * IndexEntry)) (now : Z)
    (ev : BlockEvent) (p : VLLMProvider) : VLLMProvider :=
  match ev.(be_Kind) with
  | EventBlockStored =>
      let bs := ev.(be_BlockSize) in
      vp_set_index (ApplyStore rng now ev.(be_Seq) ev.(be_BlockKeyHash) ev.(be_ParentKeyHash) bs bs
                      p.(vp_index)) p
  | EventBlockRemoved => vp_set_index (ApplyRemove now ev.(be_Seq) ev.(be_BlockKeyHash) p.(vp_index)) p
  | EventAllCleared => vp_set_index (ApplyClear now ev.(be_Seq) p.(vp_index)) p
  end.

Definition vllm_OnRuntimeRestart (now : Z) (p : VLLMProvider) : VLLMProvider :=
  vp_set_index (IndexReset now p.(vp_index)) p.

Definition vllm_SetKVHeadroom (h : f64) (supported : bool) (p : VLLMProvider) : VLLMProvider :=
  {| vp_cfg := p.(vp_cfg); vp_index := p.(vp_index); vp_kvHeadroom := h;
     vp_kvSupported := supported; vp_started := p.(vp_started);
     vp_matchSupported := p.(vp_matchSupported) |}.

Definition vllm_Lookup (clk : nat -> Z) (q : PrefixQuery) (p : VLLMProvider) : MatchResult :=
  if negb p.(vp_matchSupported) then
    {| mr_Supported := true; mr_MatchSupported := false; mr_MatchedPrefixTokens := 0;
       mr_Confidence := f64_zero; mr_SnapshotAgeMs := 0;
       mr_Reason := "native_match_unsupported_on_stack" |}
  else
    let '(recorded, conf, ageMs) := LookupKey clk q.(PrefixKeyHash) p.(vp_index) in
    if (recorded =? 0) || f64_leb conf f64_zero then
      {| mr_Supported := true; mr_MatchSupported := true; mr_MatchedPrefixTokens := 0;
         mr_Confidence := conf; mr_SnapshotAgeMs := ageMs; mr_Reason := "cold_or_stale" |}
    else
      let matched := if recorded <? q.(PrefixTokens) then recorded else q.(PrefixTokens) in
      {| mr_Supported := true; mr_MatchSupported := true; mr_MatchedPrefixTokens := matched;
         mr_Confidence := conf; mr_SnapshotAgeMs := ageMs; mr_Reason := "warm_block_match" |}.

Definition vllm_Directory (clk : nat -> Z) (rng : entry_map -> list (string * IndexEntry)) (max : Z)
    (p : VLLMProvider) : gmap string Z :=
  if negb p.(vp_matchSupported) then ∅ else Directory clk rng max p.(vp_index).

Definition vllm_Snapshot (clk : nat -> Z) (p : VLLMProvider) : VLLMProvider * CacheSnapshot :=
  let '(x, s) := SnapshotMeta clk p.(vp_index) in
  (vp_set_index x p,
   cs_with s (Mode_string ModeVLLMEvents) p.(vp_matchSupported) s.(cs_Ready) s.(cs_SnapshotAgeMs)
     p.(vp_kvHeadroom) p.(vp_kvSupported) s.(cs_UpdatedAt)).

#[export] Instance vllm_provider : Provider VLLMProvider := {
  p_Mode _ := ModeVLLMEvents;
  p_Snapshot := vllm_Snapshot;
  p_Lookup := vllm_Lookup;
  p_OnRuntimeRestart := vllm_OnRuntimeRestart;
  p_SetKVHeadroom := vllm_SetKVHeadroom;
  p_Directory := vllm_Directory;
}.

(** ** The interface value *)

Inductive AnyProvider :=
  | PDisabled (p : DisabledProvider)
  | PExplicit (p : ExplicitProvider)
  | PVLLM (p : VLLMProvider).

Definition NewProvider (cfg : ProviderConfig) (now : Z) : AnyProvider :=
  match cfg.(pc_Mode) with
  | ModeExplicit => PExplicit (NewExplicitProvider cfg now)
  | ModeVLLMEvents => PVLLM (NewVLLMProvider cfg now)
  | ModeDisabled => PDisabled NewDisabledProvider
  end.

#[export] Instance any_provider : Provider AnyProvider := {
  p_Mode p := match p with PDisabled q => p_Mode q | PExplicit q => p_Mode q | PVLLM q => p_Mode q end;
  p_Snapshot clk p :=
    match p with
    | PDisabled q => let '(q', s) := p_Snapshot clk q in (PDisabled q', s)
    | PExplicit q => let '(q', s) := p_Snapshot clk q in (PExplicit q', s)
    | PVLLM q => let '(q', s) := p_Snapshot clk q in (PVLLM q', s)
    end;
  p_Lookup clk query p :=
    match p with
    | PDisabled q => p_Lookup clk query q
    | PExplicit q => p_Lookup clk query q
    | PVLLM q => p_Lookup clk query q
    end;
  p_OnRuntimeRestart now p :=
    match p with
    | PDisabled q => PDisabled (p_OnRuntimeRestart now q)
    | PExplicit q => PExplicit (p_OnRuntimeRestart now q)
    | PVLLM q => PVLLM (p_OnRuntimeRestart now q)
    end;
  p_SetKVHeadroom h s p :=
    match p with
    | PDisabled q => PDisabled (p_SetKVHeadroom h s q)
    | PExplicit q => PExplicit (p_SetKVHeadroom h s q)
    | PVLLM q => PVLLM (p_SetKVHeadroom h s q)
    end;
  p_Directory clk rng max p :=
    match p with
    | PDisabled q => p_Directory clk rng max q
    | PExplicit q => p_Directory clk rng max q
    | PVLLM q => p_Directory clk rng max q
    end;
}.

(** ** The implementations keep the contract *)

Definition tokens_pos (x : Index) : Prop :=
  map_Forall (fun _ e => 0 < ie_MatchedTokens e) (ix_entries x).

Lemma LookupKey_pos clk key x : tokens_pos x -> 0 <= fst (fst (LookupKey clk key x)).
Proof.
  intros Hx. destruct (decide (fst (fst (LookupKey clk key x)) = 0)) as [->|Hne]; [done|].
  destruct (lookup_present clk key x Hne) as (_ & e & He & _ & <- & _).
  specialize (Hx key e He). simpl in Hx. lia.
Qed.

Lemma LookupKey_reset clk key now x : fst (fst (LookupKey clk key (IndexReset now x))) = 0.
Proof.
  rewrite LookupKey_tokens. unfold lookupKeyLocked. simpl. rewrite lookup_empty.
  by destruct (isStaleLocked _ _).
Qed.

Lemma Directory_reset clk rng max now x : Directory clk rng max (IndexReset now x) = ∅.
Proof. unfold Directory. simpl. by rewrite orb_true_r. Qed.

Lemma tokens_pos_store rng now seq key parent tokens bs x :
  0 < tokens -> tokens_pos x -> tokens_pos (ApplyStore rng now seq key parent tokens bs x).
Proof.
  intros Ht Hx k e He. apply ApplyStore_sub in He as [(e0 & He0 & [-> | [_ Heq]])|[_ ->]]; [| |done].
  - by apply (Hx k).
  - rewrite Heq. by apply (Hx k).
Qed.

#[export] Instance explicit_honest : ProviderHonest ExplicitProvider (fun p => tokens_pos (ep_index p)).
Proof.
  split; simpl.
  - intros p clk q. unfold explicit_Lookup. destruct (negb (Eligible q)); [done|].
    destruct (LookupKey _ _ _) as [[rec conf] age]. go_split; done.
  - intros p clk q Hp Hq. unfold explicit_Lookup. destruct (negb (Eligible q)); [simpl; lia|].
    pose proof (LookupKey_pos clk (PrefixKeyHash q) _ Hp) as Hpos.
    destruct (LookupKey _ _ _) as [[rec conf] age]. simpl in Hpos.
    go_split; simpl; go_bool; lia.
  - intros p clk q. unfold explicit_Lookup. destruct (negb (Eligible q)); [done|].
    destruct (LookupKey _ _ _) as [[rec conf] age]. go_split; done.
  - intros p now clk q. split; [|intros; apply Directory_reset].
    unfold explicit_Lookup. destruct (negb (Eligible q)); [done|].
    pose proof (LookupKey_reset clk (PrefixKeyHash q) now (ep_index p)) as H0. simpl.
    destruct (LookupKey _ _ _) as [[rec conf] age]. simpl in H0. by subst rec.
  - intros p now _ k e. simpl. by rewrite lookup_empty.
  - done.
  - intros p clk Hp. change (tokens_pos (ep_index (fst (explicit_Snapshot clk p)))).
    unfold explicit_Snapshot. destruct (SnapshotMeta_entries clk (ep_index p)) as [He _].
    destruct (SnapshotMeta clk (ep_index p)) as [x s]. 
    simpl in *. unfold tokens_pos. by rewrite He.
Qed.

#[export] Instance vllm_honest : ProviderHonest VLLMProvider (fun p => vp_matchSupported p = false).
Proof.
  split; simpl.
  - intros p clk q. unfold vllm_Lookup, vllm_Directory. destruct (vp_matchSupported p); simpl; [|done].
    destruct (LookupKey _ _ _) as [[rec conf] age]. destruct (_ || _); done.
  - intros p clk q Hp Hq. unfold vllm_Lookup. rewrite Hp. simpl. lia.
  - intros p clk q. unfold vllm_Lookup. destruct (vp_matchSupported p); simpl; [|done].
    destruct (LookupKey _ _ _) as [[rec conf] age].
    destruct (rec =? 0) eqn:E; [done|]. simpl. destruct (f64_leb conf f64_zero) eqn:E2; done.
  - intros p now clk q. split.
    + unfold vllm_Lookup. simpl. destruct (vp_matchSupported p); simpl; [|done].
      pose proof (LookupKey_reset clk (PrefixKeyHash q) now (vp_index p)) as H0.
      destruct (LookupKey _ _ _) as [[rec conf] age]. simpl in H0. by subst rec.
    + intros. unfold vllm_Directory. simpl. destruct (vp_matchSupported p); [|done].
      apply Directory_reset.
  - done.
  - done.
  - intros p clk Hp. done.
Qed.

Definition any_inv (p : AnyProvider) : Prop :=
  match p with
  | PDisabled _ => True
  | PExplicit q => tokens_pos (ep_index q)
  | PVLLM q => vp_matchSupported q = false
  end.

#[export] Instance any_honest : ProviderHonest AnyProvider any_inv.
Proof.
  split.
  - intros [p|p|p] clk q H; by apply (ph_unsupported p clk q).
  - intros [p|p|p] clk q Hp Hq; by apply (ph_bound p clk q).
  - intros [p|p|p] clk q H; by apply (ph_confident p clk q).
  - intros [p|p|p] now clk q; apply (ph_restart p now clk q).
  - intros [p|p|p] now H; [done | | done].
    exact (ph_restart_inv (inv := fun p => tokens_pos (ep_index p)) p now H).
  - intros [p|p|p] h s H; done.
  - intros [p|p|p] clk H; [done| |].
    + pose proof (ph_snapshot_inv (inv := fun p => tokens_pos (ep_index p)) p clk H) as H'.
      cbn [p_Snapshot any_provider] in *. by destruct (p_Snapshot clk p) as [p' s].
    + pose proof (ph_snapshot_inv (inv := fun p => vp_matchSupported p = false) p clk H) as H'.
      cbn [p_Snapshot any_provider] in *. by destruct (p_Snapshot clk p) as [p' s].
Qed.

(** ** Reachable providers *)

Inductive provider_op :=
  | PObserve (rng : nat -> entry_map -> list (string * IndexEntry)) (now : Z) (keyHash : string)
      (tokens : Z)
  | PIngest (rng : nat -> entry_map -> list (string * IndexEntry)) (now : Z) (ev : BlockEvent)
  | PRestart (now : Z)
  | PHeadroom (h : f64) (supported : bool)
  | PSnapshot (clk : nat -> Z)
  | PStart.

(** [Observe] exists only on the explicit provider and [Ingest] only on the native one. *)
Definition provider_apply (p : AnyProvider) (op : provider_op) : AnyProvider :=
  match op, p with
  | PObserve rng now k t, PExplicit q => PExplicit (Observe rng now k t q)
  | PIngest rng now ev, PVLLM q => PVLLM (Ingest rng now ev q)
  | PRestart now, _ => p_OnRuntimeRestart now p
  | PHeadroom h s, _ => p_SetKVHeadroom h s p
  | PSnapshot clk, _ => fst (p_Snapshot clk p)
  | PStart, PExplicit q => PExplicit (explicit_Start q)
  | _, _ => p
  end.

Definition provider_run (p : AnyProvider) (ops : list provider_op) : AnyProvider :=
  fold_left provider_apply ops p.

Lemma any_inv_run cfg now0 ops : any_inv (provider_run (NewProvider cfg now0) ops).
Proof.
  induction ops as [|op ops IH] using rev_ind.
  - unfold NewProvider. destruct (pc_Mode cfg); simpl; [done| |done].
    intros k e. simpl. by rewrite lookup_empty.
  - unfold provider_run in *. rewrite fold_left_app. simpl. set (p := fold_left _ ops _) in *.
    destruct op as [rng now k t|rng now ev|now|h s|clk|].
    + destruct p as [q|q|q]; simpl; [done| |done]. unfold Observe.
      destruct (String.eqb k "" || (t <=? 0)) eqn:E; [done|]. go_bool. simpl.
      by apply tokens_pos_store.
    + destruct p as [q|q|q]; simpl; [done|done|]. unfold Ingest. by destruct (be_Kind ev).
    + by apply (ph_restart_inv p now).
    + by apply (ph_headroom_inv p h s).
    + by apply (ph_snapshot_inv p clk).
    + by destruct p.
Qed.

(** ** The properties *)

(** C27: the provider contract.  In every reachable state of the provider built for any mode, a lookup
    never claims more tokens than the request does, claims none without a non-zero confidence, and
    where matching is not supported claims none and publishes no directory; and after a runtime
    restart no request finds any locality. *)
Theorem provider_contract cfg now0 ops clk q now :
  let p := provider_run (NewProvider cfg now0) ops in
  let r := p_Lookup clk q p in
  (0 <= PrefixTokens q -> 0 <= mr_MatchedPrefixTokens r <= PrefixTokens q) /\
  (mr_MatchedPrefixTokens r <> 0 -> f64_leb (mr_Confidence r) f64_zero = false) /\
  (mr_MatchSupported r = false ->
     mr_MatchedPrefixTokens r = 0 /\ mr_Confidence r = f64_zero /\
     forall clk' rng max, p_Directory clk' rng max p = ∅) /\
  mr_MatchedPrefixTokens (p_Lookup clk q (p_OnRuntimeRestart now p)) = 0.
Proof.
  intros p r. pose proof (any_inv_run cfg now0 ops) as Hp. fold p in Hp.
  split_and!; [by apply ph_bound | apply ph_confident | apply ph_unsupported | apply ph_restart].
Qed.

Lemma hexdigit_inj a b : 0 <= a < 16 -> 0 <= b < 16 -> hexdigit a = hexdigit b -> a = b.
Proof.
  intros Ha Hb. assert (Hall : forallb (fun a => forallb (fun b =>
    (a =? b) || negb (Ascii.eqb (hexdigit a) (hexdigit b))) (seqZ 0 16)) (seqZ 0 16) = true) by done.
  rewrite forallb_forall in Hall. specialize (Hall a). rewrite forallb_forall in Hall.
  specialize (Hall ltac:(apply list_elem_of_In, elem_of_seqZ; lia) b
    ltac:(apply list_elem_of_In, elem_of_seqZ; lia)).
  intros Heq. rewrite Heq, Ascii.eqb_refl, orb_false_r in Hall. by apply Z.eqb_eq.
Qed.

Lemma EncodeToString_inj l k :
  Forall (fun b => 0 <= b < 256) l -> Forall (fun b => 0 <= b < 256) k ->
  EncodeToString l = EncodeToString k -> l = k.
Proof.
  intros Hl. revert k. induction Hl as [|b l Hb Hl IH]; intros k Hk; destruct k as [|c k]; try done.
  apply Forall_cons in Hk as [Hc Hk]. cbn [EncodeToString]. intros [= H1 H2 H3].
  apply hexdigit_inj in H1; [|split; [apply Z.div_pos; lia | apply Z.div_lt_upper_bound; lia]..].
  apply hexdigit_inj in H2; [|apply Z.mod_pos_bound; lia..].
  f_equal; [|by apply IH]. rewrite (Z.div_mod b 16), (Z.div_mod c 16), H1, H2 by lia. done.
Qed.

(** Hashing keeps absence and identity.  For a digest function that returns 32 bytes, only the
    empty key hashes to the empty (not eligible) key; and two keys with the same hash are equal or a
    collision of the digest. *)
Theorem HashKey_faithful sha256 raw1 raw2 tokens :
  (forall s, length (sha256 s) = 32%nat /\ Forall (fun b => 0 <= b < 256) (sha256 s)) ->
  Eligible {| PrefixKeyHash := HashKey sha256 raw1; PrefixTokens := tokens |} =
    negb (String.eqb raw1 "") /\
  (HashKey sha256 raw1 = HashKey sha256 raw2 ->
   raw1 = raw2 \/ raw1 <> "" /\ raw2 <> "" /\ sha256 raw1 = sha256 raw2).
Proof.
  intros Hsha. assert (Hne : forall s, EncodeToString (sha256 s) <> "").
  { intros s. destruct (Hsha s) as [Hlen _]. by destruct (sha256 s). }
  unfold Eligible, HashKey. simpl.
  destruct (String.eqb_spec raw1 "") as [->|H1], (String.eqb_spec raw2 "") as [->|H2]; simpl.
  - split; [done|by left].
  - split; [done|]. intros Heq. by destruct (Hne raw2).
  - split; [by apply negb_true_iff, String.eqb_neq|]. intros Heq. by destruct (Hne raw1).
  - split; [by apply negb_true_iff, String.eqb_neq|]. intros Heq.
    apply EncodeToString_inj in Heq; [|apply Hsha..]. right. done.
Qed.

(** A digest of the right shape: 32 copies of the key's length modulo 256. *)
Definition toy_digest (s : string) : list Z := replicate 32 (Z.of_nat (String.length s) mod 256).

Lemma HashKey_faithful_witness :
  Eligible {| PrefixKeyHash := HashKey toy_digest "abc"; PrefixTokens := 8 |} = true.
Proof.
  destruct (HashKey_faithful toy_digest "abc" "" 8) as [H _].
  - intros s. unfold toy_digest. split; [by rewrite length_replicate|].
    apply Forall_replicate. apply Z.mod_pos_bound. lia.
  - exact H.
Defined.
