(* ===== verification/EventTransport.v ===== *)
(** * The transport of the native events ([internal/cache/vllm_provider.go])

    [Start] attaches a goroutine to the channel of the event source; [Stop] cancels it, stops the source and waits for the
    goroutine.  The goroutine, the source, the caller of [Stop] and the watcher of the runtime interleave: a step is one
    channel operation, one turn of the [select], or one call on the provider or its return.  When the context is done and
    an event is there as well, [select] may take either; both steps are enabled.  The source is an interface with no
    implementation here: the capacity of its channel is open, a send into a full channel waits (it is not enabled), and
    the return of its [Stop], which [Stop] waits for, is a step of the source that may never come. *)

From Stdlib Require Import Floats.SpecFloat.
From stdpp Require Import base tactics numbers option list strings gmap.
From S2P Require Import Prelude GoFloat GoTime CacheIndex CacheProvider.
Open Scope go_scope.

(** ** State *)

Inductive LoopState := LoopAbsent | LoopSelecting | LoopReturned.
(** [StopInSource]: in [p.source.Stop()]; [StopWaiting]: in [p.wg.Wait()]. *)
Inductive StopState := StopNotCalled | StopInSource | StopWaiting | StopReturned.

Record Transport := {
  et_provider : VLLMProvider;
  et_source : bool;
  et_cap : nat;
  et_done : option bool;
  et_chan : list BlockEvent;
  et_closed : bool;
  et_loop : LoopState;
  et_stop : StopState;
}.

(** [et_done]: the context [Start] made, and whether it is done; [et_chan]: what was sent and not received, at most
    [et_cap] events. *)
Definition transport (p : VLLMProvider) (source : bool) (cap : nat) : Transport :=
  {| et_provider := p; et_source := source; et_cap := cap; et_done := None; et_chan := []; et_closed := false;
     et_loop := LoopAbsent; et_stop := StopNotCalled |}.

Definition set_provider (p : VLLMProvider) (t : Transport) : Transport :=
  {| et_provider := p; et_source := t.(et_source); et_cap := t.(et_cap); et_done := t.(et_done); et_chan := t.(et_chan);
     et_closed := t.(et_closed); et_loop := t.(et_loop); et_stop := t.(et_stop) |}.
Definition set_loop (l : LoopState) (t : Transport) : Transport :=
  {| et_provider := t.(et_provider); et_source := t.(et_source); et_cap := t.(et_cap); et_done := t.(et_done); et_chan := t.(et_chan);
     et_closed := t.(et_closed); et_loop := l; et_stop := t.(et_stop) |}.
Definition set_chan (c : list BlockEvent) (closed : bool) (t : Transport) : Transport :=
  {| et_provider := t.(et_provider); et_source := t.(et_source); et_cap := t.(et_cap); et_done := t.(et_done); et_chan := c;
     et_closed := closed; et_loop := t.(et_loop); et_stop := t.(et_stop) |}.
Definition set_stop (done : option bool) (s : StopState) (t : Transport) : Transport :=
  {| et_provider := t.(et_provider); et_source := t.(et_source); et_cap := t.(et_cap); et_done := done; et_chan := t.(et_chan);
     et_closed := t.(et_closed); et_loop := t.(et_loop); et_stop := s |}.

(** ** Start *)

Definition vp_start (p : VLLMProvider) : VLLMProvider :=
  {| vp_cfg := p.(vp_cfg); vp_index := p.(vp_index); vp_kvHeadroom := p.(vp_kvHeadroom); vp_kvSupported := p.(vp_kvSupported);
     vp_started := true; vp_matchSupported := p.(vp_matchSupported) |}.

(** [starts]: what the source's own [Start] answers; the result is whether [Start] succeeds. *)
Definition vllm_Start (starts : bool) (t : Transport) : Transport * bool :=
  let t := set_stop (Some false) t.(et_stop) (set_provider (vp_start t.(et_provider)) t) in
  if negb t.(et_source) then (t, true)
  else if negb starts then (t, false)
  else (set_loop LoopSelecting t, true).

(** ** Steps *)

Inductive tlabel :=
  | TSend (ev : BlockEvent)
  | TPass (ev : BlockEvent) (rng : nat -> entry_map -> list (string * IndexEntry)) (now : Z)
  | TClose
  | TCancel
  | TReceive (rng : nat -> entry_map -> list (string * IndexEntry)) (now : Z)
  | TLoopDone
  | TLoopClosed
  | TStop
  | TSourceStopped
  | TStopReturn
  | TRestart (now : Z)
  | THeadroom (h : f64) (supported : bool)
  | TSnapshot (clk : nat -> Z).

Definition is_done (t : Transport) : bool := default false t.(et_done).

(** [None]: the step is not enabled.  The second part is what reaches the provider.  [TPass] is a send that meets the
    waiting goroutine, the only kind of send on a channel without a buffer. *)
Definition tstep (l : tlabel) (t : Transport) : option (Transport * list provider_op) :=
  match l with
  | TSend ev => if t.(et_closed) || (et_cap t <=? length t.(et_chan))%nat then None else Some (set_chan (t.(et_chan) ++ [ev]) false t, [])
  | TPass ev rng now =>
      match t.(et_loop), t.(et_chan), t.(et_closed) with
      | LoopSelecting, [], false => Some (set_provider (Ingest rng now ev t.(et_provider)) t, [PIngest rng now ev])
      | _, _, _ => None
      end
  | TClose => if t.(et_closed) then None else Some (set_chan t.(et_chan) true t, [])
  | TCancel => match t.(et_done) with Some _ => Some (set_stop (Some true) t.(et_stop) t, []) | None => None end
  | TReceive rng now =>
      match t.(et_loop), t.(et_chan) with
      | LoopSelecting, ev :: c =>
          Some (set_provider (Ingest rng now ev t.(et_provider)) (set_chan c t.(et_closed) t), [PIngest rng now ev])
      | _, _ => None
      end
  | TLoopDone =>
      match t.(et_loop) with LoopSelecting => if is_done t then Some (set_loop LoopReturned t, []) else None | _ => None end
  | TLoopClosed =>
      match t.(et_loop), t.(et_chan) with
      | LoopSelecting, [] => if t.(et_closed) then Some (set_loop LoopReturned t, []) else None
      | _, _ => None
      end
  | TStop =>
      match t.(et_stop) with
      | StopNotCalled =>
          Some (set_stop ((fun _ => true) <$> t.(et_done)) (if t.(et_source) then StopInSource else StopWaiting) t, [])
      | _ => None
      end
  | TSourceStopped =>
      match t.(et_stop) with StopInSource => Some (set_stop t.(et_done) StopWaiting t, []) | _ => None end
  | TStopReturn =>
      match t.(et_stop), t.(et_loop) with
      | StopWaiting, (LoopAbsent | LoopReturned) => Some (set_stop t.(et_done) StopReturned t, [])
      | _, _ => None
      end
  | TRestart now => Some (set_provider (vllm_OnRuntimeRestart now t.(et_provider)) t, [PRestart now])
  | THeadroom h s => Some (set_provider (vllm_SetKVHeadroom h s t.(et_provider)) t, [PHeadroom h s])
  | TSnapshot clk => Some (set_provider (vllm_Snapshot clk t.(et_provider)).1 t, [PSnapshot clk])
  end.

Fixpoint trun (ls : list tlabel) (t : Transport) : option (Transport * list provider_op) :=
  match ls with
  | [] => Some (t, [])
  | l :: ls =>
      '(t, out) ← tstep l t;
      '(t, outs) ← trun ls t;
      Some (t, out ++ outs)
  end.

(** ** What was sent and what arrived *)

Definition sent (ls : list tlabel) : list BlockEvent := omap (fun l => match l with TSend ev | TPass ev _ _ => Some ev | _ => None end) ls.
Definition arrived (ops : list provider_op) : list BlockEvent := omap (fun o => match o with PIngest _ _ ev => Some ev | _ => None end) ops.

Lemma step_provider l t t' out : tstep l t = Some (t', out) ->
  PVLLM t'.(et_provider) = provider_run (PVLLM t.(et_provider)) out /\
  t.(et_chan) ++ sent [l] = arrived out ++ t'.(et_chan).
Proof.
  destruct l; cbn [tstep].
  - destruct (et_closed t || _); [done|]. by intros [= <- <-].
  - destruct (et_loop t), (et_chan t) eqn:Ec, (et_closed t); try done. intros [= <- <-]. cbn. by rewrite Ec.
  - destruct (et_closed t); [done|]. intros [= <- <-]. cbn. by rewrite !app_nil_r.
  - destruct (et_done t); [|done]. intros [= <- <-]. cbn. by rewrite !app_nil_r.
  - destruct (et_loop t), (et_chan t) as [|ev c]; try done. intros [= <- <-]. cbn. by rewrite !app_nil_r.
  - destruct (et_loop t), (is_done t); try done. intros [= <- <-]. cbn. by rewrite !app_nil_r.
  - destruct (et_loop t), (et_chan t) as [|ev c] eqn:Ec, (et_closed t); try done. intros [= <- <-]. cbn. by rewrite Ec.
  - destruct (et_stop t); [|done..]. intros [= <- <-]. cbn. by rewrite !app_nil_r.
  - destruct (et_stop t); try done. intros [= <- <-]. cbn. by rewrite !app_nil_r.
  - destruct (et_stop t), (et_loop t); try done; intros [= <- <-]; cbn; by rewrite !app_nil_r.
  - intros [= <- <-]. cbn. by rewrite !app_nil_r.
  - intros [= <- <-]. cbn. by rewrite !app_nil_r.
  - intros [= <- <-]. unfold provider_run. cbn. destruct (vllm_Snapshot clk (et_provider t)). cbn. by rewrite !app_nil_r.
Qed.

Lemma run_provider ls : forall t t' ops, trun ls t = Some (t', ops) ->
  PVLLM t'.(et_provider) = provider_run (PVLLM t.(et_provider)) ops /\
  t.(et_chan) ++ sent ls = arrived ops ++ t'.(et_chan).
Proof.
  induction ls as [|l ls IH]; intros t t' ops; cbn [trun].
  { intros [= <- <-]. by rewrite app_nil_r. }
  destruct (tstep l t) as [[t1 out]|] eqn:E; cbn [mbind option_bind]; [|done].
  destruct (trun ls t1) as [[t2 outs]|] eqn:E2; cbn [mbind option_bind]; [|done]. intros [= <- <-].
  destruct (step_provider l t t1 out E) as (Hp & Hc), (IH t1 t2 outs E2) as (Hp2 & Hc2).
  unfold provider_run in *. rewrite fold_left_app, <- Hp. split; [done|].
  change (l :: ls) with ([l] ++ ls). unfold sent, arrived in *. rewrite !omap_app, app_assoc, Hc, <- !app_assoc. by rewrite Hc2.
Qed.

(** ** The end of the goroutine *)

(** The steps of the goroutine and of [Stop], the return of the source's [Stop] among them; the others belong to the
    source, the caller and the watcher. *)
Definition own_step (l : tlabel) : bool :=
  match l with TReceive _ _ | TLoopDone | TLoopClosed | TSourceStopped | TStopReturn => true | _ => false end.

(** [Stop] has been called and the goroutine, if there is one, sees it. *)
Definition stopping (t : Transport) : Prop :=
  (t.(et_stop) = StopNotCalled \/ t.(et_loop) <> LoopSelecting \/ t.(et_done) = Some true) /\
  (t.(et_stop) = StopReturned -> t.(et_loop) <> LoopSelecting) /\
  (t.(et_loop) = LoopSelecting -> t.(et_done) <> None).

Lemma start_stopping p source cap starts : stopping (vllm_Start starts (transport p source cap)).1.
Proof. unfold stopping, vllm_Start. destruct source, starts; cbn; by split_and!; [left|..]. Qed.

Lemma step_stopping l t t' out : stopping t -> tstep l t = Some (t', out) -> stopping t'.
Proof.
  unfold stopping. intros (H1 & H2 & H3). destruct l; cbn [tstep].
  - destruct (et_closed t || _); [done|]. by intros [= <- <-].
  - destruct (et_loop t) eqn:El, (et_chan t), (et_closed t); try done. intros [= <- <-]. cbn. by rewrite El.
  - destruct (et_closed t); [done|]. by intros [= <- <-].
  - destruct (et_done t); [|done]. intros [= <- <-]. cbn. split_and!; [by right; right|done|done].
  - destruct (et_loop t) eqn:El, (et_chan t) as [|ev c]; try done. intros [= <- <-]. cbn. by rewrite El.
  - destruct (et_loop t), (is_done t); try done. intros [= <- <-]. cbn. split_and!; [by right; left|done|done].
  - destruct (et_loop t), (et_chan t), (et_closed t); try done. intros [= <- <-]. cbn. split_and!; [by right; left|done|done].
  - destruct (et_stop t) eqn:Es; [|done..]. intros [= <- <-]. cbn. split_and!; [|by destruct (et_source t)|].
    + destruct (et_loop t) eqn:El; [right; by left| |right; by left]. right; right.
      destruct (et_done t); [done|]. by destruct (H3 eq_refl).
    + intros E. specialize (H3 E). by destruct (et_done t).
  - destruct (et_stop t) eqn:Es; try done. intros [= <- <-]. cbn. split_and!; [|done|done].
    destruct H1 as [?|[?|?]]; [done|right; by left|by right; right].
  - destruct (et_stop t), (et_loop t) eqn:El; try done; intros [= <- <-]; cbn; rewrite El; (split_and!; [right; by left|done|done]).
  - by intros [= <- <-].
  - by intros [= <- <-].
  - by intros [= <- <-].
Qed.

Lemma run_stopping ls : forall t t' ops, stopping t -> trun ls t = Some (t', ops) -> stopping t'.
Proof.
  induction ls as [|l ls IH]; intros t t' ops Ht; cbn [trun]; [by intros [= <- <-]|].
  destruct (tstep l t) as [[t1 out]|] eqn:E; cbn [mbind option_bind]; [|done].
  destruct (trun ls t1) as [[t2 outs]|] eqn:E2; cbn [mbind option_bind]; [|done]. intros [= <- <-].
  apply (IH t1 t2 outs); [|done]. by apply (step_stopping l t t1 out).
Qed.

(** Once the goroutine is gone nothing arrives any more. *)
Lemma quiet_run ls : forall t t' ops, t.(et_loop) <> LoopSelecting -> trun ls t = Some (t', ops) ->
  arrived ops = [] /\ t'.(et_loop) <> LoopSelecting.
Proof.
  induction ls as [|l ls IH]; intros t t' ops Ht; cbn [trun]; [by intros [= <- <-]|].
  destruct (tstep l t) as [[t1 out]|] eqn:E; cbn [mbind option_bind]; [|done].
  destruct (trun ls t1) as [[t2 outs]|] eqn:E2; cbn [mbind option_bind]; [|done]. intros [= <- <-].
  assert (H : arrived out = [] /\ et_loop t1 <> LoopSelecting).
  { destruct l; cbn [tstep] in E; repeat (case_match; try done); try congruence; injection E as <- <-; cbn; (split; [done|congruence]). }
  destruct H as [Ha Hl], (IH t1 t2 outs Hl E2) as [Hb Hc]. unfold arrived in *. by rewrite omap_app, Ha, Hb.
Qed.

(** The own steps left: the events that wait, the return of the goroutine, of the source's [Stop] and of [Stop]. *)
Definition steps_left (t : Transport) : nat :=
  match t.(et_loop) with LoopSelecting => length t.(et_chan) + 1 | _ => 0 end +
  match t.(et_stop) with StopReturned => 0 | StopWaiting => 1 | _ => 2 end.

Lemma own_step_less l t t' out : own_step l = true -> tstep l t = Some (t', out) -> (steps_left t' < steps_left t)%nat.
Proof.
  unfold steps_left. destruct l; try done; intros _; cbn [tstep].
  - destruct (et_loop t) eqn:El, (et_chan t) as [|ev c]; try done. intros [= <- <-]. cbn. rewrite El. destruct (et_stop t); lia.
  - destruct (et_loop t), (is_done t); try done. intros [= <- <-]. cbn. destruct (et_stop t); lia.
  - destruct (et_loop t), (et_chan t), (et_closed t); try done. intros [= <- <-]. cbn. destruct (et_stop t); lia.
  - destruct (et_stop t); try done. intros [= <- <-]. cbn. lia.
  - destruct (et_stop t), (et_loop t) eqn:El; try done; intros [= <- <-]; cbn; rewrite El; lia.
Qed.

Lemma own_run_length ls : forall t t' ops, Forall (fun l => own_step l = true) ls -> trun ls t = Some (t', ops) ->
  (length ls + steps_left t' <= steps_left t)%nat.
Proof.
  induction ls as [|l ls IH]; intros t t' ops Hf; cbn [trun]; [by intros [= <- <-]|].
  apply Forall_cons in Hf as [Hl Hf].
  destruct (tstep l t) as [[t1 out]|] eqn:E; cbn [mbind option_bind]; [|done].
  destruct (trun ls t1) as [[t2 outs]|] eqn:E2; cbn [mbind option_bind]; [|done]. intros [= <- <-].
  pose proof (own_step_less l t t1 out Hl E). specialize (IH t1 t2 outs Hf E2). cbn [length]. lia.
Qed.

Lemma stop_progress t : stopping t -> t.(et_stop) = StopWaiting -> exists l, own_step l = true /\ is_Some (tstep l t).
Proof.
  intros (H1 & _ & _) Hs. destruct (et_loop t) eqn:El.
  - exists TStopReturn. split; [done|]. cbn. rewrite Hs, El. by eexists.
  - exists TLoopDone. split; [done|]. cbn. rewrite El. unfold is_done.
    destruct H1 as [H1|[H1|H1]]; [congruence|congruence|]. rewrite H1. by eexists.
  - exists TStopReturn. split; [done|]. cbn. rewrite Hs, El. by eexists.
Qed.

(** While the source's [Stop] does not return, neither does [Stop]. *)
Lemma stuck_in_source ls : forall t t' ops, t.(et_stop) = StopInSource -> TSourceStopped ∉ ls -> trun ls t = Some (t', ops) ->
  t'.(et_stop) = StopInSource.
Proof.
  induction ls as [|l ls IH]; intros t t' ops Ht Hn; cbn [trun]; [by intros [= <- <-]|].
  apply not_elem_of_cons in Hn as [Hl Hn].
  destruct (tstep l t) as [[t1 out]|] eqn:E; cbn [mbind option_bind]; [|done].
  destruct (trun ls t1) as [[t2 outs]|] eqn:E2; cbn [mbind option_bind]; [|done]. intros [= <- <-].
  apply (IH t1 t2 outs); [|done|done].
  destruct l; cbn [tstep] in E; rewrite ?Ht in E; try done; repeat (case_match; try done); injection E as <- <-; done.
Qed.

(** ** The property *)

(** C15: the transport of the native events, in every interleaving of the source, the goroutine, [Stop], the parent
    context and the watcher, for a channel of any capacity.  What reaches the provider are the events sent, each once and
    in order, but for those that still wait; so its state is the one the operations in their order produce.
    Once [Stop] has returned nothing arrives any more.  [Stop] returns if the source's own [Stop], which it calls
    and waits for, does: until that returns [Stop] hangs whatever else happens; after it, some step of the goroutine or of
    [Stop] is enabled at all times, and no more of them can happen than events wait, and two. *)
Theorem transport_delivers (p : VLLMProvider) (source starts : bool) (cap : nat) ls t ops
    (Hrun : trun ls (vllm_Start starts (transport p source cap)).1 = Some (t, ops)) :
  PVLLM t.(et_provider) = provider_run (PVLLM (vp_start p)) ops /\
  sent ls = arrived ops ++ t.(et_chan) /\
  (t.(et_stop) = StopReturned -> forall ls' t' ops', trun ls' t = Some (t', ops') -> arrived ops' = []) /\
  (t.(et_stop) = StopInSource ->
     (exists t', tstep TSourceStopped t = Some (t', []) /\ t'.(et_stop) = StopWaiting) /\
     forall ls' t' ops', TSourceStopped ∉ ls' -> trun ls' t = Some (t', ops') -> t'.(et_stop) = StopInSource) /\
  (t.(et_stop) = StopWaiting ->
     (exists l, own_step l = true /\ is_Some (tstep l t)) /\
     forall ls' t' ops', Forall (fun l => own_step l = true) ls' -> trun ls' t = Some (t', ops') ->
       (length ls' <= length t.(et_chan) + 2)%nat).
Proof.
  pose proof (run_stopping _ _ _ _ (start_stopping p source cap starts) Hrun) as Ht.
  destruct (run_provider _ _ _ _ Hrun) as [Hp Hc].
  assert (H0 : et_provider (vllm_Start starts (transport p source cap)).1 = vp_start p /\
    et_chan (vllm_Start starts (transport p source cap)).1 = []) by (by destruct source, starts).
  destruct H0 as [H1 H2]. rewrite H1 in Hp. rewrite H2 in Hc. split; [done|]. split; [done|]. split; [|split].
  - intros Hs ls' t' ops' Hr. by apply (quiet_run ls' t t' ops' (proj1 (proj2 Ht) Hs)).
  - intros Hs. split; [cbn; rewrite Hs; by eexists|]. intros ls' t' ops' Hn Hr. by apply (stuck_in_source ls' t t' ops').
  - intros Hs. split; [by apply stop_progress|]. intros ls' t' ops' Hf Hr.
    pose proof (own_run_length ls' t t' ops' Hf Hr). assert ((steps_left t <= length (et_chan t) + 2)%nat); [|lia].
    unfold steps_left. rewrite Hs. destruct (et_loop t); lia.
Qed.

(** Three events of which two arrive before [Stop], which leaves the third. *)
Definition block (k : BlockEventKind) (seq : Z) (key : string) : BlockEvent :=
  {| be_Kind := k; be_Seq := seq; be_BlockKeyHash := key; be_ParentKeyHash := ""; be_BlockSize := 16 |}.
Definition three : list BlockEvent := [block EventBlockStored 1 "a"; block EventBlockStored 2 "b"; block EventAllCleared 3 ""].
Definition three_labels : list tlabel :=
  let rng := fun _ m => map_to_list m in
  map TSend three ++ [TReceive rng 5; THeadroom f64_one true; TReceive rng 6; TStop; TLoopDone; TSourceStopped; TStopReturn].
Definition three_provider : VLLMProvider :=
  NewVLLMProvider {| pc_Mode := ModeVLLMEvents; pc_Index := DefaultIndexConfig; pc_ExplicitHeaderEnabled := false; pc_EventEndpoint := "" |} 0.

Lemma transport_delivers_witness :
  exists t ops, trun three_labels (vllm_Start true (transport three_provider true 8)).1 = Some (t, ops) /\
    arrived ops = take 2 three /\ et_chan t = drop 2 three /\ et_stop t = StopReturned /\
    forall ls' t' ops', trun ls' t = Some (t', ops') -> arrived ops' = [].
Proof.
  destruct (trun three_labels (vllm_Start true (transport three_provider true 8)).1) as [[t ops]|] eqn:E; [|by vm_compute in E].
  destruct (transport_delivers _ _ _ _ _ _ _ E) as (_ & _ & Hs & _). exists t, ops. split; [done|].
  assert (F : (fun r => (arrived r.2, et_chan r.1, et_stop r.1)) <$> trun three_labels (vllm_Start true (transport three_provider true 8)).1 =
    Some (take 2 three, drop 2 three, StopReturned)) by (by vm_compute).
  rewrite E in F. injection F as F1 F2 F3. split; [done|]. split; [done|]. split; [done|]. by apply Hs.
Defined.
