(* ===== verification/AdmissionQueue.v ===== *)
(** * The admission queue ([internal/dataplane/queue.go])

    First the queue's operations as functions on its record, one per section of code that runs under
    [q.mu].  Then the system of goroutines around it: request handlers, the dispatcher loop, clients
    that cancel and timers that fire, as a step relation in which every locked section, channel
    operation and [select] is one step, so the interleavings of the program are the runs of the
    relation.  A ticket pointer is a number. *)

From Stdlib Require Import Floats.SpecFloat.
From stdpp Require Import base tactics numbers option list strings.
From S2P Require Import Prelude Ordering GoFloat GoTime History.
Open Scope go_scope.

(** ** Data *)

Inductive ReqState :=
  | StateReceived | StateQueued | StateDispatching | StateStreaming | StateWaitingFull
  | StateCompleted | StateRejected | StateCancelled | StateTimedOut | StateUpstreamFail
  | StatePartialStream.

#[export] Instance ReqState_eq_dec : EqDecision ReqState.
Proof. solve_decision. Defined.

Inductive QueueError :=
  | ErrQueueFull | ErrBackendOffline | ErrBackendDraining | ErrRuntimeUnhealthy | ErrQueueTimeout
  | ErrInflightFull | ErrCancelled.

#[export] Instance QueueError_eq_dec : EqDecision QueueError.
Proof. solve_decision. Defined.

Record QueueConfig := {
  qc_Enabled : bool;
  MaxQueuedRequests : Z;
  MaxInflightRequests : Z;
  QueueTimeout : Z;
  AdmissionMode : string;
}.

Definition DefaultQueueConfig : QueueConfig :=
  {| qc_Enabled := true; MaxQueuedRequests := 256; MaxInflightRequests := 32;
     QueueTimeout := 30 * second; AdmissionMode := "fifo" |}.

(** The part of a ticket that never changes; [tk_ptr] is its identity. *)
Record Ticket := {
  tk_ptr : nat;
  tk_RequestID : string;
  tk_RouteID : string;
  tk_BackendID : string;
  tk_HostID : string;
  tk_DeviceID : string;
  tk_enqueuedMono : Z;
  tk_enqueuedWall : Z;
}.

Record TransitionEvent := {
  te_Ticket : Ticket;
  te_Wall : Z;
  te_Mono : Z;
  te_From : ReqState;
  te_To : ReqState;
  te_Reason : string;
}.

(** [signal] is a channel of capacity 1: full or empty. *)
Record Queue := {
  q_cfg : QueueConfig;
  q_waiting : list Ticket;
  q_inflight : Z;
  q_closed : bool;
  q_arrivals : Z;
  q_dispatched : Z;
  q_completed : Z;
  q_rejected : Z;
  q_timedOut : Z;
  q_cancelled : Z;
  q_rateWindow : Z;
  q_arrivalTimes : list Z;
  q_dispatchTimes : list Z;
  q_completeTimes : list Z;
  q_waitSamples : list f64;
  q_signal : bool;
}.

Definition NewQueue (cfg : QueueConfig) : Queue :=
  {| q_cfg := cfg; q_waiting := []; q_inflight := 0; q_closed := false; q_arrivals := 0;
     q_dispatched := 0; q_completed := 0; q_rejected := 0; q_timedOut := 0; q_cancelled := 0;
     q_rateWindow := 10 * second; q_arrivalTimes := []; q_dispatchTimes := [];
     q_completeTimes := []; q_waitSamples := []; q_signal := false |}.

(** ** Assignments to groups of fields *)

Definition set_waiting (w : list Ticket) (q : Queue) : Queue :=
  {| q_cfg := q.(q_cfg); q_waiting := w; q_inflight := q.(q_inflight); q_closed := q.(q_closed);
     q_arrivals := q.(q_arrivals); q_dispatched := q.(q_dispatched); q_completed := q.(q_completed);
     q_rejected := q.(q_rejected); q_timedOut := q.(q_timedOut); q_cancelled := q.(q_cancelled);
     q_rateWindow := q.(q_rateWindow); q_arrivalTimes := q.(q_arrivalTimes);
     q_dispatchTimes := q.(q_dispatchTimes); q_completeTimes := q.(q_completeTimes);
     q_waitSamples := q.(q_waitSamples); q_signal := q.(q_signal) |}.
Definition set_inflight (i : Z) (closed : bool) (q : Queue) : Queue :=
  {| q_cfg := q.(q_cfg); q_waiting := q.(q_waiting); q_inflight := i; q_closed := closed;
     q_arrivals := q.(q_arrivals); q_dispatched := q.(q_dispatched); q_completed := q.(q_completed);
     q_rejected := q.(q_rejected); q_timedOut := q.(q_timedOut); q_cancelled := q.(q_cancelled);
     q_rateWindow := q.(q_rateWindow); q_arrivalTimes := q.(q_arrivalTimes);
     q_dispatchTimes := q.(q_dispatchTimes); q_completeTimes := q.(q_completeTimes);
     q_waitSamples := q.(q_waitSamples); q_signal := q.(q_signal) |}.
(** [arrivals], [dispatched], [completed], [rejected], [timedOut], [cancelled] *)
Definition set_totals (a d c r t k : Z) (q : Queue) : Queue :=
  {| q_cfg := q.(q_cfg); q_waiting := q.(q_waiting); q_inflight := q.(q_inflight);
     q_closed := q.(q_closed); q_arrivals := a; q_dispatched := d; q_completed := c;
     q_rejected := r; q_timedOut := t; q_cancelled := k;
     q_rateWindow := q.(q_rateWindow); q_arrivalTimes := q.(q_arrivalTimes);
     q_dispatchTimes := q.(q_dispatchTimes); q_completeTimes := q.(q_completeTimes);
     q_waitSamples := q.(q_waitSamples); q_signal := q.(q_signal) |}.
(** [arrivalTimes], [dispatchTimes], [completeTimes], [waitSamples] *)
Definition set_times (a d c : list Z) (w : list f64) (q : Queue) : Queue :=
  {| q_cfg := q.(q_cfg); q_waiting := q.(q_waiting); q_inflight := q.(q_inflight);
     q_closed := q.(q_closed); q_arrivals := q.(q_arrivals); q_dispatched := q.(q_dispatched);
     q_completed := q.(q_completed); q_rejected := q.(q_rejected); q_timedOut := q.(q_timedOut);
     q_cancelled := q.(q_cancelled); q_rateWindow := q.(q_rateWindow); q_arrivalTimes := a;
     q_dispatchTimes := d; q_completeTimes := c; q_waitSamples := w; q_signal := q.(q_signal) |}.
Definition set_signal (b : bool) (q : Queue) : Queue :=
  {| q_cfg := q.(q_cfg); q_waiting := q.(q_waiting); q_inflight := q.(q_inflight);
     q_closed := q.(q_closed); q_arrivals := q.(q_arrivals); q_dispatched := q.(q_dispatched);
     q_completed := q.(q_completed); q_rejected := q.(q_rejected); q_timedOut := q.(q_timedOut);
     q_cancelled := q.(q_cancelled); q_rateWindow := q.(q_rateWindow);
     q_arrivalTimes := q.(q_arrivalTimes); q_dispatchTimes := q.(q_dispatchTimes);
     q_completeTimes := q.(q_completeTimes); q_waitSamples := q.(q_waitSamples); q_signal := b |}.

Definition inc_rejected q := set_totals q.(q_arrivals) q.(q_dispatched) q.(q_completed)
  (uwrap64 (q.(q_rejected) + 1)) q.(q_timedOut) q.(q_cancelled) q.
Definition inc_arrivals q := set_totals (uwrap64 (q.(q_arrivals) + 1)) q.(q_dispatched)
  q.(q_completed) q.(q_rejected) q.(q_timedOut) q.(q_cancelled) q.
Definition inc_dispatched q := set_totals q.(q_arrivals) (uwrap64 (q.(q_dispatched) + 1))
  q.(q_completed) q.(q_rejected) q.(q_timedOut) q.(q_cancelled) q.
Definition inc_completed q := set_totals q.(q_arrivals) q.(q_dispatched)
  (uwrap64 (q.(q_completed) + 1)) q.(q_rejected) q.(q_timedOut) q.(q_cancelled) q.
Definition inc_timedOut q := set_totals q.(q_arrivals) q.(q_dispatched) q.(q_completed)
  q.(q_rejected) (uwrap64 (q.(q_timedOut) + 1)) q.(q_cancelled) q.
Definition inc_cancelled q := set_totals q.(q_arrivals) q.(q_dispatched) q.(q_completed)
  q.(q_rejected) q.(q_timedOut) (uwrap64 (q.(q_cancelled) + 1)) q.

(** ** The locked sections *)

(** [Admit] up to [q.mu.Unlock()]; [gate] is the result of the admission gate and [t] the ticket
    built for this call ([t.enqueuedMono] is the reading [now]). *)
Definition admit_locked (gate : option QueueError) (t : Ticket) (q : Queue) :
    Queue * (QueueError + Ticket) :=
  if q.(q_closed) then (q, inl ErrBackendOffline)
  else
    match gate with
    | Some reason => (inc_rejected q, inl reason)
    | None =>
        if q.(q_cfg).(MaxQueuedRequests) <=? Z.of_nat (length q.(q_waiting)) then
          (inc_rejected q, inl ErrQueueFull)
        else
          let q := inc_arrivals q in
          let q := set_times (q.(q_arrivalTimes) ++ [t.(tk_enqueuedMono)]) q.(q_dispatchTimes)
                     q.(q_completeTimes) q.(q_waitSamples) q in
          (set_waiting (q.(q_waiting) ++ [t]) q, inr t)
    end.

Definition wake (q : Queue) : Queue := set_signal true q.

(** The first ticket with [t]'s identity goes. *)
Fixpoint remove_ptr (ptr : nat) (l : list Ticket) : list Ticket :=
  match l with
  | [] => []
  | w :: l' => if (w.(tk_ptr) =? ptr)%nat then l' else w :: remove_ptr ptr l'
  end.

Definition removeWaiting (t : Ticket) (q : Queue) : Queue :=
  set_waiting (remove_ptr t.(tk_ptr) q.(q_waiting)) q.

(** One iteration of [drain] up to [q.mu.Unlock()]; [None] is the return. *)
Definition drain_take (now : Z) (q : Queue) : option (Ticket * Queue) :=
  match q.(q_waiting) with
  | [] => None
  | t :: rest =>
      if q.(q_cfg).(MaxInflightRequests) <=? q.(q_inflight) then None
      else
        let q := q |> set_waiting rest |> set_inflight (wrap64 (q.(q_inflight) + 1)) q.(q_closed)
                   |> inc_dispatched in
        let waitMs := dur_ms_float (wrap64 (now - t.(tk_enqueuedMono))) in
        let samples := q.(q_waitSamples) ++ [waitMs] in
        let samples := if 4096 <? Z.of_nat (length samples) then lastn 4096 samples else samples in
        Some (t, set_times q.(q_arrivalTimes) (q.(q_dispatchTimes) ++ [now]) q.(q_completeTimes)
                   samples q)
  end.

Definition done_locked (now : Z) (q : Queue) : Queue :=
  let q := if 0 <? q.(q_inflight) then set_inflight (q.(q_inflight) - 1) q.(q_closed) q else q in
  let q := inc_completed q in
  set_times q.(q_arrivalTimes) q.(q_dispatchTimes) (q.(q_completeTimes) ++ [now]) q.(q_waitSamples) q.

(** [Close] returns the tickets whose contexts it cancels. *)
Definition close_locked (q : Queue) : Queue * list Ticket :=
  (q |> set_inflight q.(q_inflight) true |> set_waiting [], q.(q_waiting)).

(** ** The snapshot *)

Record QueueSnapshot := {
  qs_Enabled : bool;
  qs_Queued : Z;
  qs_Inflight : Z;
  qs_MaxQueued : Z;
  qs_MaxInflight : Z;
  qs_OldestAgeMs : f64;
  qs_ArrivalRate : f64;
  qs_DispatchRate : f64;
  qs_CompletionRate : f64;
  qs_Arrivals : Z;
  qs_Dispatched : Z;
  qs_Completed : Z;
  qs_Rejected : Z;
  qs_TimedOut : Z;
  qs_Cancelled : Z;
  qs_WaitP50Ms : f64;
  qs_WaitP95Ms : f64;
}.

Definition rateInWindow (times : list Z) (now window : Z) : f64 :=
  let cutoff := wrap64 (now - window) in
  f64_div (f64_of_Z (Z.of_nat (countb (Z.leb cutoff) times))) (dur_seconds window).

(** The first entry not older than the cutoff starts what is kept. *)
Fixpoint drop_while {A} (f : A -> bool) (l : list A) : list A :=
  match l with
  | [] => []
  | x :: l' => if f x then drop_while f l' else l
  end.

Definition pruneOld (times : list Z) (now window : Z) : list Z :=
  let cutoff := wrap64 (now - window) in drop_while (fun t => t <? cutoff) times.

(** As [percentile], but sorts a copy first. *)
Definition pctile (s : list f64) (p : f64) : option f64 := percentile (sort_by float64s_less s) p.

Definition QueueSnapshot_of (now : Z) (q : Queue) : option (Queue * QueueSnapshot) :=
  p50 ← pctile q.(q_waitSamples) (f64_of_Z 50);
  p95 ← pctile q.(q_waitSamples) (f64_of_Z 95);
  let s :=
    {| qs_Enabled := q.(q_cfg).(qc_Enabled); qs_Queued := Z.of_nat (length q.(q_waiting));
       qs_Inflight := q.(q_inflight); qs_MaxQueued := q.(q_cfg).(MaxQueuedRequests);
       qs_MaxInflight := q.(q_cfg).(MaxInflightRequests);
       qs_OldestAgeMs :=
         match q.(q_waiting) with
         | [] => f64_zero
         | t :: _ => dur_ms_float (wrap64 (now - t.(tk_enqueuedMono)))
         end;
       qs_ArrivalRate := rateInWindow q.(q_arrivalTimes) now q.(q_rateWindow);
       qs_DispatchRate := rateInWindow q.(q_dispatchTimes) now q.(q_rateWindow);
       qs_CompletionRate := rateInWindow q.(q_completeTimes) now q.(q_rateWindow);
       qs_Arrivals := q.(q_arrivals); qs_Dispatched := q.(q_dispatched);
       qs_Completed := q.(q_completed); qs_Rejected := q.(q_rejected);
       qs_TimedOut := q.(q_timedOut); qs_Cancelled := q.(q_cancelled);
       qs_WaitP50Ms := p50; qs_WaitP95Ms := p95 |} in
  Some (set_times (pruneOld q.(q_arrivalTimes) now q.(q_rateWindow))
          (pruneOld q.(q_dispatchTimes) now q.(q_rateWindow))
          (pruneOld q.(q_completeTimes) now q.(q_rateWindow)) q.(q_waitSamples) q, s).

(** ** The goroutines

    Where the handler of a request stands: in [Admit] after the unlock; in the [select] of
    [WaitForDispatch]; past a chosen [ctx.Done] or timer branch, before and after [removeWaiting];
    returned with an error; returned [nil] (relaying); past [Done]. *)
Inductive handler_pc :=
  | PcAdmitted | PcSelect
  | PcCancelChosen | PcCancelRemoved
  | PcTimeoutChosen | PcTimeoutRemoved
  | PcFailed (e : QueueError)
  | PcRelaying | PcDone.

#[export] Instance handler_pc_eq_dec : EqDecision handler_pc.
Proof. solve_decision. Defined.

(** [c_taken] records that the dispatcher took the ticket out of [waiting]: a ticket that is taken
    and not past [Done] holds an in-flight slot. *)
Record Cell := {
  c_ticket : Ticket;
  c_state : ReqState;
  c_dispatchClosed : bool;
  c_ctxDone : bool;
  c_dispatchMono : Z;
  c_pc : handler_pc;
  c_taken : bool;
}.

Definition set_pc (pc : handler_pc) (c : Cell) : Cell :=
  {| c_ticket := c.(c_ticket); c_state := c.(c_state); c_dispatchClosed := c.(c_dispatchClosed);
     c_ctxDone := c.(c_ctxDone); c_dispatchMono := c.(c_dispatchMono); c_pc := pc;
     c_taken := c.(c_taken) |}.
Definition set_cell_state (s : ReqState) (c : Cell) : Cell :=
  {| c_ticket := c.(c_ticket); c_state := s; c_dispatchClosed := c.(c_dispatchClosed);
     c_ctxDone := c.(c_ctxDone); c_dispatchMono := c.(c_dispatchMono); c_pc := c.(c_pc);
     c_taken := c.(c_taken) |}.
Definition set_ctxDone (c : Cell) : Cell :=
  {| c_ticket := c.(c_ticket); c_state := c.(c_state); c_dispatchClosed := c.(c_dispatchClosed);
     c_ctxDone := true; c_dispatchMono := c.(c_dispatchMono); c_pc := c.(c_pc);
     c_taken := c.(c_taken) |}.
Definition set_taken (c : Cell) : Cell :=
  {| c_ticket := c.(c_ticket); c_state := c.(c_state); c_dispatchClosed := c.(c_dispatchClosed);
     c_ctxDone := c.(c_ctxDone); c_dispatchMono := c.(c_dispatchMono); c_pc := c.(c_pc);
     c_taken := true |}.
Definition set_dispatchClosed (now : Z) (c : Cell) : Cell :=
  {| c_ticket := c.(c_ticket); c_state := c.(c_state); c_dispatchClosed := true;
     c_ctxDone := c.(c_ctxDone); c_dispatchMono := now; c_pc := c.(c_pc);
     c_taken := c.(c_taken) |}.

(** Where the dispatcher's goroutine stands: in the [select] of [Run], in [drain], or past the end of [Run]. *)
Inductive run_pc := RunSelect | RunDraining | RunReturned.

(** Ticket number [i] is cell number [i]; [sy_disp] is [drain]'s local [t] and [now] between
    the unlock and [close(t.dispatch)]. *)
Record System := {
  sy_q : Queue;
  sy_cells : list Cell;
  sy_run : run_pc;
  sy_disp : option (Ticket * Z);
  sy_events : list TransitionEvent;
}.

Definition sys_new (cfg : QueueConfig) : System :=
  {| sy_q := NewQueue cfg; sy_cells := []; sy_run := RunSelect; sy_disp := None; sy_events := [] |}.

(** [t.Transition(to, reason, mono)]. *)
Definition transition_event (wall mono : Z) (to : ReqState) (reason : string) (c : Cell) :
    TransitionEvent :=
  {| te_Ticket := c.(c_ticket); te_Wall := wall; te_Mono := mono; te_From := c.(c_state);
     te_To := to; te_Reason := reason |}.

Definition upd (i : nat) (f : Cell -> Cell) (s : System) : System :=
  {| sy_q := s.(sy_q); sy_cells := alter f i s.(sy_cells); sy_run := s.(sy_run); sy_disp := s.(sy_disp);
     sy_events := s.(sy_events) |}.
Definition with_q (f : Queue -> Queue) (s : System) : System :=
  {| sy_q := f s.(sy_q); sy_cells := s.(sy_cells); sy_run := s.(sy_run); sy_disp := s.(sy_disp);
     sy_events := s.(sy_events) |}.
Definition with_disp (d : option (Ticket * Z)) (s : System) : System :=
  {| sy_q := s.(sy_q); sy_cells := s.(sy_cells); sy_run := s.(sy_run); sy_disp := d; sy_events := s.(sy_events) |}.
Definition with_run (r : run_pc) (s : System) : System :=
  {| sy_q := s.(sy_q); sy_cells := s.(sy_cells); sy_run := r; sy_disp := s.(sy_disp); sy_events := s.(sy_events) |}.
Definition emit_event (e : TransitionEvent) (s : System) : System :=
  {| sy_q := s.(sy_q); sy_cells := s.(sy_cells); sy_run := s.(sy_run); sy_disp := s.(sy_disp);
     sy_events := s.(sy_events) ++ [e] |}.
Definition new_cell (t : Ticket) : Cell :=
  {| c_ticket := t; c_state := StateReceived; c_dispatchClosed := false; c_ctxDone := false;
     c_dispatchMono := 0; c_pc := PcAdmitted; c_taken := false |}.
#[global] Arguments new_cell : simpl never.
Definition add_cell (t : Ticket) (s : System) : System :=
  {| sy_q := s.(sy_q); sy_cells := s.(sy_cells) ++ [new_cell t]; sy_run := s.(sy_run); sy_disp := s.(sy_disp); sy_events := s.(sy_events) |}.

(** [drain], one step at a time: it holds the lock for one iteration only, so whatever the other goroutines do may
    come between any two of these.  A step is an iteration up to [q.mu.Unlock()], which takes a ticket
    or returns to [Run], or [t.dispatchMono = now; close(t.dispatch)]. *)
Definition take_ticket (t : Ticket) (now : Z) (q' : Queue) (s : System) : System :=
  s |> with_q (fun _ => q') |> with_disp (Some (t, now)) |> upd t.(tk_ptr) set_taken.
Definition close_dispatch (t : Ticket) (now : Z) (s : System) : System :=
  s |> with_disp None |> upd t.(tk_ptr) (set_dispatchClosed now).
Definition drain_step (now : Z) (s : System) : System :=
  match s.(sy_disp) with
  | Some (t, now) => close_dispatch t now s
  | None =>
      match drain_take now s.(sy_q) with
      | Some (t, q') => take_ticket t now q' s
      | None => with_run RunSelect s
      end
  end.

(** [drain] when no other goroutine comes in between; [clk n] is the clock at step [n]. *)
Fixpoint drain_alone (steps : nat) (clk : nat -> Z) (s : System) : System :=
  match steps, s.(sy_run) with
  | S steps, RunDraining => drain_alone steps (fun n => clk (S n)) (drain_step (clk O) s)
  | _, _ => s
  end.

Inductive qstep : System -> System -> Prop :=
  (** [Admit], refused *)
  | step_admit_refused s gate t q' e :
      t.(tk_ptr) = length s.(sy_cells) ->
      admit_locked gate t s.(sy_q) = (q', inl e) ->
      qstep s (with_q (fun _ => q') s)
  (** [Admit], up to the unlock *)
  | step_admit s gate t q' :
      t.(tk_ptr) = length s.(sy_cells) ->
      admit_locked gate t s.(sy_q) = (q', inr t) ->
      qstep s (add_cell t (with_q (fun _ => q') s))
  (** [t.Transition(StateQueued, ...)] and [q.wake()] *)
  | step_queued s i c wall :
      s.(sy_cells) !! i = Some c -> c.(c_pc) = PcAdmitted ->
      qstep s (s |> emit_event (transition_event wall c.(c_ticket).(tk_enqueuedMono) StateQueued "enqueued" c)
                 |> upd i (fun c => set_pc PcSelect (set_cell_state StateQueued c)) |> with_q wake)
  (** an iteration of [drain] takes a ticket *)
  | step_take s now t q' :
      s.(sy_run) = RunDraining -> s.(sy_disp) = None -> drain_take now s.(sy_q) = Some (t, q') ->
      qstep s (take_ticket t now q' s)
  (** [t.dispatchMono = now; close(t.dispatch)] *)
  | step_close_dispatch s t now :
      s.(sy_run) = RunDraining -> s.(sy_disp) = Some (t, now) ->
      qstep s (close_dispatch t now s)
  (** [drain] returns *)
  | step_drain_return s now :
      s.(sy_run) = RunDraining -> s.(sy_disp) = None -> drain_take now s.(sy_q) = None ->
      qstep s (with_run RunSelect s)
  (** the request's context is cancelled (client gone, or [Close]) *)
  | step_ctx_done s i :
      qstep s (upd i set_ctxDone s)
  (** the [select]: any ready branch *)
  | step_select_dispatch s i c :
      s.(sy_cells) !! i = Some c -> c.(c_pc) = PcSelect -> c.(c_dispatchClosed) = true ->
      qstep s (upd i (set_pc PcRelaying) s)
  | step_select_cancel s i c :
      s.(sy_cells) !! i = Some c -> c.(c_pc) = PcSelect -> c.(c_ctxDone) = true ->
      qstep s (upd i (set_pc PcCancelChosen) s)
  | step_select_timeout s i c :
      s.(sy_cells) !! i = Some c -> c.(c_pc) = PcSelect ->
      0 < s.(sy_q).(q_cfg).(QueueTimeout) ->
      qstep s (upd i (set_pc PcTimeoutChosen) s)
  (** the chosen failure branch: [removeWaiting], then the counter and the transition *)
  | step_cancel_remove s i c :
      s.(sy_cells) !! i = Some c -> c.(c_pc) = PcCancelChosen ->
      qstep s (s |> with_q (removeWaiting c.(c_ticket)) |> upd i (set_pc PcCancelRemoved))
  | step_cancel_return s i c wall mono :
      s.(sy_cells) !! i = Some c -> c.(c_pc) = PcCancelRemoved ->
      qstep s (s |> with_q inc_cancelled
                 |> emit_event (transition_event wall mono StateCancelled "client_cancelled_in_queue" c)
                 |> upd i (fun c => set_pc (PcFailed ErrCancelled) (set_cell_state StateCancelled c)))
  | step_timeout_remove s i c :
      s.(sy_cells) !! i = Some c -> c.(c_pc) = PcTimeoutChosen ->
      qstep s (s |> with_q (removeWaiting c.(c_ticket)) |> upd i (set_pc PcTimeoutRemoved))
  | step_timeout_return s i c wall mono :
      s.(sy_cells) !! i = Some c -> c.(c_pc) = PcTimeoutRemoved ->
      qstep s (s |> with_q inc_timedOut
                 |> emit_event (transition_event wall mono StateTimedOut "queue_timeout" c)
                 |> upd i (fun c => set_pc (PcFailed ErrQueueTimeout) (set_cell_state StateTimedOut c)))
  (** a relaying handler reports another state *)
  | step_transition s i c wall mono to reason :
      s.(sy_cells) !! i = Some c -> c.(c_pc) = PcRelaying ->
      qstep s (s |> emit_event (transition_event wall mono to reason c) |> upd i (set_cell_state to))
  (** [Done] *)
  | step_done s i c now wall mono final reason :
      s.(sy_cells) !! i = Some c -> c.(c_pc) = PcRelaying ->
      qstep s (s |> with_q (done_locked now)
                 |> emit_event (transition_event wall mono final reason c)
                 |> upd i (fun c => set_pc PcDone (set_cell_state final c)) |> with_q wake)
  (** [Close], up to the unlock; the cancellations are [step_ctx_done] *)
  | step_close s :
      qstep s (with_q (fun q => fst (close_locked q)) s)
  (** [Run]: a receive from [signal], the tick of 50 ms, the end of the context *)
  | step_signal s :
      s.(sy_run) = RunSelect -> s.(sy_q).(q_signal) = true ->
      qstep s (s |> with_q (set_signal false) |> with_run RunDraining)
  | step_tick s :
      s.(sy_run) = RunSelect -> qstep s (with_run RunDraining s)
  | step_run_returns s :
      s.(sy_run) = RunSelect -> qstep s (with_run RunReturned s)
  (** [Snapshot] *)
  | step_snapshot s now q' snap :
      QueueSnapshot_of now s.(sy_q) = Some (q', snap) -> qstep s (with_q (fun _ => q') s).

Inductive qsteps : System -> System -> Prop :=
  | qsteps_refl s : qsteps s s
  | qsteps_step s1 s2 s3 : qsteps s1 s2 -> qstep s2 s3 -> qsteps s1 s3.
