(* ===== verification/QueueFacts.v ===== *)
(** * Properties of the admission queue

    Facts about one operation come first, then the invariant of every reachable state of the
    goroutine system, in every interleaving, and what follows from it. *)

From Stdlib Require Import Floats.SpecFloat.
From stdpp Require Import base tactics numbers option list strings sorting.
From S2P Require Import Prelude Ordering GoFloat GoTime History HistoryFacts AdmissionQueue.
Open Scope go_scope.

(** ** Lists of cells and tickets *)

Lemma countb_alter {A} (f : A -> bool) (g : A -> A) (l : list A) i x :
  l !! i = Some x ->
  (countb f (alter g i l) + (if f x then 1 else 0) = countb f l + (if f (g x) then 1 else 0))%nat.
Proof.
  revert i. induction l as [|y l IH]; intros [|i]; csimpl; try done.
  - intros [= ->]. rewrite !countb_cons. lia.
  - intros H. specialize (IH i H). rewrite !countb_cons. lia.
Qed.

Lemma countb_snoc {A} (f : A -> bool) (l : list A) x :
  countb f (l ++ [x]) = (countb f l + (if f x then 1 else 0))%nat.
Proof. rewrite countb_app. unfold countb. simpl. destruct (f x); done. Qed.

Lemma remove_ptr_sublist ptr l : remove_ptr ptr l `sublist_of` l.
Proof.
  induction l as [|w l IH]; [done|]. simpl. destruct (_ =? _)%nat; [by apply sublist_cons|].
  by apply sublist_skip.
Qed.

Lemma sublist_Forall {A} (P : A -> Prop) (l k : list A) :
  l `sublist_of` k -> Forall P k -> Forall P l.
Proof.
  intros Hs Hk. apply Forall_forall. intros x Hx. rewrite Forall_forall in Hk.
  apply Hk. by eapply elem_of_sublist.
Qed.

Lemma sublist_StronglySorted {A} (R : A -> A -> Prop) (l k : list A) :
  l `sublist_of` k -> StronglySorted R k -> StronglySorted R l.
Proof.
  induction 1 as [|x l k Hs IH|x l k Hs IH]; intros Hk; [constructor| |].
  - inversion Hk as [|? ? Hk' Hall]; subst. constructor; [by apply IH|].
    by eapply sublist_Forall.
  - inversion Hk; subst. by apply IH.
Qed.

Lemma remove_ptr_not_in ptr l w : w ∈ remove_ptr ptr l -> w ∈ l.
Proof. intros H. eapply elem_of_submseteq; [exact H|]. apply sublist_submseteq, remove_ptr_sublist. Qed.

(** ** One drain *)

Lemma drain_take_spec now q :
  match drain_take now q with
  | None => q_waiting q = [] \/ MaxInflightRequests (q_cfg q) <= q_inflight q
  | Some (t, q') =>
      q_waiting q = t :: q_waiting q' /\ q_inflight q < MaxInflightRequests (q_cfg q) /\
      q_inflight q' = wrap64 (q_inflight q + 1) /\ q_cfg q' = q_cfg q /\ q_closed q' = q_closed q /\
      q_arrivals q' = q_arrivals q /\ q_dispatched q' = uwrap64 (q_dispatched q + 1) /\
      q_completed q' = q_completed q /\ q_timedOut q' = q_timedOut q /\
      q_cancelled q' = q_cancelled q /\
      (length (q_waitSamples q') <= 4096)%nat
  end.
Proof.
  unfold drain_take. destruct (q_waiting q) as [|t rest] eqn:Hw; [by left|].
  destruct (Z.leb_spec (MaxInflightRequests (q_cfg q)) (q_inflight q)); [by right|].
  simpl. split_and!; try done.
  destruct (Z.ltb_spec 4096 (Z.of_nat (length (q_waitSamples q ++
    [dur_ms_float (wrap64 (now - tk_enqueuedMono t))])))); [|lia].
  rewrite length_lastn. lia.
Qed.

(** The number of tickets a drain that is left alone can take. *)
Definition free_slots (q : Queue) : nat := Z.to_nat (MaxInflightRequests (q_cfg q) - q_inflight q).

(** ** The invariant *)

Definition is_taken (c : Cell) : bool := c_taken c.
Definition is_done (c : Cell) : bool := bool_decide (c_pc c = PcDone).
(** The cell occupies an in-flight slot. *)
Definition holds_slot (c : Cell) : bool := c_taken c && negb (is_done c).
(** The handler has failed, so it will never call [Done]. *)
Definition is_failed (c : Cell) : bool :=
  match c_pc c with
  | PcCancelChosen | PcCancelRemoved | PcTimeoutChosen | PcTimeoutRemoved | PcFailed _ => true
  | _ => false
  end.
(** A slot that nothing will ever free. *)
Definition leaked (c : Cell) : bool := c_taken c && is_failed c.

Record cell_ok (i : nat) (c : Cell) : Prop := {
  co_ptr : tk_ptr (c_ticket c) = i;
  co_closed : c_dispatchClosed c = true -> c_taken c = true;
  co_relaying : c_pc c = PcRelaying \/ c_pc c = PcDone -> c_dispatchClosed c = true;
}.

Record qinv (cfg : QueueConfig) (s : System) : Prop := {
  qi_cfg : q_cfg (sy_q s) = cfg;
  qi_sorted : StronglySorted (fun a b => tk_ptr a < tk_ptr b)%nat (q_waiting (sy_q s));
  qi_waiting : Forall (fun t => exists c, sy_cells s !! tk_ptr t = Some c /\ c_ticket c = t /\
                                          c_taken c = false) (q_waiting (sy_q s));
  qi_len : Z.of_nat (length (q_waiting (sy_q s))) <= Z.max 0 (MaxQueuedRequests cfg);
  qi_cells : forall i c, sy_cells s !! i = Some c -> cell_ok i c;
  qi_inflight : q_inflight (sy_q s) = Z.of_nat (countb holds_slot (sy_cells s));
  qi_max : q_inflight (sy_q s) <= Z.max 0 (MaxInflightRequests cfg);
  qi_disp : forall t now, sy_disp s = Some (t, now) ->
    exists c, sy_cells s !! tk_ptr t = Some c /\ c_ticket c = t /\ c_taken c = true /\
              c_dispatchClosed c = false;
  qi_arrivals : q_arrivals (sy_q s) = uwrap64 (Z.of_nat (length (sy_cells s)));
  qi_dispatched : q_dispatched (sy_q s) = uwrap64 (Z.of_nat (countb is_taken (sy_cells s)));
  qi_completed : q_completed (sy_q s) = uwrap64 (Z.of_nat (countb is_done (sy_cells s)));
  qi_samples : (length (q_waitSamples (sy_q s)) <= 4096)%nat;
}.

Lemma qinv_new cfg : qinv cfg (sys_new cfg).
Proof. split; simpl; try done; try lia; constructor. Qed.

Lemma uwrap64_add_succ n : uwrap64 (uwrap64 n + 1) = uwrap64 (n + 1).
Proof. unfold uwrap64. by rewrite Zplus_mod_idemp_l. Qed.

(** A step that changes one cell, keeping the ticket and whether it was taken, and leaves [waiting]
    a part of what it was. *)
Lemma qinv_upd cfg s s' i c f :
  qinv cfg s -> sy_cells s !! i = Some c ->
  sy_cells s' = alter f i (sy_cells s) -> sy_disp s' = sy_disp s ->
  q_cfg (sy_q s') = q_cfg (sy_q s) ->
  q_waiting (sy_q s') `sublist_of` q_waiting (sy_q s) ->
  q_arrivals (sy_q s') = q_arrivals (sy_q s) -> q_dispatched (sy_q s') = q_dispatched (sy_q s) ->
  (length (q_waitSamples (sy_q s')) <= 4096)%nat ->
  c_ticket (f c) = c_ticket c -> c_taken (f c) = c_taken c ->
  c_dispatchClosed (f c) = c_dispatchClosed c ->
  (c_pc (f c) = PcRelaying \/ c_pc (f c) = PcDone -> c_dispatchClosed c = true) ->
  (q_inflight (sy_q s') = q_inflight (sy_q s) + (if holds_slot (f c) then 1 else 0)
                            - (if holds_slot c then 1 else 0)) ->
  (holds_slot (f c) = true -> holds_slot c = true) ->
  (q_completed (sy_q s') =
     if is_done (f c) && negb (is_done c) then uwrap64 (q_completed (sy_q s) + 1)
     else q_completed (sy_q s)) ->
  (is_done c = true -> is_done (f c) = true) ->
  qinv cfg s'.
Proof.
  intros [Hc Hs Hw Hl Hce Hi Hm Hd Ha Hdi Hco Hsa] Hlk Hcells Hdisp Hcfg Hsub Har Hdis Hsamp
    Ht Htk Hcl Hpc Hinf Hmono Hcomp Hdone.
  pose proof (countb_alter holds_slot f _ _ _ Hlk) as Hch.
  pose proof (countb_alter is_done f _ _ _ Hlk) as Hcd.
  pose proof (countb_alter is_taken f _ _ _ Hlk) as Hct. unfold is_taken in Hct. rewrite Htk in Hct.
  assert (Hother : forall j d, sy_cells s' !! j = Some d ->
    (j = i /\ d = f c) \/ (j <> i /\ sy_cells s !! j = Some d)).
  { intros j d. rewrite Hcells. destruct (decide (j = i)) as [->|Hne].
    - rewrite list_lookup_alter_eq, Hlk. intros [= <-]. by left.
    - rewrite list_lookup_alter_ne by done. by right. }
  assert (Hkeep : forall j d, sy_cells s !! j = Some d -> exists d', sy_cells s' !! j = Some d' /\
    c_ticket d' = c_ticket d /\ c_taken d' = c_taken d /\ c_dispatchClosed d' = c_dispatchClosed d).
  { intros j d Hj. rewrite Hcells. destruct (decide (j = i)) as [->|Hne].
    - rewrite list_lookup_alter_eq, Hlk. rewrite Hlk in Hj. injection Hj as <-. by exists (f c).
    - rewrite list_lookup_alter_ne by done. by exists d. }
  split; rewrite ?Hcfg, ?Hdisp, ?Har, ?Hdis; try done.
  - by eapply sublist_StronglySorted.
  - eapply sublist_Forall; [exact Hsub|]. eapply Forall_impl; [exact Hw|].
    intros t (d & Hj & ? & ?). destruct (Hkeep _ _ Hj) as (d' & ? & ? & ? & _).
    exists d'. split_and!; congruence.
  - apply sublist_length in Hsub. lia.
  - intros j d Hj. destruct (Hother j d Hj) as [[-> ->]|[_ Hj']]; [|by apply Hce].
    destruct (Hce i c Hlk) as [H1 H2 H3]. split; rewrite ?Ht, ?Htk, ?Hcl; done.
  - rewrite Hinf, Hi, Hcells. destruct (holds_slot (f c)), (holds_slot c); lia.
  - rewrite Hinf. destruct (holds_slot (f c)), (holds_slot c); try lia; specialize (Hmono eq_refl); done.
  - intros t now Hdt. destruct (Hd t now Hdt) as (d & Hj & ? & ? & ?).
    destruct (Hkeep _ _ Hj) as (d' & ? & ? & ? & ?). exists d'. split_and!; congruence.
  - by rewrite Hcells, length_alter.
  - rewrite Hdi, Hcells. unfold is_taken. do 2 f_equal. lia.
  - rewrite Hcomp, Hco, Hcells. destruct (is_done (f c)), (is_done c); simpl;
      rewrite ?uwrap64_add_succ; f_equal; try lia; specialize (Hdone eq_refl); done.
Qed.

(** A step that only touches the queue, and only shortens [waiting]. *)
Lemma qinv_q cfg s g :
  qinv cfg s -> q_cfg (g (sy_q s)) = q_cfg (sy_q s) ->
  q_waiting (g (sy_q s)) `sublist_of` q_waiting (sy_q s) ->
  q_inflight (g (sy_q s)) = q_inflight (sy_q s) -> q_arrivals (g (sy_q s)) = q_arrivals (sy_q s) ->
  q_dispatched (g (sy_q s)) = q_dispatched (sy_q s) ->
  q_completed (g (sy_q s)) = q_completed (sy_q s) ->
  (length (q_waitSamples (g (sy_q s))) <= 4096)%nat ->
  qinv cfg (with_q g s).
Proof.
  intros [Hc Hs Hw Hl Hce Hi Hm Hd Ha Hdi Hco Hsa] Hcfg Hsub Hinf Har Hdis Hcom Hsamp.
  split; simpl; rewrite ?Hcfg, ?Hinf, ?Har, ?Hdis, ?Hcom; try done.
  - by eapply sublist_StronglySorted.
  - by eapply sublist_Forall.
  - apply sublist_length in Hsub. lia.
Qed.

(** The waiting tickets have smaller numbers than the next ticket. *)
Lemma waiting_lt cfg s : qinv cfg s ->
  Forall (fun t => tk_ptr t < length (sy_cells s))%nat (q_waiting (sy_q s)).
Proof.
  intros H. eapply Forall_impl; [apply (qi_waiting _ _ H)|]. intros t (c & Hc & _).
  by apply lookup_lt_Some in Hc.
Qed.

Lemma StronglySorted_snoc {A} (R : A -> A -> Prop) l x :
  StronglySorted R l -> Forall (fun y => R y x) l -> StronglySorted R (l ++ [x]).
Proof.
  induction 1 as [|y l Hs IH Hy]; intros Hx; [repeat constructor|].
  apply Forall_cons in Hx as [Hyx Hx]. simpl. constructor; [by apply IH|].
  apply Forall_app. split; [done|]. by repeat constructor.
Qed.

Lemma admit_locked_spec gate t q :
  match admit_locked gate t q with
  | (q', inl e) =>
      q_cfg q' = q_cfg q /\ q_waiting q' = q_waiting q /\ q_inflight q' = q_inflight q /\
      q_arrivals q' = q_arrivals q /\ q_dispatched q' = q_dispatched q /\
      q_completed q' = q_completed q /\ q_waitSamples q' = q_waitSamples q /\
      (q_closed q = true /\ e = ErrBackendOffline \/
       q_closed q = false /\ gate = Some e \/
       q_closed q = false /\ gate = None /\ e = ErrQueueFull /\
         MaxQueuedRequests (q_cfg q) <= Z.of_nat (length (q_waiting q)))
  | (q', inr t') =>
      t' = t /\ q_closed q = false /\ gate = None /\
      Z.of_nat (length (q_waiting q)) < MaxQueuedRequests (q_cfg q) /\
      q_cfg q' = q_cfg q /\ q_waiting q' = q_waiting q ++ [t] /\ q_inflight q' = q_inflight q /\
      q_arrivals q' = uwrap64 (q_arrivals q + 1) /\ q_dispatched q' = q_dispatched q /\
      q_completed q' = q_completed q /\ q_waitSamples q' = q_waitSamples q
  end.
Proof.
  unfold admit_locked. destruct (q_closed q) eqn:Hcl; [split_and!; try done; by left|].
  destruct gate as [e|]; [simpl; split_and!; try done; right; by left|].
  destruct (Z.leb_spec (MaxQueuedRequests (q_cfg q)) (Z.of_nat (length (q_waiting q)))); simpl;
    split_and!; try done. right; right. done.
Qed.

Lemma qinv_admit cfg s gate t q' :
  qinv cfg s -> tk_ptr t = length (sy_cells s) -> admit_locked gate t (sy_q s) = (q', inr t) ->
  qinv cfg (add_cell t (with_q (fun _ => q') s)).
Proof.
  intros Hinv Hptr Had. pose proof (admit_locked_spec gate t (sy_q s)) as Hsp. rewrite Had in Hsp.
  destruct Hsp as (_ & _ & _ & Hlt & Hcfg & Hw' & Hinf & Har & Hdis & Hcom & Hsamp).
  pose proof (waiting_lt _ _ Hinv) as Hwl. destruct Hinv as [Hc Hs Hw Hl Hce Hi Hm Hd Ha Hdi Hco Hsa].
  unfold add_cell. remember (new_cell t) as c0 eqn:Hc0.
  assert (Hold : forall i c, sy_cells s !! i = Some c -> (sy_cells s ++ [c0]) !! i = Some c).
  { intros i c H. rewrite lookup_app_l; [done|]. by apply lookup_lt_Some in H. }
  assert (Hnew : (sy_cells s ++ [c0]) !! length (sy_cells s) = Some c0).
  { rewrite lookup_app_r by lia. by rewrite Nat.sub_diag. }
  assert (holds_slot c0 = false /\ is_taken c0 = false /\ is_done c0 = false) as (Hz1 & Hz2 & Hz3)
    by (by subst c0).
  split; simpl; rewrite ?Hcfg, ?Hinf, ?Hdis, ?Hcom, ?Hsamp, ?Hw', ?countb_snoc, ?Hz1, ?Hz2, ?Hz3,
    ?Nat.add_0_r; try done.
  - apply StronglySorted_snoc; [done|]. eapply Forall_impl; [exact Hwl|]. intros w ?. simpl in *. lia.
  - apply Forall_app; split.
    + eapply Forall_impl; [exact Hw|]. intros w (c & Hc' & ?). exists c. split; [by apply Hold|done].
    + repeat constructor. exists c0. rewrite Hptr. split; [done|]. by subst c0.
  - rewrite length_app. simpl. rewrite Hc in Hlt. lia.
  - intros i c H. destruct (decide (i < length (sy_cells s))%nat).
    + rewrite lookup_app_l in H by done. by apply Hce.
    + assert (i = length (sy_cells s)) as ->.
      { apply lookup_lt_Some in H. rewrite length_app in H. simpl in H. lia. }
      rewrite Hnew in H. injection H as <-. subst c0. split; [done|done|]. simpl. by intros [|].
  - intros w now H. destruct (Hd w now H) as (c & ? & ?). exists c. split; [by apply Hold|done].
  - rewrite Har, Ha, uwrap64_add_succ, length_app. simpl. f_equal. lia.
Qed.

Lemma qinv_take cfg s now t q' :
  qinv cfg s -> MaxInflightRequests cfg <= i64_max -> sy_disp s = None ->
  drain_take now (sy_q s) = Some (t, q') ->
  qinv cfg (take_ticket t now q' s).
Proof.
  intros Hinv Hmax Hdn Ht. pose proof (drain_take_spec now (sy_q s)) as Hsp. rewrite Ht in Hsp.
  destruct Hsp as (Hw' & Hlt & Hinf & Hcfg & _ & Har & Hdis & Hcom & _ & _ & Hsamp).
  destruct Hinv as [Hc Hs Hw Hl Hce Hi Hm Hd Ha Hdi Hco Hsa].
  rewrite Hw' in Hs, Hw. inversion Hs as [|? ? Hs' Hall].
  apply Forall_cons in Hw as [(c & Hlk & Htk & Hnt) Hw]. simpl.
  destruct (Hce _ c Hlk) as [Hp Hcl Hrel].
  assert (Hncl : c_dispatchClosed c = false).
  { destruct (c_dispatchClosed c); [|done]. specialize (Hcl eq_refl). congruence. }
  assert (Hnd : is_done c = false).
  { unfold is_done. apply bool_decide_eq_false. intros Hpc. rewrite Hrel in Hncl by tauto. done. }
  pose proof (countb_alter holds_slot set_taken _ _ _ Hlk) as Hch.
  pose proof (countb_alter is_done set_taken _ _ _ Hlk) as Hcd.
  pose proof (countb_alter is_taken set_taken _ _ _ Hlk) as Hct.
  unfold holds_slot, is_taken, is_done in Hch, Hcd, Hct, Hnd. simpl in Hch, Hcd, Hct.
  rewrite Hnt, Hnd in Hch. rewrite Hnt in Hct. simpl in Hch, Hct.
  rewrite wrap64_succ in Hinf by (rewrite Hc in Hlt; unfold i64_max in *; lia).
  split; simpl; try done.
  - by rewrite Hcfg.
  - rewrite Forall_forall in Hw, Hall. apply Forall_forall. intros w Hin.
    destruct (Hw w Hin) as (d & Hj & ? & ?). specialize (Hall w Hin). exists d.
    rewrite list_lookup_alter_ne by lia. done.
  - rewrite Hw' in Hl. simpl in Hl. lia.
  - intros i d. destruct (decide (i = tk_ptr t)) as [->|Hne].
    + rewrite list_lookup_alter_eq, Hlk. intros [= <-]. by split.
    + rewrite list_lookup_alter_ne by done. apply Hce.
  - rewrite Hinf, Hi. unfold holds_slot, is_done. lia.
  - rewrite Hinf. rewrite Hc in Hlt. lia.
  - intros w n [= <- <-]. exists (set_taken c). rewrite list_lookup_alter_eq, Hlk. done.
  - by rewrite Har, length_alter.
  - rewrite Hdis, Hdi, uwrap64_add_succ. unfold is_taken. f_equal. lia.
  - rewrite Hcom, Hco. unfold is_done. do 2 f_equal. lia.
Qed.

Lemma qinv_close_dispatch cfg s t now :
  qinv cfg s -> sy_disp s = Some (t, now) ->
  qinv cfg (close_dispatch t now s).
Proof.
  intros [Hc Hs Hw Hl Hce Hi Hm Hd Ha Hdi Hco Hsa] Hdt. destruct (Hd _ _ Hdt) as (c & Hlk & Ht & Htk & Hcl).
  pose proof (countb_alter holds_slot (set_dispatchClosed now) _ _ _ Hlk) as Hch.
  pose proof (countb_alter is_done (set_dispatchClosed now) _ _ _ Hlk) as Hcd.
  pose proof (countb_alter is_taken (set_dispatchClosed now) _ _ _ Hlk) as Hct.
  unfold holds_slot, is_taken, is_done in Hch, Hcd, Hct. simpl in Hch, Hcd, Hct.
  split; simpl; try done.
  - eapply Forall_impl; [exact Hw|]. intros w (d & Hj & ? & ?).
    exists d. rewrite list_lookup_alter_ne; [done|]. intros Heq. rewrite <- Heq in Hj. congruence.
  - intros i d. destruct (decide (i = tk_ptr t)) as [->|Hne].
    + rewrite list_lookup_alter_eq, Hlk. intros [= <-]. destruct (Hce _ _ Hlk). by split.
    + rewrite list_lookup_alter_ne by done. apply Hce.
  - rewrite Hi. unfold holds_slot, is_done. lia.
  - by rewrite length_alter.
  - rewrite Hdi. unfold is_taken. do 2 f_equal. lia.
  - rewrite Hco. unfold is_done. do 2 f_equal. lia.
Qed.

Lemma qinv_run cfg r s : qinv cfg s -> qinv cfg (with_run r s).
Proof. intros []. by split. Qed.

(** Changing a cell that does not exist changes nothing. *)
Lemma upd_none i f s : sy_cells s !! i = None -> upd i f s = s.
Proof.
  intros H. unfold upd. destruct s as [q cells r d e]. simpl in *. f_equal.
  apply list_eq. intros j. destruct (decide (j = i)) as [->|Hne].
  - by rewrite list_lookup_alter_eq, H.
  - by rewrite list_lookup_alter_ne.
Qed.

(** The facts about a cell that [qinv_upd] asks for, by cases on its program counter. *)
Ltac cell_step Hinv Hlk Hpc :=
  eapply (qinv_upd _ _ _ _ _ _ Hinv Hlk); simpl;
  [ reflexivity | reflexivity | reflexivity | first [reflexivity | apply remove_ptr_sublist]
  | reflexivity | reflexivity | apply (qi_samples _ _ Hinv)
  | reflexivity | reflexivity | reflexivity | | | | | ];
  unfold holds_slot, is_done; simpl; rewrite ?Hpc; simpl; rewrite ?andb_true_r, ?andb_false_r; simpl.

Ltac cell_auto c :=
  try done; try (by intros [|]); try (destruct (c_taken c); simpl; lia).

#[local] Arguments done_locked : simpl never.

Lemma done_frame now q :
  q_cfg (done_locked now q) = q_cfg q /\ q_waiting (done_locked now q) = q_waiting q /\
  q_arrivals (done_locked now q) = q_arrivals q /\ q_dispatched (done_locked now q) = q_dispatched q /\
  q_waitSamples (done_locked now q) = q_waitSamples q /\
  q_completed (done_locked now q) = uwrap64 (q_completed q + 1).
Proof. unfold done_locked. by destruct (0 <? q_inflight q). Qed.

Lemma qinv_done cfg s i c now :
  qinv cfg s -> sy_cells s !! i = Some c -> c_pc c = PcRelaying ->
  let q' := done_locked now (sy_q s) in
  q_inflight q' = q_inflight (sy_q s) - 1 /\ c_taken c = true /\ c_dispatchClosed c = true.
Proof.
  intros Hinv Hlk Hpc. destruct (qi_cells _ _ Hinv i c Hlk) as [_ Hcl Hrel].
  specialize (Hrel ltac:(by left)). specialize (Hcl Hrel).
  assert (Hpos : 0 < q_inflight (sy_q s)).
  { rewrite (qi_inflight _ _ Hinv).
    pose proof (countb_alter holds_slot (set_pc PcDone) _ _ _ Hlk) as Hch.
    unfold holds_slot at 2 4 in Hch. unfold is_done in Hch. simpl in Hch.
    rewrite Hcl, Hpc in Hch. simpl in Hch. lia. }
  unfold done_locked. rewrite (proj2 (Z.ltb_lt _ _)) by lia. simpl. split_and!; [lia|done|done].
Qed.

Lemma qinv_step cfg s s' :
  MaxInflightRequests cfg <= i64_max -> qinv cfg s -> qstep s s' -> qinv cfg s'.
Proof.
  intros Hmax Hinv Hstep. destruct Hstep.
  - (* refused *)
    pose proof (admit_locked_spec gate t (sy_q s)) as Hsp. rewrite H0 in Hsp.
    destruct Hsp as (? & Hw & ? & ? & ? & ? & Hsm & _).
    apply qinv_q; try done; [by rewrite Hw | rewrite Hsm; apply (qi_samples _ _ Hinv)].
  - eapply qinv_admit; [done|done|exact H0].
  - cell_step Hinv H H0; cell_auto c.
  - by eapply qinv_take.
  - by eapply qinv_close_dispatch.
  - by apply qinv_run.
  - destruct (sy_cells s !! i) as [c|] eqn:Hlk; [|by rewrite upd_none].
    eapply (qinv_upd _ _ _ i c set_ctxDone Hinv Hlk); simpl; try done.
    + apply (qi_samples _ _ Hinv).
    + intros Hp. by apply (co_relaying _ _ (qi_cells _ _ Hinv i c Hlk)).
    + unfold holds_slot, is_done. simpl. lia.
    + unfold is_done. simpl. by destruct (bool_decide _).
  - cell_step Hinv H H0; cell_auto c.
  - cell_step Hinv H H0; cell_auto c.
  - cell_step Hinv H H0; cell_auto c.
  - cell_step Hinv H H0; cell_auto c.
  - cell_step Hinv H H0; cell_auto c.
  - cell_step Hinv H H0; cell_auto c.
  - cell_step Hinv H H0; cell_auto c.
  - cell_step Hinv H H0; cell_auto c.
    intros _. apply (co_relaying _ _ (qi_cells _ _ Hinv i c H)). by left.
  - destruct (qinv_done cfg s i c now Hinv H H0) as (Hi & Htk & Hcl).
    destruct (done_frame now (sy_q s)) as (F1 & F2 & F3 & F4 & F5 & F6).
    cbv zeta in Hi. generalize dependent (done_locked now). intros dl Hi F1 F2 F3 F4 F5 F6.
    eapply (qinv_upd _ _ _ i c (fun c => set_pc PcDone (set_cell_state final c)) Hinv H); simpl;
      rewrite ?F1, ?F2, ?F3, ?F4, ?F5, ?F6; try done; [apply (qi_samples _ _ Hinv)| | |].
    + rewrite Hi. unfold holds_slot, is_done. simpl. rewrite Htk, H0. simpl. lia.
    + unfold holds_slot, is_done. simpl. by rewrite andb_false_r.
    + unfold is_done. simpl. by rewrite H0.
  - apply qinv_q; try done; [apply sublist_nil_l | apply (qi_samples _ _ Hinv)].
  - apply qinv_run, qinv_q; try done. apply (qi_samples _ _ Hinv).
  - by apply qinv_run.
  - by apply qinv_run.
  - unfold QueueSnapshot_of in H. destruct (pctile _ (f64_of_Z 50)); [|done].
    destruct (pctile _ (f64_of_Z 95)); [|done]. simpl in H. injection H as <- _.
    apply (qinv_q cfg s (fun _ => set_times _ _ _ _ (sy_q s))); try done. apply (qi_samples _ _ Hinv).
Qed.

(** ** Reachable states *)

Lemma qinv_reachable cfg s :
  MaxInflightRequests cfg <= i64_max -> qsteps (sys_new cfg) s -> qinv cfg s.
Proof.
  intros Hmax Hr. remember (sys_new cfg) as s0 eqn:Hs0.
  induction Hr as [s|s1 s2 s3 Hr IH Hstep]; subst; [apply qinv_new|].
  eapply qinv_step; [done| |exact Hstep]. by apply IH.
Qed.

(** How one cell may evolve: it keeps its ticket, is never untaken, and a failed handler stays
    failed. *)
Definition cell_le (c c' : Cell) : Prop :=
  c_ticket c' = c_ticket c /\ (c_taken c = true -> c_taken c' = true) /\
  (is_failed c = true -> is_failed c' = true).

Lemma cell_le_refl c : cell_le c c.
Proof. by split_and!. Qed.

Lemma cell_le_alter f j (cells : list Cell) i c :
  cells !! i = Some c -> (j = i -> cell_le c (f c)) ->
  exists c', alter f j cells !! i = Some c' /\ cell_le c c'.
Proof.
  intros Hlk Hf. destruct (decide (j = i)) as [->|Hne].
  - exists (f c). rewrite list_lookup_alter_eq, Hlk. split; [done|by apply Hf].
  - exists c. rewrite list_lookup_alter_ne by done. split; [done|apply cell_le_refl].
Qed.

Lemma qstep_cell s s' i c :
  qstep s s' -> sy_cells s !! i = Some c -> exists c', sy_cells s' !! i = Some c' /\ cell_le c c'.
Proof.
  intros Hstep Hlk. destruct Hstep; simpl.
  all: try (exists c; split; [first [done | by apply lookup_app_l_Some] | apply cell_le_refl]).
  all: apply cell_le_alter; [done|]; intros ?; simplify_eq; split_and!; simpl; try done.
  all: unfold is_failed; simpl;
    match goal with H : c_pc ?c = _ |- context [ c_pc ?c ] => rewrite H; done end.
Qed.

(** The steps that leave [waiting] shorter or the same, and the one that lengthens it. *)
Lemma qstep_waiting s s' :
  qstep s s' ->
  q_waiting (sy_q s') `sublist_of` q_waiting (sy_q s) \/
  exists t, tk_ptr t = length (sy_cells s) /\ q_waiting (sy_q s') = q_waiting (sy_q s) ++ [t] /\
    sy_cells s' = sy_cells s ++ [new_cell t].
Proof.
  intros Hstep. destruct Hstep; simpl; try (by left).
  - pose proof (admit_locked_spec gate t (sy_q s)) as Hsp. rewrite H0 in Hsp.
    left. by destruct Hsp as (_ & -> & _).
  - pose proof (admit_locked_spec gate t (sy_q s)) as Hsp. rewrite H0 in Hsp.
    right. exists t. by destruct Hsp as (_ & _ & _ & _ & _ & -> & _).
  - pose proof (drain_take_spec now (sy_q s)) as Hsp. rewrite H1 in Hsp.
    left. destruct Hsp as (-> & _). by apply sublist_cons.
  - left. apply remove_ptr_sublist.
  - left. apply remove_ptr_sublist.
  - left. by destruct (0 <? q_inflight (sy_q s)).
  - left. apply sublist_nil_l.
  - left. unfold QueueSnapshot_of in H. destruct (pctile _ (f64_of_Z 50)); [|done].
    destruct (pctile _ (f64_of_Z 95)); [|done]. simpl in H. by injection H as <- _.
Qed.

Lemma alter_lookup_inv (f : Cell -> Cell) i (l : list Cell) j c' :
  alter f i l !! j = Some c' ->
  (exists c, i = j /\ l !! j = Some c /\ c' = f c) \/ (i <> j /\ l !! j = Some c').
Proof.
  destruct (decide (i = j)) as [->|Hne].
  - rewrite list_lookup_alter_eq. intros H. apply fmap_Some in H as (c & ? & ->). left. by exists c.
  - rewrite list_lookup_alter_ne by done. by right.
Qed.

(** A ticket is taken by the dispatcher only, from the head of [waiting]. *)
Lemma qstep_taken s s' j c' :
  qstep s s' -> sy_cells s' !! j = Some c' -> c_taken c' = true ->
  (exists c, sy_cells s !! j = Some c /\ c_taken c = true) \/
  (exists t, tk_ptr t = j /\ q_waiting (sy_q s) = t :: q_waiting (sy_q s')).
Proof.
  intros Hstep. destruct Hstep; simpl; intros Hlk Htk.
  all: try (by left; exists c').
  { destruct (decide (j < length (sy_cells s))%nat).
    - rewrite lookup_app_l in Hlk by done. left. by exists c'.
    - rewrite lookup_app_r in Hlk by lia. apply list_lookup_singleton_Some in Hlk as [_ <-]. done. }
  all: apply alter_lookup_inv in Hlk as [(d & Hj & Hd & ->)|[Hne Hlk]]; [|left; by exists c'].
  all: try (left; exists d; split; [done|exact Htk]).
  pose proof (drain_take_spec now (sy_q s)) as Hsp. rewrite H1 in Hsp. right. exists t.
  split; [done|]. apply Hsp.
Qed.

(** No ticket overtakes one that is still waiting. *)
Definition fifo (s : System) : Prop :=
  forall w, w ∈ q_waiting (sy_q s) ->
  forall j c, sy_cells s !! j = Some c -> c_taken c = true -> (j < tk_ptr w)%nat.

Lemma fifo_reachable cfg s :
  MaxInflightRequests cfg <= i64_max -> qsteps (sys_new cfg) s -> fifo s.
Proof.
  intros Hmax Hr. remember (sys_new cfg) as s0 eqn:Hs0.
  induction Hr as [s|s1 s2 s3 Hr IH Hstep]; subst.
  { intros w Hw. by apply elem_of_nil in Hw. }
  specialize (IH eq_refl). pose proof (qinv_reachable cfg s2 Hmax Hr) as Hinv.
  intros w Hw j c Hlk Htk.
  destruct (qstep_taken _ _ _ _ Hstep Hlk Htk) as [(c0 & Hlk0 & Htk0)|(t & <- & Hq)].
  - destruct (qstep_waiting _ _ Hstep) as [Hsub|(t & Hptr & Hw' & _)].
    + refine (IH w _ j c0 Hlk0 Htk0). by eapply elem_of_sublist.
    + rewrite Hw' in Hw. apply elem_of_app in Hw as [Hw|Hw]; [by eapply IH|].
      apply list_elem_of_singleton in Hw as ->. rewrite Hptr. by apply lookup_lt_Some in Hlk0.
  - pose proof (qi_sorted _ _ Hinv) as Hs. rewrite Hq in Hs. inversion Hs as [|? ? _ Hall].
    rewrite Forall_forall in Hall. by apply Hall.
Qed.

(** A channel that is closed stays closed. *)
Lemma qsteps_closed i s s' : qsteps s s' -> forall c, sy_cells s !! i = Some c -> c_dispatchClosed c = true ->
  exists c', sy_cells s' !! i = Some c' /\ c_ticket c' = c_ticket c /\ c_dispatchClosed c' = true.
Proof.
  induction 1 as [s|s1 s2 s3 _ IH Hst]; intros c Hc Hcl; [by exists c|].
  destruct (IH c Hc Hcl) as (c2 & Hc2 & <- & Hcl2). clear IH Hc Hcl.
  destruct Hst; cbn; try (by exists c2); try (exists c2; split; [by apply lookup_app_l_Some|done]).
  all: match goal with |- context [ alter ?f ?j _ ] => destruct (decide (j = i)) as [->|Hne];
    [exists (f c2); rewrite list_lookup_alter_eq, Hc2|exists c2; rewrite list_lookup_alter_ne by done]; done end.
Qed.

(** ** Slots that nothing frees *)

Lemma countb_pointwise {A} (f g : A -> bool) (l k : list A) :
  (forall i x, l !! i = Some x -> f x = true -> exists y, k !! i = Some y /\ g y = true) ->
  (countb f l <= countb g k)%nat.
Proof.
  revert k. induction l as [|x l IH]; intros k H; [unfold countb; simpl; lia|].
  rewrite countb_cons. destruct k as [|y k].
  - destruct (f x) eqn:Hx; [by destruct (H 0%nat x eq_refl Hx) as (? & ? & _)|].
    specialize (IH []). simpl. apply IH. intros i z Hz. by apply (H (S i)).
  - rewrite countb_cons. assert (countb f l <= countb g k)%nat.
    { apply IH. intros i z Hz. by apply (H (S i)). }
    destruct (f x) eqn:Hx; [|lia]. destruct (H 0%nat x eq_refl Hx) as (z & [= <-] & ->). lia.
Qed.

Lemma leaked_mono s s' : qsteps s s' -> (countb leaked (sy_cells s) <= countb leaked (sy_cells s'))%nat.
Proof.
  induction 1 as [|s1 s2 s3 _ IH Hstep]; [done|]. etransitivity; [exact IH|].
  apply countb_pointwise. intros i c Hlk Hc. destruct (qstep_cell _ _ i c Hstep Hlk) as (c' & ? & _ & Ht & Hf).
  exists c'. split; [done|]. unfold leaked in *. apply andb_true_iff in Hc as [? ?].
  by rewrite Ht, Hf.
Qed.

Lemma leaked_holds cells : (countb leaked cells <= countb holds_slot cells)%nat.
Proof.
  apply countb_pointwise. intros i c Hlk Hc. exists c. split; [done|].
  unfold leaked, holds_slot, is_failed, is_done in *. apply andb_true_iff in Hc as [-> Hf]. simpl.
  apply negb_true_iff, bool_decide_eq_false. intros Hd. by rewrite Hd in Hf.
Qed.

Lemma qsteps_trans s1 s2 s3 : qsteps s1 s2 -> qsteps s2 s3 -> qsteps s1 s3.
Proof. intros H12 H23. induction H23; [done|]. econstructor; [by apply IHqsteps | done]. Qed.

(** ** The dispatcher among the others *)

(** A drain has nothing to do. *)
Definition no_work (q : Queue) : Prop := q_waiting q = [] \/ MaxInflightRequests (q_cfg q) <= q_inflight q.

Lemma drain_step_enabled s now : sy_run s = RunDraining -> qstep s (drain_step now s).
Proof.
  intros Hrun. unfold drain_step. destruct (sy_disp s) as [[t n]|] eqn:Hd; [by apply step_close_dispatch|].
  destruct (drain_take now (sy_q s)) as [[t q']|] eqn:Ht; [by apply step_take|by eapply step_drain_return].
Qed.

Lemma drain_exit s s' : sy_run s = RunDraining -> qstep s s' -> sy_run s' <> RunDraining -> no_work (sy_q s).
Proof.
  intros Hrun Hst. destruct Hst; cbn; try done; try congruence.
  intros _. pose proof (drain_take_spec now (sy_q s)) as Hsp. by rewrite H1 in Hsp.
Qed.

(** Slots held are tickets taken and not done. *)
Lemma holds_split cfg s : qinv cfg s ->
  countb is_taken (sy_cells s) = (countb holds_slot (sy_cells s) + countb is_done (sy_cells s))%nat.
Proof.
  intros Hinv. assert (Hd : Forall (fun c => is_done c = true -> is_taken c = true) (sy_cells s)).
  { apply Forall_lookup. intros i c Hc Hdone. destruct (qi_cells _ _ Hinv i c Hc) as [_ Hcl Hrel].
    apply Hcl, Hrel. right. by apply bool_decide_eq_true in Hdone. }
  induction Hd as [|c l Hc _ IH]; [done|]. rewrite !countb_cons, IH. unfold holds_slot.
  unfold is_taken in *. destruct (c_taken c), (is_done c); cbn in *; solve [lia | by specialize (Hc eq_refl)].
Qed.

Lemma countb_taken_alter f i cells : (forall c, c_taken (f c) = c_taken c) -> countb is_taken (alter f i cells) = countb is_taken cells.
Proof.
  intros Hf. revert i. induction cells as [|c l IH]; intros [|i]; csimpl; try done; rewrite !countb_cons; [|by rewrite IH].
  unfold is_taken at 1 3. by rewrite Hf.
Qed.

(** A ticket taken waited before or was admitted since. *)
Lemma take_counted cfg s s' : MaxInflightRequests cfg <= i64_max -> qinv cfg s -> qstep s s' ->
  (countb is_taken (sy_cells s') + length (q_waiting (sy_q s')) + length (sy_cells s) <=
   countb is_taken (sy_cells s) + length (q_waiting (sy_q s)) + length (sy_cells s'))%nat.
Proof.
  intros Hmax Hinv Hst. pose proof (qinv_step _ _ _ Hmax Hinv Hst) as Hinv'.
  assert (Hw : (length (q_waiting (sy_q s')) + length (sy_cells s) <= length (q_waiting (sy_q s)) + length (sy_cells s'))%nat).
  { destruct (qstep_waiting _ _ Hst) as [Hs|(t & _ & -> & ->)]; [|rewrite !length_app; cbn; lia].
    apply sublist_length in Hs. enough (length (sy_cells s) <= length (sy_cells s'))%nat by lia.
    apply Nat.nlt_ge. intros Hlt. destruct (lookup_lt_is_Some_2 (sy_cells s) (length (sy_cells s')) Hlt) as [c Hc].
    destruct (qstep_cell _ _ _ _ Hst Hc) as (c' & Hc' & _). apply lookup_lt_Some in Hc'. lia. }
  destruct Hst; cbn [sy_cells sy_q with_q with_disp with_run upd emit_event add_cell take_ticket close_dispatch] in *;
    rewrite ?countb_taken_alter by done; try lia.
  - rewrite countb_snoc. change (is_taken (new_cell t)) with false. cbv iota. lia.
  - pose proof (drain_take_spec now (sy_q s)) as Hsp. rewrite H1 in Hsp. destruct Hsp as (Hq & _).
    pose proof (qi_waiting _ _ Hinv) as Hall. rewrite Hq in Hall. apply Forall_cons in Hall as [(c & Hc & _ & Hnt) _].
    pose proof (countb_alter is_taken set_taken _ _ _ Hc) as Hct. unfold is_taken in Hct at 2 4. rewrite Hnt in Hct. cbn in Hct.
    rewrite Hq, length_alter. cbn [length]. lia.
Qed.

Lemma takes_bounded cfg s0 s : MaxInflightRequests cfg <= i64_max -> qsteps (sys_new cfg) s0 -> qsteps s0 s ->
  (countb is_taken (sy_cells s) + length (q_waiting (sy_q s)) + length (sy_cells s0) <=
   countb is_taken (sy_cells s0) + length (q_waiting (sy_q s0)) + length (sy_cells s))%nat.
Proof.
  intros Hmax Hr0 Hr. induction Hr as [s|s1 s2 s3 Hr IH Hst]; [lia|]. specialize (IH Hr0).
  pose proof (take_counted cfg s2 s3 Hmax (qinv_reachable cfg s2 Hmax (qsteps_trans _ _ _ Hr0 Hr)) Hst). lia.
Qed.

Lemma drain_alone_step n clk s : sy_run s = RunDraining ->
  drain_alone (S n) clk s = drain_alone n (fun m => clk (S m)) (drain_step (clk O) s).
Proof. intros Hrun. cbn [drain_alone]. by rewrite Hrun. Qed.

(** A drain left alone. *)
Lemma alone_spec cfg s clk : MaxInflightRequests cfg <= i64_max -> qinv cfg s ->
  sy_run s = RunDraining -> sy_disp s = None ->
  let s' := drain_alone (2 * length (q_waiting (sy_q s)) + 1) clk s in
  sy_run s' = RunSelect /\ qsteps s s' /\
  q_waiting (sy_q s') = drop (free_slots (sy_q s)) (q_waiting (sy_q s)) /\
  Forall (fun t => exists c, sy_cells s' !! tk_ptr t = Some c /\ c_ticket c = t /\ c_dispatchClosed c = true)
    (take (free_slots (sy_q s)) (q_waiting (sy_q s))).
Proof.
  intros Hmax. remember (length (q_waiting (sy_q s))) as n eqn:Hn. revert s clk Hn.
  induction n as [|n IH]; intros s clk Hn Hinv Hrun Hd; cbv zeta.
  - symmetry in Hn. apply nil_length_inv in Hn.
    assert (E : drain_step (clk O) s = with_run RunSelect s) by (unfold drain_step, drain_take; by rewrite Hd, Hn).
    change (2 * 0 + 1)%nat with 1%nat. rewrite drain_alone_step, E, Hn, drop_nil, take_nil by done. split; [done|]. split; [|done].
    eapply qsteps_step; [apply qsteps_refl|]. rewrite <- E. by apply drain_step_enabled.
  - replace (2 * S n + 1)%nat with (S (S (2 * n + 1))) by lia. rewrite drain_alone_step by done.
    pose proof (drain_take_spec (clk O) (sy_q s)) as Hsp.
    assert (E : drain_step (clk O) s = match drain_take (clk O) (sy_q s) with Some (t, q') => take_ticket t (clk O) q' s | None => with_run RunSelect s end)
      by (unfold drain_step; by rewrite Hd).
    rewrite E. clear E. destruct (drain_take (clk O) (sy_q s)) as [[t q1]|] eqn:Ht.
    2: { assert (Hf : free_slots (sy_q s) = 0%nat) by (unfold free_slots; destruct Hsp as [Hw|]; [rewrite Hw in Hn; done|lia]).
      rewrite Hf. cbn. split; [done|]. split; [|done].
      eapply qsteps_step; [apply qsteps_refl|]. eapply step_drain_return; [done|done|exact Ht]. }
    destruct Hsp as (Hw & Hlt & Hin & Hcfg & _).
    set (s1 := take_ticket t (clk O) q1 s). set (s2 := close_dispatch t (clk O) s1).
    assert (Hst1 : qstep s s1) by by apply step_take.
    assert (Hst2 : qstep s1 s2) by by apply step_close_dispatch.
    assert (Hinv2 : qinv cfg s2) by (eapply qinv_step; [done| |exact Hst2]; by eapply qinv_step).
    rewrite drain_alone_step by done. change (drain_step (clk 1%nat) (take_ticket t (clk O) q1 s)) with s2.
    destruct (IH s2 (fun n => clk (S (S n)))) as (I1 & I2 & I3 & I4); [cbn; rewrite Hw in Hn; by injection Hn|done|done|done|].
    rewrite wrap64_succ in Hin by (rewrite (qi_cfg _ _ Hinv) in Hlt; pose proof (qi_inflight _ _ Hinv); lia).
    assert (Hfree : free_slots (sy_q s) = S (free_slots q1)) by (unfold free_slots; rewrite Hcfg, Hin; lia).
    rewrite Hfree, Hw. cbn [take drop]. split; [exact I1|]. split.
    { eapply qsteps_trans; [|exact I2]. eapply qsteps_step; [eapply qsteps_step; [apply qsteps_refl|done]|done]. }
    split; [exact I3|]. constructor; [|exact I4].
    pose proof (qi_waiting _ _ Hinv) as Hall. rewrite Hw in Hall. apply Forall_cons in Hall as [(c & Hc & Htk & _) _].
    assert (Hc2 : sy_cells s2 !! tk_ptr t = Some (set_dispatchClosed (clk O) (set_taken c)))
      by (cbn; by rewrite !list_lookup_alter_eq, Hc).
    assert (Hkeep : forall s s', qsteps s s' -> forall c, sy_cells s !! tk_ptr t = Some c -> c_dispatchClosed c = true ->
      exists c', sy_cells s' !! tk_ptr t = Some c' /\ c_ticket c' = c_ticket c /\ c_dispatchClosed c' = true) by apply qsteps_closed.
    destruct (Hkeep _ _ I2 _ Hc2 eq_refl) as (c' & Hc' & E1 & E2). exists c'. split; [exact Hc'|]. split; [by rewrite E1|done].
Qed.

(** ** The properties *)

(** C19: bounds and conservation in every interleaving.  In every reachable state of the goroutine
    system the queue holds at most [MaxQueuedRequests] tickets and at most [MaxInflightRequests] are
    in flight; the in-flight count is exactly the number of tickets the dispatcher took whose handler
    has not called [Done]; and the totals count every admission, every dispatch and every [Done]
    (modulo 2^64). *)
Theorem queue_bounds cfg s :
  MaxInflightRequests cfg <= i64_max -> qsteps (sys_new cfg) s ->
  Z.of_nat (length (q_waiting (sy_q s))) <= Z.max 0 (MaxQueuedRequests cfg) /\
  0 <= q_inflight (sy_q s) <= Z.max 0 (MaxInflightRequests cfg) /\
  q_inflight (sy_q s) = Z.of_nat (countb holds_slot (sy_cells s)) /\
  q_arrivals (sy_q s) = uwrap64 (Z.of_nat (length (sy_cells s))) /\
  q_dispatched (sy_q s) = uwrap64 (Z.of_nat (countb is_taken (sy_cells s))) /\
  q_completed (sy_q s) = uwrap64 (Z.of_nat (countb is_done (sy_cells s))).
Proof.
  intros Hmax Hr. destruct (qinv_reachable cfg s Hmax Hr) as [Hc Hs Hw Hl Hce Hi Hm Hd Ha Hdi Hco Hsa].
  split_and!; try done. lia.
Qed.

(** First in, first out.  Tickets are numbered in the order of their admission.  Whatever the
    interleaving, every ticket the dispatcher has taken is older than every ticket still waiting, the
    next one it takes is the oldest waiting, and that one was never taken nor its channel closed
    before (so no channel is closed twice). *)
Theorem queue_fifo cfg s now t q' :
  MaxInflightRequests cfg <= i64_max -> qsteps (sys_new cfg) s ->
  drain_take now (sy_q s) = Some (t, q') ->
  (forall j c, sy_cells s !! j = Some c -> c_taken c = true -> (j < tk_ptr t)%nat) /\
  Forall (fun w => tk_ptr t < tk_ptr w)%nat (q_waiting q') /\
  exists c, sy_cells s !! tk_ptr t = Some c /\ c_taken c = false /\ c_dispatchClosed c = false.
Proof.
  intros Hmax Hr Ht. pose proof (drain_take_spec now (sy_q s)) as Hsp. rewrite Ht in Hsp.
  destruct Hsp as (Hw & _). pose proof (qinv_reachable cfg s Hmax Hr) as Hinv. split_and!.
  - intros j c. apply (fifo_reachable cfg s Hmax Hr). rewrite Hw. by left.
  - pose proof (qi_sorted _ _ Hinv) as Hs. rewrite Hw in Hs. by inversion Hs.
  - pose proof (qi_waiting _ _ Hinv) as Hall. rewrite Hw in Hall.
    apply Forall_cons in Hall as [(c & Hlk & _ & Hnt) _]. exists c. split_and!; try done.
    destruct (c_dispatchClosed c) eqn:Hcl; [|done].
    rewrite (co_closed _ _ (qi_cells _ _ Hinv _ _ Hlk) Hcl) in Hnt. done.
Qed.

(** C28: the dispatcher is work-conserving, in every interleaving.  [drain] holds the lock for one iteration at a time
    and admissions, [Done], timeouts and cancellations may come between any two iterations.  While it drains it never waits:
    its next step is enabled, and it takes the oldest waiting ticket if one waits and a slot is free.  It returns only
    when, under the lock, none waits or no slot is free.  Over any stretch of the execution it takes no more tickets than waited
    plus were admitted since, and no more than slots were free plus were given back by [Done] since; so it goes on only as
    long as the others feed it.  Left alone it returns after at most two steps per waiting ticket and one, having taken
    the oldest tickets, as many as slots were free. *)
Theorem drain_work_conserving cfg s0 s :
  MaxInflightRequests cfg <= i64_max -> qsteps (sys_new cfg) s0 -> qsteps s0 s ->
  let took := Z.of_nat (countb is_taken (sy_cells s)) - Z.of_nat (countb is_taken (sy_cells s0)) in
  let admitted := Z.of_nat (length (sy_cells s)) - Z.of_nat (length (sy_cells s0)) in
  let completed := Z.of_nat (countb is_done (sy_cells s)) - Z.of_nat (countb is_done (sy_cells s0)) in
  took <= Z.of_nat (length (q_waiting (sy_q s0))) + admitted /\
  took <= Z.max 0 (MaxInflightRequests cfg) - q_inflight (sy_q s0) + completed /\
  (sy_run s = RunDraining ->
     (forall now, qstep s (drain_step now s)) /\
     (sy_disp s = None -> forall now, match drain_take now (sy_q s) with
        | Some (t, _) => head (q_waiting (sy_q s)) = Some t /\ q_inflight (sy_q s) < MaxInflightRequests cfg
        | None => no_work (sy_q s)
        end) /\
     (forall s', qstep s s' -> sy_run s' <> RunDraining -> no_work (sy_q s)) /\
     (sy_disp s = None -> forall clk,
        let s' := drain_alone (2 * length (q_waiting (sy_q s)) + 1) clk s in
        sy_run s' = RunSelect /\ qsteps s s' /\
        q_waiting (sy_q s') = drop (free_slots (sy_q s)) (q_waiting (sy_q s)) /\
        Forall (fun t => exists c, sy_cells s' !! tk_ptr t = Some c /\ c_ticket c = t /\ c_dispatchClosed c = true)
          (take (free_slots (sy_q s)) (q_waiting (sy_q s))))).
Proof.
  intros Hmax Hr0 Hr. cbv zeta. pose proof (qsteps_trans _ _ _ Hr0 Hr) as Hreach.
  pose proof (qinv_reachable cfg s0 Hmax Hr0) as Hi0. pose proof (qinv_reachable cfg s Hmax Hreach) as Hi.
  split; [by pose proof (takes_bounded cfg s0 s Hmax Hr0 Hr); lia|]. split.
  { pose proof (qi_inflight _ _ Hi0). pose proof (qi_inflight _ _ Hi). pose proof (qi_max _ _ Hi).
    pose proof (holds_split cfg s0 Hi0). pose proof (holds_split cfg s Hi). lia. }
  intros Hrun. split; [intros now; by apply drain_step_enabled|]. split; [|split].
  - intros Hd now. pose proof (drain_take_spec now (sy_q s)) as Hsp. destruct (drain_take now (sy_q s)) as [[t q']|]; [|done].
    destruct Hsp as (-> & Hlt & _). by rewrite (qi_cfg _ _ Hi) in Hlt.
  - intros s' Hst Hn. by apply (drain_exit s s').
  - intros Hd clk. by apply (alone_spec cfg).
Qed.

(** C38: a slot can leak for good.  A handler that leaves the [select] by cancellation or timeout after
    the dispatcher took its ticket never calls [Done]: the slots such handlers hold only ever grow in
    number, and once they fill [MaxInflightRequests] no ticket is ever dispatched again. *)
Theorem leaked_slots_stay cfg s s' now :
  MaxInflightRequests cfg <= i64_max -> qsteps (sys_new cfg) s -> qsteps s s' ->
  Z.of_nat (countb leaked (sy_cells s)) <= q_inflight (sy_q s') /\
  (MaxInflightRequests cfg <= Z.of_nat (countb leaked (sy_cells s)) -> drain_take now (sy_q s') = None).
Proof.
  intros Hmax Hr Hs. pose proof (qinv_reachable cfg s' Hmax (qsteps_trans _ _ _ Hr Hs)) as Hinv.
  assert (Hle : Z.of_nat (countb leaked (sy_cells s)) <= q_inflight (sy_q s')).
  { rewrite (qi_inflight _ _ Hinv). pose proof (leaked_mono _ _ Hs).
    pose proof (leaked_holds (sy_cells s')). lia. }
  split; [done|]. intros Hfull. pose proof (drain_take_spec now (sy_q s')) as Hsp.
  destruct (drain_take now (sy_q s')) as [[t q']|]; [|done].
  destruct Hsp as (_ & Hlt & _). rewrite (qi_cfg _ _ Hinv) in Hlt. lia.
Qed.

(** Admission decides exactly.  [Admit] refuses with [ErrBackendOffline] exactly when the queue is
    closed, else with the gate's error exactly when the gate has one, else with [ErrQueueFull] exactly
    when [MaxQueuedRequests] tickets wait; otherwise the ticket goes to the back of the queue. *)
Theorem admit_decides gate t q :
  let '(q', r) := admit_locked gate t q in
  match r with
  | inl e =>
      q_waiting q' = q_waiting q /\ q_inflight q' = q_inflight q /\ q_arrivals q' = q_arrivals q /\
      e = (if q_closed q then ErrBackendOffline else default ErrQueueFull gate)
  | inr t' => t' = t /\ q_waiting q' = q_waiting q ++ [t] /\ q_inflight q' = q_inflight q /\
      q_arrivals q' = uwrap64 (q_arrivals q + 1)
  end /\
  ((exists e, r = inl e) <->
   q_closed q = true \/ is_Some gate \/ MaxQueuedRequests (q_cfg q) <= Z.of_nat (length (q_waiting q))).
Proof.
  pose proof (admit_locked_spec gate t q) as Hsp. destruct (admit_locked gate t q) as [q' [e|t']].
  - destruct Hsp as (_ & Hw & Hi & Ha & _ & _ & _ & Hcase). split; [|split; [|by exists e]].
    + split_and!; try done. destruct Hcase as [[-> ->]|[[-> ->]|(-> & -> & -> & _)]]; done.
    + intros _. destruct Hcase as [[-> _]|[[_ ->]|(_ & _ & _ & ?)]]; [by left| |by auto].
      right; left. by eexists.
  - destruct Hsp as (-> & Hcl & Hg & Hlt & _ & Hw & Hi & Ha & _). split; [done|].
    split; [by intros [e He]|]. intros [H|[[e He]|H]]; [congruence | congruence | lia].
Qed.

(** The snapshot never panics.  In every reachable state [Snapshot] returns: the wait samples stay
    few enough that both percentiles index inside them. *)
Theorem queue_snapshot_total cfg s now :
  MaxInflightRequests cfg <= i64_max -> qsteps (sys_new cfg) s ->
  exists q' snap, QueueSnapshot_of now (sy_q s) = Some (q', snap) /\
    qs_Queued snap = Z.of_nat (length (q_waiting (sy_q s))) /\
    qs_Inflight snap = q_inflight (sy_q s).
Proof.
  intros Hmax Hr. pose proof (qi_samples _ _ (qinv_reachable cfg s Hmax Hr)) as Hlen.
  unfold QueueSnapshot_of, pctile.
  assert (Hl : Z.of_nat (length (sort_by float64s_less (q_waitSamples (sy_q s)))) <= percentile_max).
  { rewrite length_sort_by. unfold percentile_max. lia. }
  destruct (percentile_Some _ (f64_of_Z 50) ltac:(by left) Hl) as [p50 ->].
  destruct (percentile_Some _ (f64_of_Z 95) ltac:(by right) Hl) as [p95 ->].
  eexists _, _. split; [reflexivity|]. done.
Qed.

(** ** A concrete run: the only slot leaks *)

Definition one_slot : QueueConfig :=
  {| qc_Enabled := true; MaxQueuedRequests := 4; MaxInflightRequests := 1;
     QueueTimeout := 30 * second; AdmissionMode := "fifo" |}.

Definition ticket_n (n : nat) : Ticket :=
  {| tk_ptr := n; tk_RequestID := "r"; tk_RouteID := "rt"; tk_BackendID := "b"; tk_HostID := "h";
     tk_DeviceID := "0"; tk_enqueuedMono := 100; tk_enqueuedWall := 0 |}.

(** One request is admitted and waits. *)
Definition sys_waiting : System :=
  let s := sys_new one_slot in
  let s := add_cell (ticket_n 0) (with_q (fun _ => fst (admit_locked None (ticket_n 0) (sy_q s))) s) in
  s |> emit_event (transition_event 0 100 StateQueued "enqueued" (new_cell (ticket_n 0)))
    |> upd 0 (fun c => set_pc PcSelect (set_cell_state StateQueued c)) |> with_q wake.

Lemma sys_waiting_reachable : qsteps (sys_new one_slot) sys_waiting.
Proof.
  eapply qsteps_step; [eapply qsteps_step; [apply qsteps_refl|]|].
  - by eapply (step_admit _ None (ticket_n 0)).
  - by eapply (step_queued _ 0 (new_cell (ticket_n 0)) 0).
Qed.

(** The dispatcher wakes up. *)
Definition sys_draining : System := sys_waiting |> with_q (set_signal false) |> with_run RunDraining.

Lemma sys_draining_reachable : qsteps (sys_new one_slot) sys_draining.
Proof. eapply qsteps_step; [apply sys_waiting_reachable|]. by apply step_signal. Qed.

(** It takes the ticket while the client goes away, and the [select] picks the client. *)
Definition sys_leaked : System :=
  drain_alone 3 (fun _ => 200) sys_draining |> upd 0 set_ctxDone |> upd 0 (set_pc PcCancelChosen).

Lemma sys_leaked_reachable : qsteps (sys_new one_slot) sys_leaked.
Proof.
  assert (Hq : qinv one_slot sys_draining) by (apply qinv_reachable; [done|apply sys_draining_reachable]).
  destruct (alone_spec one_slot sys_draining (fun _ => 200)) as (_ & Hs & _); [done|exact Hq|done|done|].
  eapply qsteps_step; [eapply qsteps_step; [eapply qsteps_trans; [apply sys_draining_reachable|exact Hs]|]|].
  - by eapply (step_ctx_done _ 0).
  - by eapply (step_select_cancel _ 0).
Qed.

Lemma queue_bounds_witness :
  Z.of_nat (length (q_waiting (sy_q sys_waiting))) <= 4 /\ 0 <= q_inflight (sy_q sys_waiting) <= 1.
Proof.
  destruct (queue_bounds one_slot sys_waiting) as (H1 & H2 & _);
    [by vm_compute | apply sys_waiting_reachable | split; [exact H1 | exact H2]].
Defined.

Lemma queue_fifo_witness :
  exists t q', drain_take 200 (sy_q sys_waiting) = Some (t, q') /\
    Forall (fun w => tk_ptr t < tk_ptr w)%nat (q_waiting q').
Proof.
  destruct (drain_take 200 (sy_q sys_waiting)) as [[t q']|] eqn:E; [|by vm_compute in E].
  exists t, q'. split; [done|].
  destruct (queue_fifo one_slot sys_waiting 200 t q') as (_ & H & _);
    [by vm_compute | apply sys_waiting_reachable | exact E | exact H].
Defined.

(** Left alone the drain takes the one ticket and returns. *)
Lemma drain_work_conserving_witness :
  let s' := drain_alone 3 (fun _ => 200) sys_draining in
  sy_run s' = RunSelect /\ q_waiting (sy_q s') = [] /\ countb is_taken (sy_cells s') = 1%nat.
Proof.
  destruct (drain_work_conserving one_slot sys_draining sys_draining) as (_ & _ & H);
    [done|apply sys_draining_reachable|apply qsteps_refl|].
  destruct (H eq_refl) as (_ & _ & _ & Ha). destruct (Ha eq_refl (fun _ => 200)) as (H1 & _ & H2 & _).
  split; [exact H1|]. split; [etransitivity; [exact H2|by vm_compute]|by vm_compute].
Defined.

(** From here on nothing is dispatched. *)
Lemma leaked_slots_stay_witness :
  1 <= q_inflight (sy_q sys_leaked) /\ drain_take 300 (sy_q sys_leaked) = None.
Proof.
  destruct (leaked_slots_stay one_slot sys_leaked sys_leaked 300) as [H1 H2];
    [by vm_compute | apply sys_leaked_reachable | apply qsteps_refl | ].
  split; [exact H1 | apply H2; by vm_compute].
Defined.

Lemma queue_snapshot_total_witness :
  exists q' snap, QueueSnapshot_of 200 (sy_q sys_leaked) = Some (q', snap) /\
    qs_Queued snap = 0 /\ qs_Inflight snap = 1.
Proof.
  apply (queue_snapshot_total one_slot sys_leaked 200);
    [by vm_compute | apply sys_leaked_reachable].
Defined.
