(* ===== verification/WorkAccounting.v ===== *)
(** * Token-level work accounting ([internal/dataplane/work.go])

    Reservations are booked with [ReserveTokens], made active at dispatch and released once; the
    counters are clamped at zero. *)

From Stdlib Require Import Floats.SpecFloat.
From stdpp Require Import base tactics numbers option list.
From S2P Require Import Prelude GoFloat.

Record WorkAccountant := {
  wa_reservedUncachedPrefill : Z;
  wa_reservedDecode : Z;
  wa_activeUncachedPrefill : Z;
  wa_activeDecode : Z;
  wa_totalReservedPrefill : Z;
  wa_totalReservedDecode : Z;
}.

Definition NewWorkAccountant : WorkAccountant :=
  {| wa_reservedUncachedPrefill := 0; wa_reservedDecode := 0; wa_activeUncachedPrefill := 0;
     wa_activeDecode := 0; wa_totalReservedPrefill := 0; wa_totalReservedDecode := 0 |}.

Definition WorkConfidenceThreshold : f64 := f64_lit 30 100.

(** The token counts [ReserveTokens] books and returns. *)
Definition reservation (inputTokens matchedPrefixTokens expectedOutput : Z) (confidence : f64) : Z * Z :=
  let inputTokens := if inputTokens <? 0 then 0 else inputTokens in
  let expectedOutput := if expectedOutput <? 0 then 0 else expectedOutput in
  let matched :=
    if f64_leb WorkConfidenceThreshold confidence then
      if inputTokens <? matchedPrefixTokens then inputTokens else matchedPrefixTokens
    else 0 in
  let uncachedPrefill := wrap64 (inputTokens - matched) in
  (if uncachedPrefill <? 0 then 0 else uncachedPrefill, expectedOutput).

Definition ReserveTokens (inputTokens matchedPrefixTokens expectedOutput : Z) (confidence : f64)
    (w : WorkAccountant) : WorkAccountant * (Z * Z) :=
  let '(uncachedPrefill, decode) :=
    reservation inputTokens matchedPrefixTokens expectedOutput confidence in
  ({| wa_reservedUncachedPrefill := wrap64 (w.(wa_reservedUncachedPrefill) + uncachedPrefill);
      wa_reservedDecode := wrap64 (w.(wa_reservedDecode) + decode);
      wa_activeUncachedPrefill := w.(wa_activeUncachedPrefill);
      wa_activeDecode := w.(wa_activeDecode);
      wa_totalReservedPrefill := wrap64 (w.(wa_totalReservedPrefill) + uncachedPrefill);
      wa_totalReservedDecode := wrap64 (w.(wa_totalReservedDecode) + decode) |},
   (uncachedPrefill, decode)).

#[global] Arguments reservation : simpl never.
#[global] Arguments ReserveTokens : simpl never.
#[global] Arguments wrap64 : simpl never.

Definition Activate (uncachedPrefill decode : Z) (w : WorkAccountant) : WorkAccountant :=
  {| wa_reservedUncachedPrefill := w.(wa_reservedUncachedPrefill);
     wa_reservedDecode := w.(wa_reservedDecode);
     wa_activeUncachedPrefill := wrap64 (w.(wa_activeUncachedPrefill) + uncachedPrefill);
     wa_activeDecode := wrap64 (w.(wa_activeDecode) + decode);
     wa_totalReservedPrefill := w.(wa_totalReservedPrefill);
     wa_totalReservedDecode := w.(wa_totalReservedDecode) |}.

Definition clamp0 (z : Z) : Z := if z <? 0 then 0 else z.

Definition Release (uncachedPrefill decode : Z) (w : WorkAccountant) : WorkAccountant :=
  {| wa_reservedUncachedPrefill := clamp0 (wrap64 (w.(wa_reservedUncachedPrefill) - uncachedPrefill));
     wa_reservedDecode := clamp0 (wrap64 (w.(wa_reservedDecode) - decode));
     wa_activeUncachedPrefill := clamp0 (wrap64 (w.(wa_activeUncachedPrefill) - uncachedPrefill));
     wa_activeDecode := clamp0 (wrap64 (w.(wa_activeDecode) - decode));
     wa_totalReservedPrefill := w.(wa_totalReservedPrefill);
     wa_totalReservedDecode := w.(wa_totalReservedDecode) |}.

Record WorkSnapshot := {
  ReservedUncachedPrefillTokens : Z;
  ReservedDecodeTokens : Z;
  ActiveUncachedPrefillTokens : Z;
  ActiveDecodeTokens : Z;
  TotalReservedPrefillTokens : Z;
  TotalReservedDecodeTokens : Z;
}.

Definition WorkSnapshot_of (w : WorkAccountant) : WorkSnapshot :=
  {| ReservedUncachedPrefillTokens := w.(wa_reservedUncachedPrefill);
     ReservedDecodeTokens := w.(wa_reservedDecode);
     ActiveUncachedPrefillTokens := w.(wa_activeUncachedPrefill);
     ActiveDecodeTokens := w.(wa_activeDecode);
     TotalReservedPrefillTokens := w.(wa_totalReservedPrefill);
     TotalReservedDecodeTokens := w.(wa_totalReservedDecode) |}.

(** ** The calls of the proxy

    A request reserves, activates and (deferred) releases; requests interleave.  A run is a list of
    these calls; [live_reserved] and [live_active] are the reservations a run leaves open. *)

Inductive work_op :=
  | WReserve (id : nat) (input matched output : Z) (conf : f64)
  | WActivate (id : nat)
  | WRelease (id : nat).

(** Per request: its booked amounts and whether they were activated. *)
Record WorkRun := { wr_acc : WorkAccountant; wr_open : list (nat * (Z * Z) * bool) }.

Definition get_open (id : nat) (l : list (nat * (Z * Z) * bool)) : option ((Z * Z) * bool) :=
  (fun e => (snd (fst e), snd e)) <$> List.find (fun e => (fst (fst e) =? id)%nat) l.

Definition work_apply (r : WorkRun) (op : work_op) : option WorkRun :=
  match op with
  | WReserve id i m o c =>
      match get_open id (wr_open r) with
      | Some _ => None
      | None =>
          let '(w, booked) := ReserveTokens i m o c (wr_acc r) in
          Some {| wr_acc := w; wr_open := (id, booked, false) :: wr_open r |}
      end
  | WActivate id =>
      match get_open id (wr_open r) with
      | Some ((p, d), false) =>
          Some {| wr_acc := Activate p d (wr_acc r);
                  wr_open := map (fun e => if (fst (fst e) =? id)%nat then (fst e, true) else e) (wr_open r) |}
      | _ => None
      end
  | WRelease id =>
      match get_open id (wr_open r) with
      | Some ((p, d), true) =>
          Some {| wr_acc := Release p d (wr_acc r);
                  wr_open := List.filter (fun e => negb (fst (fst e) =? id)%nat) (wr_open r) |}
      | _ => None
      end
  end.

Fixpoint work_run (r : WorkRun) (ops : list work_op) : option WorkRun :=
  match ops with
  | [] => Some r
  | op :: ops => match work_apply r op with Some r' => work_run r' ops | None => None end
  end.

Definition sum_of (f : nat * (Z * Z) * bool -> Z) (l : list (nat * (Z * Z) * bool)) : Z :=
  foldr (fun e a => f e + a) 0 l.

Definition prefill_of (e : nat * (Z * Z) * bool) : Z := fst (snd (fst e)).
Definition decode_of (e : nat * (Z * Z) * bool) : Z := snd (snd (fst e)).
Definition if_active (f : nat * (Z * Z) * bool -> Z) (e : nat * (Z * Z) * bool) : Z :=
  if snd e then f e else 0.

(** ** Facts *)

(** The arguments are [int]s, and a match is not negative. *)
Definition op_ok (op : work_op) : Prop :=
  match op with
  | WReserve _ i m o _ => in_i64 i /\ 0 <= m <= i64_max /\ in_i64 o
  | _ => True
  end.

(** The reservations that are open together add up to an [int]. *)
Definition in_budget (r : WorkRun) : Prop :=
  sum_of prefill_of (wr_open r) <= i64_max /\ sum_of decode_of (wr_open r) <= i64_max.

Lemma reservation_value input matched output confidence :
  in_i64 input -> 0 <= matched <= i64_max ->
  exists p, reservation input matched output confidence = (p, Z.max 0 output) /\
  0 <= p <= Z.max 0 input /\ Z.max 0 input - matched <= p /\
  (f64_leb WorkConfidenceThreshold confidence = false -> p = Z.max 0 input) /\
  (f64_leb WorkConfidenceThreshold confidence = true -> p = Z.max 0 (Z.max 0 input - matched)).
Proof.
  intros Hi Hm.
  assert (Hclamp : forall z, (if z <? 0 then 0 else z) = Z.max 0 z)
    by (intros z; destruct (Z.ltb_spec z 0); lia).
  unfold reservation. rewrite !Hclamp. eexists. split; [reflexivity|].
  unfold in_i64, i64_min, i64_max in *.
  destruct (f64_leb WorkConfidenceThreshold confidence).
  - rewrite wrap64_id by (unfold in_i64, i64_min, i64_max; go_split; go_bool; lia).
    split_and!; go_split; go_bool; lia.
  - rewrite wrap64_id by (unfold in_i64, i64_min, i64_max; lia). split_and!; lia.
Qed.

Lemma get_open_in id l e : get_open id l = Some e -> (id, fst e, snd e) ∈ l.
Proof.
  unfold get_open. destruct (List.find _ l) as [[[i a] b]|] eqn:Hf; [|done].
  intros [= <-]. apply List.find_some in Hf as [Hin Heq]. simpl in *. apply Nat.eqb_eq in Heq as ->.
  by apply list_elem_of_In.
Qed.

Lemma get_open_none id l : get_open id l = None -> Forall (fun e => fst (fst e) <> id) l.
Proof.
  unfold get_open. destruct (List.find _ l) eqn:Hf; [done|]. intros _.
  apply Forall_forall. intros e He. apply list_elem_of_In in He.
  pose proof (List.find_none _ _ Hf e He) as H. simpl in H. by apply Nat.eqb_neq.
Qed.

(** Removing the one entry of a request, or changing its flag. *)
Lemma sum_of_remove f l id e :
  NoDup (map (fun e => fst (fst e)) l) -> (id, fst e, snd e) ∈ l ->
  sum_of f (List.filter (fun e => negb (fst (fst e) =? id)%nat) l) = sum_of f l - f (id, fst e, snd e).
Proof.
  induction l as [|[[i a] b] l IH]; [by intros _ ?%elem_of_nil|].
  simpl. intros Hnd Hin. apply NoDup_cons in Hnd as [Hni Hnd].
  assert (Hrest : i = id -> List.filter (fun e => negb (fst (fst e) =? id)%nat) l = l).
  { intros ->. clear -Hni. induction l as [|[[j a] b] l IH]; [done|]. simpl in *.
    apply not_elem_of_cons in Hni as [Hne Hni]. rewrite (proj2 (Nat.eqb_neq j id)) by done. simpl.
    by rewrite IH. }
  apply elem_of_cons in Hin as [[= <- <- <-]|Hin].
  - rewrite Nat.eqb_refl. simpl. rewrite Hrest by done. destruct e. simpl. lia.
  - destruct (Nat.eqb_spec i id) as [->|Hne]; simpl.
    + exfalso. apply Hni, list_elem_of_In, in_map_iff. exists (id, fst e, snd e).
      by rewrite <- list_elem_of_In.
    + rewrite IH by done. lia.
Qed.

Lemma sum_of_cons f e l : sum_of f (e :: l) = f e + sum_of f l.
Proof. done. Qed.

Lemma sum_of_nonneg f l : Forall (fun e => 0 <= f e) l -> 0 <= sum_of f l.
Proof. induction 1; simpl; lia. Qed.

Lemma sum_of_bound f l b : Forall (fun e => f e <= b) l -> sum_of f l <= b * Z.of_nat (length l).
Proof. induction 1; simpl; lia. Qed.

Definition activate_entry (id : nat) (e : nat * (Z * Z) * bool) : nat * (Z * Z) * bool :=
  if (fst (fst e) =? id)%nat then (fst e, true) else e.

Lemma sum_of_ext f g l : Forall (fun e => f e = g e) l -> sum_of f l = sum_of g l.
Proof. induction 1; simpl; lia. Qed.

Lemma sum_of_map f (g : nat * (Z * Z) * bool -> nat * (Z * Z) * bool) l :
  sum_of f (map g l) = sum_of (fun e => f (g e)) l.
Proof. induction l; simpl; lia. Qed.

Lemma sum_of_activate f l id a :
  NoDup (map (fun e => fst (fst e)) l) -> (id, a, false) ∈ l ->
  (forall e b, f (fst e, b) = f e) ->
  sum_of (if_active f) (map (activate_entry id) l) = sum_of (if_active f) l + f (id, a, false).
Proof.
  intros Hnd Hin Hf. induction l as [|[[i c] b] l IH]; [by apply elem_of_nil in Hin|].
  simpl in Hnd. apply NoDup_cons in Hnd as [Hni Hnd]. simpl.
  assert (Hsame : i = id -> map (activate_entry id) l = l).
  { intros ->. clear -Hni. induction l as [|[[j c] d] l IH]; [done|]. simpl in *.
    apply not_elem_of_cons in Hni as [Hne Hni]. rewrite IH by done. unfold activate_entry. simpl.
    by rewrite (proj2 (Nat.eqb_neq j id)). }
  apply elem_of_cons in Hin as [[= <- <- <-]|Hin].
  - rewrite Hsame by done. unfold activate_entry. simpl. rewrite Nat.eqb_refl.
    pose proof (Hf (id, a, false) true) as E. simpl in E. unfold if_active at 1 3. simpl. rewrite E. lia.
  - assert (Hne : i <> id).
    { intros ->. apply Hni, list_elem_of_In, in_map_iff. exists (id, a, false).
      by rewrite <- list_elem_of_In. }
    rewrite IH by done. unfold activate_entry at 1. simpl. rewrite (proj2 (Nat.eqb_neq i id)) by done. lia.
Qed.

(** ** The invariant of a run *)

Record work_inv (r : WorkRun) : Prop := {
  wi_nodup : NoDup (map (fun e => fst (fst e)) (wr_open r));
  wi_pos : Forall (fun e => 0 <= prefill_of e /\ 0 <= decode_of e) (wr_open r);
  wi_rp : wa_reservedUncachedPrefill (wr_acc r) = sum_of prefill_of (wr_open r);
  wi_rd : wa_reservedDecode (wr_acc r) = sum_of decode_of (wr_open r);
  wi_ap : wa_activeUncachedPrefill (wr_acc r) = sum_of (if_active prefill_of) (wr_open r);
  wi_ad : wa_activeDecode (wr_acc r) = sum_of (if_active decode_of) (wr_open r);
}.

Lemma wrap_nonneg z : 0 <= z <= i64_max -> wrap64 z = z.
Proof. intros Hz. apply wrap64_id. unfold in_i64, i64_min, i64_max in *. lia. Qed.

Lemma active_le f l : Forall (fun e => 0 <= f e) l -> 0 <= sum_of (if_active f) l <= sum_of f l.
Proof. induction 1 as [|e l He _ IH]; [done|]. rewrite !sum_of_cons. unfold if_active at 1 3. destruct (snd e); lia. Qed.

Lemma wi_pos_prefill r : work_inv r -> Forall (fun e => 0 <= prefill_of e) (wr_open r).
Proof. intros H. eapply Forall_impl; [apply (wi_pos _ H)|]. by intros e [? ?]. Qed.
Lemma wi_pos_decode r : work_inv r -> Forall (fun e => 0 <= decode_of e) (wr_open r).
Proof. intros H. eapply Forall_impl; [apply (wi_pos _ H)|]. by intros e [? ?]. Qed.

Lemma work_inv_reserve r id i m o c r' :
  op_ok (WReserve id i m o c) -> work_inv r -> in_budget r' ->
  work_apply r (WReserve id i m o c) = Some r' -> work_inv r'.
Proof.
  intros (Hi & Hm & Ho) Hinv. pose proof (sum_of_nonneg _ _ (wi_pos_prefill r Hinv)) as Sp.
  pose proof (sum_of_nonneg _ _ (wi_pos_decode r Hinv)) as Sd.
  destruct Hinv as [Hnd Hsm Hrp Hrd Hap Had]. intros Hb. cbn [work_apply].
  destruct (get_open id (wr_open r)) eqn:Hg; [done|]. apply get_open_none in Hg.
  unfold ReserveTokens. destruct (reservation_value i m o c Hi Hm) as (p & -> & Hp & _). intros [= <-].
  destruct Hb as [Bp Bd]. cbn [wr_open] in Bp, Bd. rewrite sum_of_cons in Bp, Bd.
  unfold prefill_of at 1 in Bp. unfold decode_of at 1 in Bd. cbn [fst snd] in Bp, Bd.
  split; cbn [wr_open wr_acc wa_reservedUncachedPrefill wa_reservedDecode wa_activeUncachedPrefill wa_activeDecode];
    rewrite ?sum_of_cons, ?Hrp, ?Hrd, ?Hap, ?Had; try (unfold if_active at 2; cbn [snd]; lia).
  - apply NoDup_cons. split; [|done]. intros Hin. apply list_elem_of_In, in_map_iff in Hin.
    destruct Hin as (e & He & Hin). rewrite Forall_forall in Hg. apply (Hg e); [|done].
    by apply list_elem_of_In.
  - constructor; [|done]. unfold prefill_of, decode_of. cbn [fst snd]. lia.
  - unfold prefill_of at 2. cbn [fst snd]. rewrite wrap_nonneg; lia.
  - unfold decode_of at 2. cbn [fst snd]. rewrite wrap_nonneg; lia.
Qed.

Lemma activate_same id e :
  fst (fst (activate_entry id e)) = fst (fst e) /\
  prefill_of (activate_entry id e) = prefill_of e /\ decode_of (activate_entry id e) = decode_of e.
Proof. destruct e as [[j a] b]. unfold activate_entry. simpl. by destruct (j =? id)%nat. Qed.

Lemma work_inv_activate r id r' :
  work_inv r -> in_budget r -> work_apply r (WActivate id) = Some r' -> work_inv r'.
Proof.
  intros Hinv [Bp Bd]. pose proof (wi_pos_prefill r Hinv) as Pp. pose proof (wi_pos_decode r Hinv) as Pd.
  destruct Hinv as [Hnd Hsm Hrp Hrd Hap Had]. simpl.
  destruct (get_open id (wr_open r)) as [[[p d] [|]]|] eqn:Hg; [done| |done].
  intros [= <-]. apply get_open_in in Hg. simpl in Hg.
  change (map _ (wr_open r)) with (map (activate_entry id) (wr_open r)).
  assert (Hw : forall f, (forall e b, f (fst e, b) = f e) -> (forall e, f (activate_entry id e) = f e) ->
    Forall (fun e => 0 <= f e) (wr_open r) -> sum_of f (wr_open r) <= i64_max ->
    wrap64 (sum_of (if_active f) (wr_open r) + f (id, (p, d), false)) = sum_of (if_active f) (map (activate_entry id) (wr_open r))).
  { intros f Hf Hfa Hpos Hle. rewrite <- (sum_of_activate f _ id (p, d) Hnd Hg Hf). apply wrap_nonneg.
    assert (Hpos' : Forall (fun e => 0 <= f e) (map (activate_entry id) (wr_open r))).
    { apply Forall_map. eapply Forall_impl; [exact Hpos|]. intros e He. cbn. by rewrite Hfa. }
    pose proof (active_le f _ Hpos') as Ha.
    assert (Es : sum_of f (map (activate_entry id) (wr_open r)) = sum_of f (wr_open r))
      by (rewrite sum_of_map; apply sum_of_ext, Forall_forall; intros e _; apply Hfa).
    lia. }
  split; simpl; rewrite ?Hap, ?Had.
  - rewrite map_map. erewrite map_ext; [exact Hnd|]. intros e. apply activate_same.
  - apply Forall_map. eapply Forall_impl; [exact Hsm|]. intros e He. simpl.
    by destruct (activate_same id e) as (_ & -> & ->).
  - rewrite Hrp, sum_of_map. apply sum_of_ext, Forall_forall. intros e _. symmetry. apply activate_same.
  - rewrite Hrd, sum_of_map. apply sum_of_ext, Forall_forall. intros e _. symmetry. apply activate_same.
  - apply (Hw prefill_of); [done|intros e; apply activate_same|done|done].
  - apply (Hw decode_of); [done|intros e; apply activate_same|done|done].
Qed.

Lemma nodup_filter_ids (f : nat * (Z * Z) * bool -> bool) l :
  NoDup (map (fun e => fst (fst e)) l) -> NoDup (map (fun e => fst (fst e)) (List.filter f l)).
Proof.
  induction l as [|e l IH]; [done|]. simpl. intros [Hni Hnd]%NoDup_cons.
  destruct (f e); simpl; [|by apply IH]. apply NoDup_cons. split; [|by apply IH].
  intros Hin. apply Hni. apply list_elem_of_In, in_map_iff in Hin as (e' & He & Hin).
  apply filter_In in Hin as [Hin _]. apply list_elem_of_In, in_map_iff. by exists e'.
Qed.

Lemma forall_list_filter {A} (P : A -> Prop) (f : A -> bool) l :
  Forall P l -> Forall P (List.filter f l).
Proof. induction 1; simpl; [done|]. destruct (f x); auto. Qed.

Lemma sum_of_filter_le g f l :
  Forall (fun e => 0 <= f e) l -> 0 <= sum_of f (List.filter g l) <= sum_of f l.
Proof. induction 1 as [|e l He _ IH]; simpl; [lia|]. destruct (g e); simpl; lia. Qed.

Lemma work_inv_release r id r' :
  work_inv r -> in_budget r -> work_apply r (WRelease id) = Some r' -> work_inv r'.
Proof.
  intros Hinv [Bp Bd]. pose proof (active_le _ _ (wi_pos_prefill r Hinv)) as Ap.
  pose proof (active_le _ _ (wi_pos_decode r Hinv)) as Ad.
  destruct Hinv as [Hnd Hsm Hrp Hrd Hap Had]. simpl.
  destruct (get_open id (wr_open r)) as [[[p d] [|]]|] eqn:Hg; [|done|done].
  intros [= <-]. apply get_open_in in Hg. set (g := fun e => negb (fst (fst e) =? id)%nat).
  assert (Hsub : forall f x, (forall e, 0 <= prefill_of e -> 0 <= decode_of e -> 0 <= f e) ->
            f (id, (p, d), true) = x -> sum_of f (wr_open r) <= i64_max ->
            clamp0 (wrap64 (sum_of f (wr_open r) - x)) = sum_of f (List.filter g (wr_open r))).
  { intros f x Hpos Hfx Hle. pose proof (sum_of_remove f _ _ _ Hnd Hg) as E. simpl in E.
    rewrite Hfx in E. unfold g. rewrite E.
    assert (Hr : 0 <= sum_of f (wr_open r) - x <= sum_of f (wr_open r)).
    { rewrite <- E. apply sum_of_filter_le. eapply Forall_impl; [exact Hsm|]. simpl. intros e [? ?]. by apply Hpos. }
    rewrite wrap_nonneg by lia. unfold clamp0. by rewrite (proj2 (Z.ltb_ge _ 0)) by lia. }
  split; simpl; rewrite ?Hrp, ?Hrd, ?Hap, ?Had;
    try (apply Hsub; [unfold if_active; intros e ? ?; try destruct (snd e); lia|done|lia]).
  - by apply nodup_filter_ids.
  - by apply forall_list_filter.
Qed.

Lemma work_inv_step r op r' :
  op_ok op -> work_inv r -> in_budget r -> in_budget r' -> work_apply r op = Some r' -> work_inv r'.
Proof.
  intros Hop Hinv Hb Hb'. destruct op.
  - by apply work_inv_reserve.
  - by apply work_inv_activate.
  - by apply work_inv_release.
Qed.

(** Every state a run passes through, its ends included, is in budget. *)
Definition within_budget (r : WorkRun) (ops : list work_op) : Prop :=
  forall pre post r1, ops = pre ++ post -> work_run r pre = Some r1 -> in_budget r1.

Fixpoint budget_run (r : WorkRun) (ops : list work_op) : bool :=
  (sum_of prefill_of (wr_open r) <=? i64_max) && (sum_of decode_of (wr_open r) <=? i64_max) &&
  match ops with
  | [] => true
  | op :: ops => match work_apply r op with Some r' => budget_run r' ops | None => true end
  end.

Lemma budget_run_ok r ops : budget_run r ops = true -> within_budget r ops.
Proof.
  intros Hb pre. revert r ops Hb. induction pre as [|op pre IH]; intros r ops Hb post r1 -> Hr.
  - injection Hr as <-. unfold in_budget. cbn [app] in Hb. destruct post; cbn [budget_run] in Hb; go_bool; lia.
  - cbn [app budget_run work_run] in *. destruct (work_apply r op) as [r2|]; [|done].
    apply andb_true_iff in Hb as [_ Hb]. by apply (IH r2 (pre ++ post) Hb post).
Qed.

Lemma work_inv_run r ops r' :
  Forall op_ok ops -> within_budget r ops -> work_inv r -> work_run r ops = Some r' -> work_inv r'.
Proof.
  revert r. induction ops as [|op ops IH]; intros r Hs Hb Hinv; simpl in *; [by intros [= <-]|].
  apply Forall_cons in Hs as [Hop Hs]. destruct (work_apply r op) as [r1|] eqn:E; [|done].
  apply (IH r1); [done| |].
  - intros pre post r2 -> Hr. apply (Hb (op :: pre) post); [done|]. cbn. by rewrite E.
  - apply (work_inv_step r op r1); [done|done|by apply (Hb [] (op :: ops))| |done].
    apply (Hb [op] ops); [done|]. cbn. by rewrite E.
Qed.

Definition work_start : WorkRun := {| wr_acc := NewWorkAccountant; wr_open := [] |}.

Lemma work_inv_start : work_inv work_start.
Proof. split; simpl; try done; constructor. Qed.

(** C29: token reservations are conserved.  After any interleaving of the calls of any number of requests during which
    the reservations open at the same time never add up to more than 2^63 - 1 tokens of a kind (nothing in the
    program ensures it: [max_tokens] of a request is reserved as it is), the reserved and active counters are exactly the
    sums over the requests that are still open, so the clamps at zero never hide a mismatch, and the counters
    are back at zero once every request has released. *)
Theorem work_conserved (ops : list work_op) (r : WorkRun)
    (Hops : Forall op_ok ops) (Hbudget : within_budget work_start ops)
    (Hrun : work_run work_start ops = Some r) :
  wa_reservedUncachedPrefill (wr_acc r) = sum_of prefill_of (wr_open r) /\
  wa_reservedDecode (wr_acc r) = sum_of decode_of (wr_open r) /\
  wa_activeUncachedPrefill (wr_acc r) = sum_of (if_active prefill_of) (wr_open r) /\
  wa_activeDecode (wr_acc r) = sum_of (if_active decode_of) (wr_open r) /\
  (wr_open r = [] ->
   ReservedUncachedPrefillTokens (WorkSnapshot_of (wr_acc r)) = 0 /\
   ReservedDecodeTokens (WorkSnapshot_of (wr_acc r)) = 0 /\
   ActiveUncachedPrefillTokens (WorkSnapshot_of (wr_acc r)) = 0 /\
   ActiveDecodeTokens (WorkSnapshot_of (wr_acc r)) = 0).
Proof.
  destruct (work_inv_run work_start ops r Hops Hbudget work_inv_start Hrun) as [_ _ Hrp Hrd Hap Had].
  split_and!; try done. intros Hnil. rewrite Hnil in *. simpl in *. done.
Qed.

(** A reservation is conservative: it never exceeds the input, a match below the confidence
    threshold (or with a NaN confidence) is ignored, and a trusted match saves at most itself. *)
Theorem reservation_conservative (input matched output : Z) (confidence : f64)
    (Hi : in_i64 input) (Hm : 0 <= matched <= i64_max) :
  exists p, reservation input matched output confidence = (p, Z.max 0 output) /\
  0 <= p <= Z.max 0 input /\ Z.max 0 input - matched <= p /\
  (f64_leb WorkConfidenceThreshold confidence = false -> p = Z.max 0 input) /\
  (f64_leb WorkConfidenceThreshold confidence = true -> p = Z.max 0 (Z.max 0 input - matched)).
Proof. by apply reservation_value. Qed.

(** The budget cannot be dropped: with two requests that ask for 2^63 - 1 tokens each the counter is -2; after a third
    one has come and gone the clamp makes it 0, and it stays 0 while one of the two is still open. *)
Example reservations_wrap :
  let big id := WReserve id 0 0 i64_max f64_zero in
  let ops := [big 0%nat; WActivate 0; big 1%nat; WActivate 1] in
  let ops' := ops ++ [WReserve 2 0 0 1 f64_zero; WActivate 2; WRelease 2; WRelease 0] in
  (fun r => wa_reservedDecode (wr_acc r)) <$> work_run work_start ops = Some (-2) /\
  (fun r => (wa_reservedDecode (wr_acc r), length (wr_open r))) <$> work_run work_start ops' = Some (0, 1%nat).
Proof. by vm_compute. Qed.

(** ** Witnesses *)

Example work_ops : list work_op :=
  [WReserve 0 100 40 128 f64_one; WActivate 0; WReserve 1 10 40 5 f64_one; WReserve 2 7 3 9 f64_zero;
   WActivate 1; WRelease 0; WActivate 2; WRelease 2; WRelease 1].

Lemma work_conserved_witness :
  exists r, work_run work_start work_ops = Some r /\
    ReservedUncachedPrefillTokens (WorkSnapshot_of (wr_acc r)) = 0 /\
    wa_totalReservedPrefill (wr_acc r) = 67.
Proof.
  eexists. split; [vm_compute; reflexivity|].
  destruct (work_conserved work_ops _ ltac:(repeat constructor; unfold in_i64, i64_min, i64_max; lia)
    ltac:(by apply budget_run_ok; vm_compute) ltac:(vm_compute; reflexivity)) as (_ & _ & _ & _ & H).
  split; [apply H; reflexivity|reflexivity].
Defined.

Lemma reservation_conservative_witness :
  exists p, reservation 100 40 (-3) f64_one = (p, 0) /\ p = 60.
Proof.
  destruct (reservation_conservative 100 40 (-3) f64_one) as (p & H & _ & _ & _ & Hp).
  - unfold in_i64, i64_min, i64_max. lia.
  - unfold i64_max. lia.
  - exists p. split; [exact H|]. rewrite Hp by reflexivity. reflexivity.
Defined.
