(* ===== verification/Routing.v ===== *)
(** * Backends, snapshots and the baseline routing policies
    ([internal/router/registry.go], [internal/router/policy.go])

    [PolicyOps] is the [RoutingPolicy] interface; its result is [None] on a panic.  [PolicyLaws]
    states what the gateway relies on, and every policy of the program is an instance. *)

From Stdlib Require Import Floats.SpecFloat.
From stdpp Require Import base tactics numbers option list strings.
From S2P Require Import Prelude Ordering GoFloat GoTime.

(** ** Data *)

Record Backend := {
  be_ID : string;
  be_Vendor : string;
  be_SidecarURL : string;
  be_SnapshotURL : string;
}.

Record BackendState := {
  bs_Backend : Backend;
  bs_Reachable : bool;
  bs_LifecycleState : string;
  bs_ControlPlaneReady : bool;
  bs_StabilityScore : f64;
  bs_HostCapacityHint : f64;
  bs_QueueDepth : Z;
  bs_QueueInflight : Z;
  bs_QueueMax : Z;
  bs_RuntimeHealthy : bool;
  bs_RuntimeWaiting : f64;
  bs_RuntimeRunning : f64;
  bs_KVCacheUtil : f64;
  bs_SnapshotAgeMs : Z;
  bs_GenTokensPerSec : f64;
  bs_ServiceRateSupported : bool;
  bs_CacheObservationSupported : bool;
  bs_CacheMatchSupported : bool;
  bs_CacheReady : bool;
  bs_CacheConfidence : f64;
  bs_CacheSnapshotAgeMs : Z;
  bs_KVHeadroom : f64;
  bs_KVHeadroomSupported : bool;
  bs_CacheEventSequence : Z;
  bs_CacheIndexSize : Z;
  bs_CacheResetEpoch : Z;
  bs_CacheProvider : string;
  bs_PrefixMatchedTokens : Z;
}.

Record BackendSnapshot := { sn_Backends : list BackendState; sn_Timestamp : Z }.

Record RequestFeatures := {
  rf_RequestID : string;
  rf_Model : string;
  rf_Stream : bool;
  rf_InputLenEst : Z;
  rf_RequestedOutput : Z;
  rf_SLOClass : string;
  rf_PrefixKeyHash : string;
  rf_PrefixTokens : Z;
  rf_CacheEligible : bool;
  rf_SessionKeyHash : string;
}.

(** The [Reason] text: a constant, the arguments of a [Sprintf], or a suffix appended to another
    reason. *)
Inductive Reason :=
  | ReasonText (s : string)
  | ReasonMinFinish (finish queue prefill : f64) (uncached matched : Z) (decode stale kv : f64)
  | ReasonMaxMatched (matched : Z)
  | ReasonPlus (r : Reason) (suffix : string).

Record RouteDecision := {
  rd_BackendID : string;
  rd_PolicyName : string;
  rd_PolicyVersion : string;
  rd_Reason : Reason;
}.

Inductive RouteError := ErrNoEligibleBackend.

Definition id_of (b : BackendState) : string := b.(bs_Backend).(be_ID).

(** ** Eligibility *)

Fixpoint eligible_loop (bs : list BackendState) : list BackendState :=
  match bs with
  | [] => []
  | b :: bs =>
      if negb b.(bs_Reachable) || negb b.(bs_RuntimeHealthy) then eligible_loop bs
      else if String.eqb b.(bs_LifecycleState) "OFFLINE" || String.eqb b.(bs_LifecycleState) "DRAINING"
      then eligible_loop bs
      else if (0 <? b.(bs_QueueMax)) && (b.(bs_QueueMax) <=? b.(bs_QueueDepth)) then eligible_loop bs
      else b :: eligible_loop bs
  end.

Definition eligible (snap : BackendSnapshot) : list BackendState := eligible_loop snap.(sn_Backends).

(** The gateway's predicate for one backend ([isEligible] of gateway.go). *)
Definition isEligible (b : BackendState) : bool :=
  if negb b.(bs_Reachable) || negb b.(bs_RuntimeHealthy) then false
  else if String.eqb b.(bs_LifecycleState) "OFFLINE" || String.eqb b.(bs_LifecycleState) "DRAINING"
  then false
  else if (0 <? b.(bs_QueueMax)) && (b.(bs_QueueMax) <=? b.(bs_QueueDepth)) then false
  else true.

Lemma eligible_filter snap : eligible snap = List.filter isEligible snap.(sn_Backends).
Proof.
  unfold eligible. induction (sn_Backends snap) as [|b bs IH]; [done|]. simpl. unfold isEligible.
  destruct (negb _ || negb _); [done|]. destruct (String.eqb _ _ || _); [done|].
  destruct (_ && _); [done|]. by rewrite IH.
Qed.

Lemma elem_of_eligible b snap : b ∈ eligible snap <-> b ∈ sn_Backends snap /\ isEligible b = true.
Proof. rewrite eligible_filter. rewrite !list_elem_of_In. apply filter_In. Qed.

Lemma eligible_perm s1 s2 : sn_Backends s1 ≡ₚ sn_Backends s2 -> eligible s1 ≡ₚ eligible s2.
Proof.
  rewrite !eligible_filter. induction 1; simpl; try done.
  - destruct (isEligible x); [by constructor|done].
  - destruct (isEligible x), (isEligible y); try done. constructor.
  - by etransitivity.
Qed.

(** ** The interface *)

Class PolicyOps (P : Type) := {
  SelectBackend : P -> RequestFeatures -> BackendSnapshot -> option (P * (RouteError + RouteDecision));
}.

(** [pol_inv n p]: [p] may have made [n] decisions.  Before the 2^63-th decision a policy never
    panics, fails exactly when no backend is eligible, and otherwise names an eligible one. *)
Class PolicyLaws (P : Type) `{!PolicyOps P} := {
  pol_inv : nat -> P -> Prop;
  pol_mono n p : pol_inv n p -> pol_inv (S n) p;
  pol_step n p req snap :
    pol_inv n p -> Z.of_nat n < 2 ^ 63 ->
    exists p' r, SelectBackend p req snap = Some (p', r) /\ pol_inv (S n) p' /\
      match r with
      | inl _ => eligible snap = []
      | inr d => exists b, b ∈ eligible snap /\ id_of b = rd_BackendID d
      end;
}.

(** ** Round robin *)

Record RoundRobinPolicy := { rr_n : Z }.

(** [p.n.Add(1) - 1] on a [uint64]; [int(i) % len(e)] on [int]s. *)
Definition rr_select (p : RoundRobinPolicy) (req : RequestFeatures) (snap : BackendSnapshot) :
    option (RoundRobinPolicy * (RouteError + RouteDecision)) :=
  let e := eligible snap in
  match e with
  | [] => Some (p, inl ErrNoEligibleBackend)
  | _ =>
      let n := uwrap64 (p.(rr_n) + 1) in
      let i := uwrap64 (n - 1) in
      k ← go_rem (wrap64 i) (Z.of_nat (length e));
      b ← zget e k;
      Some ({| rr_n := n |},
            inr {| rd_BackendID := id_of b; rd_PolicyName := "round_robin"; rd_PolicyVersion := "1";
                   rd_Reason := ReasonText "rr" |})
  end.

#[export] Instance rr_ops : PolicyOps RoundRobinPolicy := {| SelectBackend := rr_select |}.

(** ** Least queued, least runtime waiting, least pressure *)

Inductive LeastQueuedPolicy := LeastQueued.
Inductive LeastRuntimeWaitingPolicy := LeastRuntimeWaiting.
Inductive HealthGatedLeastPressurePolicy := HealthGatedLeastPressure.

Definition queue_load (b : BackendState) : Z := wrap64 (b.(bs_QueueDepth) + b.(bs_QueueInflight)).

Definition lq_select (p : LeastQueuedPolicy) (req : RequestFeatures) (snap : BackendSnapshot) :
    option (LeastQueuedPolicy * (RouteError + RouteDecision)) :=
  match eligible snap with
  | [] => Some (p, inl ErrNoEligibleBackend)
  | e0 :: e =>
      let best := scan_best (fun b best => queue_load b <? queue_load best) e0 e in
      Some (p, inr {| rd_BackendID := id_of best; rd_PolicyName := "least_queued";
                      rd_PolicyVersion := "1"; rd_Reason := ReasonText "min(queue_depth+inflight)" |})
  end.

Definition lrw_select (p : LeastRuntimeWaitingPolicy) (req : RequestFeatures) (snap : BackendSnapshot) :
    option (LeastRuntimeWaitingPolicy * (RouteError + RouteDecision)) :=
  match eligible snap with
  | [] => Some (p, inl ErrNoEligibleBackend)
  | e0 :: e =>
      let best := scan_best (fun b best => f64_ltb b.(bs_RuntimeWaiting) best.(bs_RuntimeWaiting)) e0 e in
      Some (p, inr {| rd_BackendID := id_of best; rd_PolicyName := "least_runtime_waiting";
                      rd_PolicyVersion := "1";
                      rd_Reason := ReasonText "min(vllm_num_requests_waiting)" |})
  end.

Definition pressure (b : BackendState) : f64 :=
  let p := f64_add (f64_add (f64_add (f64_of_Z (queue_load b)) b.(bs_RuntimeWaiting))
                            b.(bs_RuntimeRunning))
                   (f64_mul (f64_of_Z 4) b.(bs_KVCacheUtil)) in
  if f64_ltb f64_zero b.(bs_StabilityScore) then f64_div p b.(bs_StabilityScore) else p.

(** The loop carries the best backend and its pressure. *)
Definition pressure_scan (e : list BackendState) (best : BackendState) (bp : f64) : BackendState * f64 :=
  fold_left (fun '(best, bp) b =>
               let cp := pressure b in if f64_ltb cp bp then (b, cp) else (best, bp)) e (best, bp).

Definition hg_select (p : HealthGatedLeastPressurePolicy) (req : RequestFeatures)
    (snap : BackendSnapshot) : option (HealthGatedLeastPressurePolicy * (RouteError + RouteDecision)) :=
  match eligible snap with
  | [] => Some (p, inl ErrNoEligibleBackend)
  | e0 :: e =>
      let '(best, _) := pressure_scan e e0 (pressure e0) in
      Some (p, inr {| rd_BackendID := id_of best; rd_PolicyName := "health_gated_least_pressure";
                      rd_PolicyVersion := "1";
                      rd_Reason := ReasonText "min(pressure=queue+runtime+kv / stability)" |})
  end.

#[export] Instance lq_ops : PolicyOps LeastQueuedPolicy := {| SelectBackend := lq_select |}.
#[export] Instance lrw_ops : PolicyOps LeastRuntimeWaitingPolicy := {| SelectBackend := lrw_select |}.
#[export] Instance hg_ops : PolicyOps HealthGatedLeastPressurePolicy := {| SelectBackend := hg_select |}.

(** ** Facts *)

Lemma pressure_scan_best e best :
  fst (pressure_scan e best (pressure best)) =
  scan_best (fun b best => f64_ltb (pressure b) (pressure best)) best e.
Proof.
  unfold pressure_scan, scan_best. revert best. induction e as [|b e IH]; intros best; [done|]. simpl.
  destruct (f64_ltb (pressure b) (pressure best)); apply IH.
Qed.

(** A key compared by [<] orders the backends whose keys are not NaN. *)
#[export] Instance by_key_weak (key : BackendState -> f64) :
  StrictWeak (fun b => not_nan (key b)) (fun a b => f64_ltb (key a) (key b)).
Proof.
  split; simpl; intros.
  - apply f64_ltb_irrefl.
  - by eapply f64_ltb_trans.
  - by eapply (f64_ltb_incomp _ (key y)).
Qed.

#[export] Instance by_Z_weak (key : BackendState -> Z) :
  StrictWeak (fun _ => True) (fun a b => key a <? key b).
Proof.
  split; simpl.
  - intros. apply Z.ltb_irrefl.
  - intros x y z _ _ _ H1%Z.ltb_lt H2%Z.ltb_lt. apply Z.ltb_lt. lia.
  - intros x y z _ _ _ H1%Z.ltb_ge H2%Z.ltb_ge. apply Z.ltb_ge. lia.
Qed.

(** What a scanning policy promises: the chosen backend is the first of the eligible ones that
    none beats. *)
Definition chosen_first_best (better : BackendState -> BackendState -> bool) (snap : BackendSnapshot)
    (d : RouteDecision) : Prop :=
  exists l1 b l2, eligible snap = l1 ++ b :: l2 /\ id_of b = rd_BackendID d /\
    Forall (fun c => better c b = false) (eligible snap) /\
    Forall (fun c => better b c = true) l1.

Lemma scan_first_best P better `{!StrictWeak P better} e0 e snap d :
  eligible snap = e0 :: e -> Forall P (e0 :: e) ->
  rd_BackendID d = id_of (scan_best better e0 e) -> chosen_first_best better snap d.
Proof.
  intros He Hall Hd. apply Forall_cons in Hall as [H0 Hall].
  destruct (scan_best_first P better e0 e H0 Hall) as (l1 & l2 & Heq & Hf).
  exists l1, (scan_best better e0 e), l2. rewrite He. split; [done|]. split; [done|].
  split; [by apply (scan_best_optimal P better)|done].
Qed.

(** ** The interface's laws *)

Lemma rr_index n k : 0 <= n < 2 ^ 63 -> 0 < k ->
  go_rem (wrap64 (uwrap64 (uwrap64 (n + 1) - 1))) k = Some (n `mod` k).
Proof.
  intros Hn Hk. rewrite (uwrap64_id (n + 1)) by (unfold in_u64, u64_mod; lia).
  replace (n + 1 - 1) with n by lia. rewrite (uwrap64_id n) by (unfold in_u64, u64_mod; lia).
  rewrite wrap64_id by (unfold in_i64, i64_min, i64_max; lia). apply go_rem_pos; lia.
Qed.

(** One round-robin decision while the counter is below 2^63. *)
Lemma rr_select_spec p req snap b :
  0 <= rr_n p < 2 ^ 63 ->
  eligible snap !! Z.to_nat (rr_n p `mod` Z.of_nat (length (eligible snap))) = Some b ->
  rr_select p req snap =
  Some ({| rr_n := rr_n p + 1 |},
        inr {| rd_BackendID := id_of b; rd_PolicyName := "round_robin"; rd_PolicyVersion := "1";
               rd_Reason := ReasonText "rr" |}).
Proof.
  intros Hn Hb. unfold rr_select. destruct (eligible snap) as [|e0 e] eqn:He; [done|].
  rewrite rr_index by (simpl; lia).
  pose proof (Z.mod_pos_bound (rr_n p) (Z.of_nat (length (e0 :: e))) ltac:(simpl; lia)) as Hm.
  cbn [mbind option_bind]. unfold zget. rewrite (proj2 (Z.ltb_ge _ 0)) by lia. rewrite Hb.
  cbn [mbind option_bind]. rewrite uwrap64_id by (unfold in_u64, u64_mod; lia). done.
Qed.

#[export, refine] Instance rr_laws : PolicyLaws RoundRobinPolicy :=
  {| pol_inv := fun n p => 0 <= rr_n p <= Z.of_nat n |}.
Proof.
  - intros n p H. lia.
  - intros n p req snap Hi Hn. simpl. destruct (eligible snap) as [|e0 e] eqn:He.
    + exists p, (inl ErrNoEligibleBackend). unfold rr_select. rewrite He. split_and!; [done|lia|lia|done].
    + pose proof (Z.mod_pos_bound (rr_n p) (Z.of_nat (length (e0 :: e))) ltac:(simpl; lia)) as Hm.
      destruct (lookup_lt_is_Some_2 (e0 :: e) (Z.to_nat (rr_n p `mod` Z.of_nat (length (e0 :: e)))))
        as [b Hb]; [lia|].
      eexists _, _. split; [apply (rr_select_spec p req snap b); [lia|by rewrite He]|]. simpl.
      split; [lia|]. exists b. split; [|done]. by eapply list_elem_of_lookup_2.
Defined.

(** Stateless policies that pick an element of the eligible list satisfy the laws. *)
Lemma stateless_step {P} (sel : P -> RequestFeatures -> BackendSnapshot -> option (P * (RouteError + RouteDecision)))
    p req snap :
  (eligible snap = [] -> sel p req snap = Some (p, inl ErrNoEligibleBackend)) ->
  (eligible snap <> [] -> exists d b, sel p req snap = Some (p, inr d) /\ b ∈ eligible snap /\
                                      id_of b = rd_BackendID d) ->
  exists p' r, sel p req snap = Some (p', r) /\ True /\
    match r with
    | inl _ => eligible snap = []
    | inr d => exists b, b ∈ eligible snap /\ id_of b = rd_BackendID d
    end.
Proof.
  intros H1 H2. destruct (eligible snap) as [|e0 e] eqn:He.
  - eexists _, _. split; [by apply H1|]. done.
  - destruct H2 as (d & b & Hs & Hb & Hid); [done|]. exists p, (inr d). split; [done|]. split; [done|].
    by exists b.
Qed.

#[export, refine] Instance lq_laws : PolicyLaws LeastQueuedPolicy := {| pol_inv := fun _ _ => True |}.
Proof.
  - done.
  - intros n p req snap _ _. apply stateless_step; unfold SelectBackend, lq_ops, lq_select;
      [by intros ->|].
    destruct (eligible snap) as [|e0 e]; [done|]. intros _. eexists _, _. split; [reflexivity|].
    split; [|reflexivity]. apply scan_best_elem.
Defined.

#[export, refine] Instance lrw_laws : PolicyLaws LeastRuntimeWaitingPolicy := {| pol_inv := fun _ _ => True |}.
Proof.
  - done.
  - intros n p req snap _ _. apply stateless_step; unfold SelectBackend, lrw_ops, lrw_select;
      [by intros ->|].
    destruct (eligible snap) as [|e0 e]; [done|]. intros _. eexists _, _. split; [reflexivity|].
    split; [|reflexivity]. apply scan_best_elem.
Defined.

#[export, refine] Instance hg_laws : PolicyLaws HealthGatedLeastPressurePolicy :=
  {| pol_inv := fun _ _ => True |}.
Proof.
  - done.
  - intros n p req snap _ _. apply stateless_step; unfold SelectBackend, hg_ops, hg_select;
      [by intros ->|].
    destruct (eligible snap) as [|e0 e]; [done|]. intros _.
    pose proof (pressure_scan_best e e0) as Hs. destruct (pressure_scan e e0 (pressure e0)) as [best bp].
    simpl in Hs. subst best. eexists _, _. split; [reflexivity|]. split; [|reflexivity].
    apply scan_best_elem.
Defined.

(** ** Properties *)

(** [k] consecutive decisions on one snapshot: the backends named, in order. *)
Fixpoint rr_run (k : nat) (p : RoundRobinPolicy) (req : RequestFeatures) (snap : BackendSnapshot) :
    option (RoundRobinPolicy * list string) :=
  match k with
  | O => Some (p, [])
  | S k =>
      match rr_select p req snap with
      | Some (p', inr d) =>
          '(p'', ids) ← rr_run k p' req snap; Some (p'', rd_BackendID d :: ids)
      | _ => None
      end
  end.

(** Entry [i] of a cyclic sequence. *)
Lemma rr_run_spec k p req snap :
  eligible snap <> [] -> 0 <= rr_n p -> rr_n p + Z.of_nat k <= 2 ^ 63 ->
  exists ids, rr_run k p req snap = Some ({| rr_n := rr_n p + Z.of_nat k |}, ids) /\ length ids = k /\
    forall i, (i < k)%nat ->
      ids !! i = map id_of (eligible snap) !!
                 Z.to_nat ((rr_n p + Z.of_nat i) `mod` Z.of_nat (length (eligible snap))).
Proof.
  intros Hne. revert p. induction k as [|k IH]; intros p Hp Hk.
  { exists []. simpl. split; [by destruct p as [m]; rewrite Z.add_0_r|]. split; [done|lia]. }
  assert (Hlen : (0 < length (eligible snap))%nat) by (destruct (eligible snap); simpl; [done|lia]).
  pose proof (Z.mod_pos_bound (rr_n p) (Z.of_nat (length (eligible snap))) ltac:(lia)) as Hm.
  destruct (lookup_lt_is_Some_2 (eligible snap)
    (Z.to_nat (rr_n p `mod` Z.of_nat (length (eligible snap))))) as [b Hb]; [lia|].
  destruct (IH {| rr_n := rr_n p + 1 |}) as (ids & Hrun & Hl & Hi); [simpl; lia..|]. simpl in Hrun, Hi.
  exists (id_of b :: ids). cbn [rr_run]. rewrite (rr_select_spec p req snap b) by (done || lia).
  rewrite Hrun. cbn [mbind option_bind]. split; [do 3 f_equal; lia|]. split; [simpl; lia|].
  intros [|i] Hik; simpl.
  - by rewrite Z.add_0_r, list_lookup_fmap, Hb.
  - rewrite Hi by lia. f_equal. f_equal. f_equal. lia.
Qed.

(** A window of [length l] consecutive indices modulo [length l] visits every position once. *)
Lemma cyclic_window_perm {A} (l ids : list A) n :
  0 <= n -> length ids = length l ->
  (forall i, (i < length l)%nat -> ids !! i = l !! Z.to_nat ((n + Z.of_nat i) `mod` Z.of_nat (length l))) ->
  ids ≡ₚ l.
Proof.
  intros Hn Hlen Hi. destruct (decide (length l = 0%nat)) as [H0|H0].
  { apply nil_length_inv in H0 as ->. by apply nil_length_inv in Hlen as ->. }
  set (r := n `mod` Z.of_nat (length l)).
  assert (Hr : 0 <= r < Z.of_nat (length l)) by (apply Z.mod_pos_bound; lia).
  assert (ids = drop (Z.to_nat r) l ++ take (Z.to_nat r) l) as ->.
  2: { rewrite Permutation_app_comm. by rewrite take_drop. }
  apply list_eq. intros i. destruct (decide (i < length l)%nat) as [Hil|Hil].
  2: { rewrite !lookup_ge_None_2; [done| |lia]. rewrite length_app, length_drop, length_take. lia. }
  rewrite Hi by done.
  assert (Hmod : (n + Z.of_nat i) `mod` Z.of_nat (length l) =
                 if (decide (r + Z.of_nat i < Z.of_nat (length l))) then r + Z.of_nat i
                 else r + Z.of_nat i - Z.of_nat (length l)).
  { rewrite <- Z.add_mod_idemp_l by lia. fold r. case_decide.
    - apply Z.mod_small. lia.
    - replace (r + Z.of_nat i) with ((r + Z.of_nat i - Z.of_nat (length l)) + 1 * Z.of_nat (length l)) at 1 by lia.
      rewrite Z.mod_add by lia. apply Z.mod_small. lia. }
  rewrite Hmod. case_decide.
  - rewrite lookup_app_l by (rewrite length_drop; lia). rewrite lookup_drop. f_equal. lia.
  - rewrite lookup_app_r by (rewrite length_drop; lia). rewrite length_drop, lookup_take_lt by lia.
    f_equal. lia.
Qed.

(** Round robin is fair: as long as the counter stays below 2^63, any [len] consecutive
    decisions on a snapshot with [len] eligible backends name each of them exactly once. *)
Theorem round_robin_fair (p : RoundRobinPolicy) (req : RequestFeatures) (snap : BackendSnapshot)
    (Hne : eligible snap <> []) (H0 : 0 <= rr_n p)
    (Hmax : rr_n p + Z.of_nat (length (eligible snap)) <= 2 ^ 63) :
  exists p' ids, rr_run (length (eligible snap)) p req snap = Some (p', ids) /\
    ids ≡ₚ map id_of (eligible snap) /\ rr_n p' = rr_n p + Z.of_nat (length (eligible snap)).
Proof.
  destruct (rr_run_spec (length (eligible snap)) p req snap) as (ids & Hrun & Hl & Hi); [done..|].
  eexists _, ids. split; [exact Hrun|]. split; [|done].
  apply (cyclic_window_perm _ _ (rr_n p)); rewrite ?length_map; done.
Qed.

Lemma eligible_test b :
  isEligible b = true <->
    bs_Reachable b = true /\ bs_RuntimeHealthy b = true /\
    bs_LifecycleState b <> "OFFLINE" /\ bs_LifecycleState b <> "DRAINING" /\
    (bs_QueueMax b <= 0 \/ bs_QueueDepth b < bs_QueueMax b).
Proof.
  unfold isEligible.
  destruct (bs_Reachable b), (bs_RuntimeHealthy b); simpl; try (split; intros; naive_solver).
  destruct (String.eqb_spec (bs_LifecycleState b) "OFFLINE"); simpl; [split; naive_solver|].
  destruct (String.eqb_spec (bs_LifecycleState b) "DRAINING"); simpl; [split; naive_solver|].
  destruct (Z.ltb_spec 0 (bs_QueueMax b)), (Z.leb_spec (bs_QueueMax b) (bs_QueueDepth b)); simpl;
    (split; [intros; split_and!; done || lia|intros (_ & _ & _ & _ & [?|?]); done || lia]).
Qed.

(** The policies' eligibility loop and the gateway's predicate for the recorded state are the
    same test, and it is exactly: reachable, runtime healthy, neither OFFLINE nor DRAINING, and
    room in the queue; order and multiplicity are kept. *)
Theorem eligibility_agrees (snap : BackendSnapshot) :
  eligible snap = List.filter isEligible (sn_Backends snap) /\
  forall b, isEligible b = true <->
    bs_Reachable b = true /\ bs_RuntimeHealthy b = true /\
    bs_LifecycleState b <> "OFFLINE" /\ bs_LifecycleState b <> "DRAINING" /\
    (bs_QueueMax b <= 0 \/ bs_QueueDepth b < bs_QueueMax b).
Proof. split; [apply eligible_filter|apply eligible_test]. Qed.

(** The three load-based policies choose the first eligible backend whose load no other
    eligible backend beats: queue depth plus in-flight, runtime waiting, or pressure, the last two
    when no eligible backend reports NaN. *)
Theorem least_load_chosen (req : RequestFeatures) (snap : BackendSnapshot) (Hne : eligible snap <> []) :
  (exists d, lq_select LeastQueued req snap = Some (LeastQueued, inr d) /\
     chosen_first_best (fun a b => queue_load a <? queue_load b) snap d) /\
  (Forall (fun b => not_nan (bs_RuntimeWaiting b)) (eligible snap) ->
   exists d, lrw_select LeastRuntimeWaiting req snap = Some (LeastRuntimeWaiting, inr d) /\
     chosen_first_best (fun a b => f64_ltb (bs_RuntimeWaiting a) (bs_RuntimeWaiting b)) snap d) /\
  (Forall (fun b => not_nan (pressure b)) (eligible snap) ->
   exists d, hg_select HealthGatedLeastPressure req snap = Some (HealthGatedLeastPressure, inr d) /\
     chosen_first_best (fun a b => f64_ltb (pressure a) (pressure b)) snap d).
Proof.
  unfold lq_select, lrw_select, hg_select.
  destruct (eligible snap) as [|e0 e] eqn:He; [done|]. split_and!.
  - eexists. split; [reflexivity|].
    apply (scan_first_best (fun _ => True) _ e0 e); [done| |done]. by apply Forall_true.
  - intros Hn. eexists. split; [reflexivity|].
    by apply (scan_first_best (fun b => not_nan (bs_RuntimeWaiting b)) _ e0 e).
  - intros Hn. pose proof (pressure_scan_best e e0) as Hs.
    destruct (pressure_scan e e0 (pressure e0)) as [best bp]. simpl in Hs. subst best.
    eexists. split; [reflexivity|]. by apply (scan_first_best (fun b => not_nan (pressure b)) _ e0 e).
Qed.

(** ** Witnesses *)

Example sample_backend (id : string) (q : Z) (w : f64) (life : string) : BackendState :=
  {| bs_Backend := {| be_ID := id; be_Vendor := "nvidia"; be_SidecarURL := "u"; be_SnapshotURL := "s" |};
     bs_Reachable := true; bs_LifecycleState := life; bs_ControlPlaneReady := true;
     bs_StabilityScore := f64_one; bs_HostCapacityHint := f64_zero; bs_QueueDepth := q;
     bs_QueueInflight := 1; bs_QueueMax := 8; bs_RuntimeHealthy := true; bs_RuntimeWaiting := w;
     bs_RuntimeRunning := f64_one; bs_KVCacheUtil := f64_lit 1 4; bs_SnapshotAgeMs := 5;
     bs_GenTokensPerSec := f64_of_Z 100; bs_ServiceRateSupported := true;
     bs_CacheObservationSupported := true; bs_CacheMatchSupported := true; bs_CacheReady := true;
     bs_CacheConfidence := f64_one; bs_CacheSnapshotAgeMs := 7; bs_KVHeadroom := f64_lit 3 4;
     bs_KVHeadroomSupported := true; bs_CacheEventSequence := 9; bs_CacheIndexSize := 2;
     bs_CacheResetEpoch := 1; bs_CacheProvider := "explicit"; bs_PrefixMatchedTokens := 0 |}.

Example sample_snap : BackendSnapshot :=
  {| sn_Backends := [sample_backend "a" 3 (f64_of_Z 2) "READY"; sample_backend "b" 1 (f64_of_Z 4) "DRAINING";
                     sample_backend "c" 2 f64_one "BUSY"; sample_backend "d" 2 f64_zero "DEGRADED";
                     sample_backend "e" 8 f64_zero "READY"];
     sn_Timestamp := 100 |}.

Example sample_req : RequestFeatures :=
  {| rf_RequestID := "r1"; rf_Model := "m"; rf_Stream := true; rf_InputLenEst := 100;
     rf_RequestedOutput := 0; rf_SLOClass := ""; rf_PrefixKeyHash := "ff"; rf_PrefixTokens := 80;
     rf_CacheEligible := true; rf_SessionKeyHash := "" |}.

Lemma round_robin_fair_witness :
  exists p' ids, rr_run 3 {| rr_n := 7 |} sample_req sample_snap = Some (p', ids) /\
    ids ≡ₚ ["a"; "c"; "d"]%string.
Proof.
  destruct (round_robin_fair {| rr_n := 7 |} sample_req sample_snap) as (p' & ids & H1 & H2 & _).
  - done.
  - simpl. lia.
  - vm_compute. done.
  - exists p', ids. split; [exact H1|exact H2].
Defined.

Lemma least_load_chosen_witness :
  (exists d, lq_select LeastQueued sample_req sample_snap = Some (LeastQueued, inr d) /\
     rd_BackendID d = "c"%string) /\
  (exists d, hg_select HealthGatedLeastPressure sample_req sample_snap =
     Some (HealthGatedLeastPressure, inr d) /\
     chosen_first_best (fun a b => f64_ltb (pressure a) (pressure b)) sample_snap d).
Proof.
  destruct (least_load_chosen sample_req sample_snap ltac:(done)) as ((d & Hd & _) & _ & Hp).
  split.
  - exists d. split; [exact Hd|]. vm_compute in Hd. by injection Hd as <-.
  - apply Hp. repeat constructor.
Defined.
