(* ===== verification/CacheAware.v ===== *)
(** * Cache-aware routing ([internal/router/policy_cache_aware.go])

    The analytical finish-time policy, the affinity-only baseline and the choice of a policy by
    name.  The locator is the registry's directory lookup, a function or nil. *)

From Stdlib Require Import Floats.SpecFloat.
From stdpp Require Import base tactics numbers option list strings.
From S2P Require Import Prelude Ordering GoFloat GoTime Stability Routing.

Record CacheAwareConfig := {
  PrefillMsPerToken : f64;
  DecodeMsPerToken : f64;
  QueueMsPerQueued : f64;
  RuntimeWaitingMsPerReq : f64;
  RuntimeRunningMsPerReq : f64;
  CacheStalenessPenaltyMs : f64;
  KVPressurePenaltyMs : f64;
  ConfidenceFloor : f64;
  DefaultDecodeTokens : Z;
  DefaultServiceRateTokPerSec : f64;
}.

Definition DefaultCacheAwareConfig : CacheAwareConfig :=
  {| PrefillMsPerToken := f64_lit 5 100; DecodeMsPerToken := f64_lit 30 100;
     QueueMsPerQueued := f64_of_Z 8; RuntimeWaitingMsPerReq := f64_of_Z 6;
     RuntimeRunningMsPerReq := f64_lit 15 10; CacheStalenessPenaltyMs := f64_of_Z 25;
     KVPressurePenaltyMs := f64_of_Z 40; ConfidenceFloor := f64_lit 30 100;
     DefaultDecodeTokens := 128; DefaultServiceRateTokPerSec := f64_zero |}.

(** [LookupPrefixTokens(backendID, prefixKeyHash)], or nil. *)
Definition CacheLocator : Type := option (string -> string -> Z).

Record CacheAwarePolicy := { cap_cfg : CacheAwareConfig; cap_locator : CacheLocator }.

Definition NewCacheAwarePolicy (cfg : CacheAwareConfig) (locator : CacheLocator) : CacheAwarePolicy :=
  {| cap_cfg := cfg; cap_locator := locator |}.

Record candidateCost := {
  cc_backendID : string;
  cc_uncachedPromptTokens : Z;
  cc_matchedPrefixTokens : Z;
  cc_matchRatio : f64;
  cc_estPrefillMs : f64;
  cc_estDecodeMs : f64;
  cc_estQueueMs : f64;
  cc_stalenessPenaltyMs : f64;
  cc_kvPenaltyMs : f64;
  cc_finishMs : f64;
  cc_cacheUsed : bool;
  cc_cacheConfidence : f64;
}.

(** The router's own [clamp01]; unlike the stability score's it lets NaN through. *)
Definition router_clamp01 (x : f64) : f64 :=
  if f64_ltb x f64_zero then f64_zero else if f64_ltb f64_one x then f64_one else x.

Definition matchedTokensFor (p : CacheAwarePolicy) (req : RequestFeatures) (b : BackendState) :
    Z * bool * f64 :=
  if negb b.(bs_CacheObservationSupported) then (0, false, f64_zero)
  else if f64_ltb b.(bs_CacheConfidence) p.(cap_cfg).(ConfidenceFloor)
  then (0, false, b.(bs_CacheConfidence))
  else if negb req.(rf_CacheEligible) || String.eqb req.(rf_PrefixKeyHash) ""
  then (0, true, b.(bs_CacheConfidence))
  else
    let matched := b.(bs_PrefixMatchedTokens) in
    let matched :=
      match p.(cap_locator) with
      | Some lookup =>
          let m := lookup (id_of b) req.(rf_PrefixKeyHash) in if 0 <? m then m else matched
      | None => matched
      end in
    let matched :=
      if (0 <? req.(rf_PrefixTokens)) && (req.(rf_PrefixTokens) <? matched)
      then req.(rf_PrefixTokens) else matched in
    let matched :=
      if (0 <? req.(rf_InputLenEst)) && (req.(rf_InputLenEst) <? matched)
      then req.(rf_InputLenEst) else matched in
    (matched, true, b.(bs_CacheConfidence)).

Definition decodeMsPerToken (p : CacheAwarePolicy) (b : BackendState) : f64 :=
  if b.(bs_ServiceRateSupported) && f64_ltb f64_one b.(bs_GenTokensPerSec)
  then f64_div (f64_of_Z 1000) b.(bs_GenTokensPerSec)
  else if f64_ltb f64_one p.(cap_cfg).(DefaultServiceRateTokPerSec)
  then f64_div (f64_of_Z 1000) p.(cap_cfg).(DefaultServiceRateTokPerSec)
  else p.(cap_cfg).(DecodeMsPerToken).

(** [if x < 0 { x = 0 }]. *)
Definition clamp0_of (x : Z) : Z := if x <? 0 then 0 else x.

(** The assignments of [cost] after the match is known. *)
Definition cost_with (cfg : CacheAwareConfig) (decode : f64) (req : RequestFeatures) (b : BackendState)
    (matched : Z) (used : bool) (conf : f64) : candidateCost :=
  let inputLen := clamp0_of req.(rf_InputLenEst) in
  let uncached := clamp0_of (wrap64 (inputLen - matched)) in
  let out := if req.(rf_RequestedOutput) <=? 0 then cfg.(DefaultDecodeTokens) else req.(rf_RequestedOutput) in
  let estPrefillMs := f64_mul (f64_of_Z uncached) cfg.(PrefillMsPerToken) in
  let estDecodeMs := f64_mul (f64_of_Z out) decode in
  let estQueueMs :=
    f64_add (f64_add (f64_mul (f64_of_Z (queue_load b)) cfg.(QueueMsPerQueued))
                     (f64_mul b.(bs_RuntimeWaiting) cfg.(RuntimeWaitingMsPerReq)))
            (f64_mul b.(bs_RuntimeRunning) cfg.(RuntimeRunningMsPerReq)) in
  let stale :=
    if b.(bs_CacheObservationSupported)
    then f64_mul cfg.(CacheStalenessPenaltyMs) (f64_sub f64_one (router_clamp01 b.(bs_CacheConfidence)))
    else f64_zero in
  let kv :=
    if b.(bs_KVHeadroomSupported)
    then f64_mul cfg.(KVPressurePenaltyMs) (f64_sub f64_one (router_clamp01 b.(bs_KVHeadroom)))
    else f64_zero in
  {| cc_backendID := id_of b; cc_uncachedPromptTokens := uncached; cc_matchedPrefixTokens := matched;
     cc_matchRatio :=
       if 0 <? inputLen then f64_div (f64_of_Z matched) (f64_of_Z inputLen) else f64_zero;
     cc_estPrefillMs := estPrefillMs; cc_estDecodeMs := estDecodeMs; cc_estQueueMs := estQueueMs;
     cc_stalenessPenaltyMs := stale; cc_kvPenaltyMs := kv;
     cc_finishMs := f64_add (f64_add (f64_add (f64_add estQueueMs estPrefillMs) estDecodeMs) stale) kv;
     cc_cacheUsed := used && (0 <? matched); cc_cacheConfidence := conf |}.

Definition cost (p : CacheAwarePolicy) (req : RequestFeatures) (b : BackendState) : candidateCost :=
  let '(matched, used, conf) := matchedTokensFor p req b in
  cost_with p.(cap_cfg) (decodeMsPerToken p b) req b matched used conf.

(** The comparison of both [sort.Slice] calls: finish time, then backend id. *)
Definition finish_less (f1 : f64) (id1 : string) (f2 : f64) (id2 : string) : bool :=
  if negb (f64_eqb f1 f2) then f64_ltb f1 f2 else string_ltb id1 id2.

Definition cost_less (a b : candidateCost) : bool :=
  finish_less a.(cc_finishMs) a.(cc_backendID) b.(cc_finishMs) b.(cc_backendID).

Definition cost_reason (c : candidateCost) : Reason :=
  ReasonMinFinish c.(cc_finishMs) c.(cc_estQueueMs) c.(cc_estPrefillMs) c.(cc_uncachedPromptTokens)
    c.(cc_matchedPrefixTokens) c.(cc_estDecodeMs) c.(cc_stalenessPenaltyMs) c.(cc_kvPenaltyMs).

(** The per-candidate breakdown recorded for every decision. *)
Record CandidateScore := {
  cs_BackendID : string;
  cs_UncachedPromptTokens : Z;
  cs_MatchedPrefixTokens : Z;
  cs_MatchRatio : f64;
  cs_EstQueueMs : f64;
  cs_EstPrefillMs : f64;
  cs_EstDecodeMs : f64;
  cs_StalenessPenaltyMs : f64;
  cs_KVPenaltyMs : f64;
  cs_EstPrefillSavedMs : f64;
  cs_FinalScoreMs : f64;
  cs_CacheUsed : bool;
  cs_CacheConfidence : f64;
}.

Definition score_of (cfg : CacheAwareConfig) (c : candidateCost) : CandidateScore :=
  {| cs_BackendID := c.(cc_backendID); cs_UncachedPromptTokens := c.(cc_uncachedPromptTokens);
     cs_MatchedPrefixTokens := c.(cc_matchedPrefixTokens); cs_MatchRatio := c.(cc_matchRatio);
     cs_EstQueueMs := c.(cc_estQueueMs); cs_EstPrefillMs := c.(cc_estPrefillMs);
     cs_EstDecodeMs := c.(cc_estDecodeMs); cs_StalenessPenaltyMs := c.(cc_stalenessPenaltyMs);
     cs_KVPenaltyMs := c.(cc_kvPenaltyMs);
     cs_EstPrefillSavedMs := f64_mul (f64_of_Z c.(cc_matchedPrefixTokens)) cfg.(PrefillMsPerToken);
     cs_FinalScoreMs := c.(cc_finishMs); cs_CacheUsed := c.(cc_cacheUsed);
     cs_CacheConfidence := c.(cc_cacheConfidence) |}.

Definition score_less (a b : CandidateScore) : bool :=
  finish_less a.(cs_FinalScoreMs) a.(cs_BackendID) b.(cs_FinalScoreMs) b.(cs_BackendID).

(** The affinity-only baseline. *)
Record CacheAffinityOnlyPolicy := { aff_locator : CacheLocator }.

Definition affinity_match (p : CacheAffinityOnlyPolicy) (req : RequestFeatures) (b : BackendState) : Z :=
  let m := b.(bs_PrefixMatchedTokens) in
  match p.(aff_locator) with
  | Some lookup =>
      if negb (String.eqb req.(rf_PrefixKeyHash) "") && b.(bs_CacheObservationSupported) then
        let v := lookup (id_of b) req.(rf_PrefixKeyHash) in if m <? v then v else m
      else m
  | None => m
  end.

(** [for i, b := range e]: the state is [bestIdx], [bestMatch]; [None] is an index out of range. *)
Fixpoint affinity_loop (p : CacheAffinityOnlyPolicy) (req : RequestFeatures) (e : list BackendState)
    (i : nat) (rest : list BackendState) (bestIdx : nat) (bestMatch : Z) : option (nat * Z) :=
  match rest with
  | [] => Some (bestIdx, bestMatch)
  | b :: rest =>
      let m := affinity_match p req b in
      if bestMatch <? m then affinity_loop p req e (S i) rest i m
      else if m =? bestMatch then
        cur ← e !! bestIdx;
        if string_ltb (id_of b) (id_of cur) then affinity_loop p req e (S i) rest i m
        else affinity_loop p req e (S i) rest bestIdx bestMatch
      else affinity_loop p req e (S i) rest bestIdx bestMatch
  end.

Definition aff_select (p : CacheAffinityOnlyPolicy) (req : RequestFeatures) (snap : BackendSnapshot) :
    option (CacheAffinityOnlyPolicy * (RouteError + RouteDecision)) :=
  match eligible snap with
  | [] => Some (p, inl ErrNoEligibleBackend)
  | e =>
      '(bestIdx, bestMatch) ← affinity_loop p req e 0 e 0 (-1);
      b ← e !! bestIdx;
      Some (p, inr {| rd_BackendID := id_of b; rd_PolicyName := "cache_affinity_only";
                      rd_PolicyVersion := "1"; rd_Reason := ReasonMaxMatched bestMatch |})
  end.

(** The policies that sort. *)
Section sorting.
  Context `{!SliceSort}.

Definition ca_select (p : CacheAwarePolicy) (req : RequestFeatures) (snap : BackendSnapshot) :
    option (CacheAwarePolicy * (RouteError + RouteDecision)) :=
  match eligible snap with
  | [] => Some (p, inl ErrNoEligibleBackend)
  | e =>
      let costs := slice_sort candidateCost cost_less (map (cost p req) e) in
      best ← costs !! 0%nat;
      Some (p, inr {| rd_BackendID := best.(cc_backendID); rd_PolicyName := "cache_aware_estimated_finish";
                      rd_PolicyVersion := "1"; rd_Reason := cost_reason best |})
  end.

Definition ScoreBreakdown (p : CacheAwarePolicy) (req : RequestFeatures) (snap : BackendSnapshot) :
    list CandidateScore :=
  slice_sort CandidateScore score_less
    (map (fun b => score_of p.(cap_cfg) (cost p req b)) (eligible snap)).
End sorting.

(** ** A policy by name *)

Inductive AnyPolicy :=
  | AnyRoundRobin (p : RoundRobinPolicy)
  | AnyLeastQueued (p : LeastQueuedPolicy)
  | AnyLeastRuntimeWaiting (p : LeastRuntimeWaitingPolicy)
  | AnyLeastPressure (p : HealthGatedLeastPressurePolicy)
  | AnyCacheAware (p : CacheAwarePolicy)
  | AnyAffinity (p : CacheAffinityOnlyPolicy).

Definition PolicyByNameWithLocator (name : string) (locator : CacheLocator) : AnyPolicy :=
  if String.eqb name "round_robin" then AnyRoundRobin {| rr_n := 0 |}
  else if String.eqb name "least_queued" then AnyLeastQueued LeastQueued
  else if String.eqb name "least_runtime_waiting" then AnyLeastRuntimeWaiting LeastRuntimeWaiting
  else if String.eqb name "health_gated_least_pressure" then AnyLeastPressure HealthGatedLeastPressure
  else if String.eqb name "cache_aware_estimated_finish"
  then AnyCacheAware (NewCacheAwarePolicy DefaultCacheAwareConfig locator)
  else if String.eqb name "cache_affinity_only" then AnyAffinity {| aff_locator := locator |}
  else AnyLeastQueued LeastQueued.

Definition PolicyByName (name : string) : AnyPolicy := PolicyByNameWithLocator name None.

Section any.
  Context `{!SliceSort}.

Definition rewrap {P} (wrap : P -> AnyPolicy) (r : option (P * (RouteError + RouteDecision))) :
    option (AnyPolicy * (RouteError + RouteDecision)) :=
  (fun pd => (wrap (fst pd), snd pd)) <$> r.

(** Dynamic dispatch on the interface value. *)
Definition any_select (p : AnyPolicy) (req : RequestFeatures) (snap : BackendSnapshot) :
    option (AnyPolicy * (RouteError + RouteDecision)) :=
  match p with
  | AnyRoundRobin p => rewrap AnyRoundRobin (rr_select p req snap)
  | AnyLeastQueued p => rewrap AnyLeastQueued (lq_select p req snap)
  | AnyLeastRuntimeWaiting p => rewrap AnyLeastRuntimeWaiting (lrw_select p req snap)
  | AnyLeastPressure p => rewrap AnyLeastPressure (hg_select p req snap)
  | AnyCacheAware p => rewrap AnyCacheAware (ca_select p req snap)
  | AnyAffinity p => rewrap AnyAffinity (aff_select p req snap)
  end.

#[export] Instance ca_ops : PolicyOps CacheAwarePolicy := {| SelectBackend := ca_select |}.
#[export] Instance aff_ops : PolicyOps CacheAffinityOnlyPolicy := {| SelectBackend := aff_select |}.
#[export] Instance any_ops : PolicyOps AnyPolicy := {| SelectBackend := any_select |}.
End any.

(** ** The order on costs *)

Lemma finish_less_spec f1 i1 f2 i2 :
  not_nan f1 -> not_nan f2 ->
  finish_less f1 i1 f2 i2 = true <->
  key_lt (f64_key f1) (f64_key f2) \/ (f64_key f1 = f64_key f2 /\ string_ltb i1 i2 = true).
Proof.
  intros H1 H2. unfold finish_less. pose proof (f64_eqb_key f1 f2 H1 H2) as He.
  pose proof (f64_ltb_key f1 f2 H1 H2) as Hl. destruct (f64_eqb f1 f2); simpl.
  - assert (Hk : f64_key f1 = f64_key f2) by by apply He. split; [by right|].
    intros [Hlt|[_ H]]; [|done]. rewrite Hk in Hlt. apply key_trichotomy in Hk. exfalso.
    destruct (f64_key f2) as [[a b] c]. simpl in Hlt. lia.
  - rewrite Hl. split; [by left|]. intros [H|[H _]]; [done|]. apply He in H. done.
Qed.

Lemma finish_less_false f1 i1 f2 i2 :
  not_nan f1 -> not_nan f2 ->
  finish_less f1 i1 f2 i2 = false <->
  key_lt (f64_key f2) (f64_key f1) \/ (f64_key f1 = f64_key f2 /\ string_ltb i1 i2 = false).
Proof.
  intros H1 H2. rewrite <- (not_true_iff_false (finish_less _ _ _ _)), finish_less_spec by done.
  rewrite <- not_true_iff_false. split.
  - intros H. destruct (proj1 (key_not_lt (f64_key f1) (f64_key f2))) as [Hl|He]; tauto.
  - intros [Hl|[He Hs]] [Hl'|[He' Hs']]; [| | |done].
    + eapply key_lt_irrefl, key_lt_trans; eassumption.
    + rewrite He' in Hl. by eapply key_lt_irrefl.
    + rewrite He in Hl'. by eapply key_lt_irrefl.
Qed.

(** Elements ordered by finish time, then id; those with NaN are excluded. *)
#[export] Instance finish_weak {A} (fin : A -> f64) (id : A -> string) :
  StrictWeak (fun x => not_nan (fin x)) (fun x y => finish_less (fin x) (id x) (fin y) (id y)).
Proof.
  split; simpl.
  - intros x Hx. rewrite finish_less_false by done. right. split; [done|apply string_ltb_irrefl].
  - intros x y z Hx Hy Hz. rewrite !finish_less_spec by done.
    intros [H1|[E1 H1]] [H2|[E2 H2]]; [left; by eapply key_lt_trans|left; congruence|left; congruence|right].
    split; [congruence|]. by eapply string_ltb_trans.
  - intros x y z Hx Hy Hz. rewrite !finish_less_false by done.
    intros [H1|[E1 H1]] [H2|[E2 H2]]; [left; by eapply key_lt_trans|left; congruence|left; congruence|right].
    split; [congruence|]. by eapply (sw_incomp (P := fun _ => True) _ (id y)).
Qed.

(** When ids do not repeat, the order is total on the elements of a list. *)
Lemma finish_total {A} (fin : A -> f64) (id : A -> string) (l : list A) :
  Forall (fun x => not_nan (fin x)) l -> (forall x y, x ∈ l -> y ∈ l -> id x = id y -> x = y) ->
  StrictTotal (fun x => x ∈ l) (fun x y => finish_less (fin x) (id x) (fin y) (id y)).
Proof.
  intros Hn Hid. rewrite Forall_forall in Hn. split.
  - pose proof (finish_weak fin id) as [W1 W2 W3]. split; intros; eauto.
  - intros x y Hx Hy. rewrite !finish_less_false by auto.
    intros [H1|[E1 H1]] [H2|[E2 H2]].
    + destruct (key_lt_irrefl (f64_key (fin x))). by eapply key_lt_trans.
    + rewrite E2 in H1. by destruct (key_lt_irrefl _ H1).
    + rewrite E1 in H2. by destruct (key_lt_irrefl _ H2).
    + apply Hid; [done..|]. by apply string_ltb_total.
Qed.

(** ** The laws *)

Section laws.
  Context `{!SliceSort}.

Lemma slice_sort_cons {A} lt (l : list A) : l <> [] -> exists x k, slice_sort A lt l = x :: k /\ x ∈ l.
Proof.
  intros Hne. pose proof (slice_sort_perm A lt l) as Hp.
  destruct (slice_sort A lt l) as [|x k]; [by apply Permutation_nil_l in Hp|].
  exists x, k. split; [done|]. rewrite <- Hp. left.
Qed.

(** The decision is the head of the sorted costs. *)
Lemma ca_select_spec p req snap :
  eligible snap <> [] ->
  exists best k, slice_sort candidateCost cost_less (map (cost p req) (eligible snap)) = best :: k /\
    ca_select p req snap =
      Some (p, inr {| rd_BackendID := cc_backendID best; rd_PolicyName := "cache_aware_estimated_finish";
                      rd_PolicyVersion := "1"; rd_Reason := cost_reason best |}).
Proof.
  intros Hne.
  destruct (slice_sort_cons cost_less (map (cost p req) (eligible snap))) as (best & k & Hs & _);
    [by destruct (eligible snap)|].
  exists best, k. split; [done|]. unfold ca_select. destruct (eligible snap); [done|]. by rewrite Hs.
Qed.

Lemma cost_id p req b : cc_backendID (cost p req b) = id_of b.
Proof. unfold cost. by destruct (matchedTokensFor p req b) as [[? ?] ?]. Qed.

#[export, refine] Instance ca_laws : PolicyLaws CacheAwarePolicy := {| pol_inv := fun _ _ => True |}.
Proof.
  - done.
  - intros n p req snap _ _. apply stateless_step.
    + unfold SelectBackend, ca_ops, ca_select. by intros ->.
    + intros Hne. destruct (ca_select_spec p req snap Hne) as (best & k & Hs & Hsel).
      assert (Hin : best ∈ map (cost p req) (eligible snap))
        by (rewrite <- (slice_sort_perm _ cost_less), Hs; left).
      apply list_elem_of_In, in_map_iff in Hin as (b & <- & Hb).
      eexists _, b. split; [exact Hsel|]. split; [by apply list_elem_of_In|]. simpl. by rewrite cost_id.
Defined.

(** The affinity loop is the scan for the largest match, ties going to the smaller id. *)
Definition affinity_better (p : CacheAffinityOnlyPolicy) (req : RequestFeatures) (a b : BackendState) : bool :=
  (affinity_match p req b <? affinity_match p req a) ||
  ((affinity_match p req a =? affinity_match p req b) && string_ltb (id_of a) (id_of b)).

Lemma affinity_loop_scan p req e i rest best cur :
  rest = drop i e -> e !! best = Some cur ->
  exists j, affinity_loop p req e i rest best (affinity_match p req cur) =
    Some (j, affinity_match p req (scan_best (affinity_better p req) cur rest)) /\
    e !! j = Some (scan_best (affinity_better p req) cur rest).
Proof.
  revert i best cur. induction rest as [|b rest IH]; intros i best cur Hr Hc; simpl.
  { by exists best. }
  assert (Hb : e !! i = Some b) by (rewrite <- (Nat.add_0_r i), <- lookup_drop, <- Hr; done).
  assert (Hr' : rest = drop (S i) e) by by rewrite <- (drop_drop e i 1), <- Hr || (rewrite (drop_S e b i Hb) in Hr; by injection Hr).
  unfold scan_best in *; simpl. unfold affinity_better at 2 4. rewrite Hc. cbn [mbind option_bind].
  destruct (Z.ltb_spec (affinity_match p req cur) (affinity_match p req b)); simpl; [by apply IH|].
  destruct (Z.eqb_spec (affinity_match p req b) (affinity_match p req cur)) as [Heq|]; simpl; [|by apply IH].
  destruct (string_ltb (id_of b) (id_of cur)); by apply IH.
Qed.

#[export] Instance affinity_weak p req : StrictWeak (fun _ => True) (affinity_better p req).
Proof.
  assert (Hs : forall a b, affinity_better p req a b = true <->
     affinity_match p req b < affinity_match p req a \/
     (affinity_match p req a = affinity_match p req b /\ string_ltb (id_of a) (id_of b) = true)).
  { intros a b. unfold affinity_better. by rewrite orb_true_iff, andb_true_iff, Z.ltb_lt, Z.eqb_eq. }
  split; intros *.
  - intros _. rewrite <- not_true_iff_false, Hs, string_ltb_irrefl. intuition (lia || done).
  - intros _ _ _. rewrite !Hs. intros [H1|[H1 H1']] [H2|[H2 H2']]; [left; lia..|right].
    split; [lia|]. by eapply string_ltb_trans.
  - intros _ _ _. rewrite <- !not_true_iff_false, !Hs. intros H1 H2 [H3|[H3 H3']].
    + apply H2. left. apply Znot_ge_lt. intros Hge. apply H1. left. lia.
    + destruct (string_ltb (id_of x) (id_of y)) eqn:E1, (string_ltb (id_of y) (id_of z)) eqn:E2.
      * destruct (decide (affinity_match p req x = affinity_match p req y)); [tauto|].
        assert (affinity_match p req x < affinity_match p req y) by (apply Znot_ge_lt; intros ?; apply H1; left; lia).
        apply H2. left. lia.
      * destruct (decide (affinity_match p req x = affinity_match p req y)); [tauto|].
        assert (affinity_match p req x < affinity_match p req y) by (apply Znot_ge_lt; intros ?; apply H1; left; lia).
        apply H2. left. lia.
      * destruct (decide (affinity_match p req y = affinity_match p req z)); [tauto|].
        assert (affinity_match p req y < affinity_match p req z) by (apply Znot_ge_lt; intros ?; apply H2; left; lia).
        apply H1. left. lia.
      * assert (string_ltb (id_of x) (id_of z) = false)
          by exact (sw_incomp (P := fun _ => True) _ _ _ I I I E1 E2). congruence.
Qed.

(** The affinity decision, when no match is negative. *)
Lemma aff_select_spec p req snap e0 e :
  eligible snap = e0 :: e -> 0 <= affinity_match p req e0 ->
  aff_select p req snap =
    Some (p, inr {| rd_BackendID := id_of (scan_best (affinity_better p req) e0 e);
                    rd_PolicyName := "cache_affinity_only"; rd_PolicyVersion := "1";
                    rd_Reason := ReasonMaxMatched (affinity_match p req (scan_best (affinity_better p req) e0 e)) |}).
Proof.
  intros He H0. unfold aff_select. rewrite He. cbn [affinity_loop].
  rewrite (proj2 (Z.ltb_lt _ _)) by lia.
  destruct (affinity_loop_scan p req (e0 :: e) 1 e 0 e0) as (j & -> & Hj); [done..|].
  cbn [mbind option_bind]. by rewrite Hj.
Qed.

(** In every case it is an element of the eligible list. *)
Lemma affinity_loop_valid p req e i rest best m :
  i = (length e - length rest)%nat -> (length rest <= length e)%nat -> (best < length e)%nat ->
  exists j m', affinity_loop p req e i rest best m = Some (j, m') /\ (j < length e)%nat.
Proof.
  revert i best m. induction rest as [|b rest IH]; intros i best m Hi Hr Hb; simpl in *; [by exists best, m|].
  destruct (m <? affinity_match p req b); [apply IH; lia|].
  destruct (affinity_match p req b =? m); [|apply IH; lia].
  destruct (lookup_lt_is_Some_2 e best Hb) as [cur ->]. cbn [mbind option_bind].
  destruct (string_ltb _ _); apply IH; lia.
Qed.

#[export, refine] Instance aff_laws : PolicyLaws CacheAffinityOnlyPolicy := {| pol_inv := fun _ _ => True |}.
Proof.
  - done.
  - intros n p req snap _ _. apply stateless_step.
    + unfold SelectBackend, aff_ops, aff_select. by intros ->.
    + intros Hne. unfold SelectBackend, aff_ops, aff_select.
      destruct (affinity_loop_valid p req (eligible snap) 0 (eligible snap) 0 (-1)) as (j & m & Hl & Hj);
        [lia|lia|destruct (eligible snap); simpl; [done|lia]|].
      destruct (lookup_lt_is_Some_2 _ _ Hj) as [b Hb].
      destruct (eligible snap) as [|e0 e]; [done|]. rewrite Hl. cbn [mbind option_bind]. rewrite Hb.
      eexists _, b. split; [reflexivity|]. split; [by eapply list_elem_of_lookup_2|done].
Defined.

(** Dynamic dispatch keeps the laws. *)
Lemma rewrap_step {P} `{PolicyLaws P} (wrap : P -> AnyPolicy) (inv : nat -> AnyPolicy -> Prop) n p req snap :
  (forall m q, pol_inv m q -> inv m (wrap q)) ->
  pol_inv n p -> Z.of_nat n < 2 ^ 63 ->
  exists p' r, rewrap wrap (SelectBackend p req snap) = Some (p', r) /\ inv (S n) p' /\
    match r with
    | inl _ => eligible snap = []
    | inr d => exists b, b ∈ eligible snap /\ id_of b = rd_BackendID d
    end.
Proof.
  intros Hinv Hp Hn. destruct (pol_step n p req snap Hp Hn) as (p' & r & Hs & Hp' & Hr).
  exists (wrap p'), r. rewrite Hs. split; [done|]. split; [by apply Hinv|done].
Qed.

Definition any_pol_inv (n : nat) (p : AnyPolicy) : Prop :=
  match p with
  | AnyRoundRobin p => pol_inv n p
  | AnyLeastQueued p => pol_inv n p
  | AnyLeastRuntimeWaiting p => pol_inv n p
  | AnyLeastPressure p => pol_inv n p
  | AnyCacheAware p => pol_inv n p
  | AnyAffinity p => pol_inv n p
  end.

#[export, refine] Instance any_laws : PolicyLaws AnyPolicy := {| pol_inv := any_pol_inv |}.
Proof.
  - intros n [p|p|p|p|p|p]; apply pol_mono.
  - intros n [p|p|p|p|p|p] req snap Hi Hn;
      match goal with
      | |- context [ SelectBackend (?wrap p) req snap ] =>
          change (SelectBackend (wrap p) req snap) with (rewrap wrap (SelectBackend p req snap));
          by apply (rewrap_step wrap any_pol_inv n p req snap)
      end.
Defined.
End laws.

(** ** Properties *)

Lemma policy_start name locator `{!SliceSort} : any_pol_inv 0 (PolicyByNameWithLocator name locator).
Proof. unfold PolicyByNameWithLocator. repeat (destruct (String.eqb _ _); [done|]). done. Qed.

(** A sequence of decisions through the interface, for any policy. *)
Fixpoint policy_run {P} `{PolicyOps P} (p : P) (calls : list (RequestFeatures * BackendSnapshot)) :
    option (P * list (RouteError + RouteDecision)) :=
  match calls with
  | [] => Some (p, [])
  | (req, snap) :: calls =>
      '(p, r) ← SelectBackend p req snap;
      '(p, rs) ← policy_run p calls;
      Some (p, r :: rs)
  end.

(** What each decision of a run is. *)
Definition decision_sound (call : RequestFeatures * BackendSnapshot) (r : RouteError + RouteDecision) : Prop :=
  match r with
  | inl ErrNoEligibleBackend => eligible (snd call) = []
  | inr d => exists b, b ∈ eligible (snd call) /\ id_of b = rd_BackendID d
  end.

Lemma policy_run_sound {P} `{PolicyLaws P} n (p : P) calls :
  pol_inv n p -> Z.of_nat (n + length calls) <= 2 ^ 63 ->
  exists p' rs, policy_run p calls = Some (p', rs) /\ Forall2 decision_sound calls rs.
Proof.
  revert n p. induction calls as [|[req snap] calls IH]; intros n p Hp Hn; simpl in *.
  { by exists p, []. }
  destruct (pol_step n p req snap Hp) as (p1 & r & -> & Hp1 & Hr); [lia|].
  cbn [mbind option_bind]. destruct (IH (S n) p1 Hp1) as (p2 & rs & -> & Hrs); [lia|].
  cbn [mbind option_bind]. eexists _, _. split; [reflexivity|]. constructor; [|done].
  unfold decision_sound. destruct r as [[]|d]; done.
Qed.

(** C30: every policy the program can configure, the unknown names included, survives 2^63 decisions
    without a panic, over any snapshots: each decision names a backend that is eligible in its
    snapshot, and it fails exactly when none is. *)
Theorem policies_sound `{!SliceSort} (name : string) (locator : CacheLocator)
    (calls : list (RequestFeatures * BackendSnapshot)) (Hlen : Z.of_nat (length calls) <= 2 ^ 63) :
  exists p' rs, policy_run (PolicyByNameWithLocator name locator) calls = Some (p', rs) /\
    Forall2 decision_sound calls rs.
Proof. apply (policy_run_sound 0); [apply policy_start|done]. Qed.

Section choice.
  Context `{!SliceSort}.

(** No eligible backend has a NaN cost. *)
Definition finite_costs (p : CacheAwarePolicy) (req : RequestFeatures) (snap : BackendSnapshot) : Prop :=
  Forall (fun b => not_nan (cc_finishMs (cost p req b))) (eligible snap).

Definition distinct_ids (snap : BackendSnapshot) : Prop :=
  forall a b, a ∈ eligible snap -> b ∈ eligible snap -> id_of a = id_of b -> a = b.

Lemma costs_not_nan p req snap :
  finite_costs p req snap ->
  Forall (fun c => not_nan (cc_finishMs c)) (map (cost p req) (eligible snap)).
Proof. intros Hc. by apply Forall_map. Qed.

(** The cache-aware policy minimises its own cost model: no eligible backend has a smaller
    estimated finish time than the chosen one, and none with an equal estimate has a smaller id. *)
Theorem cache_aware_minimises (p : CacheAwarePolicy) (req : RequestFeatures) (snap : BackendSnapshot)
    (Hne : eligible snap <> []) (Hnan : finite_costs p req snap) :
  exists d b, ca_select p req snap = Some (p, inr d) /\ b ∈ eligible snap /\
    rd_BackendID d = id_of b /\ rd_Reason d = cost_reason (cost p req b) /\
    Forall (fun c => f64_leb (cc_finishMs (cost p req b)) (cc_finishMs (cost p req c)) = true /\
                     (f64_eqb (cc_finishMs (cost p req c)) (cc_finishMs (cost p req b)) = true ->
                      string_ltb (id_of c) (id_of b) = false)) (eligible snap).
Proof.
  destruct (ca_select_spec p req snap Hne) as (best & k & Hs & Hsel).
  destruct (slice_sort_head (fun c => not_nan (cc_finishMs c)) cost_less _ _ _
              (costs_not_nan p req snap Hnan) Hs) as [Hin Hmin].
  apply list_elem_of_In, in_map_iff in Hin as (b & <- & Hb). apply list_elem_of_In in Hb.
  eexists _, b. split; [exact Hsel|]. simpl. rewrite cost_id. split_and!; try done.
  apply Forall_forall. intros c Hc. rewrite Forall_map, Forall_forall in Hmin. specialize (Hmin c Hc).
  unfold finite_costs in Hnan. rewrite Forall_forall in Hnan.
  pose proof (Hnan b Hb) as Nb. pose proof (Hnan c Hc) as Nc.
  unfold cost_less in Hmin. apply finish_less_false in Hmin; [|done..]. rewrite !cost_id in Hmin.
  rewrite f64_leb_key, f64_eqb_key, key_not_lt by done. destruct Hmin as [Hlt|[He Hid]].
  - split; [by left|]. intros He. rewrite He in Hlt. by apply key_lt_irrefl in Hlt.
  - split; [right; congruence|done].
Qed.
Lemma costs_total p req snap :
  finite_costs p req snap -> distinct_ids snap ->
  StrictTotal (fun c => c ∈ map (cost p req) (eligible snap)) cost_less.
Proof.
  intros Hnan Hid. apply (finish_total cc_finishMs cc_backendID).
  - by apply costs_not_nan.
  - intros x y Hx Hy Hxy. apply list_elem_of_In, in_map_iff in Hx as (a & <- & Ha).
    apply list_elem_of_In, in_map_iff in Hy as (b & <- & Hb). rewrite !cost_id in Hxy.
    f_equal. apply Hid; [by apply list_elem_of_In..|done].
Qed.

(** The cache-aware decision does not depend on the order in which the snapshot lists the
    backends: with distinct ids and no NaN cost, permuted snapshots get the same decision, reason
    included, whatever sorting algorithm is used. *)
Theorem cache_aware_order_independent (p : CacheAwarePolicy) (req : RequestFeatures)
    (s1 s2 : BackendSnapshot) (Hperm : sn_Backends s1 ≡ₚ sn_Backends s2)
    (Hnan : finite_costs p req s1) (Hid : distinct_ids s1) :
  ca_select p req s1 = ca_select p req s2 /\
  ScoreBreakdown p req s1 = ScoreBreakdown p req s2.
Proof.
  pose proof (eligible_perm _ _ Hperm) as He. split.
  - pose proof (costs_total p req s1 Hnan Hid) as Ht.
    assert (Hs : slice_sort candidateCost cost_less (map (cost p req) (eligible s1)) =
                 slice_sort candidateCost cost_less (map (cost p req) (eligible s2))).
    { apply (slice_sort_unique _ cost_less); [by apply Forall_forall|]. by apply Permutation_map. }
    unfold ca_select. destruct (eligible s1) as [|b1 e1], (eligible s2) as [|b2 e2].
    + done.
    + by apply Permutation_nil_l in He.
    + by apply Permutation_nil_r in He.
    + by rewrite Hs.
  - set (sc := fun b => score_of (cap_cfg p) (cost p req b)).
    assert (Hsc : StrictTotal (fun c => c ∈ map sc (eligible s1)) score_less).
    { apply (finish_total cs_FinalScoreMs cs_BackendID); [by apply Forall_map|].
      intros x y Hx Hy Hxy. apply list_elem_of_In, in_map_iff in Hx as (a & <- & Ha).
      apply list_elem_of_In, in_map_iff in Hy as (b & <- & Hb).
      unfold sc, score_of in Hxy. simpl in Hxy. rewrite !cost_id in Hxy.
      f_equal. apply Hid; [by apply list_elem_of_In..|done]. }
    unfold ScoreBreakdown. apply (slice_sort_unique _ score_less); [by apply Forall_forall|].
    by apply Permutation_map.
Qed.
End choice.

(** Replace what a backend and the locator claim about locality. *)
Definition forget_locality (b : BackendState) : BackendState :=
  {| bs_Backend := b.(bs_Backend); bs_Reachable := b.(bs_Reachable);
     bs_LifecycleState := b.(bs_LifecycleState); bs_ControlPlaneReady := b.(bs_ControlPlaneReady);
     bs_StabilityScore := b.(bs_StabilityScore); bs_HostCapacityHint := b.(bs_HostCapacityHint);
     bs_QueueDepth := b.(bs_QueueDepth); bs_QueueInflight := b.(bs_QueueInflight);
     bs_QueueMax := b.(bs_QueueMax); bs_RuntimeHealthy := b.(bs_RuntimeHealthy);
     bs_RuntimeWaiting := b.(bs_RuntimeWaiting); bs_RuntimeRunning := b.(bs_RuntimeRunning);
     bs_KVCacheUtil := b.(bs_KVCacheUtil); bs_SnapshotAgeMs := b.(bs_SnapshotAgeMs);
     bs_GenTokensPerSec := b.(bs_GenTokensPerSec); bs_ServiceRateSupported := b.(bs_ServiceRateSupported);
     bs_CacheObservationSupported := b.(bs_CacheObservationSupported);
     bs_CacheMatchSupported := b.(bs_CacheMatchSupported); bs_CacheReady := b.(bs_CacheReady);
     bs_CacheConfidence := b.(bs_CacheConfidence); bs_CacheSnapshotAgeMs := b.(bs_CacheSnapshotAgeMs);
     bs_KVHeadroom := b.(bs_KVHeadroom); bs_KVHeadroomSupported := b.(bs_KVHeadroomSupported);
     bs_CacheEventSequence := b.(bs_CacheEventSequence); bs_CacheIndexSize := b.(bs_CacheIndexSize);
     bs_CacheResetEpoch := b.(bs_CacheResetEpoch); bs_CacheProvider := b.(bs_CacheProvider);
     bs_PrefixMatchedTokens := 0 |}.

Definition load_only (p : CacheAwarePolicy) : CacheAwarePolicy :=
  {| cap_cfg := p.(cap_cfg); cap_locator := None |}.

Lemma cap_claim c m :
  (if (0 <? c) && (c <? m) then c else m) = if decide (0 < c) then Z.min c m else m.
Proof. destruct (Z.ltb_spec 0 c), (Z.ltb_spec c m); simpl; case_decide; lia. Qed.

(** Locality that cannot be trusted is ignored: for a backend without cache observation, or with
    a confidence below the floor, the cost is the load-only cost, whatever the directory claims; and
    a trusted match never exceeds the prefix or the input the request has, so the uncached part of
    the prompt lies between 0 and the prompt. *)
Theorem locality_gated (p : CacheAwarePolicy) (req : RequestFeatures) (b : BackendState) :
  (bs_CacheObservationSupported b = false \/
   f64_ltb (bs_CacheConfidence b) (ConfidenceFloor (cap_cfg p)) = true ->
   cost p req b = cost (load_only p) req (forget_locality b) /\
   cc_matchedPrefixTokens (cost p req b) = 0 /\ cc_cacheUsed (cost p req b) = false) /\
  (0 < rf_PrefixTokens req -> cc_matchedPrefixTokens (cost p req b) <= rf_PrefixTokens req) /\
  (0 < rf_InputLenEst req -> cc_matchedPrefixTokens (cost p req b) <= rf_InputLenEst req) /\
  (in_i64 (rf_InputLenEst req) -> 0 <= bs_PrefixMatchedTokens b ->
   0 <= cc_matchedPrefixTokens (cost p req b) /\
   (in_i64 (cc_matchedPrefixTokens (cost p req b)) ->
    0 <= cc_uncachedPromptTokens (cost p req b) <= Z.max 0 (rf_InputLenEst req))).
Proof.
  split; [|set (m := cc_matchedPrefixTokens (cost p req b)) in *].
  - intros Hg. unfold cost, matchedTokensFor.
    change (bs_CacheObservationSupported (forget_locality b)) with (bs_CacheObservationSupported b).
    change (bs_CacheConfidence (forget_locality b)) with (bs_CacheConfidence b).
    change (cap_cfg (load_only p)) with (cap_cfg p).
    destruct (bs_CacheObservationSupported b); simpl; [|done]. destruct Hg as [Hg|Hg]; [done|].
    by rewrite Hg.
  - assert (Hm : m = fst (fst (matchedTokensFor p req b)) /\
                 cc_uncachedPromptTokens (cost p req b) =
                 clamp0_of (wrap64 (clamp0_of (rf_InputLenEst req) - m))).
    { subst m. unfold cost. destruct (matchedTokensFor p req b) as [[? ?] ?]. done. }
    destruct Hm as [Hm ->].
    assert (Hb : (0 < rf_PrefixTokens req -> m <= rf_PrefixTokens req) /\
                 (0 < rf_InputLenEst req -> m <= rf_InputLenEst req) /\
                 (0 <= bs_PrefixMatchedTokens b -> 0 <= m)).
    { rewrite Hm. unfold matchedTokensFor. destruct (negb _); [simpl; lia|].
      destruct (f64_ltb _ _); [simpl; lia|]. destruct (_ || _); [simpl; lia|]. cbn [fst].
      set (m0 := match cap_locator p with Some _ => _ | None => _ end).
      assert (0 <= bs_PrefixMatchedTokens b -> 0 <= m0).
      { subst m0. destruct (cap_locator p); [|done]. destruct (Z.ltb_spec 0 (z (id_of b) (rf_PrefixKeyHash req))); lia. }
      clearbody m0. rewrite !cap_claim. repeat case_decide; lia. }
    clear Hm. clearbody m. destruct Hb as (H1 & H2 & H3). split; [done|]. split; [done|]. intros Hi Hp.
    split; [by apply H3|]. intros Hin. specialize (H3 Hp). unfold in_i64, i64_min, i64_max in *.
    assert (Hc : forall x, clamp0_of x = Z.max 0 x)
      by (intros x; unfold clamp0_of; destruct (Z.ltb_spec x 0); lia).
    rewrite !Hc, wrap64_id by (unfold in_i64, i64_min, i64_max; lia). lia.
Qed.

(** The affinity baseline maximises the matched prefix over the eligible backends, ties going to
    the smallest id, so it too does not depend on the snapshot's order. *)
Theorem affinity_maximises (p : CacheAffinityOnlyPolicy) (req : RequestFeatures) (snap : BackendSnapshot)
    (Hne : eligible snap <> [])
    (Hpos : Forall (fun b => 0 <= affinity_match p req b) (eligible snap)) :
  exists d b, aff_select p req snap = Some (p, inr d) /\ b ∈ eligible snap /\ rd_BackendID d = id_of b /\
    rd_Reason d = ReasonMaxMatched (affinity_match p req b) /\
    Forall (fun c => affinity_match p req c <= affinity_match p req b /\
                     (affinity_match p req c = affinity_match p req b ->
                      string_ltb (id_of c) (id_of b) = false)) (eligible snap).
Proof.
  destruct (eligible snap) as [|e0 e] eqn:He; [done|].
  pose proof (Forall_inv Hpos) as H0. set (b := scan_best (affinity_better p req) e0 e).
  eexists _, b. split; [by apply (aff_select_spec p req snap e0 e)|]. split; [apply scan_best_elem|].
  split; [done|]. split; [done|].
  assert (Hall : Forall (fun _ : BackendState => True) e) by by apply Forall_true.
  pose proof (scan_best_optimal (fun _ => True) (affinity_better p req) e0 e I Hall) as Ho.
  fold b in Ho. eapply Forall_impl; [exact Ho|]. intros c Hc. unfold affinity_better in Hc.
  apply orb_false_iff in Hc as [H1%Z.ltb_ge H2]. split; [done|]. intros Heq.
  by rewrite (proj2 (Z.eqb_eq _ _) Heq) in H2.
Qed.

(** ** Witnesses *)

Example sample_locator : CacheLocator :=
  Some (fun backend key => if String.eqb backend "d" && String.eqb key "ff" then 70 else 0).

Example sample_policy : CacheAwarePolicy := NewCacheAwarePolicy DefaultCacheAwareConfig sample_locator.

Example reversed_snap : BackendSnapshot :=
  {| sn_Backends := rev (sn_Backends sample_snap); sn_Timestamp := 101 |}.

Lemma policies_sound_witness :
  exists p' rs, policy_run (PolicyByNameWithLocator "round_robin" sample_locator)
    [(sample_req, sample_snap); (sample_req, reversed_snap)] = Some (p', rs) /\
    Forall2 decision_sound [(sample_req, sample_snap); (sample_req, reversed_snap)] rs.
Proof.
  apply (policies_sound "round_robin" sample_locator [(sample_req, sample_snap); (sample_req, reversed_snap)]).
  simpl. lia.
Defined.

Lemma forallb_Forall {A} (f : A -> bool) l : forallb f l = true -> Forall (fun x => f x = true) l.
Proof. induction l; simpl; [constructor|]. intros [? ?]%andb_true_iff. constructor; auto. Qed.

Lemma sample_costs : finite_costs sample_policy sample_req sample_snap.
Proof.
  assert (H : forallb (fun b => negb (f64_is_nan (cc_finishMs (cost sample_policy sample_req b))))
                (eligible sample_snap) = true) by by vm_compute.
  eapply Forall_impl; [by apply forallb_Forall|]. intros b Hb. by apply negb_true_iff.
Qed.

Lemma sample_ids : distinct_ids sample_snap.
Proof.
  assert (Hl : eligible sample_snap = [sample_backend "a" 3 (f64_of_Z 2) "READY";
    sample_backend "c" 2 f64_one "BUSY"; sample_backend "d" 2 f64_zero "DEGRADED"]) by done.
  intros a b. rewrite Hl, !elem_of_cons, !elem_of_nil.
  intros [->|[->|[->|[]]]] [->|[->|[->|[]]]] Hid; (reflexivity || (exfalso; by vm_compute in Hid)).
Qed.

Lemma cache_aware_minimises_witness :
  exists d, ca_select sample_policy sample_req sample_snap = Some (sample_policy, inr d) /\
    rd_BackendID d = "d"%string.
Proof.
  destruct (cache_aware_minimises sample_policy sample_req sample_snap ltac:(done) sample_costs)
    as (d & b & Hd & _).
  exists d. split; [exact Hd|]. vm_compute in Hd. by injection Hd as <-.
Defined.

Lemma cache_aware_order_independent_witness :
  ca_select sample_policy sample_req sample_snap = ca_select sample_policy sample_req reversed_snap.
Proof.
  destruct (cache_aware_order_independent sample_policy sample_req sample_snap reversed_snap
    (Permutation_rev _) sample_costs sample_ids) as [H _].
  exact H.
Defined.

Lemma sample_matches :
  Forall (fun b => 0 <= affinity_match {| aff_locator := sample_locator |} sample_req b)
    (eligible sample_snap).
Proof.
  eapply Forall_impl; [apply (forallb_Forall (fun b => 0 <=?
    affinity_match {| aff_locator := sample_locator |} sample_req b)); by vm_compute|].
  intros b. apply Z.leb_le.
Qed.

Lemma affinity_maximises_witness :
  exists d, aff_select {| aff_locator := sample_locator |} sample_req sample_snap =
      Some ({| aff_locator := sample_locator |}, inr d) /\ rd_BackendID d = "d"%string.
Proof.
  destruct (affinity_maximises {| aff_locator := sample_locator |} sample_req sample_snap ltac:(done)
    sample_matches) as (d & b & Hd & _).
  exists d. split; [exact Hd|]. vm_compute in Hd. by injection Hd as <-.
Defined.
