(* ===== verification/Registry.v ===== *)
(** * The backend registry ([internal/router/registry.go])

    A poll turns the decoded answers of a sidecar's five endpoints into a backend state and a prefix
    directory; a refresh polls every backend in its own goroutine and publishes the results.  The
    answers are decoded objects here, or [None]; [GetJson] decodes them from their text. *)

From Stdlib Require Import Floats.SpecFloat.
From stdpp Require Import base tactics numbers option list strings gmap.
From S2P Require Import Prelude GoFloat GoTime Routing.

(** ** Decoded JSON: [map[string]any]; a missing key reads as nil *)

Inductive Json :=
  | JNull
  | JBool (b : bool)
  | JNum (x : f64)
  | JStr (s : string)
  | JArr (l : list Json)
  | JObj (o : list (string * Json)).

Definition JsonObj : Type := list (string * Json).

Definition jget (k : string) (o : JsonObj) : Json :=
  match List.find (fun kv => String.eqb (fst kv) k) o with Some kv => snd kv | None => JNull end.

(** [v, _ = x.(T)] *)
Definition as_bool (j : Json) : bool := match j with JBool b => b | _ => false end.
Definition as_num (j : Json) : f64 := match j with JNum x => x | _ => f64_zero end.
Definition as_str (j : Json) : string := match j with JStr s => s | _ => "" end.

Definition intOf (v : Json) : Z := match v with JNum f => f64_to_i64 f | _ => 0 end.

Definition fieldVal (v : Json) : f64 :=
  match v with
  | JObj m => match jget "value" m with JNum f => f | _ => f64_zero end
  | JNum f => f
  | _ => f64_zero
  end.

Definition fieldSupported (v : Json) : bool :=
  match v with
  | JObj m => match jget "supported" m with JBool s => s | _ => false end
  | JNum _ => true
  | _ => false
  end.

(** ** State *)

Record counterSample := { cn_genTokensTotal : f64; cn_supported : bool; cn_at : Z }.

Record Registry := {
  rg_backends : list Backend;
  rg_interval : Z;
  rg_snap : BackendSnapshot;
  rg_cacheDir : gmap string (gmap string Z);
  rg_cacheDirMax : Z;
  rg_prev : gmap string counterSample;
}.

Definition NewRegistry (backends : list Backend) (interval now : Z) : Registry :=
  {| rg_backends := backends; rg_interval := interval;
     rg_snap := {| sn_Backends := []; sn_Timestamp := now |};
     rg_cacheDir := ∅; rg_cacheDirMax := 4096; rg_prev := ∅ |}.

Definition LookupPrefixTokens (r : Registry) (backendID prefixKeyHash : string) : Z :=
  if String.eqb prefixKeyHash "" then 0
  else
    match r.(rg_cacheDir) !! backendID with
    | Some d => default 0 (d !! prefixKeyHash)
    | None => 0
    end.

(** ** The service rate *)

Definition serviceRate (backendID : string) (genTotal : f64) (supported : bool) (now : Z)
    (prevs : gmap string counterSample) : gmap string counterSample * (f64 * bool) :=
  let prev := prevs !! backendID in
  let prevs := <[backendID := {| cn_genTokensTotal := genTotal; cn_supported := supported; cn_at := now |}]> prevs in
  match prev with
  | None => (prevs, (f64_zero, false))
  | Some prev =>
      if negb supported || negb prev.(cn_supported) then (prevs, (f64_zero, false))
      else
        let dt := dur_seconds (time_sub now prev.(cn_at)) in
        if f64_leb dt f64_zero then (prevs, (f64_zero, false))
        else
          let d := f64_sub genTotal prev.(cn_genTokensTotal) in
          if f64_ltb d f64_zero then (prevs, (f64_zero, true))
          else (prevs, (f64_div d dt, true))
  end.

(** ** One poll *)

(** What the five endpoints answered, and the clock reading inside [serviceRate]. *)
Record Answers := {
  an_readyz : option JsonObj;
  an_status : option JsonObj;
  an_queue : option JsonObj;
  an_runtime : option JsonObj;
  an_cache : option JsonObj;
  an_now : Z;
}.

Definition zero_state (b : Backend) : BackendState :=
  {| bs_Backend := b; bs_Reachable := false; bs_LifecycleState := ""; bs_ControlPlaneReady := false;
     bs_StabilityScore := f64_zero; bs_HostCapacityHint := f64_zero; bs_QueueDepth := 0;
     bs_QueueInflight := 0; bs_QueueMax := 0; bs_RuntimeHealthy := false;
     bs_RuntimeWaiting := f64_zero; bs_RuntimeRunning := f64_zero; bs_KVCacheUtil := f64_zero;
     bs_SnapshotAgeMs := 0; bs_GenTokensPerSec := f64_zero; bs_ServiceRateSupported := false;
     bs_CacheObservationSupported := false; bs_CacheMatchSupported := false; bs_CacheReady := false;
     bs_CacheConfidence := f64_zero; bs_CacheSnapshotAgeMs := 0; bs_KVHeadroom := f64_zero;
     bs_KVHeadroomSupported := false; bs_CacheEventSequence := 0; bs_CacheIndexSize := 0;
     bs_CacheResetEpoch := 0; bs_CacheProvider := ""; bs_PrefixMatchedTokens := 0 |}.

(** [devices[0]] of the status answer, when it is an object: the fields copied from it. *)
Definition first_device (status : JsonObj) : option JsonObj :=
  match jget "devices" status with
  | JArr (JObj d0 :: _) => Some d0
  | _ => None
  end.

Definition status_fields (status : option JsonObj) : string * f64 * f64 :=
  match status ≫= first_device with
  | None => ("", f64_zero, f64_zero)
  | Some d0 =>
      (as_str (jget "lifecycle_state" d0),
       match jget "stability" d0 with JObj stab => as_num (jget "score" stab) | _ => f64_zero end,
       match jget "capacity" d0 with JObj cap => as_num (jget "host_capacity_hint" cap) | _ => f64_zero end)
  end.

Definition queue_fields (q : option JsonObj) : Z * Z * Z :=
  match q with
  | None => (0, 0, 0)
  | Some q => (intOf (jget "queued_requests" q), intOf (jget "inflight_requests" q),
               intOf (jget "max_queued_requests" q))
  end.

(** [if x, ok := v.(float64); ok { st.F = int64(x) }] *)
Definition int64Of (v : Json) : Z := match v with JNum x => f64_to_i64 x | _ => 0 end.

Definition is_some_obj (o : option JsonObj) : bool := match o with Some _ => true | None => false end.

Definition cache_directory (c : JsonObj) : option (gmap string Z) :=
  match jget "directory" c with
  | JObj (kv :: d) => Some (list_to_map (map (fun kv => (fst kv, intOf (snd kv))) (kv :: d)))
  | _ => None
  end.

Definition pollBackend (b : Backend) (a : Answers) (prevs : gmap string counterSample) :
    gmap string counterSample * (BackendState * option (gmap string Z)) :=
  let '(life, stab, cap) := status_fields a.(an_status) in
  let '(depth, inflight, qmax) := queue_fields a.(an_queue) in
  let rt k := match a.(an_runtime) with Some rt => jget k rt | None => JNull end in
  let c k := match a.(an_cache) with Some c => jget k c | None => JNull end in
  let '(prevs, (rate, rateSupported)) :=
    match a.(an_runtime) with
    | Some _ =>
        let gen := rt "generation_tokens_per_s"%string in
        serviceRate b.(be_ID) (fieldVal gen) (fieldSupported gen) a.(an_now) prevs
    | None => (prevs, (f64_zero, false))
    end in
  let healthy := as_bool (rt "healthy"%string) in
  let kvUtil := fieldVal (rt "kv_cache_utilization"%string) in
  let kvSupported := as_bool (c "kv_headroom_supported"%string) in
  let derive := negb kvSupported && healthy in
  (prevs,
   ({| bs_Backend := b;
       bs_Reachable := is_some_obj a.(an_readyz) || is_some_obj a.(an_status);
       bs_LifecycleState := life;
       bs_ControlPlaneReady :=
         match a.(an_readyz) with Some rz => as_bool (jget "control_plane_ready" rz) | None => false end;
       bs_StabilityScore := stab; bs_HostCapacityHint := cap;
       bs_QueueDepth := depth; bs_QueueInflight := inflight; bs_QueueMax := qmax;
       bs_RuntimeHealthy := healthy;
       bs_RuntimeWaiting := fieldVal (rt "requests_waiting"%string);
       bs_RuntimeRunning := fieldVal (rt "requests_running"%string);
       bs_KVCacheUtil := kvUtil;
       bs_SnapshotAgeMs := int64Of (rt "scrape_age_ms"%string);
       bs_GenTokensPerSec := rate; bs_ServiceRateSupported := rateSupported;
       bs_CacheObservationSupported := as_bool (c "supported"%string);
       bs_CacheMatchSupported := as_bool (c "match_supported"%string);
       bs_CacheReady := as_bool (c "ready"%string);
       bs_CacheConfidence := as_num (c "confidence"%string);
       bs_CacheSnapshotAgeMs := int64Of (c "snapshot_age_ms"%string);
       bs_KVHeadroom := if derive then f64_sub f64_one kvUtil else as_num (c "kv_headroom"%string);
       bs_KVHeadroomSupported := kvSupported || derive;
       bs_CacheEventSequence := int64Of (c "last_event_sequence"%string);
       bs_CacheIndexSize := intOf (c "index_entries"%string);
       bs_CacheResetEpoch := int64Of (c "cache_reset_epoch"%string);
       bs_CacheProvider := as_str (c "provider"%string);
       bs_PrefixMatchedTokens := 0 |},
    a.(an_cache) ≫= cache_directory)).

(** ** A refresh

    Goroutine [i] polls backend [i]; [serviceRate] is its only locked section, so an interleaving
    of a refresh is the order in which the goroutines run it. *)

Abbreviation poll_result := (BackendState * option (gmap string Z))%type.

Fixpoint poll_all (backends : list Backend) (answers : nat -> Answers) (order : list nat)
    (prevs : gmap string counterSample) (results : gmap nat poll_result) :
    gmap string counterSample * gmap nat poll_result :=
  match order with
  | [] => (prevs, results)
  | i :: order =>
      match backends !! i with
      | None => poll_all backends answers order prevs results
      | Some b =>
          let '(prevs, res) := pollBackend b (answers i) prevs in
          poll_all backends answers order prevs (<[i := res]> results)
      end
  end.

(** [for i, b := range r.backends { if dirs[i] != nil { newDir[b.ID] = dirs[i] } }] *)
Fixpoint build_dir (i : nat) (backends : list Backend) (results : gmap nat poll_result)
    (newDir : gmap string (gmap string Z)) : gmap string (gmap string Z) :=
  match backends with
  | [] => newDir
  | b :: backends =>
      match results !! i ≫= snd with
      | Some d => build_dir (S i) backends results (<[b.(be_ID) := d]> newDir)
      | None => build_dir (S i) backends results newDir
      end
  end.

Definition refresh (answers : nat -> Answers) (order : list nat) (now : Z) (r : Registry) : Registry :=
  let '(prevs, results) := poll_all r.(rg_backends) answers order r.(rg_prev) ∅ in
  let states := imap (fun i b => match results !! i with Some res => fst res | None => zero_state b end)
                     r.(rg_backends) in
  {| rg_backends := r.(rg_backends); rg_interval := r.(rg_interval);
     rg_snap := {| sn_Backends := states; sn_Timestamp := now |};
     rg_cacheDir := build_dir 0 r.(rg_backends) results ∅;
     rg_cacheDirMax := r.(rg_cacheDirMax); rg_prev := prevs |}.

(** ** Facts *)

(** What [serviceRate] answers, from the previous sample alone. *)
Definition rate_from (prev : option counterSample) (genTotal : f64) (supported : bool) (now : Z) :
    f64 * bool :=
  snd (serviceRate "" genTotal supported now (match prev with Some p => {[ ""%string := p ]} | None => ∅ end)).

Lemma serviceRate_spec id g s now prevs :
  serviceRate id g s now prevs =
  (<[id := {| cn_genTokensTotal := g; cn_supported := s; cn_at := now |}]> prevs,
   rate_from (prevs !! id) g s now).
Proof.
  unfold rate_from, serviceRate. destruct (prevs !! id) as [p|].
  - rewrite lookup_singleton_eq. destruct (negb s || _); [done|].
    destruct (f64_leb _ _); [done|]. by destruct (f64_ltb _ _).
  - by rewrite lookup_empty.
Qed.

(** A poll reads and writes the counter sample of its own backend only. *)
Definition poll_effect (b : Backend) (a : Answers) (o : option counterSample) :
    option counterSample * poll_result :=
  let prevs : gmap string counterSample := match o with Some p => {[ b.(be_ID) := p ]} | None => ∅ end in
  let '(prevs, res) := pollBackend b a prevs in (prevs !! b.(be_ID), res).

Lemma pollBackend_local b a prevs :
  pollBackend b a prevs =
  (partial_alter (fun _ => fst (poll_effect b a (prevs !! be_ID b))) (be_ID b) prevs,
   snd (poll_effect b a (prevs !! be_ID b))).
Proof.
  unfold poll_effect, pollBackend.
  destruct (status_fields _) as [[life stab] cap], (queue_fields _) as [[depth inflight] qmax].
  destruct (an_runtime a) as [rt|].
  - rewrite !serviceRate_spec.
    assert (Hl : (match prevs !! be_ID b with Some p => {[ be_ID b := p ]} | None => ∅ end : gmap string counterSample)
                 !! be_ID b = prevs !! be_ID b).
    { destruct (prevs !! be_ID b); [apply lookup_singleton_eq|apply lookup_empty]. }
    rewrite Hl. destruct (rate_from _ _ _ _) as [rate sup]. cbn [fst snd].
    rewrite lookup_insert_eq. f_equal.
  - cbn [fst snd].
    destruct (prevs !! be_ID b) as [p|] eqn:Hp; rewrite ?lookup_singleton_eq, ?lookup_empty; cbn [fst snd];
      f_equal; apply map_eq; intros k; destruct (decide (k = be_ID b)) as [->|Hk];
      rewrite ?lookup_partial_alter_eq, ?lookup_partial_alter_ne by done; congruence.
Qed.

(** The directory of a poll comes from this answer alone. *)
Lemma poll_effect_dir b a o : snd (snd (poll_effect b a o)) = an_cache a ≫= cache_directory.
Proof.
  unfold poll_effect, pollBackend.
  destruct (status_fields _) as [[life stab] cap], (queue_fields _) as [[depth inflight] qmax].
  destruct (an_runtime a); [|done]. rewrite serviceRate_spec. by destruct (rate_from _ _ _ _).
Qed.

Lemma poll_effect_backend b a o : bs_Backend (fst (snd (poll_effect b a o))) = b.
Proof.
  unfold poll_effect, pollBackend.
  destruct (status_fields _) as [[life stab] cap], (queue_fields _) as [[depth inflight] qmax].
  destruct (an_runtime a); [|done]. rewrite serviceRate_spec. by destruct (rate_from _ _ _ _).
Qed.

(** One goroutine of a refresh. *)
Lemma poll_all_cons backends answers i order prevs results :
  poll_all backends answers (i :: order) prevs results =
  match backends !! i with
  | None => poll_all backends answers order prevs results
  | Some b =>
      poll_all backends answers order
        (partial_alter (fun _ => fst (poll_effect b (answers i) (prevs !! be_ID b))) (be_ID b) prevs)
        (<[i := snd (poll_effect b (answers i) (prevs !! be_ID b))]> results)
  end.
Proof. simpl. destruct (backends !! i) as [b|]; [|done]. by rewrite pollBackend_local. Qed.

Definition distinct_backends (backends : list Backend) : Prop := NoDup (map be_ID backends).

Lemma distinct_backends_ne backends i j b c :
  distinct_backends backends -> i <> j -> backends !! i = Some b -> backends !! j = Some c ->
  be_ID b <> be_ID c.
Proof.
  intros Hnd Hij Hi Hj Heq. apply Hij. apply (NoDup_lookup (map be_ID backends) i j (be_ID b) Hnd).
  - by rewrite list_lookup_fmap, Hi.
  - by rewrite list_lookup_fmap, Hj, Heq.
Qed.

Lemma poll_all_perm backends answers o1 o2 :
  distinct_backends backends -> o1 ≡ₚ o2 -> NoDup o1 -> forall prevs results,
  poll_all backends answers o1 prevs results = poll_all backends answers o2 prevs results.
Proof.
  intros Hd Hp. induction Hp as [|i o1 o2 Hp IH|j i o|o1 o2 o3 Hp1 IH1 Hp2 IH2]; intros Hnd prevs results.
  - done.
  - apply NoDup_cons in Hnd as [_ Hnd]. rewrite !poll_all_cons.
    destruct (backends !! i); by apply IH.
  - apply NoDup_cons in Hnd as [Hni _]. apply not_elem_of_cons in Hni as [Hij _].
    rewrite !poll_all_cons. destruct (backends !! i) as [b|] eqn:Hb, (backends !! j) as [c|] eqn:Hc;
      rewrite ?poll_all_cons, ?Hb, ?Hc; try done.
    pose proof (distinct_backends_ne _ _ _ _ _ Hd Hij Hb Hc) as Hne.
    rewrite !lookup_partial_alter_ne by done. f_equal.
    + by apply partial_alter_partial_alter_ne.
    + by apply insert_insert_ne.
  - rewrite IH1 by done. apply IH2. by rewrite <- Hp1.
Qed.

(** The result of goroutine [i] is in place once it has run. *)
Lemma poll_all_result backends answers order prevs results i b :
  distinct_backends backends -> NoDup order -> backends !! i = Some b ->
  exists o, snd (poll_all backends answers order prevs results) !! i =
    if decide (i ∈ order) then Some (snd (poll_effect b (answers i) o)) else results !! i.
Proof.
  intros Hd. revert prevs results. induction order as [|j order IH]; intros prevs results Hnd Hb.
  { exists None. by destruct (decide (i ∈ [])) as [H%elem_of_nil|]. }
  apply NoDup_cons in Hnd as [Hni Hnd]. rewrite poll_all_cons.
  destruct (decide (j = i)) as [->|Hne].
  - rewrite Hb.
    destruct (IH (partial_alter (fun _ => fst (poll_effect b (answers i) (prevs !! be_ID b))) (be_ID b) prevs)
                 (<[i := snd (poll_effect b (answers i) (prevs !! be_ID b))]> results) Hnd Hb) as [o Ho].
    rewrite decide_False in Ho by done. rewrite lookup_insert_eq in Ho.
    exists (prevs !! be_ID b). rewrite decide_True by left. exact Ho.
  - assert (Hcase : forall p r, r !! i = results !! i -> exists o,
      snd (poll_all backends answers order p r) !! i =
      if decide (i ∈ j :: order) then Some (snd (poll_effect b (answers i) o)) else results !! i).
    { intros p r Hr. destruct (IH p r Hnd Hb) as [o Ho]. exists o. rewrite Ho.
      destruct (decide (i ∈ order)).
      - by rewrite decide_True by by right.
      - rewrite decide_False; [done|]. rewrite elem_of_cons. intros [Heq|?]; [by symmetry in Heq|done]. }
    destruct (backends !! j) as [c|]; apply Hcase; [|done]. by rewrite lookup_insert_ne.
Qed.

(** The published directory of each backend. *)
Lemma build_dir_lookup backends results newDir k i b :
  distinct_backends backends -> backends !! i = Some b ->
  (newDir !! be_ID b = None) ->
  build_dir k backends results newDir !! be_ID b = results !! (k + i)%nat ≫= snd.
Proof.
  revert k i newDir. induction backends as [|c backends IH]; intros k i newDir Hd Hb Hn; [done|].
  unfold distinct_backends in Hd. simpl in Hd. apply NoDup_cons in Hd as [Hni Hd]. simpl.
  destruct i as [|i]; simpl in Hb.
  - injection Hb as ->. rewrite Nat.add_0_r.
    assert (Hkeep : forall m nd, build_dir m backends results nd !! be_ID b = nd !! be_ID b).
    { clear -Hni. induction backends as [|c backends IH]; intros m nd; [done|]. simpl in *.
      apply not_elem_of_cons in Hni as [Hne Hni].
      destruct (results !! m ≫= snd); rewrite IH by done; [|done]. by rewrite lookup_insert_ne. }
    destruct (results !! k ≫= snd) as [d|]; rewrite Hkeep; [apply lookup_insert_eq|done].
  - replace (k + S i)%nat with (S k + i)%nat by lia.
    assert (be_ID c <> be_ID b).
    { intros Heq. apply Hni. rewrite Heq. apply list_elem_of_In, in_map, list_elem_of_In.
      by eapply list_elem_of_lookup_2. }
    destruct (results !! k ≫= snd); apply IH; try done. by rewrite lookup_insert_ne.
Qed.

(** Every order in which all the goroutines run. *)
Definition complete_order (r : Registry) (order : list nat) : Prop :=
  order ≡ₚ seq 0 (length (rg_backends r)).

Lemma complete_order_nodup r order : complete_order r order -> NoDup order.
Proof. unfold complete_order. intros ->. apply NoDup_seq. Qed.

Lemma complete_order_elem r order i b :
  complete_order r order -> rg_backends r !! i = Some b -> i ∈ order.
Proof. intros -> Hb. apply elem_of_seq. apply lookup_lt_Some in Hb. lia. Qed.

(** ** Properties *)

(** A refresh is deterministic: with distinct backend ids, every interleaving of the polling
    goroutines publishes the same snapshot and directory and leaves the same counters. *)
Theorem refresh_order_independent (r : Registry) (answers : nat -> Answers) (o1 o2 : list nat) (now : Z)
    (Hd : distinct_backends (rg_backends r)) (H1 : complete_order r o1) (H2 : complete_order r o2) :
  refresh answers o1 now r = refresh answers o2 now r.
Proof.
  unfold refresh. rewrite (poll_all_perm _ _ o1 o2); [done|done| |by eapply complete_order_nodup].
  unfold complete_order in *. by rewrite H1, H2.
Qed.

(** C32: after a refresh, a directory lookup answers exactly what the backend's own last answer
    published for the key, and 0 for the empty key, an absent key or a backend that published no
    directory: nothing of an earlier refresh and nothing of another backend survives. *)
Theorem lookup_reflects_refresh (r : Registry) (answers : nat -> Answers) (order : list nat) (now : Z)
    (i : nat) (b : Backend) (key : string)
    (Hd : distinct_backends (rg_backends r)) (Ho : complete_order r order)
    (Hb : rg_backends r !! i = Some b) :
  LookupPrefixTokens (refresh answers order now r) (be_ID b) key =
  (if String.eqb key "" then 0
   else match an_cache (answers i) ≫= cache_directory with
        | Some d => default 0 (d !! key)
        | None => 0
        end) /\
  exists st, sn_Backends (rg_snap (refresh answers order now r)) !! i = Some st /\ bs_Backend st = b.
Proof.
  unfold LookupPrefixTokens, refresh.
  destruct (poll_all_result (rg_backends r) answers order (rg_prev r) ∅ i b Hd) as [o Hres];
    [by eapply complete_order_nodup|done|].
  rewrite decide_True in Hres by by eapply complete_order_elem.
  destruct (poll_all _ _ _ _ _) as [prevs results]. cbn [snd] in Hres.
  cbn [rg_cacheDir rg_snap sn_Backends]. split.
  - destruct (String.eqb key ""); [done|].
    rewrite (build_dir_lookup _ _ _ _ i b Hd Hb) by apply lookup_empty. change (0 + i)%nat with i.
    rewrite Hres. cbn [mbind option_bind]. by rewrite poll_effect_dir.
  - exists (fst (snd (poll_effect b (answers i) o))). rewrite list_lookup_imap, Hb. csimpl. rewrite Hres.
    split; [done|apply poll_effect_backend].
Qed.

(** Polling fails closed: a polled state passes the eligibility test only if the runtime
    endpoint answered that it is healthy, the sidecar answered /readyz or /v1/status, and neither
    the lifecycle it reported nor its queue rules it out. *)
Theorem poll_fails_closed (b : Backend) (a : Answers) (prevs : gmap string counterSample)
    (He : isEligible (fst (snd (pollBackend b a prevs))) = true) :
  (exists rt, an_runtime a = Some rt /\ jget "healthy" rt = JBool true) /\
  (an_readyz a <> None \/ an_status a <> None) /\
  (forall s d0, an_status a = Some s -> first_device s = Some d0 ->
     jget "lifecycle_state" d0 <> JStr "OFFLINE" /\ jget "lifecycle_state" d0 <> JStr "DRAINING") /\
  (forall q, an_queue a = Some q -> 0 < intOf (jget "max_queued_requests" q) ->
     intOf (jget "queued_requests" q) < intOf (jget "max_queued_requests" q)).
Proof.
  apply eligible_test in He.
  unfold pollBackend in He. destruct (status_fields (an_status a)) as [[life stab] cap] eqn:Hs.
  destruct (queue_fields (an_queue a)) as [[depth inflight] qmax] eqn:Hq.
  destruct (match an_runtime a with Some _ => _ | None => _ end) as [prevs' [rate sup]].
  cbn [fst snd bs_Reachable bs_RuntimeHealthy bs_LifecycleState bs_QueueMax bs_QueueDepth] in He.
  destruct He as (Hreach & Hh & Hl1 & Hl2 & Hqm). split_and!.
  - destruct (an_runtime a) as [rt|]; [|done]. exists rt. split; [done|].
    by destruct (jget "healthy" rt) as [|[|]| | | |].
  - destruct (an_readyz a); [by left|]. destruct (an_status a); [by right|done].
  - intros s d0 Hst Hd0. rewrite Hst in Hs. unfold status_fields in Hs. simpl in Hs. rewrite Hd0 in Hs.
    injection Hs as <- _ _.
    split; intros Heq; rewrite Heq in *; done.
  - intros q Hqq. rewrite Hqq in Hq. injection Hq as <- <- <-. lia.
Qed.

(** ** The service rate over a history *)

Record RateSample := { sm_id : string; sm_total : f64; sm_supported : bool; sm_now : Z }.

Definition rate_run (samples : list RateSample) : gmap string counterSample :=
  fold_left (fun p s => fst (serviceRate s.(sm_id) s.(sm_total) s.(sm_supported) s.(sm_now) p)) samples ∅.

(** The last sample of one backend. *)
Definition last_sample (id : string) (samples : list RateSample) : option counterSample :=
  fold_left (fun o s => if String.eqb s.(sm_id) id
                        then Some {| cn_genTokensTotal := s.(sm_total); cn_supported := s.(sm_supported);
                                     cn_at := s.(sm_now) |}
                        else o) samples None.

Lemma rate_run_last samples id : rate_run samples !! id = last_sample id samples.
Proof.
  unfold rate_run, last_sample.
  assert (H : forall (p : gmap string counterSample) o, p !! id = o ->
    fold_left (fun p s => fst (serviceRate s.(sm_id) s.(sm_total) s.(sm_supported) s.(sm_now) p)) samples p
      !! id =
    fold_left (fun o s => if String.eqb s.(sm_id) id
                        then Some {| cn_genTokensTotal := s.(sm_total); cn_supported := s.(sm_supported);
                                     cn_at := s.(sm_now) |}
                        else o) samples o).
  { induction samples as [|s samples IH]; intros p o Hp; [done|]. simpl. apply IH.
    rewrite serviceRate_spec. cbn [fst]. destruct (String.eqb_spec (sm_id s) id) as [->|Hne].
    - by rewrite lookup_insert_eq.
    - by rewrite lookup_insert_ne. }
  apply H, lookup_empty.
Qed.

(** The service rate is the increase of the counter since the same backend's previous sample,
    per second: it is reported as supported exactly when both samples support it and the clock
    advanced, it is 0 after a counter reset, it is never negative, and samples of other backends
    play no part. *)
Theorem service_rate_exact (samples : list RateSample) (id : string) (total : f64) (supported : bool)
    (now : Z) :
  let '(rate, ok) := snd (serviceRate id total supported now (rate_run samples)) in
  (ok = true <-> supported = true /\ exists p, last_sample id samples = Some p /\ cn_supported p = true /\
                   f64_leb (dur_seconds (time_sub now (cn_at p))) f64_zero = false) /\
  (ok = false -> rate = f64_zero) /\
  (forall p, last_sample id samples = Some p -> ok = true ->
     rate = if f64_ltb (f64_sub total (cn_genTokensTotal p)) f64_zero then f64_zero
            else f64_div (f64_sub total (cn_genTokensTotal p)) (dur_seconds (time_sub now (cn_at p)))) /\
  f64_ltb rate f64_zero = false.
Proof.
  unfold serviceRate. rewrite rate_run_last. destruct (last_sample id samples) as [p|]; cbn [snd].
  - destruct supported, (cn_supported p) eqn:Hp; cbn [negb orb snd];
      try (split_and!; [split; [done|intros (? & q & [= <-] & ? & ?); congruence]|done|done|done]).
    destruct (f64_leb (dur_seconds (time_sub now (cn_at p))) f64_zero) eqn:Hdt; cbn [snd].
    { split_and!; [split; [done|intros (? & q & [= <-] & ? & ?); congruence]|done|done|done]. }
    set (d := f64_sub total (cn_genTokensTotal p)).
    destruct (f64_ltb d f64_zero) eqn:Hd; cbn [snd]; (split_and!;
      [split; [intros _; split; [done|]; exists p; split_and!; done|done]|done|intros q [= <-] _; fold d; by rewrite Hd|]).
    + done.
    + by apply f64_div_nonneg.
  - split_and!; [split; [done|intros (? & q & ? & ?); done]|done|done|done].
Qed.

(** ** Witnesses *)

Example two_backends : list Backend :=
  [{| be_ID := "a"; be_Vendor := "nvidia"; be_SidecarURL := "u1"; be_SnapshotURL := "s1" |};
   {| be_ID := "b"; be_Vendor := "amd"; be_SidecarURL := "u2"; be_SnapshotURL := "s2" |}].

Example sample_answers (i : nat) : Answers :=
  {| an_readyz := Some [("control_plane_ready", JBool true)];
     an_status := Some [("devices", JArr [JObj [("lifecycle_state", JStr "READY");
                                               ("stability", JObj [("score", JNum f64_one)])]])];
     an_queue := Some [("queued_requests", JNum (f64_of_Z 2)); ("max_queued_requests", JNum (f64_of_Z 8))];
     an_runtime := Some [("healthy", JBool true); ("requests_waiting", JObj [("value", JNum f64_one)]);
                         ("generation_tokens_per_s", JNum (f64_of_Z 500))];
     an_cache := if (i =? 0)%nat
                 then Some [("supported", JBool true); ("directory", JObj [("ff", JNum (f64_of_Z 64))])]
                 else None;
     an_now := 3 * second |}.

Example two_registry : Registry := NewRegistry two_backends second 0.

Lemma two_distinct : distinct_backends two_backends.
Proof. unfold distinct_backends. simpl. repeat constructor; set_solver. Qed.

Lemma forward_order  : complete_order two_registry [0%nat; 1%nat].
Proof. unfold complete_order. simpl. reflexivity. Qed.

Lemma backward_order : complete_order two_registry [1%nat; 0%nat].
Proof. unfold complete_order. simpl. apply Permutation_swap. Qed.

Lemma refresh_order_independent_witness :
  refresh sample_answers [0%nat; 1%nat] 5 two_registry = refresh sample_answers [1%nat; 0%nat] 5 two_registry.
Proof.
  exact (refresh_order_independent two_registry sample_answers _ _ 5 two_distinct
           forward_order backward_order).
Defined.

Lemma lookup_reflects_refresh_witness :
  LookupPrefixTokens (refresh sample_answers [1%nat; 0%nat] 5 two_registry) "a" "ff" = 64.
Proof.
  destruct (lookup_reflects_refresh two_registry sample_answers [1%nat; 0%nat] 5 0
    {| be_ID := "a"; be_Vendor := "nvidia"; be_SidecarURL := "u1"; be_SnapshotURL := "s1" |} "ff"
    two_distinct backward_order ltac:(reflexivity)) as [H _].
  etransitivity; [exact H|]. vm_compute. reflexivity.
Defined.

Example backend_a : Backend :=
  {| be_ID := "a"; be_Vendor := "nvidia"; be_SidecarURL := "u1"; be_SnapshotURL := "s1" |}.

Lemma sample_eligible : isEligible (fst (snd (pollBackend backend_a (sample_answers 0) ∅))) = true.
Proof. vm_compute. reflexivity. Qed.

Lemma poll_fails_closed_witness :
  exists rt, an_runtime (sample_answers 0) = Some rt /\ jget "healthy" rt = JBool true.
Proof. exact (proj1 (poll_fails_closed backend_a (sample_answers 0) ∅ sample_eligible)). Defined.
