(* ===== verification/RequestIds.v ===== *)
(** * Request identifiers and headers

    What the router ([internal/router/gateway.go]) and the sidecar ([internal/dataplane/proxy.go])
    both do to the headers of a request: validate or generate correlation ids, hash the opaque
    prefix key, bound the claimed prefix length.  Strings are byte strings; SHA-256 is a parameter,
    as in [CacheProvider]. *)

From Stdlib Require Import Ascii.
From stdpp Require Import base tactics numbers option list strings gmap.
From S2P Require Import Prelude GoText GoStrconv CacheProvider.

Open Scope Z_scope.

(** ** Ids *)

(** The characters an id may have.  The code ranges over runes; every byte of a rune outside ASCII
    is at least 128, so testing the bytes rejects the same strings. *)
Definition id_char (c : ascii) : bool :=
  let n := Z.of_nat (nat_of_ascii c) in
  Ascii.eqb c "-" || Ascii.eqb c "_" || Ascii.eqb c "." || ((48 <=? n) && (n <=? 57)) ||
  ((97 <=? n) && (n <=? 122)) || ((65 <=? n) && (n <=? 90)).

Fixpoint all_id_chars (s : string) : bool :=
  match s with EmptyString => true | String c s => id_char c && all_id_chars s end.

Definition slen (s : string) : Z := Z.of_nat (String.length s).

Definition sanitizeID (v : string) : string :=
  if (slen v =? 0) || (128 <? slen v) then "" else if all_id_chars v then v else "".

(** The sidecar's [orGenerate]; [now] is [time.Now().UnixNano()]. *)
Definition orGenerate (v prefix : string) (now : Z) : string :=
  let v := sanitizeID v in
  if negb (String.eqb v "") then v else (prefix +:+ "_" +:+ itoa now)%stdpp.

(** The router's [orGen]. *)
Definition orGen (v prefix : string) (now : Z) : string :=
  if (0 <? slen v) && (slen v <=? 128) && all_id_chars v then v
  else (prefix +:+ "_" +:+ itoa now)%stdpp.

(** [fmt.Sprintf("%s.a%d", reqID, attempt)] *)
Definition route_id (reqID : string) (attempt : Z) : string := (reqID +:+ ".a" +:+ itoa attempt)%stdpp.

(** ** Headers *)

(** Canonical name to values: [Get], [Set] and [Del] canonicalise the name they are given. *)
Abbreviation Headers := (gmap string (list string)).

(** [Header.Get] is the first value or the empty string; [Set] replaces, [Del] removes. *)
Definition header_get (h : Headers) (k : string) : string :=
  match h !! k with Some (v :: _) => v | _ => "" end.
Definition header_set (k v : string) (h : Headers) : Headers := <[k := [v]]> h.
Definition header_del (k : string) (h : Headers) : Headers := delete k h.

Definition XCachePrefixKey : string := "X-Cache-Prefix-Key".
Definition XCachePrefixTokens : string := "X-Cache-Prefix-Tokens".

Section hashing.
  Variable sha256 : string -> list Z.

Definition hashOpaqueKey (raw : string) : string :=
  if String.eqb raw "" then "" else EncodeToString (sha256 raw).

Definition hashRouterKey (raw : string) : string :=
  if String.eqb raw "" then "" else EncodeToString (sha256 raw).

(** The sidecar: [(keyHash, tokens)] and the request's headers afterwards. *)
Definition extractAndStripPrefixHeaders (enabled : bool) (MaxPrefixTokens : Z) (h : Headers) :
    (string * Z) * Headers :=
  let rawKey := header_get h XCachePrefixKey in
  let rawTok := header_get h XCachePrefixTokens in
  let h := header_del XCachePrefixTokens (header_del XCachePrefixKey h) in
  if negb enabled || String.eqb rawKey "" then (("", 0), h)
  else
    let keyHash := hashOpaqueKey rawKey in
    let tokens :=
      if negb (String.eqb rawTok "") then
        match atoi rawTok with
        | Some n =>
            if 0 <? n then
              if (0 <? MaxPrefixTokens) && (MaxPrefixTokens <? n) then MaxPrefixTokens else n
            else 0
        | None => 0
        end
      else 0 in
    ((keyHash, tokens), h).

(** The router: [(prefixKeyHash, prefixTokens, sessionKeyHash)]. *)
Definition extractPrefixFeatures (h : Headers) : string * Z * string :=
  let k := header_get h XCachePrefixKey in
  let prefixKeyHash := if negb (String.eqb k "") then hashRouterKey k else "" in
  let t := header_get h XCachePrefixTokens in
  let prefixTokens :=
    if negb (String.eqb t "") then
      match atoi t with
      | Some n => if 0 <? n then if 2 ^ 20 <? n then 2 ^ 20 else n else 0
      | None => 0
      end
    else 0 in
  let s := header_get h "X-Session-Key" in
  (prefixKeyHash, prefixTokens, if negb (String.eqb s "") then hashRouterKey s else "").

(** The headers of the request [forward] sends to the sidecar. *)
Definition forward_headers (reqID routeID backendID : string) (client : Headers) : Headers :=
  let h := header_set "X-Backend-Id" backendID (header_set "X-Route-Id" routeID
             (header_set "X-Request-Id" reqID (header_set "Content-Type" "application/json" ∅))) in
  let h := let v := header_get client XCachePrefixKey in
           if negb (String.eqb v "") then header_set XCachePrefixKey v h else h in
  let v := header_get client XCachePrefixTokens in
  if negb (String.eqb v "") then header_set XCachePrefixTokens v h else h.

(** The headers of the request the sidecar sends to the model server. *)
Definition upstream_headers (reqID routeID : string) : Headers :=
  header_set "X-Route-Id" routeID (header_set "X-Request-Id" reqID
    (header_set "Content-Type" "application/json" ∅)).
End hashing.

(** ** Facts *)

Lemma slen_app s t : slen (s +:+ t)%stdpp = slen s + slen t.
Proof.
  unfold slen. induction s as [|c s IH]; [done|].
  change (String c s +:+ t)%stdpp with (String c (s +:+ t)%stdpp). cbn [String.length]. lia.
Qed.

Lemma all_id_chars_app s t : all_id_chars (s +:+ t)%stdpp = all_id_chars s && all_id_chars t.
Proof.
  induction s as [|c s IH]; [done|].
  change (String c s +:+ t)%stdpp with (String c (s +:+ t)%stdpp). simpl. by rewrite IH, andb_assoc.
Qed.

Lemma digit_id_char n : 0 <= n < 10 -> id_char (digit n) = true.
Proof.
  intros Hn.
  assert (H : forallb (fun n => id_char (digit n)) (seqZ 0 10) = true) by done.
  rewrite forallb_forall in H. apply H. apply list_elem_of_In, elem_of_seqZ. lia.
Qed.

Lemma dec_digits_ok fuel n acc :
  all_id_chars acc = true ->
  all_id_chars (dec_digits fuel n acc) = true /\
  slen acc <= slen (dec_digits fuel n acc) <= slen acc + Z.of_nat fuel.
Proof.
  revert n acc. induction fuel as [|fuel IH]; intros n acc Hacc; cbn [dec_digits]; [split; [done|lia]|].
  assert (Hc : all_id_chars (String (digit (n mod 10)) acc) = true).
  { simpl. rewrite digit_id_char, Hacc; [done|]. apply Z.mod_pos_bound. lia. }
  assert (Hl : slen (String (digit (n mod 10)) acc) = slen acc + 1) by (unfold slen; simpl; lia).
  destruct (n <? 10); [split; [done|lia]|]. destruct (IH (n / 10) _ Hc) as [H1 H2]. split; [done|lia].
Qed.

Lemma itoa_ok z : all_id_chars (itoa z) = true /\ 0 <= slen (itoa z) <= 21.
Proof.
  unfold itoa. destruct (z <? 0).
  - destruct (dec_digits_ok 20 (- z) "" ltac:(done)) as [H1 H2]. split; [done|].
    unfold slen in *. cbn [String.length] in *. lia.
  - destruct (dec_digits_ok 20 z "" ltac:(done)) as [H1 H2]. split; [done|].
    unfold slen in *. cbn [String.length] in *. lia.
Qed.

Lemma sanitize_valid v : sanitizeID v <> "" -> sanitizeID v = v /\ 0 < slen v <= 128 /\ all_id_chars v = true.
Proof.
  unfold sanitizeID. destruct (Z.eqb_spec (slen v) 0); [done|].
  destruct (Z.ltb_spec 128 (slen v)); [done|]. simpl. destruct (all_id_chars v); [|done].
  intros _. split; [done|]. split; [unfold slen in *; lia|done].
Qed.

Lemma sanitize_fix v : 0 < slen v <= 128 -> all_id_chars v = true -> sanitizeID v = v.
Proof.
  intros Hl Hc. unfold sanitizeID.
  by rewrite (proj2 (Z.eqb_neq _ _)), (proj2 (Z.ltb_ge _ _)), Hc by lia.
Qed.

Lemma nonempty_slen v : v <> "" <-> 0 < slen v.
Proof. unfold slen. destruct v; cbn [String.length]; split; (done || lia). Qed.

Lemma eqb_empty v : String.eqb v "" = negb (0 <? slen v).
Proof.
  destruct (String.eqb_spec v "") as [->|H]; [done|]. apply nonempty_slen in H.
  by rewrite (proj2 (Z.ltb_lt _ _)).
Qed.

Lemma orGenerate_keeps v p now : 0 < slen v <= 128 -> all_id_chars v = true -> orGenerate v p now = v.
Proof.
  intros Hl Hc. unfold orGenerate. rewrite sanitize_fix by done. rewrite eqb_empty.
  by rewrite (proj2 (Z.ltb_lt _ _)) by lia.
Qed.

Lemma header_get_set k k' v h :
  header_get (header_set k v h) k' = if String.eqb k k' then v else header_get h k'.
Proof.
  unfold header_get, header_set. destruct (String.eqb_spec k k') as [->|H].
  - by rewrite lookup_insert_eq.
  - by rewrite lookup_insert_ne.
Qed.

(** The router passes the two experiment headers on unchanged. *)
Lemma forwarded_prefix reqID routeID backendID client :
  header_get (forward_headers reqID routeID backendID client) XCachePrefixKey =
    header_get client XCachePrefixKey /\
  header_get (forward_headers reqID routeID backendID client) XCachePrefixTokens =
    header_get client XCachePrefixTokens.
Proof.
  unfold forward_headers.
  destruct (String.eqb_spec (header_get client XCachePrefixKey) "") as [E1|E1],
           (String.eqb_spec (header_get client XCachePrefixTokens) "") as [E2|E2];
    rewrite ?E1, ?E2; cbn [negb]; rewrite !header_get_set; done.
Qed.

(** What is left of the headers once the two are deleted. *)
Lemma stripped (client : Headers) :
  let h := header_del XCachePrefixTokens (header_del XCachePrefixKey client) in
  header_get h XCachePrefixKey = "" /\ header_get h XCachePrefixTokens = "" /\
  forall k, k <> XCachePrefixKey -> k <> XCachePrefixTokens -> h !! k = client !! k.
Proof.
  unfold header_del, header_get. split_and!.
  - by rewrite lookup_delete_ne, lookup_delete_eq by done.
  - by rewrite lookup_delete_eq.
  - intros k H1 H2. by rewrite !lookup_delete_ne.
Qed.

(** ** Properties *)

(** The router's and the sidecar's id checks are the same function, and what either returns is a
    valid id, so the request id the router chose is the one the sidecar keeps, whatever the client
    sent. *)
Theorem request_id_preserved (v prefix prefix' : string) (now now' : Z)
    (Hp : all_id_chars prefix = true) (Hl : slen prefix <= 64) :
  orGen v prefix now = orGenerate v prefix now /\
  sanitizeID (orGen v prefix now) = orGen v prefix now /\
  orGenerate (orGen v prefix now) prefix' now' = orGen v prefix now.
Proof.
  assert (Heq : orGen v prefix now = orGenerate v prefix now).
  { unfold orGen, orGenerate, sanitizeID. pose proof (Zle_0_nat (String.length v)) as Hn. fold (slen v) in Hn.
    destruct (Z.eqb_spec (slen v) 0) as [E|E].
    - by rewrite (proj2 (Z.ltb_ge 0 (slen v))) by lia.
    - rewrite (proj2 (Z.ltb_lt 0 (slen v))) by lia. simpl.
      destruct (Z.leb_spec (slen v) 128), (Z.ltb_spec 128 (slen v)); try lia; simpl; [|done].
      destruct (all_id_chars v); [|done]. rewrite eqb_empty. by rewrite (proj2 (Z.ltb_lt _ _)) by lia. }
  assert (Hv : 0 < slen (orGen v prefix now) <= 128 /\ all_id_chars (orGen v prefix now) = true).
  { unfold orGen. destruct ((0 <? slen v) && (slen v <=? 128) && all_id_chars v) eqn:E.
    - go_bool. split; [lia|done].
    - destruct (itoa_ok now) as [H1 H2]. rewrite !slen_app, !all_id_chars_app, Hp, H1.
      pose proof (Zle_0_nat (String.length prefix)) as Hn. fold (slen prefix) in Hn.
      change (slen "_") with 1. split; [lia|done]. }
  destruct Hv as [Hv1 Hv2]. split; [done|]. split; [by apply sanitize_fix|by apply orGenerate_keeps].
Qed.

(** A route id survives the hop to the sidecar exactly when it still fits in 128 characters; the
    router accepts request ids of up to 128 characters and appends the attempt, so the route ids of
    the longest ones are replaced by the sidecar and the correlation is lost. *)
Theorem route_id_survives (reqID : string) (attempt now : Z)
    (Hid : sanitizeID reqID = reqID) (Hne : reqID <> "") (Hnow : in_i64 now) :
  orGenerate (route_id reqID attempt) "rt" now = route_id reqID attempt <->
  slen (route_id reqID attempt) <= 128.
Proof.
  destruct (sanitize_valid reqID) as (_ & Hl & Hc); [by rewrite Hid|].
  destruct (itoa_ok attempt) as [Ha1 Ha2].
  assert (Hv : all_id_chars (route_id reqID attempt) = true)
    by (unfold route_id; by rewrite !all_id_chars_app, Hc, Ha1).
  assert (Hlen : slen (route_id reqID attempt) = slen reqID + 2 + slen (itoa attempt))
    by (unfold route_id; rewrite !slen_app; change (slen ".a") with 2; lia).
  split; [|intros ?; by apply orGenerate_keeps; [lia|]].
  intros Heq. destruct (Z.le_gt_cases (slen (route_id reqID attempt)) 128) as [|Hgt]; [done|exfalso].
  destruct (itoa_ok now) as [_ Hn].
  assert (Hs : slen (orGenerate (route_id reqID attempt) "rt" now) = 3 + slen (itoa now)).
  { unfold orGenerate, sanitizeID. rewrite (proj2 (Z.ltb_lt 128 _)) by lia. rewrite orb_true_r. simpl.
    rewrite !slen_app. change (slen "rt") with 2. change (slen "_") with 1. lia. }
  rewrite Heq in Hs. lia.
Qed.

(** The experiment headers stop at the sidecar and mean the same on both sides: the sidecar always
    removes them, the headers it sends to the model server never contain them, and, enabled with the
    default bound, it reads from the request the router forwards the key hash and prefix length the
    router routed with. *)
Theorem prefix_headers_agree (sha256 : string -> list Z) (enabled : bool) (max : Z)
    (client : Headers) (reqID routeID backendID : string) :
  (let '(_, h) := extractAndStripPrefixHeaders sha256 enabled max client in
   header_get h XCachePrefixKey = "" /\ header_get h XCachePrefixTokens = "" /\
   forall k, k <> XCachePrefixKey -> k <> XCachePrefixTokens -> h !! k = client !! k) /\
  upstream_headers reqID routeID !! XCachePrefixKey = None /\
  upstream_headers reqID routeID !! XCachePrefixTokens = None /\
  (header_get client XCachePrefixKey <> "" ->
   fst (extractAndStripPrefixHeaders sha256 true (2 ^ 20) (forward_headers reqID routeID backendID client)) =
   fst (extractPrefixFeatures sha256 client)).
Proof.
  destruct (forwarded_prefix reqID routeID backendID client) as [Hk Ht].
  split_and!.
  - unfold extractAndStripPrefixHeaders.
    destruct (negb enabled || _); apply stripped.
  - unfold upstream_headers, header_set. by rewrite !lookup_insert_ne, lookup_empty by done.
  - unfold upstream_headers, header_set. by rewrite !lookup_insert_ne, lookup_empty by done.
  - intros Hne. unfold extractAndStripPrefixHeaders, extractPrefixFeatures.
    rewrite Hk, Ht. rewrite (proj2 (String.eqb_neq _ "")) by done. simpl. f_equal.
Qed.

(** ** Witnesses *)

Fixpoint repeat_char (c : ascii) (n : nat) : string :=
  match n with O => EmptyString | S n => String c (repeat_char c n) end.

Lemma request_id_preserved_witness :
  orGenerate (orGen "bad id!" "creq" 17) "req" 18 = "creq_17".
Proof.
  destruct (request_id_preserved "bad id!" "creq" "req" 17 18 ltac:(reflexivity) ltac:(unfold slen; simpl; lia))
    as (_ & _ & H).
  exact H.
Defined.

(** A request id of 126 characters is accepted, and its route id is lost. *)
Lemma route_id_survives_witness :
  orGenerate (route_id (repeat_char "x" 126) 0) "rt" 5 <> route_id (repeat_char "x" 126) 0.
Proof.
  assert (Hnow : in_i64 5) by (unfold in_i64, i64_min, i64_max; lia).
  intros H.
  apply (proj1 (route_id_survives (repeat_char "x" 126) 0 5 ltac:(reflexivity) ltac:(discriminate) Hnow)) in H.
  vm_compute in H. by apply H.
Defined.
