(* ===== verification/Json.v ===== *)
(** * JSON: what the program uses of [encoding/json]

    The decoder of [json.Unmarshal] and [json.Decoder]: the grammar, the strings with their escapes
    (invalid UTF-8 and unpaired surrogates become U+FFFD), and the decoding into maps of strings.  The
    recursion over nested values has fuel; [json_fuel_enough] shows that the fuel used never runs out. *)

From Stdlib Require Import Strings.Ascii.
From stdpp Require Import base tactics numbers option list strings gmap.
From S2P Require Import Prelude GoText.

(** ** UTF-8 *)

Definition is_cont (c : ascii) : bool := (128 <=? byte_at c) && (byte_at c <=? 191).

(** The number of bytes of the rune at the head of [s]; 0 when its encoding is not valid. *)
Definition rune_width (s : string) : nat :=
  match s with
  | EmptyString => 0%nat
  | String a r =>
      let x := byte_at a in
      let second lo hi := match r with String b _ => (lo <=? byte_at b) && (byte_at b <=? hi) | _ => false end in
      let third := match r with String _ (String c _) => is_cont c | _ => false end in
      let fourth := match r with String _ (String _ (String d _)) => is_cont d | _ => false end in
      if x <? 128 then 1%nat
      else if (194 <=? x) && (x <=? 223) && second 128 191 then 2%nat
      else if (224 <=? x) && (x <=? 239) &&
        second (if x =? 224 then 160 else 128) (if x =? 237 then 159 else 191) && third then 3%nat
      else if (240 <=? x) && (x <=? 244) &&
        second (if x =? 240 then 144 else 128) (if x =? 244 then 143 else 191) && third && fourth then 4%nat
      else 0%nat
  end.

Definition byte_of (n : Z) : ascii := ascii_of_nat (Z.to_nat n).
Definition encode_rune (r : Z) : string :=
  (if r <? 128 then String (byte_of r) EmptyString
   else if r <? 2048 then String (byte_of (192 + r / 64)) (String (byte_of (128 + r mod 64)) EmptyString)
   else if r <? 65536 then
     String (byte_of (224 + r / 4096)) (String (byte_of (128 + r / 64 mod 64)) (String (byte_of (128 + r mod 64)) EmptyString))
   else
     String (byte_of (240 + r / 262144)) (String (byte_of (128 + r / 4096 mod 64))
       (String (byte_of (128 + r / 64 mod 64)) (String (byte_of (128 + r mod 64)) EmptyString)))).

Definition rune_error : Z := 65533.

(** What [range] and [string(r)] make of a byte string: invalid bytes become U+FFFD. *)
Fixpoint to_valid (s : string) (copy : nat) : string :=
  match s with
  | EmptyString => EmptyString
  | String c s' =>
      match copy with
      | S k => String c (to_valid s' k)
      | O => match rune_width s with
             | O => String.append (encode_rune rune_error) (to_valid s' 0)
             | S k => String c (to_valid s' k)
             end
      end
  end.

(** ** Strings *)

Definition hex_digit (c : ascii) : option Z :=
  let n := byte_at c in
  if (48 <=? n) && (n <=? 57) then Some (n - 48)
  else if (97 <=? n) && (n <=? 102) then Some (n - 87)
  else if (65 <=? n) && (n <=? 70) then Some (n - 55) else None.

Definition hex4 (a b c d : ascii) : option Z :=
  a ← hex_digit a; b ← hex_digit b; c ← hex_digit c; d ← hex_digit d;
  Some (4096 * a + 256 * b + 16 * c + d).

Definition escape_of (c : ascii) : option ascii :=
  match c with
  | "b" => Some (ascii_of_nat 8) | "f" => Some (ascii_of_nat 12) | "n" => Some (ascii_of_nat 10)
  | "r" => Some (ascii_of_nat 13) | "t" => Some (ascii_of_nat 9) | "/" => Some "/" | "\" => Some "\"
  | _ => if Ascii.eqb c (ascii_of_nat 34) then Some c else None
  end%char.

Definition quote_char : ascii := ascii_of_nat 34.
Definition is_surrogate (r : Z) : bool := (55296 <=? r) && (r <=? 57343).

(** [\uXXXX] at the head of [s], for the second half of a surrogate pair. *)
Definition low_half (s : string) : option Z :=
  match after "\u" s with
  | Some (String a (String b (String c (String d _)))) =>
      n ← hex4 a b c d; if (56320 <=? n) && (n <=? 57343) then Some n else None
  | _ => None
  end.

(** The text after the opening quote: the decoded string and what follows the closing quote.  [copy]
    bytes of a rune are still to be passed through, [skip] bytes of an escape to be passed over. *)
Fixpoint read_string (s : string) (copy skip : nat) : option (string * string) :=
  let emit t (o : option (string * string)) := match o with Some (u, r) => Some (String.append t u, r) | None => None end in
  match s with
  | EmptyString => None
  | String c s' =>
      match skip, copy with
      | S k, _ => read_string s' 0 k
      | O, S k => emit (String c "") (read_string s' k 0)
      | O, O =>
          if Ascii.eqb c quote_char then Some ("", s')%string
          else if byte_at c <? 32 then None
          else if Ascii.eqb c "\" then
            match s' with
            | String "u" (String a (String b (String d (String e s'')))) =>
                match hex4 a b d e with
                | None => None
                | Some n =>
                    if is_surrogate n then
                      match (if n <? 56320 then low_half s'' else None) with
                      | Some l => emit (encode_rune (65536 + (n - 55296) * 1024 + (l - 56320))) (read_string s'' 0 6)
                      | None => emit (encode_rune rune_error) (read_string s'' 0 0)
                      end
                    else emit (encode_rune n) (read_string s'' 0 0)
                end
            | String e s'' =>
                match escape_of e with Some d => emit (String d "") (read_string s'' 0 0) | None => None end
            | EmptyString => None
            end
          else match rune_width s with
          | O => emit (encode_rune rune_error) (read_string s' 0 0)
          | S k => emit (String c "") (read_string s' k 0)
          end
      end
  end.

(** ** Values *)

(** An element of an array keeps its text, which is what a [json.RawMessage] receives. *)
Inductive json :=
  | JNull
  | JBool (b : bool)
  | JNum (text : string)
  | JStr (s : string)
  | JArr (l : list (string * json))
  | JObj (l : list (string * json)).

Definition json_space (c : ascii) : bool :=
  Ascii.eqb c " " || Ascii.eqb c (ascii_of_nat 9) || Ascii.eqb c (ascii_of_nat 10) || Ascii.eqb c (ascii_of_nat 13).
Fixpoint skip_space (s : string) : string :=
  match s with String c s' => if json_space c then skip_space s' else s | EmptyString => s end.

(** A number: its text and the rest; sign, fraction and exponent may be absent. *)
Definition num_sign (s : string) : string * string :=
  match s with String "-" r => ("-"%string, r) | _ => (""%string, s) end.
Definition num_frac (s : string) : option (string * string) :=
  match s with
  | String "." r => let '(d, r') := take_digits r in if String.eqb d "" then None else Some (String "." d, r')
  | _ => Some (""%string, s)
  end.
Definition exp_sign (s : string) : string * string :=
  match s with
  | String x r => if Ascii.eqb x "+" || Ascii.eqb x "-" then (String x "", r) else (""%string, s)
  | EmptyString => (""%string, s)
  end.
Definition num_exp (s : string) : option (string * string) :=
  match s with
  | String c r =>
      if Ascii.eqb c "e" || Ascii.eqb c "E" then
        let '(sg, r) := exp_sign r in
        let '(d, r') := take_digits r in
        if String.eqb d "" then None else Some (String c (String.append sg d), r')
      else Some (""%string, s)
  | EmptyString => Some (""%string, s)
  end.
Definition read_number (s : string) : option (string * string) :=
  let '(sign, s) := num_sign s in
  let '(int, s) := take_digits s in
  let int_ok := match int with EmptyString => false | String "0" r => String.eqb r "" | _ => true end in
  if negb int_ok then None
  else
    '(frac, s) ← num_frac s;
    '(exp, s) ← num_exp s;
    Some (String.append sign (String.append int (String.append frac exp)), s).

(** Nesting deeper than this is an error. *)
Definition max_depth : nat := Z.to_nat 10000.

(** A result of the recursive part: [OutOfFuel] is not an answer of the decoder. *)
Inductive parsed (A : Type) := Parsed (a : A) (rest : string) | BadSyntax | OutOfFuel.
Arguments Parsed {A}. Arguments BadSyntax {A}. Arguments OutOfFuel {A}.

Definition pmap {A B} (f : A -> B) (p : parsed A) : parsed B :=
  match p with Parsed a r => Parsed (f a) r | BadSyntax => BadSyntax | OutOfFuel => OutOfFuel end.
Definition pbind {A B} (p : parsed A) (k : A -> string -> parsed B) : parsed B :=
  match p with Parsed a r => k a r | BadSyntax => BadSyntax | OutOfFuel => OutOfFuel end.
Definition of_option {A} (o : option (A * string)) : parsed A :=
  match o with Some (a, r) => Parsed a r | None => BadSyntax end.

(** A literal. *)
Definition literal {A} (lit : string) (a : A) (s : string) : parsed A :=
  match after lit s with Some r => Parsed a r | None => BadSyntax end.

(** Behind the opening bracket: closed at once, or the body. *)
Definition opened {A B} (close : ascii) (empty : B) (wrap : A -> B) (body : string -> parsed A) (r : string) : parsed B :=
  match skip_space r with
  | String c r' => if Ascii.eqb c close then Parsed empty r' else pmap wrap (body (String c r'))
  | EmptyString => BadSyntax
  end.

(** Behind a member: a comma and more, or the closing bracket. *)
Definition next {A} (close : ascii) (last : string -> parsed A) (more : string -> parsed A) (r : string) : parsed A :=
  match skip_space r with
  | String c r' => if Ascii.eqb c "," then more r' else if Ascii.eqb c close then last r' else BadSyntax
  | EmptyString => BadSyntax
  end.

(** The key of a member and the colon. *)
Definition key {A} (k : string -> string -> parsed A) (s : string) : parsed A :=
  match skip_space s with
  | String c r =>
      if negb (Ascii.eqb c quote_char) then BadSyntax
      else pbind (of_option (read_string r 0 0)) (fun name r =>
        match skip_space r with
        | String c r => if Ascii.eqb c ":" then k name r else BadSyntax
        | EmptyString => BadSyntax
        end)
  | EmptyString => BadSyntax
  end.

(** The text of a value: what is before [r] in [s], without the white space it starts with. *)
Definition text_before (s r : string) : string :=
  let s := skip_space s in String.substring 0 (String.length s - String.length r) s.

Fixpoint value (fuel depth : nat) (s : string) : parsed json :=
  match fuel with
  | O => OutOfFuel
  | S fuel =>
      match skip_space s with
      | EmptyString => BadSyntax
      | String c r as s =>
          if Ascii.eqb c quote_char then pmap JStr (of_option (read_string r 0 0))
          else if Ascii.eqb c "[" then
            match depth with O => BadSyntax | S depth => opened "]" (JArr []) JArr (elements fuel depth) r end
          else if Ascii.eqb c "{" then
            match depth with O => BadSyntax | S depth => opened "}" (JObj []) JObj (members fuel depth) r end
          else if Ascii.eqb c "t" then literal "true" (JBool true) s
          else if Ascii.eqb c "f" then literal "false" (JBool false) s
          else if Ascii.eqb c "n" then literal "null" JNull s
          else pmap JNum (of_option (read_number s))
      end
  end
with elements (fuel depth : nat) (s : string) : parsed (list (string * json)) :=
  match fuel with
  | O => OutOfFuel
  | S fuel =>
      pbind (value fuel depth s) (fun v r =>
        let e := (text_before s r, v) in
        next "]" (Parsed [e]) (fun r => pmap (cons e) (elements fuel depth r)) r)
  end
with members (fuel depth : nat) (s : string) : parsed (list (string * json)) :=
  match fuel with
  | O => OutOfFuel
  | S fuel =>
      key (fun k r =>
        pbind (value fuel depth r) (fun v r =>
          next "}" (Parsed [(k, v)]) (fun r => pmap (cons (k, v)) (members fuel depth r)) r)) s
  end.

(** One value at the head of the text, as a [json.Decoder] reads it. *)
Definition decode_value (s : string) : parsed json := value (2 * String.length s + 2) max_depth s.

(** [json.Unmarshal]: one value and white space. *)
Definition unmarshal (s : string) : option json :=
  match decode_value s with
  | Parsed v r => if String.eqb (skip_space r) "" then Some v else None
  | _ => None
  end.

(** ** Decoding into maps of strings *)

(** A string; [null] leaves the empty one. *)
Definition as_string (v : json) : option string :=
  match v with JStr s => Some s | JNull => Some ""%string | _ => None end.

Definition as_map {A} (f : json -> option A) (v : json) : option (gmap string A) :=
  match v with
  | JNull => Some ∅
  | JObj l =>
      foldl (fun acc '(k, v) => m ← acc; a ← f v; Some (<[k := a]> m)) (Some ∅) l
  | _ => None
  end.

(** [var m map[string]map[string]string; json.Unmarshal(text, &m)]; [None] is the error. *)
Definition unmarshal_maps (s : string) : option (gmap string (gmap string string)) :=
  v ← unmarshal s; as_map (as_map as_string) v.

Definition dq : string := String quote_char "".
Definition dquoted (s : string) : string := String.append dq (String.append s dq).
Example json1 :
  unmarshal (" {" +:+ dquoted "a\u00e9\n" +:+ " : [1, -2.5e+3, true ,null], " +:+ dquoted "\ud83d\ude00\ud83d" +:+ ":{}}")%stdpp =
  Some (JObj [(String.append "a" (bytes_of [195; 169; 10]%nat), JArr [("1", JNum "1"); ("-2.5e+3", JNum "-2.5e+3"); ("true", JBool true); ("null", JNull)]%string);
              (bytes_of [240; 159; 152; 128; 239; 191; 189]%nat, JObj [])]).
Proof. by vm_compute. Qed.
Example json2 : map unmarshal ["01"; "[1,]"; "{}x"; "[1 2]"; "+1"; "1."; "nul"; ""]%string = replicate 8 None.
Proof. by vm_compute. Qed.

(** ** The fuel is enough *)

Lemma skip_space_length s : (String.length (skip_space s) <= String.length s)%nat.
Proof. induction s as [|c s IH]; [done|]. cbn [skip_space]. destruct (json_space c); cbn [String.length]; lia. Qed.

Lemma read_string_length s copy skip t r :
  read_string s copy skip = Some (t, r) -> (String.length r < String.length s)%nat.
Proof.
  remember (String.length s) as n eqn:Hn. revert s copy skip t r Hn.
  induction n as [n IH] using lt_wf_ind. intros s copy skip t r ->.
  assert (Step : forall s' c k pre t r,
    (String.length s' < String.length s)%nat ->
    match read_string s' c k with Some (u, r) => Some (String.append pre u, r) | None => None end = Some (t, r) ->
    (String.length r < String.length s)%nat).
  { intros s' c' k pre t' r' Hl H. destruct (read_string s' c' k) as [[u q]|] eqn:E; [|done].
    injection H as _ <-. pose proof (IH _ Hl s' c' k u q eq_refl E). lia. }
  destruct s as [|c s]; [done|]. cbn [read_string].
  destruct skip as [|k].
  2: { intros H. pose proof (IH (String.length s) ltac:(cbn; lia) s 0%nat k t r eq_refl H). cbn. lia. }
  destruct copy as [|k]; [|apply Step; cbn; lia].
  destruct (Ascii.eqb c quote_char); [intros [= _ <-]; cbn; lia|].
  destruct (byte_at c <? 32); [done|].
  destruct (Ascii.eqb c "\").
  - destruct s as [|e s]; [done|].
    assert (Esc : match escape_of e with
      | Some d => match read_string s 0 0 with Some (u, r) => Some (String.append (String d "") u, r) | None => None end
      | None => None end = Some (t, r) -> (String.length r < S (S (String.length s)))%nat).
    { destruct (escape_of e); [|done]. apply (Step s 0%nat 0%nat); cbn; lia. }
    destruct (Ascii.ascii_dec e "u") as [->|Hne].
    + destruct s as [|a [|b [|d [|f s]]]]; try exact Esc.
      destruct (hex4 a b d f) as [n|]; [|done]. destruct (is_surrogate n); [|apply Step; cbn; lia].
      destruct (if n <? 56320 then low_half s else None); apply Step; cbn; lia.
    + intros H. apply Esc. rewrite <- H. clear -Hne.
      destruct e as [[] [] [] [] [] [] [] []]; try reflexivity; by destruct Hne.
  - destruct (rune_width _); apply Step; cbn; lia.
Qed.

Lemma num_sign_length s sg r : num_sign s = (sg, r) -> (String.length r <= String.length s)%nat.
Proof.
  unfold num_sign. destruct s as [|c s]; [by intros [= _ <-]|].
  destruct c as [[] [] [] [] [] [] [] []]; intros [= _ <-]; cbn; lia.
Qed.

Lemma num_frac_length s f r : num_frac s = Some (f, r) -> (String.length r <= String.length s)%nat.
Proof.
  unfold num_frac. destruct s as [|c s]; [by intros [= _ <-]|].
  destruct (Ascii.ascii_dec c ".") as [->|Hne].
  - destruct (take_digits s) as [d r'] eqn:E. apply take_digits_length in E.
    destruct (String.eqb d ""); [done|]. intros [= _ <-]. cbn. lia.
  - destruct c as [[] [] [] [] [] [] [] []]; try (intros [= _ <-]; done); by destruct Hne.
Qed.

Lemma num_exp_length s e r : num_exp s = Some (e, r) -> (String.length r <= String.length s)%nat.
Proof.
  unfold num_exp. destruct s as [|c s]; [by intros [= _ <-]|].
  destruct (_ || _); [|by intros [= _ <-]]. destruct (exp_sign s) as [sg s1] eqn:E1.
  assert (String.length s1 <= String.length s)%nat.
  { unfold exp_sign in E1. destruct s as [|x s]; [by injection E1 as _ <-|]. destruct (_ || _); injection E1 as _ <-; cbn; lia. }
  destruct (take_digits s1) as [d s2] eqn:E2. apply take_digits_length in E2.
  destruct (String.eqb d ""); [done|]. intros [= _ <-]. cbn. lia.
Qed.

Lemma read_number_length s t r : read_number s = Some (t, r) -> (String.length r < String.length s)%nat.
Proof.
  unfold read_number. destruct (num_sign s) as [sg s1] eqn:E1. apply num_sign_length in E1.
  destruct (take_digits s1) as [int s2] eqn:E2. apply take_digits_length in E2. destruct (negb _) eqn:Ei; [done|].
  assert (0 < String.length int)%nat by (destruct int; [done|cbn; lia]).
  destruct (num_frac s2) as [[f s3]|] eqn:E3; [|done]. apply num_frac_length in E3. cbn [mbind option_bind].
  destruct (num_exp s3) as [[e s4]|] eqn:E4; [|done]. apply num_exp_length in E4. intros [= _ <-]. lia.
Qed.

(** A parser leaves less than [n] bytes. *)
Definition leaves {A} (n : nat) (p : parsed A) : Prop :=
  match p with Parsed _ r => (String.length r < n)%nat | _ => True end.

Lemma leaves_pmap {A B} (f : A -> B) n p : leaves n p -> leaves n (pmap f p).
Proof. by destruct p. Qed.
Lemma leaves_pbind {A B} n m (p : parsed A) (k : A -> string -> parsed B) :
  leaves m p -> (forall a r, (String.length r < m)%nat -> leaves n (k a r)) -> leaves n (pbind p k).
Proof. intros Hp Hk. destruct p; [by apply Hk|done|done]. Qed.
Lemma leaves_string n r : (String.length r <= n)%nat -> leaves n (of_option (read_string r 0 0)).
Proof. intros H. destruct (read_string r 0 0) as [[t q]|] eqn:E; [|done]. apply read_string_length in E. cbn. lia. Qed.
Lemma leaves_number n r : (String.length r <= n)%nat -> leaves n (of_option (read_number r)).
Proof. intros H. destruct (read_number r) as [[t q]|] eqn:E; [|done]. apply read_number_length in E. cbn. lia. Qed.
Lemma leaves_literal {A} lit (a : A) n c s : (String.length s <= n)%nat -> leaves n (literal (String c lit) a s).
Proof. intros H. unfold literal. destruct (after _ _) eqn:E; [|done]. apply after_length in E. cbn in *. lia. Qed.

Lemma leaves_opened {A B} close (empty : B) wrap (body : string -> parsed A) n r :
  (String.length r <= n)%nat -> (forall q, (String.length q <= String.length r)%nat -> leaves n (body q)) ->
  leaves n (opened close empty wrap body r).
Proof.
  intros Hn Hb. unfold opened. pose proof (skip_space_length r) as Hs. destruct (skip_space r) as [|c q]; [done|].
  destruct (Ascii.eqb c close); [cbn in *; lia|]. by apply leaves_pmap, Hb.
Qed.
Lemma leaves_next {A} close (last more : string -> parsed A) n r :
  (forall q, (String.length q < String.length r)%nat -> leaves n (last q) /\ leaves n (more q)) ->
  leaves n (next close last more r).
Proof.
  intros H. unfold next. pose proof (skip_space_length r) as Hs. destruct (skip_space r) as [|c q]; [done|].
  destruct (H q) as [H1 H2]; [cbn in Hs; lia|]. destruct (Ascii.eqb c ","); [done|]. by destruct (Ascii.eqb c close).
Qed.
Lemma leaves_key {A} (k : string -> string -> parsed A) n s :
  (forall name r, (String.length r < String.length s)%nat -> leaves n (k name r)) -> leaves n (key k s).
Proof.
  intros H. unfold key. pose proof (skip_space_length s) as Hs. destruct (skip_space s) as [|c r]; [done|].
  destruct (negb _); [done|]. apply (leaves_pbind n (String.length r)); [by apply leaves_string|].
  intros name q Hq. pose proof (skip_space_length q) as Hq'. destruct (skip_space q) as [|d w]; [done|].
  destruct (Ascii.eqb d ":"); [|done]. apply H. cbn in *. lia.
Qed.

(** What follows a value, an element list or a member list is shorter. *)
Lemma parsed_shrinks fuel depth s :
  leaves (String.length s) (value fuel depth s) /\ leaves (String.length s) (elements fuel depth s) /\
  leaves (String.length s) (members fuel depth s).
Proof.
  revert depth s. induction fuel as [|fuel IH]; [done|]. intros depth s. split_and!.
  - cbn [value]. pose proof (skip_space_length s) as Hs. destruct (skip_space s) as [|c r]; [done|].
    cbn [String.length] in Hs.
    destruct (Ascii.eqb c quote_char); [apply leaves_pmap, leaves_string; lia|].
    destruct (Ascii.eqb c "[").
    { destruct depth as [|depth]; [done|]. apply leaves_opened; [lia|]. intros q Hq.
      destruct (IH depth q) as (_ & He & _). destruct (elements fuel depth q); cbn in *; [lia|done|done]. }
    destruct (Ascii.eqb c "{").
    { destruct depth as [|depth]; [done|]. apply leaves_opened; [lia|]. intros q Hq.
      destruct (IH depth q) as (_ & _ & Hm). destruct (members fuel depth q); cbn in *; [lia|done|done]. }
    repeat match goal with |- context [ if Ascii.eqb c ?x then _ else _ ] =>
      destruct (Ascii.eqb c x); [apply leaves_literal; cbn; lia|] end.
    apply leaves_pmap, leaves_number. cbn. lia.
  - cbn [elements]. apply (leaves_pbind _ (String.length s)); [apply IH|]. intros v r Hr. apply leaves_next.
    intros q Hq. split; [cbn; lia|]. apply leaves_pmap. destruct (IH depth q) as (_ & He & _).
    destruct (elements fuel depth q); cbn in *; [lia|done|done].
  - cbn [members]. apply leaves_key. intros k r Hr. apply (leaves_pbind _ (String.length r)); [apply IH|]. intros v q Hq.
    apply leaves_next. intros w Hw. split; [cbn; lia|]. apply leaves_pmap. destruct (IH depth w) as (_ & _ & Hm).
    destruct (members fuel depth w); cbn in *; [lia|done|done].
Qed.

(** Enough fuel: two units per character of the text. *)
Definition not_out {A} (p : parsed A) : Prop := match p with OutOfFuel => False | _ => True end.

Lemma not_out_pmap {A B} (f : A -> B) p : not_out p -> not_out (pmap f p).
Proof. by destruct p. Qed.
Lemma not_out_pbind {A B} n (p : parsed A) (k : A -> string -> parsed B) :
  not_out p -> leaves n p -> (forall a r, (String.length r < n)%nat -> not_out (k a r)) -> not_out (pbind p k).
Proof. intros Ho Hl Hk. destruct p; [by apply Hk|done|done]. Qed.
Lemma not_out_option {A} (o : option (A * string)) : not_out (of_option o).
Proof. by destruct o as [[? ?]|]. Qed.
Lemma not_out_opened {A B} close (empty : B) wrap (body : string -> parsed A) r :
  (forall q, (String.length q <= String.length r)%nat -> not_out (body q)) -> not_out (opened close empty wrap body r).
Proof.
  intros Hb. unfold opened. pose proof (skip_space_length r) as Hs. destruct (skip_space r) as [|c q]; [done|].
  destruct (Ascii.eqb c close); [done|]. by apply not_out_pmap, Hb.
Qed.
Lemma not_out_next {A} close (last more : string -> parsed A) r :
  (forall q, (String.length q < String.length r)%nat -> not_out (last q) /\ not_out (more q)) -> not_out (next close last more r).
Proof.
  intros H. unfold next. pose proof (skip_space_length r) as Hs. destruct (skip_space r) as [|c q]; [done|].
  destruct (H q) as [H1 H2]; [cbn in Hs; lia|]. destruct (Ascii.eqb c ","); [done|]. by destruct (Ascii.eqb c close).
Qed.
Lemma not_out_key {A} (k : string -> string -> parsed A) s :
  (forall name r, (String.length r < String.length s)%nat -> not_out (k name r)) -> not_out (key k s).
Proof.
  intros H. unfold key. pose proof (skip_space_length s) as Hs. destruct (skip_space s) as [|c r]; [done|].
  destruct (negb _); [done|]. apply (not_out_pbind (String.length r)); [apply not_out_option|by apply leaves_string|].
  intros name q Hq. pose proof (skip_space_length q) as Hq'. destruct (skip_space q) as [|d w]; [done|].
  destruct (Ascii.eqb d ":"); [|done]. apply H. cbn in *. lia.
Qed.

Lemma fuel_suffices fuel depth s :
  ((2 * String.length s + 1 <= fuel)%nat -> not_out (value fuel depth s)) /\
  ((2 * String.length s + 2 <= fuel)%nat -> not_out (elements fuel depth s) /\ not_out (members fuel depth s)).
Proof.
  revert depth s. induction fuel as [|fuel IH]; [split; intros; lia|]. intros depth s. split; [|split].
  - intros Hf. cbn [value]. pose proof (skip_space_length s) as Hs. destruct (skip_space s) as [|c r]; [done|].
    cbn [String.length] in Hs.
    destruct (Ascii.eqb c quote_char); [apply not_out_pmap, not_out_option|].
    destruct (Ascii.eqb c "["); [destruct depth as [|depth]; [done|]; apply not_out_opened; intros q Hq; apply IH; lia|].
    destruct (Ascii.eqb c "{"); [destruct depth as [|depth]; [done|]; apply not_out_opened; intros q Hq; apply IH; lia|].
    repeat match goal with |- context [ if Ascii.eqb c ?x then _ else _ ] =>
      destruct (Ascii.eqb c x); [unfold literal; by destruct (after _ _)|] end.
    apply not_out_pmap, not_out_option.
  - cbn [elements]. apply (not_out_pbind (String.length s)); [apply IH; lia|apply parsed_shrinks|]. intros v r Hr.
    apply not_out_next. intros q Hq. split; [done|]. apply not_out_pmap, IH. lia.
  - cbn [members]. apply not_out_key. intros k r Hr.
    apply (not_out_pbind (String.length r)); [apply IH; lia|apply parsed_shrinks|]. intros v q Hq.
    apply not_out_next. intros w Hw. split; [done|]. apply not_out_pmap, IH. lia.
Qed.

Lemma json_fuel_enough s : decode_value s <> OutOfFuel.
Proof.
  intros H. unfold decode_value in H. destruct (fuel_suffices (2 * String.length s + 2) max_depth s) as (Hv & _).
  specialize (Hv ltac:(lia)). by rewrite H in Hv.
Qed.
