(* ===== verification/Unmarshal.v ===== *)
(** * Decoding JSON into Go variables

    [json.Unmarshal] into the types the program declares: a decoder says what a value leaves in a variable that
    already has a content, and whether it saved a type error; after a type error the decoding goes on.  A text
    that is not JSON leaves the variable untouched. *)

From Stdlib Require Import Strings.Ascii.
From stdpp Require Import base tactics numbers option list strings.
From S2P Require Import Prelude GoText GoFloat GoStrconv Json.
Open Scope go_scope.

(** ** Field names *)

(** U+017F folds to "s" and U+212A to "k": the only runes outside ASCII that fold to a letter. *)
Fixpoint fold_runes (s : string) : string :=
  match s with
  | String a (String b s2 as s1) =>
      if Ascii.eqb a (ascii_of_nat 197) && Ascii.eqb b (ascii_of_nat 191) then String "s" (fold_runes s2)
      else match s2 with
      | String c s3 =>
          if Ascii.eqb a (ascii_of_nat 226) && Ascii.eqb b (ascii_of_nat 132) && Ascii.eqb c (ascii_of_nat 170)
          then String "k" (fold_runes s3) else String a (fold_runes s1)
      | EmptyString => String a (fold_runes s1)
      end
  | _ => s
  end.

(** A key names a field up to case. *)
Definition names (field key : string) : bool := equal_fold (fold_runes key) field.

(** ** Decoders *)

(** What a variable holds afterwards, and whether no type error was saved. *)
Definition into (A : Type) : Type := json -> A -> A * bool.

Definition into_string : into string := fun v a => match v with JStr s => (s, true) | JNull => (a, true) | _ => (a, false) end.
Definition into_bool : into bool := fun v a => match v with JBool b => (b, true) | JNull => (a, true) | _ => (a, false) end.

(** [strconv.ParseInt] of the number's text. *)
Definition into_int : into Z := fun v a =>
  match v with
  | JNum t => match atoi t with Some n => (n, true) | None => (a, false) end
  | JNull => (a, true)
  | _ => (a, false)
  end.
Definition into_float : into f64 := fun v a =>
  match v with
  | JNum t => match ParseFloat t with Some x => (x, true) | None => (a, false) end
  | JNull => (a, true)
  | _ => (a, false)
  end.

(** A pointer: [null] makes it nil, any other value is decoded into what it points to, which is made when it is
    nil. *)
Definition into_ptr {A} (zero : A) (d : into A) : into (option A) := fun v a =>
  match v with
  | JNull => (None, true)
  | _ => let '(x, ok) := d v (default zero a) in (Some x, ok)
  end.

(** A struct: the members in the order of the text, each into the field it names; the others are skipped. *)
Definition into_member {A} (field : string -> option (into A)) (acc : A * bool) (kv : string * json) : A * bool :=
  match field kv.1 with
  | Some d => let '(a, ok) := d kv.2 acc.1 in (a, acc.2 && ok)
  | None => acc
  end.
Definition into_struct {A} (field : string -> option (into A)) : into A := fun v a =>
  match v with
  | JObj l => fold_left (into_member field) l (a, true)
  | JNull => (a, true)
  | _ => (a, false)
  end.

(** A struct with the one field [name]. *)
Definition only {A} (name : string) (d : into A) : into A :=
  into_struct (fun k => if names name k then Some d else None).

(** One component of a pair. *)
Definition at_fst {A B} (d : into A) : into (A * B) := fun v a => let '(x, ok) := d v a.1 in ((x, a.2), ok).
Definition at_snd {A B} (d : into B) : into (A * B) := fun v a => let '(x, ok) := d v a.2 in ((a.1, x), ok).

(** A slice: the cells of its array that were ever written, and how many it shows.  The elements of an array are
    decoded over the old content of the cells; cells behind the last one are zero. *)
Record slice (A : Type) := { sl_cells : list A; sl_len : nat }.
Arguments sl_cells {A}. Arguments sl_len {A}. Arguments Build_slice {A}.

Definition no_slice {A} : slice A := {| sl_cells := []; sl_len := 0 |}.
Definition shown {A} (s : slice A) : list A := take s.(sl_len) s.(sl_cells).

Fixpoint into_cells {A} (zero : A) (d : string -> into A) (l : list (string * json)) (cells : list A) : list A * bool :=
  match l with
  | [] => (cells, true)
  | (text, v) :: l =>
      let '(c, ok) := d text v (default zero (head cells)) in
      let '(cs, oks) := into_cells zero d l (tail cells) in
      (c :: cs, ok && oks)
  end.

(** [d] is also given the text of the element, which is all that a [json.RawMessage] takes. *)
Definition into_slice {A} (zero : A) (d : string -> into A) : into (slice A) := fun v a =>
  match v with
  | JArr [] | JNull => (no_slice, true)
  | JArr l => let '(cells, ok) := into_cells zero d l a.(sl_cells) in ({| sl_cells := cells; sl_len := length l |}, ok)
  | _ => (a, false)
  end.

Definition into_raw (text : string) : into string := fun _ _ => (text, true).

(** [json.Unmarshal(text, &v)]: what [v] holds, and whether the error is nil. *)
Definition Unmarshal {A} (d : into A) (text : string) (a : A) : A * bool :=
  match unmarshal text with Some v => d v a | None => (a, false) end.

(** [json.NewDecoder(r).Decode(&v)]: the first value of the text. *)
Definition Decode {A} (d : into A) (text : string) (a : A) : A * bool :=
  match decode_value text with Parsed v _ => d v a | _ => (a, false) end.

(** What callers that look at the error first see. *)
Definition checked {A} (r : A * bool) : option A := if r.2 then Some r.1 else None.

Example fields1 : map (names "max_tokens") ["max_tokens"; "Max_Tokens"; "maxtokens"; "max_to" +:+ bytes_of [226; 132; 170]%nat +:+ "en" +:+ bytes_of [197; 191]%nat]%stdpp%string
  = [true; true; false; true].
Proof. by vm_compute. Qed.
(** A member named twice: the second array is decoded over the first. *)
Example slice1 :
  let d := only "m" (into_slice ""%string (fun _ => only "c" into_string)) in
  let obj s := ("{" +:+ dquoted "c" +:+ ":" +:+ dquoted s +:+ "}")%stdpp in
  let again := ("{" +:+ dquoted "m" +:+ ":[" +:+ obj "one" +:+ "," +:+ obj "two" +:+ "], " +:+ dquoted "M" +:+ ":[{}]}")%stdpp in
  shown (Unmarshal d again no_slice).1 = ["one"%string].
Proof. by vm_compute. Qed.

(** ** Facts *)

Lemma into_struct_app {A} (field : string -> option (into A)) l1 l2 a :
  into_struct field (JObj (l1 ++ l2)) a =
  fold_left (into_member field) l2 (into_struct field (JObj l1) a).
Proof. apply fold_left_app. Qed.

(** What every member and every field's decoder keeps. *)
Lemma into_struct_ind {A} (P : A -> Prop) (field : string -> option (into A)) v a :
  P a -> (forall l k x d b, v = JObj l -> (k, x) ∈ l -> field k = Some d -> P b -> P (d x b).1) -> P (into_struct field v a).1.
Proof.
  intros Ha Hd. destruct v as [| | | | |l]; try done. cbn [into_struct].
  assert (Hl : forall k x d b, (k, x) ∈ l -> field k = Some d -> P b -> P (d x b).1) by (intros; by eapply Hd).
  clear Hd. generalize true as ok. revert a Ha. induction l as [|[k x] l IH]; intros a Ha ok; [done|]. cbn [fold_left].
  unfold into_member at 2. cbn [fst snd]. destruct (field k) as [d|] eqn:Hf.
  - pose proof (Hl k x d a (list_elem_of_here _ _) Hf Ha) as Hp. destruct (d x a) as [b okb].
    apply IH; [|done]. intros k' x' d' c Hin. apply Hl. by right.
  - apply IH; [|done]. intros k' x' d' c Hin. apply Hl. by right.
Qed.
