(* ===== verification/Bodies.v ===== *)
(** * Request bodies

    What the router and the sidecar read out of the body of a chat completion: the reader's limit, and the
    messages with their contents. *)

From Stdlib Require Import Strings.Ascii.
From stdpp Require Import base tactics numbers option list strings.
From S2P Require Import Prelude GoText Json Unmarshal RequestIds.
Open Scope go_scope.

(** [io.LimitReader(r.Body, 16 MiB)] *)
Definition limit_body (raw : string) : string :=
  if slen raw <=? 2 ^ 24 then raw else String.substring 0 (Z.to_nat (2 ^ 24)) raw.

(** [[]struct{Content string}] *)
Definition messages : into (slice string) := into_slice ""%string (fun _ => only "content" into_string).

(** The loop that adds the lengths of the contents to a first length. *)
Definition content_length (ms : slice string) (first : Z) : Z :=
  fold_left (fun c m => wrap64 (c + slen m)) (shown ms) first.
