(* ===== verification/JsonFacts.v ===== *)
(** * JSON texts inside a larger text

    The decoder does not look beyond the end of a value: appending text that starts with a delimiter changes
    nothing but the rest.  And more fuel changes no answer.  So an element of an array is read as it would be
    read alone. *)

From Stdlib Require Import Strings.Ascii.
From stdpp Require Import base tactics numbers option list sets strings.
From S2P Require Import Prelude GoText Json.

(** ** Text that follows a value *)

Inductive delim : string -> Prop := delim_intro c t : c ∈ [","; "]"; "}"; ascii_of_nat 10]%char -> delim (String c t).

Lemma delim_inv t : delim t ->
  exists t', t = String "," t' \/ t = String "]" t' \/ t = String "}" t' \/ t = String (ascii_of_nat 10) t'.
Proof. intros [c t' H]. exists t'. repeat (apply elem_of_cons in H as [->|H]); [tauto..|by apply elem_of_nil in H]. Qed.

Ltac delim_cases t Ht := destruct (delim_inv t Ht) as [? [-> | [-> | [-> | ->]]]].

Lemma sapp_nil t : String.append "" t = t.
Proof. done. Qed.

Lemma skip_space_app s c r t : skip_space s = String c r -> skip_space (String.append s t) = String c (String.append r t).
Proof.
  induction s as [|a s IH]; [done|]. rewrite sapp_cons. cbn [skip_space]. destruct (json_space a); [done|].
  by intros [= -> ->].
Qed.

Lemma after_app lit s r t : after lit s = Some r -> after lit (String.append s t) = Some (String.append r t).
Proof.
  revert s. induction lit as [|a lit IH]; intros s; [by intros [= ->]|]. destruct s as [|b s]; [done|].
  rewrite sapp_cons. cbn [after]. destruct (Ascii.eqb a b); [apply IH|done].
Qed.

Lemma take_digits_app s t d r : delim t -> take_digits s = (d, r) -> take_digits (String.append s t) = (d, String.append r t).
Proof.
  intros Ht. revert d r. induction s as [|c s IH]; intros d r.
  - intros [= <- <-]. delim_cases t Ht; done.
  - rewrite sapp_cons. cbn [take_digits]. destruct (is_digit c); [|by intros [= <- <-]].
    destruct (take_digits s) as [d' r'] eqn:E. intros [= <- <-]. by rewrite (IH d' r').
Qed.

(** ** Strings *)

Lemma rune_width_app c s t : delim t -> rune_width (String.append (String c s) t) = rune_width (String c s).
Proof.
  intros Ht. rewrite sapp_cons. unfold rune_width.
  destruct s as [|c1 [|c2 [|c3 s]]]; try done; delim_cases t Ht; cbn [String.append];
    repeat match goal with |- context [ if ?b then 1%nat else _ ] => destruct b; [reflexivity|] end;
    repeat match goal with |- context [ byte_at ?x =? ?k ] => destruct (byte_at x =? k) end;
    cbn; rewrite ?andb_false_r, ?andb_true_r; reflexivity.
Qed.

Lemma hex4_delim a b c t u : delim (String c t) -> hex4 a b c u = None /\ hex4 a c b u = None /\ hex4 c a b u = None /\ hex4 a b u c = None.
Proof.
  intros H. assert (hex_digit c = None) as Hc.
  { inversion H as [c' t' Hin]; subst. cbn in Hin. rewrite !elem_of_cons, elem_of_nil in Hin. by destruct Hin as [-> | [-> | [-> | [-> | []]]]]. }
  unfold hex4. rewrite Hc. repeat split; try done; by repeat (destruct (hex_digit _); cbn [mbind option_bind]).
Qed.

Lemma low_half_app s t : delim t -> low_half (String.append s t) = low_half s.
Proof.
  intros Ht. unfold low_half. destruct s as [|x [|y s]].
  - delim_cases t Ht; done.
  - rewrite sapp_cons, sapp_nil. cbn [after]. destruct (Ascii.eqb "\" x); [|done]. delim_cases t Ht; done.
  - rewrite !sapp_cons. cbn [after]. destruct (Ascii.eqb "\" x); [|done]. destruct (Ascii.eqb "u" y); [|done].
    assert (Hd : exists c u, t = String c u /\ delim (String c u)) by (destruct Ht; eauto using delim).
    destruct Hd as (c & u & -> & Hd).
    destruct s as [|a [|b [|d [|e s]]]]; [| | | |done]; rewrite ?sapp_cons, sapp_nil.
    + destruct u as [|a [|b [|d u]]]; try done. by rewrite (proj1 (proj2 (proj2 (hex4_delim a b c _ d Hd)))).
    + destruct u as [|b [|d u]]; try done. by rewrite (proj1 (proj2 (hex4_delim a b c _ d Hd))).
    + destruct u as [|d u]; try done. by rewrite (proj1 (hex4_delim a b c _ d Hd)).
    + by rewrite (proj2 (proj2 (proj2 (hex4_delim a b c _ d Hd)))).
Qed.

(** The text of a closed string. *)
Lemma read_string_app s copy skip t u r :
  delim t -> read_string s copy skip = Some (u, r) ->
  read_string (String.append s t) copy skip = Some (u, String.append r t).
Proof.
  intros Ht. remember (String.length s) as n eqn:Hn. revert s copy skip u r Hn.
  induction n as [n IH] using lt_wf_ind. intros s copy skip u r ->.
  assert (Step : forall s' c k pre u r,
    (String.length s' < String.length s)%nat ->
    match read_string s' c k with Some (v, r) => Some (String.append pre v, r) | None => None end = Some (u, r) ->
    match read_string (String.append s' t) c k with Some (v, r) => Some (String.append pre v, r) | None => None end =
      Some (u, String.append r t)).
  { intros s' c' k pre u' r' Hl H. destruct (read_string s' c' k) as [[v q]|] eqn:E; [|done].
    injection H as <- <-. by rewrite (IH _ Hl s' c' k v q eq_refl E). }
  destruct s as [|c s]; [done|].
  destruct skip as [|k]; [|rewrite sapp_cons; cbn [read_string]; by apply (IH (String.length s)); cbn [String.length]; lia].
  destruct copy as [|k]; [|rewrite sapp_cons; cbn [read_string]; apply Step; cbn; lia].
  pose proof (rune_width_app c s t Ht) as Hw. rewrite sapp_cons in Hw |- *. cbn [read_string].
  destruct (Ascii.eqb c quote_char); [by intros [= <- <-]|].
  destruct (byte_at c <? 32); [done|].
  destruct (Ascii.eqb c "\").
  - destruct s as [|e s]; [done|].
    assert (Esc : match escape_of e with
      | Some d => match read_string s 0 0 with Some (v, r) => Some (String.append (String d "") v, r) | None => None end
      | None => None end = Some (u, r) ->
      match escape_of e with
      | Some d => match read_string (String.append s t) 0 0 with Some (v, r) => Some (String.append (String d "") v, r) | None => None end
      | None => None end = Some (u, String.append r t)).
    { destruct (escape_of e); [|done]. apply (Step s 0%nat 0%nat); cbn; lia. }
    destruct (Ascii.ascii_dec e "u") as [->|Hne].
    + destruct s as [|a [|b [|d [|f s]]]]; try done.
      rewrite !sapp_cons. destruct (hex4 a b d f) as [n|]; [|done]. rewrite low_half_app by done.
      destruct (is_surrogate n); [|apply Step; cbn; lia].
      destruct (if n <? 56320 then low_half s else None); apply Step; cbn; lia.
    + intros H. assert (G : match escape_of e with
        | Some d => match read_string s 0 0 with Some (v, r) => Some (String.append (String d "") v, r) | None => None end
        | None => None end = Some (u, r)).
      { rewrite <- H. clear -Hne. destruct e as [[] [] [] [] [] [] [] []]; try reflexivity; by destruct Hne. }
      apply Esc in G. rewrite <- G. rewrite sapp_cons. clear -Hne.
      destruct e as [[] [] [] [] [] [] [] []]; try reflexivity; by destruct Hne.
  - rewrite Hw. destruct (rune_width (String c s)); apply Step; cbn; lia.
Qed.

(** ** Numbers *)

Lemma num_sign_app s t sg r : delim t -> num_sign s = (sg, r) -> num_sign (String.append s t) = (sg, String.append r t).
Proof.
  intros Ht. unfold num_sign. destruct s as [|c s].
  - intros [= <- <-]. delim_cases t Ht; done.
  - rewrite sapp_cons. destruct c as [[] [] [] [] [] [] [] []]; by intros [= <- <-].
Qed.

Lemma num_frac_app s t f r : delim t -> num_frac s = Some (f, r) -> num_frac (String.append s t) = Some (f, String.append r t).
Proof.
  intros Ht. unfold num_frac. destruct s as [|c s].
  - intros [= <- <-]. delim_cases t Ht; done.
  - rewrite sapp_cons. destruct (Ascii.ascii_dec c ".") as [->|Hne].
    + destruct (take_digits s) as [d q] eqn:E. rewrite (take_digits_app s t d q Ht E).
      destruct (String.eqb d ""); [done|]. by intros [= <- <-].
    + destruct c as [[] [] [] [] [] [] [] []]; try (by intros [= <- <-]); by destruct Hne.
Qed.

Lemma exp_sign_app s t sg r : delim t -> exp_sign s = (sg, r) -> exp_sign (String.append s t) = (sg, String.append r t).
Proof.
  intros Ht. unfold exp_sign. destruct s as [|c s].
  - intros [= <- <-]. delim_cases t Ht; done.
  - rewrite sapp_cons. destruct (_ || _); by intros [= <- <-].
Qed.

Lemma num_exp_app s t e r : delim t -> num_exp s = Some (e, r) -> num_exp (String.append s t) = Some (e, String.append r t).
Proof.
  intros Ht. unfold num_exp. destruct s as [|c s].
  - intros [= <- <-]. delim_cases t Ht; done.
  - rewrite sapp_cons. destruct (_ || _); [|by intros [= <- <-]].
    destruct (exp_sign s) as [sg q] eqn:E1. rewrite (exp_sign_app s t sg q Ht E1).
    destruct (take_digits q) as [d q'] eqn:E2. rewrite (take_digits_app q t d q' Ht E2).
    destruct (String.eqb d ""); [done|]. by intros [= <- <-].
Qed.

Lemma read_number_app s t n r :
  delim t -> read_number s = Some (n, r) -> read_number (String.append s t) = Some (n, String.append r t).
Proof.
  intros Ht. unfold read_number.
  destruct (num_sign s) as [sg s1] eqn:E1. rewrite (num_sign_app s t sg s1 Ht E1).
  destruct (take_digits s1) as [int s2] eqn:E2. rewrite (take_digits_app s1 t int s2 Ht E2).
  destruct (negb _); [done|].
  destruct (num_frac s2) as [[f s3]|] eqn:E3; [|done]. rewrite (num_frac_app s2 t f s3 Ht E3). cbn [mbind option_bind].
  destruct (num_exp s3) as [[e s4]|] eqn:E4; [|done]. rewrite (num_exp_app s3 t e s4 Ht E4). by intros [= <- <-].
Qed.

(** ** Values *)

Lemma length_sapp s t : String.length (String.append s t) = (String.length s + String.length t)%nat.
Proof. induction s as [|c s IH]; [done|]. rewrite sapp_cons. cbn [String.length]. by rewrite IH. Qed.

Lemma substring_app n s t : (n <= String.length s)%nat -> String.substring 0 n (String.append s t) = String.substring 0 n s.
Proof.
  revert n. induction s as [|c s IH]; intros n H; [destruct n; [by destruct t|cbn in H; lia]|].
  rewrite sapp_cons. destruct n as [|n]; [done|]. cbn [String.substring]. f_equal. apply IH. cbn in H. lia.
Qed.

Lemma text_before_app s r t : skip_space s <> ""%string -> text_before (String.append s t) (String.append r t) = text_before s r.
Proof.
  intros H. unfold text_before. destruct (skip_space s) as [|c q] eqn:E; [done|]. rewrite (skip_space_app s c q t E).
  rewrite <- sapp_cons, !length_sapp.
  replace (_ - _)%nat with (String.length (String c q) - String.length r)%nat by lia. apply substring_app. lia.
Qed.

(** A parser is stable when text that starts with a delimiter only follows what it leaves. *)
Section stable.
  Context (t : string) (Ht : delim t).

Definition stable {A} (parse : string -> parsed A) : Prop :=
  forall s a r, parse s = Parsed a r -> parse (String.append s t) = Parsed a (String.append r t).

Lemma pmap_stable {A B} (f : A -> B) parse : stable parse -> stable (fun s => pmap f (parse s)).
Proof. intros H s b r. destruct (parse s) as [a q| |] eqn:E; [|done|done]. intros [= <- <-]. by rewrite (H s a q E). Qed.

Lemma literal_stable {A} lit (a : A) : stable (literal lit a).
Proof.
  intros s b r. unfold literal. destruct (after lit s) as [q|] eqn:E; [|done]. intros [= <- <-]. by rewrite (after_app lit s q t E).
Qed.

Lemma string_stable : stable (fun s => of_option (read_string s 0 0)).
Proof.
  intros s a r. destruct (read_string s 0 0) as [[u q]|] eqn:E; [|done]. intros [= <- <-].
  by rewrite (read_string_app s 0 0 t u q Ht E).
Qed.

Lemma number_stable : stable (fun s => of_option (read_number s)).
Proof.
  intros s a r. destruct (read_number s) as [[u q]|] eqn:E; [|done]. intros [= <- <-]. by rewrite (read_number_app s t u q Ht E).
Qed.

Lemma opened_stable {A B} close (empty : B) wrap (body : string -> parsed A) :
  stable body -> stable (opened close empty wrap body).
Proof.
  intros Hb s a r. unfold opened. destruct (skip_space s) as [|c q] eqn:E; [done|]. rewrite (skip_space_app s c q t E).
  destruct (Ascii.eqb c close); [by intros [= <- <-]|]. rewrite <- sapp_cons. by apply (pmap_stable wrap body).
Qed.

Lemma next_stable {A} close (last more : string -> parsed A) : stable last -> stable more -> stable (next close last more).
Proof.
  intros Hl Hm s a r. unfold next. destruct (skip_space s) as [|c q] eqn:E; [done|]. rewrite (skip_space_app s c q t E).
  destruct (Ascii.eqb c ","); [apply Hm|]. destruct (Ascii.eqb c close); [apply Hl|done].
Qed.

Lemma key_stable {A} (k : string -> string -> parsed A) : (forall name, stable (k name)) -> stable (key k).
Proof.
  intros Hk s a r. unfold key. destruct (skip_space s) as [|c q] eqn:E; [done|]. rewrite (skip_space_app s c q t E).
  destruct (negb _); [done|]. pose proof (string_stable q) as Hs. cbv beta in Hs.
  destruct (of_option (read_string q 0 0)) as [name w| |]; [|done|done]. rewrite (Hs name w eq_refl). cbn [pbind].
  destruct (skip_space w) as [|d x] eqn:E2; [done|]. rewrite (skip_space_app w d x t E2).
  destruct (Ascii.eqb d ":"); [apply Hk|done].
Qed.

Lemma value_nonempty fuel depth s v r : value fuel depth s = Parsed v r -> skip_space s <> ""%string.
Proof. destruct fuel as [|fuel]; [done|]. cbn [value]. by destruct (skip_space s). Qed.

Lemma parsed_stable fuel depth : stable (value fuel depth) /\ stable (elements fuel depth) /\ stable (members fuel depth).
Proof.
  revert depth. induction fuel as [|fuel IH]; intros depth; [by split_and!|]. split_and!.
  - intros s v r. cbn [value]. destruct (skip_space s) as [|c q] eqn:Es; [done|]. rewrite (skip_space_app s c q t Es).
    destruct (Ascii.eqb c quote_char); [apply (pmap_stable JStr _ string_stable)|].
    destruct (Ascii.eqb c "["); [destruct depth as [|depth]; [done|]; apply opened_stable, IH|].
    destruct (Ascii.eqb c "{"); [destruct depth as [|depth]; [done|]; apply opened_stable, IH|].
    rewrite <- sapp_cons.
    repeat match goal with |- context [ if Ascii.eqb c ?x then _ else _ ] => destruct (Ascii.eqb c x); [apply literal_stable|] end.
    apply (pmap_stable JNum _ number_stable).
  - intros s l r. cbn [elements]. destruct (value fuel depth s) as [v q| |] eqn:E; [|done|done].
    pose proof (value_nonempty fuel depth s v q E) as Hn. apply IH in E. rewrite E. cbn [pbind].
    rewrite text_before_app by done. apply next_stable; [by intros ? ? ? [= <- <-]|]. apply pmap_stable, IH.
  - cbn [members]. apply key_stable. intros k s l r. destruct (value fuel depth s) as [v q| |] eqn:E; [|done|done].
    apply IH in E. rewrite E. cbn [pbind]. apply next_stable; [by intros ? ? ? [= <- <-]|]. apply pmap_stable, IH.
Qed.
End stable.

(** ** Fuel *)

(** Every answer of [p] is the answer of [q]. *)
Definition refines {A} (p q : parsed A) : Prop := p <> OutOfFuel -> q = p.

Lemma refines_pmap {A B} (f : A -> B) p q : refines p q -> refines (pmap f p) (pmap f q).
Proof. intros H Hp. rewrite H; [done|]. by intros ->. Qed.
Lemma refines_pbind {A B} (p q : parsed A) (k l : A -> string -> parsed B) :
  refines p q -> (forall a r, refines (k a r) (l a r)) -> refines (pbind p k) (pbind q l).
Proof. intros H Hk Hp. rewrite H; [|by intros ->]. destruct p; [by apply Hk|done|done]. Qed.
Lemma refines_refl {A} (p : parsed A) : refines p p.
Proof. by intros ?. Qed.
#[local] Hint Resolve refines_refl : core.
Lemma refines_opened {A B} close (empty : B) wrap (b1 b2 : string -> parsed A) r :
  (forall s, refines (b1 s) (b2 s)) -> refines (opened close empty wrap b1 r) (opened close empty wrap b2 r).
Proof.
  intros H. unfold opened. destruct (skip_space r); [done|]. destruct (Ascii.eqb _ close); [done|]. apply refines_pmap, H.
Qed.
Lemma refines_next {A} close (last m1 m2 : string -> parsed A) r :
  (forall s, refines (m1 s) (m2 s)) -> refines (next close last m1 r) (next close last m2 r).
Proof. intros H. unfold next. destruct (skip_space r); [done|]. destruct (Ascii.eqb _ ","); [apply H|done]. Qed.
Lemma refines_key {A} (k1 k2 : string -> string -> parsed A) s :
  (forall n r, refines (k1 n r) (k2 n r)) -> refines (key k1 s) (key k2 s).
Proof.
  intros H. unfold key. destruct (skip_space s) as [|c r]; [done|]. destruct (negb _); [done|].
  apply refines_pbind; [done|]. intros n q. destruct (skip_space q); [done|]. destruct (Ascii.eqb _ ":"); [apply H|done].
Qed.

Lemma more_fuel fuel fuel' depth s : (fuel <= fuel')%nat ->
  refines (value fuel depth s) (value fuel' depth s) /\ refines (elements fuel depth s) (elements fuel' depth s) /\
  refines (members fuel depth s) (members fuel' depth s).
Proof.
  revert fuel' depth s. induction fuel as [|fuel IH]; intros fuel' depth s Hf; [split_and!; by intros []|].
  destruct fuel' as [|fuel']; [lia|]. apply le_S_n in Hf.
  assert (IHv := fun d s => proj1 (IH fuel' d s Hf)).
  assert (IHe := fun d s => proj1 (proj2 (IH fuel' d s Hf))).
  assert (IHm := fun d s => proj2 (proj2 (IH fuel' d s Hf))). clear IH. split_and!.
  - cbn [value]. destruct (skip_space s) as [|c q]; [done|]. destruct (Ascii.eqb c quote_char); [done|].
    destruct (Ascii.eqb c "["); [destruct depth; [done|]; apply refines_opened, IHe|].
    destruct (Ascii.eqb c "{"); [destruct depth; [done|]; apply refines_opened, IHm|done].
  - cbn [elements]. apply refines_pbind; [apply IHv|]. intros v r. apply refines_next. intros q. apply refines_pmap, IHe.
  - cbn [members]. apply refines_key. intros n r. apply refines_pbind; [apply IHv|]. intros v q. apply refines_next.
    intros w. apply refines_pmap, IHm.
Qed.

(** The answer does not depend on the fuel, as long as it is enough. *)
Lemma value_fuel fuel fuel' depth s v r :
  value fuel depth s = Parsed v r -> (2 * String.length s + 1 <= fuel')%nat -> value fuel' depth s = Parsed v r.
Proof.
  intros H Hf. destruct (fuel_suffices fuel' depth s) as [Ho _]. specialize (Ho Hf).
  destruct (Nat.le_ge_cases fuel fuel') as [Hle|Hle].
  - destruct (more_fuel fuel fuel' depth s Hle) as (Hr & _). rewrite Hr; [done|]. by rewrite H.
  - destruct (more_fuel fuel' fuel depth s Hle) as (Hr & _). rewrite <- Hr; [done|]. by intros E; rewrite E in Ho.
Qed.

(** ** Printed arrays *)

(** A text that is one value, without white space in front, as [json.Marshal] prints it. *)
Definition json_text (depth : nat) (s : string) : Prop :=
  skip_space s = s /\ exists fuel v, value fuel depth s = Parsed v "".

Lemma text_nonempty depth s : json_text depth s -> s <> ""%string.
Proof. intros [Hs (fuel & v & H)] ->. by apply value_nonempty in H. Qed.

Lemma head_not_closing depth e : json_text depth e -> exists c r, e = String c r /\ json_space c = false /\ Ascii.eqb c "]" = false.
Proof.
  intros [Hs (fuel & v & H)]. destruct e as [|c r]; [by apply value_nonempty in H|]. exists c, r. split; [done|].
  assert (Hc : json_space c = false).
  { destruct (json_space c) eqn:E; [|done]. cbn [skip_space] in Hs. rewrite E in Hs. exfalso.
    pose proof (skip_space_length r) as Hl. rewrite Hs in Hl. cbn in Hl. lia. }
  split; [done|]. destruct (Ascii.eqb_spec c "]") as [->|]; [|done]. destruct fuel; by cbn in H.
Qed.

Lemma skip_text s t : skip_space s = s -> s <> ""%string -> skip_space (String.append s t) = String.append s t.
Proof. intros Hs Hn. destruct s as [|c s]; [done|]. by rewrite (skip_space_app _ c s t Hs). Qed.

Lemma substring_all s t : String.substring 0 (String.length s) (String.append s t) = s.
Proof. induction s as [|c s IH]; [by destruct t|]. rewrite sapp_cons. cbn [String.length String.substring]. by rewrite IH. Qed.

Lemma text_before_text s t : skip_space s = s -> s <> ""%string -> text_before (String.append s t) t = s.
Proof.
  intros Hs Hn. unfold text_before. rewrite skip_text, length_sapp by done. rewrite Nat.add_sub. apply substring_all.
Qed.

Lemma value_text fuel depth s t :
  json_text depth s -> delim t -> (2 * String.length (String.append s t) + 1 <= fuel)%nat ->
  exists v, value fuel depth (String.append s t) = Parsed v t.
Proof.
  intros [Hs (f & v & H)] Ht Hf. exists v.
  apply (value_fuel f); [|done]. by apply (proj1 (parsed_stable t Ht f depth)) in H.
Qed.

(** The texts separated by commas and closed. *)
Fixpoint joined (es : list string) : string :=
  match es with
  | [] => "]"
  | [e] => String.append e "]"
  | e :: es => String.append e (String "," (joined es))
  end.

Lemma elements_joined fuel depth es t :
  es <> [] -> Forall (json_text depth) es -> (2 * String.length (String.append (joined es) t) + 2 <= fuel)%nat ->
  exists l, elements fuel depth (String.append (joined es) t) = Parsed l t /\ map fst l = es.
Proof.
  revert fuel. induction es as [|e es IH]; intros fuel Hne Hes Hf; [done|]. apply Forall_cons in Hes as [He Hes].
  pose proof (text_nonempty depth e He) as Hn. destruct fuel as [|fuel]; [lia|]. cbn [elements].
  assert (Happ : forall u, String.append (String.append e u) t = String.append e (String.append u t)).
  { intros u. clear. induction e as [|c e IH]; [done|]. by rewrite !sapp_cons, IH. }
  destruct es as [|e' es].
  - cbn [joined] in *. rewrite Happ in *. change (String.append "]" t) with (String "]" t) in *.
    destruct (value_text fuel depth e (String "]" t) He) as [v Hv]; [constructor; set_solver|lia|].
    rewrite Hv. cbn [pbind next skip_space json_space]. exists [(e, v)]. split; [|done].
    rewrite text_before_text by (done || apply He). done.
  - change (joined (e :: e' :: es)) with (String.append e (String "," (joined (e' :: es)))) in *. rewrite Happ, sapp_cons in *.
    destruct (value_text fuel depth e (String "," (String.append (joined (e' :: es)) t)) He) as [v Hv]; [constructor; set_solver|lia|].
    rewrite Hv. cbn [pbind]. rewrite text_before_text by (done || apply He).
    unfold next. cbn [skip_space]. change (json_space ",") with false. cbn iota. change (Ascii.eqb "," ",") with true. cbn iota.
    destruct (IH fuel) as (l & Hl & El); [done|done| |].
    { rewrite length_sapp in Hf. cbn [String.length] in Hf. lia. }
    rewrite Hl. exists ((e, v) :: l). cbn. by rewrite El.
Qed.
