(* ===== verification/JsonFloat.v ===== *)
(** * Numbers in JSON text

    How the JSON encoder writes integers and floats: a float as the shortest decimal that reads back as it, in
    positional notation or, when very small or very large, with an exponent.  What it writes is a JSON number and
    [strconv.ParseFloat] reads the float back. *)

From Stdlib Require Import Strings.Ascii Floats.SpecFloat.
From stdpp Require Import base tactics numbers option list strings.
From S2P Require Import Prelude GoFloat GoText GoStrconv Json.
Open Scope go_scope.

(** ** The shortest decimal *)

(** The two integers around [a / b], the nearer one first. *)
Definition neighbours (a b : Z) : list Z :=
  let '(q, r) := Z.div_eucl a b in
  if (2 * r <? b) || ((2 * r =? b) && Z.even q) then [q; q + 1] else [q + 1; q].

(** [n / d] in units of [10^k]. *)
Definition over (n d k : Z) : Z * Z := if 0 <=? k then (n, d * 10 ^ k) else (n * 10 ^ (- k), d).

(** The least power of ten above [n / d]: the estimate from the binary logarithms is at most three too small. *)
Definition magnitude (n d : Z) : Z :=
  let e := (Z.log2 n - Z.log2 d) * 1233 / 4096 - 1 in
  default (e + 3) (List.find (fun k => let '(a, b) := over n d k in a <? b) [e; e + 1; e + 2]).

Definition same_float (x y : f64) : bool :=
  match x, y with
  | S754_finite s m e, S754_finite t n f => Bool.eqb s t && Pos.eqb m n && Z.eqb e f
  | _, _ => false
  end.

(** The decimal [d * 10^k] of [n] digits that reads as [x], if there is one; the exponents of floats are within 400. *)
Definition with_digits (x : f64) (num den mag : Z) (n : Z) : option (Z * Z) :=
  let k := mag - n in
  let '(a, b) := over num den k in
  List.find (fun '(d, k) => (0 <? d) && (d <? 10 ^ 18) && (Z.abs k <? 400) && same_float (f64_scaled d 10 k) x)
    (map (fun d => if d =? 10 ^ n then (1, mag) else (d, k)) (neighbours a b)).

(** 17 digits tell any two floats apart. *)
Definition shortest (m : positive) (e : Z) : option (Z * Z) :=
  let '(num, den) := if 0 <=? e then (Zpos m * 2 ^ e, 1) else (Zpos m, 2 ^ (- e)) in
  let mag := magnitude num den in
  fold_left (fun o n => match o with Some r => Some r | None => with_digits (S754_finite false m e) num den mag n end)
    [1; 2; 3; 4; 5; 6; 7; 8; 9; 10; 11; 12; 13; 14; 15; 16; 17] None.

(** ** The text *)

Fixpoint zeros (n : nat) : string := match n with O => EmptyString | S n => String "0" (zeros n) end.

(** The first [n] bytes of a text and the others. *)
Fixpoint split_at (n : nat) (s : string) : string * string :=
  match n, s with
  | S n, String c s => let '(a, b) := split_at n s in (String c a, b)
  | _, _ => (EmptyString, s)
  end.

(** The integer part, the fraction and the exponent of [d * 10^k]; [exp] chooses the notation with one digit in
    front of the point. *)
Definition positional (ds : string) (k : Z) : string * string :=
  let dp := slength ds + k in
  if dp <=? 0 then ("0"%string, String.append (zeros (Z.to_nat (- dp))) ds)
  else if 0 <=? k then (String.append ds (zeros (Z.to_nat k)), ""%string)
  else split_at (Z.to_nat dp) ds.

Definition frac_text (f : string) : string := if String.eqb f "" then ""%string else String "." f.
Definition exp_text (e : Z) : string := String "e" (String (if e <? 0 then "-" else "+") (itoa (Z.abs e))).

Definition layout (exp : bool) (d k : Z) : string :=
  let ds := itoa d in
  if exp then
    let '(i, f) := split_at 1 ds in
    String.append i (String.append (frac_text f) (exp_text (slength ds + k - 1)))
  else
    let '(i, f) := positional ds k in String.append i (frac_text f).

(** [floatEncoder]: infinities and NaN are an error. *)
Definition json_float (x : f64) : option string :=
  match x with
  | S754_zero s => Some (if s then "-0" else "0")%string
  | S754_finite s m e =>
      let a := S754_finite false m e in
      '(d, k) ← shortest m e;
      let t := layout (f64_ltb a (f64_lit 1 1000000) || f64_leb (f64_of_Z (10 ^ 21)) a) d k in
      Some (if s then String "-" t else t)
  | _ => None
  end.

Example floats1 : map json_float [f64_lit 1 10; f64_of_Z 1500; f64_lit (-1) 3; f64_lit 5 10000000; f64_of_Z (10 ^ 21);
    f64_lit 123456 1000; S754_finite false 1 (-1074); f64_lit 1 1000000; S754_zero true; S754_nan;
    S754_finite false 4503599627370496 (-1069)] =
  map Some ["0.1"; "1500"; "-0.3333333333333333"; "5e-7"; "1e+21"; "123.456"; "5e-324"; "0.000001"; "-0"]%string ++
  [None; Some "7.120236347223045e-307"%string].
Proof. by vm_compute. Qed.

(** ** Digits *)

Definition digits (s : string) : bool := all_bytes is_digit s.

Fixpoint dec_val (s : string) (acc : Z) : Z :=
  match s with EmptyString => acc | String c s => dec_val s (10 * acc + (byte_at c - 48)) end.

Lemma digits_app s t : digits (String.append s t) = digits s && digits t.
Proof. apply all_bytes_app. Qed.

Lemma dec_val_app s t acc : dec_val (String.append s t) acc = dec_val t (dec_val s acc).
Proof. revert acc. induction s as [|c s IH]; intros acc; [done|]. rewrite sapp_cons. cbn [dec_val]. apply IH. Qed.

Lemma dec_val_acc s acc : dec_val s acc = acc * 10 ^ slength s + dec_val s 0.
Proof.
  revert acc. induction s as [|c s IH]; intros acc; [change (slength "") with 0; cbn [dec_val]; lia|]. cbn [dec_val]. rewrite (IH (10 * acc + _)), (IH (10 * 0 + _)).
  unfold slength. cbn [String.length]. rewrite Nat2Z.inj_succ, Z.pow_succ_r by lia. ring.
Qed.

Lemma zeros_digits n : digits (zeros n) = true.
Proof. by induction n. Qed.

Lemma zeros_val n acc : dec_val (zeros n) acc = acc * 10 ^ Z.of_nat n.
Proof.
  revert acc. induction n as [|n IH]; intros acc; [cbn [zeros dec_val]; lia|]. cbn [zeros dec_val].
  rewrite IH. change (byte_at "0" - 48) with 0. rewrite Nat2Z.inj_succ, Z.pow_succ_r by lia. ring.
Qed.

Lemma digit_byte n : 0 <= n < 10 -> is_digit (digit n) = true /\ byte_at (digit n) = 48 + n.
Proof.
  intros H. assert (Hb : byte_at (digit n) = 48 + n).
  { unfold digit, byte_at. rewrite Ascii.nat_ascii_embedding by lia. lia. }
  split; [|done]. unfold is_digit. rewrite Hb. lia.
Qed.

Lemma slength_nat_app s t : String.length (String.append s t) = (String.length s + String.length t)%nat.
Proof. induction s as [|c s IH]; [done|]. rewrite sapp_cons. cbn [String.length]. by rewrite IH. Qed.

(** The digits of a number, without a leading zero unless it is 0. *)
Lemma dec_digits_spec fuel n acc : 0 <= n < 10 ^ Z.of_nat fuel -> (0 < fuel)%nat ->
  exists c s, dec_digits fuel n acc = String c (String.append s acc) /\ digits (String c s) = true /\
    dec_val (String c s) 0 = n /\ (Ascii.eqb c "0" = true -> s = ""%string) /\ (String.length s < fuel)%nat.
Proof.
  revert n acc. induction fuel as [|fuel IH]; intros n acc Hn Hf; [lia|]. cbn [dec_digits].
  pose proof (digit_byte (n mod 10) ltac:(apply Z.mod_pos_bound; lia)) as [Hd Hb].
  assert (Hmod : n = 10 * (n / 10) + n mod 10) by (apply Z.div_mod; lia).
  destruct (Z.ltb_spec n 10).
  - exists (digit (n mod 10)), ""%string. split; [done|]. split; [unfold digits; cbn [all_bytes]; by rewrite Hd|].
    cbn [dec_val]. rewrite Hb, (Z.mod_small n) by lia. split_and!; [lia|done|cbn; lia].
  - rewrite Nat2Z.inj_succ, Z.pow_succ_r in Hn by lia.
    destruct (IH (n / 10) (String (digit (n mod 10)) acc)) as (c & s & -> & Hds & Hv & Hz & Hl).
    { split; [apply Z.div_pos; lia|apply Z.div_lt_upper_bound; lia]. }
    { destruct fuel; [change (Z.of_nat 0) with 0 in Hn; lia|lia]. }
    exists c, (String.append s (String (digit (n mod 10)) "")). split; [by rewrite <- sapp_assoc|]. rewrite <- sapp_cons. split_and!.
    + rewrite digits_app, Hds. unfold digits. cbn [all_bytes]. by rewrite Hd.
    + rewrite dec_val_app, Hv. cbn [dec_val]. rewrite Hb. lia.
    + intros H0. specialize (Hz H0). subst s. apply Ascii.eqb_eq in H0. subst c.
      assert (n / 10 = 0) by (by rewrite <- Hv). assert (1 <= n / 10) by (apply Z.div_le_lower_bound; lia). lia.
    + rewrite slength_nat_app. cbn [String.length]. lia.
Qed.

Lemma itoa_digits n : 0 <= n < 10 ^ 20 ->
  exists c s, itoa n = String c s /\ digits (String c s) = true /\ dec_val (String c s) 0 = n /\ (Ascii.eqb c "0" = true -> s = ""%string) /\ (String.length s < 20)%nat.
Proof.
  intros Hn. unfold itoa. rewrite (proj2 (Z.ltb_ge n 0)) by lia.
  destruct (dec_digits_spec 20 n "" Hn) as (c & s & -> & H); [lia|]. exists c, s. by rewrite sapp_nil_r.
Qed.

Lemma split_at_app n s a b : split_at n s = (a, b) -> s = String.append a b.
Proof.
  revert s a b. induction n as [|n IH]; intros s a b; [by destruct s; intros [= <- <-]|].
  destruct s as [|c s]; [by intros [= <- <-]|]. cbn [split_at]. destruct (split_at n s) as [a' b'] eqn:E.
  intros [= <- <-]. rewrite sapp_cons. f_equal. by apply IH.
Qed.

Lemma split_at_length n s a b : split_at n s = (a, b) -> (n <= String.length s)%nat -> String.length a = n.
Proof.
  revert s a b. induction n as [|n IH]; intros s a b; [by destruct s; intros [= <- <-]|].
  destruct s as [|c s]; [cbn; lia|]. cbn [split_at String.length]. destruct (split_at n s) as [a' b'] eqn:E.
  intros [= <- <-] Hn. cbn [String.length]. f_equal. apply (IH s a' b'); [done|lia].
Qed.

(** ** Reading a decimal text *)

Lemma digit_of_digit c : is_digit c = true -> digit_of 10 c = Some (byte_at c - 48) /\ Ascii.eqb c "_" = false /\ Ascii.eqb c "." = false.
Proof.
  intros H. unfold is_digit in H. rewrite andb_true_iff, !Z.leb_le in H. unfold digit_of, lower_ascii.
  rewrite bool_decide_false by (unfold byte_at in *; lia). fold (byte_at c).
  rewrite (proj2 (Z.leb_le 48 _)), (proj2 (Z.leb_le _ 57)) by lia. cbn [andb].
  split; [done|]. split; apply Ascii.eqb_neq; intros ->; destruct H as [Ha Hb]; first [by apply Ha|by apply Hb].
Qed.

Lemma mantissa_digits s rest m f dot dg un : digits s = true ->
  read_mantissa 10 (String.append s rest) m f dot dg un =
  read_mantissa 10 rest (dec_val s m) (if dot then f + slength s else f) dot (dg || negb (String.eqb s "")) un.
Proof.
  revert m f dg. induction s as [|c s IH]; intros m f dg Hd.
  - cbn. rewrite orb_false_r. destruct dot; [|done]. by rewrite Z.add_0_r.
  - unfold digits in Hd. cbn [all_bytes] in Hd. apply andb_true_iff in Hd as [Hc Hs].
    destruct (digit_of_digit c Hc) as (H1 & H2 & H3). rewrite sapp_cons. cbn [read_mantissa]. rewrite H1, H2, H3, IH by done.
    cbn [dec_val]. unfold slength. cbn [String.length]. rewrite Nat2Z.inj_succ.
    change (negb (String.eqb (String c s) "")) with true. rewrite orb_true_r, orb_true_l.
    destruct dot; [|done]. f_equal. lia.
Qed.

Lemma exponent_digits s : forall e un, digits s = true -> 0 <= e -> dec_val s e < 10000 -> read_exponent s e un = (dec_val s e, un, ""%string).
Proof.
  induction s as [|c s IH]; intros e un Hd He Hlt; [done|].
  unfold digits in Hd. cbn [all_bytes] in Hd. apply andb_true_iff in Hd as [Hc Hs].
  destruct (digit_of_digit c Hc) as (H1 & H2 & _). cbn [read_exponent dec_val] in *. rewrite H1, H2.
  unfold is_digit in Hc. rewrite andb_true_iff, !Z.leb_le in Hc.
  assert (Hmono : forall s acc, digits s = true -> 0 <= acc -> acc <= dec_val s acc).
  { clear. induction s as [|c s IH]; intros acc Hd Ha; [cbn; lia|]. unfold digits in Hd. cbn [all_bytes] in Hd.
    apply andb_true_iff in Hd as [Hc Hs]. unfold is_digit in Hc. rewrite andb_true_iff, !Z.leb_le in Hc. cbn [dec_val].
    specialize (IH (10 * acc + (byte_at c - 48)) Hs ltac:(lia)). lia. }
  pose proof (Hmono s (10 * e + (byte_at c - 48)) Hs ltac:(lia)). rewrite (proj2 (Z.ltb_lt e 10000)) by lia. by apply IH; [|lia|].
Qed.

(** A sign, an integer part, a fraction and an exponent. *)
Definition num_text (neg : bool) (i f : string) (oe : option Z) : string :=
  let t := String.append i (String.append (frac_text f) (match oe with Some e => exp_text e | None => "" end)) in
  if neg then String "-" t else t.

Lemma exp_text_digits e : Z.abs e < 10000 -> exists c s, itoa (Z.abs e) = String c s /\ digits (String c s) = true /\
  dec_val (String c s) 0 = Z.abs e.
Proof. intros He. destruct (itoa_digits (Z.abs e)) as (c & s & H1 & H2 & H3 & _); [lia|]. by exists c, s. Qed.

(** No byte of such a text is an x. *)
Definition no_x (c : ascii) : bool := negb (Ascii.eqb (lower_ascii c) "x").

Lemma digit_no_x c : is_digit c = true -> no_x c = true.
Proof. destruct c as [[] [] [] [] [] [] [] []]; vm_compute; congruence. Qed.

Lemma tail_no_x f oe : digits f = true -> (forall e, oe = Some e -> Z.abs e < 10000) ->
  all_bytes no_x (String.append (frac_text f) (match oe with Some e => exp_text e | None => "" end)) = true.
Proof.
  intros Hf He. rewrite all_bytes_app. apply andb_true_iff. split.
  - unfold frac_text. destruct (String.eqb f ""); [done|]. cbn [all_bytes]. apply (all_bytes_impl is_digit no_x); [apply digit_no_x|done].
  - destruct oe as [e|]; [|done]. unfold exp_text. destruct (exp_text_digits e) as (c & s & -> & Hd & _); [by apply He|].
    cbn [all_bytes]. change (no_x "e") with true. assert (no_x (if e <? 0 then "-" else "+") = true) as -> by (by destruct (e <? 0)).
    exact (all_bytes_impl is_digit no_x _ digit_no_x Hd).
Qed.

Lemma hex_prefix_none s : all_bytes no_x s = true -> hex_prefix s = None.
Proof.
  intros H. unfold hex_prefix. destruct s as [|a [|x [|c r]]]; [done|by destruct a as [[] [] [] [] [] [] [] []]..|].
  cbn [all_bytes] in H. rewrite !andb_true_iff in H. destruct H as (_ & Hx & _). unfold no_x in Hx. apply negb_true_iff in Hx.
  rewrite Hx. by destruct a as [[] [] [] [] [] [] [] []].
Qed.

Lemma fold_digit c s x y : is_digit c = true -> is_digit (lower_ascii x) = false -> equal_fold (String c s) (String x y) = false.
Proof.
  intros Hc Hx. unfold equal_fold. cbn [map_bytes]. apply String.eqb_neq. intros [= H _].
  assert (lower_ascii c = c) as Hl.
  { unfold lower_ascii, is_digit, byte_at in *. rewrite bool_decide_false; [done|]. lia. }
  congruence.
Qed.

Lemma mantissa_stop oe m f dot dg un :
  read_mantissa 10 (match oe with Some e => exp_text e | None => "" end) m f dot dg un =
  (m, f, dg, un, match oe with Some e => exp_text e | None => "" end)%string.
Proof. by destruct oe. Qed.

Lemma parse_num_text neg i f oe :
  digits i = true -> i <> ""%string -> digits f = true -> (forall e, oe = Some e -> Z.abs e < 10000) ->
  ParseFloat (num_text neg i f oe) =
    let v := f64_scaled (dec_val f (dec_val i 0)) 10 (default 0 oe - slength f) in
    if f64_is_inf v then None else Some (if neg then SFopp v else v).
Proof.
  intros Hi Hne Hf He. unfold num_text. set (E := match oe with Some e => exp_text e | None => "" end) in *.
  set (t := String.append i (String.append (frac_text f) E)).
  assert (Ht : exists c s, t = String c s /\ is_digit c = true).
  { destruct i as [|c i]; [done|]. exists c, (String.append i (String.append (frac_text f) E)). split; [done|].
    unfold digits in Hi. cbn [all_bytes] in Hi. by apply andb_true_iff in Hi as [? _]. }
  destruct Ht as (c & s & Et & Hc).
  assert (Hsign : read_sign t = (false, t)).
  { rewrite Et. cbn [read_sign]. destruct (Ascii.eqb_spec c "-") as [->|]; [done|]. by destruct (Ascii.eqb_spec c "+") as [->|]. }
  assert (Hread : read_sign (if neg then String "-" t else t) = (neg, t)) by (destruct neg; [done|exact Hsign]).
  assert (Hspecial : special_float (if neg then String "-" t else t) = None).
  { unfold special_float. rewrite Hread. rewrite Et. rewrite !fold_digit by done. cbn [orb].
    destruct neg; [by unfold equal_fold|by rewrite fold_digit]. }
  assert (Hx : all_bytes no_x t = true).
  { unfold t. rewrite all_bytes_app, (all_bytes_impl is_digit no_x _ digit_no_x Hi). by apply tail_no_x. }
  unfold ParseFloat. rewrite Hspecial, Hread, (hex_prefix_none t Hx). unfold t. rewrite (mantissa_digits i) by done.
  assert (Hm : read_mantissa 10 (String.append (frac_text f) E) (dec_val i 0) 0 false true false =
    (dec_val f (dec_val i 0), slength f, true, false, E)).
  { unfold frac_text. destruct (String.eqb_spec f "") as [->|Hfe].
    - exact (mantissa_stop oe _ _ _ _ _).
    - rewrite sapp_cons. cbn [read_mantissa]. change (Ascii.eqb "." "_") with false. change (Ascii.eqb "." ".") with true. cbn iota.
      rewrite (mantissa_digits f) by done. cbn [orb]. by rewrite (mantissa_stop oe), Z.add_0_l. }
  assert (negb (String.eqb i "") = true) as Hi' by (by apply negb_true_iff, String.eqb_neq).
  rewrite Hi', orb_true_r, Hm. cbn [negb]. unfold E. clear -He. destruct oe as [e|]; [|done].
  unfold exp_text. cbn [default]. change (Ascii.eqb (lower_ascii "e") (if 10 =? 16 then "p"%char else "e"%char)) with true. cbn iota.
  destruct (exp_text_digits e) as (c & s & -> & Hd & Hv); [by apply He|].
  assert (read_sign (String (if e <? 0 then "-" else "+") (String c s)) = (e <? 0, String c s)) as -> by (by destruct (e <? 0)).
  pose proof Hd as Hc. unfold digits in Hc. cbn [all_bytes] in Hc. apply andb_true_iff in Hc as [Hc _].
  rewrite (proj1 (digit_of_digit c Hc)), exponent_digits by (try done; try lia; rewrite Hv; by apply He). rewrite Hv. cbn [mbind option_bind].
  change (negb (String.eqb "" "")) with false. cbn [andb]. cbn iota. cbv zeta.
  assert ((if e <? 0 then - Z.abs e else Z.abs e) = e) as -> by (destruct (Z.ltb_spec e 0); lia). done.
Qed.

(** ** The texts are JSON numbers *)

Definition ends_digits (s : string) : bool := match s with String c _ => negb (is_digit c) | EmptyString => true end.

Lemma take_digits_all s rest : digits s = true -> ends_digits rest = true -> take_digits (String.append s rest) = (s, rest).
Proof.
  intros Hs Hr. induction s as [|c s IH].
  - destruct rest as [|c rest]; [done|]. cbn [ends_digits] in Hr. apply negb_true_iff in Hr. cbn [String.append take_digits].
    change (String.append "" (String c rest)) with (String c rest). cbn [take_digits]. by rewrite Hr.
  - unfold digits in Hs. cbn [all_bytes] in Hs. apply andb_true_iff in Hs as [Hc Hs]. rewrite sapp_cons. cbn [take_digits].
    by rewrite Hc, IH.
Qed.

Lemma number_num_text neg i f oe :
  digits i = true -> (exists c r, i = String c r /\ (Ascii.eqb c "0" = true -> r = ""%string)) -> digits f = true ->
  (forall e, oe = Some e -> Z.abs e < 10000) ->
  read_number (num_text neg i f oe) = Some (num_text neg i f oe, ""%string).
Proof.
  intros Hi (c & r & Ei & Hz) Hf He. unfold num_text. set (E := match oe with Some e => exp_text e | None => "" end) in *.
  set (t := String.append i (String.append (frac_text f) E)).
  assert (HE : ends_digits E = true) by (subst E; by destruct oe).
  assert (Hrest : ends_digits (String.append (frac_text f) E) = true).
  { unfold frac_text. by destruct (String.eqb f ""). }
  assert (Hsign : num_sign (if neg then String "-" t else t) = (if neg then "-" else "", t)%string).
  { destruct neg; [done|]. unfold t. rewrite Ei in *. clear -Hi. unfold digits in Hi. cbn [all_bytes] in Hi.
    apply andb_true_iff in Hi as [Hc _]. rewrite sapp_cons. by destruct c as [[] [] [] [] [] [] [] []]. }
  unfold read_number. rewrite Hsign. unfold t. rewrite take_digits_all by done.
  assert (Hok : match i with EmptyString => false | String "0" r => String.eqb r "" | _ => true end = true).
  { rewrite Ei. destruct (Ascii.eqb_spec c "0") as [->|Hne]; [by rewrite Hz|]. by destruct c as [[] [] [] [] [] [] [] []]. }
  rewrite Hok. cbn [negb].
  assert (Hfrac : num_frac (String.append (frac_text f) E) = Some (frac_text f, E)).
  { unfold frac_text. destruct (String.eqb_spec f "") as [->|Hfe].
    - subst E. by destruct oe.
    - rewrite sapp_cons. cbn [num_frac]. rewrite take_digits_all by done. by rewrite (proj2 (String.eqb_neq _ _) Hfe). }
  rewrite Hfrac. cbn [mbind option_bind].
  assert (Hexp : num_exp E = Some (E, ""%string)).
  { subst E. clear -He. destruct oe as [e|]; [|done]. unfold exp_text.
    destruct (exp_text_digits e) as (c & s & -> & Hd & _); [by apply He|]. cbn [num_exp].
    change (Ascii.eqb "e" "e" || Ascii.eqb "e" "E") with true. cbn iota.
    assert (exp_sign (String (if e <? 0 then "-" else "+") (String c s)) = (String (if e <? 0 then "-" else "+") "", String c s)) as ->
      by (by destruct (e <? 0)).
    pose proof (take_digits_all (String c s) "" Hd eq_refl) as Ht. rewrite sapp_nil_r in Ht. by rewrite Ht. }
  rewrite Hexp. by destruct neg.
Qed.

Lemma layout_text exp d k : 0 < d < 10 ^ 18 -> Z.abs k < 400 -> exists i f oe,
  layout exp d k = num_text false i f oe /\ digits i = true /\ (exists c r, i = String c r /\ (Ascii.eqb c "0" = true -> r = ""%string)) /\
  digits f = true /\ (forall e, oe = Some e -> Z.abs e < 10000) /\
  f64_scaled (dec_val f (dec_val i 0)) 10 (default 0 oe - slength f) = f64_scaled d 10 k.
Proof.
  intros Hd Hk. destruct (itoa_digits d) as (c & s & Eds & Hds & Hv & Hz & Hl); [lia|].
  assert (Hc0 : Ascii.eqb c "0" = false).
  { destruct (Ascii.eqb_spec c "0") as [->|]; [|done]. rewrite (Hz eq_refl) in Hv. change (dec_val "0" 0) with 0 in Hv. lia. }
  assert (Hlen : slength (String c s) = slength s + 1) by (unfold slength; cbn [String.length]; lia).
  assert (0 <= slength s < 20) by (unfold slength; lia).
  unfold layout, positional. rewrite Eds. destruct exp.
  - exists (String c ""), s, (Some (slength (String c s) + k - 1)). assert (split_at 1 (String c s) = (String c "", s)) as -> by (by destruct s).
    pose proof Hds as Hd2. unfold digits in Hd2. cbn [all_bytes] in Hd2. apply andb_true_iff in Hd2 as [Hc Hs].
    split_and!; [done|unfold digits; cbn [all_bytes]; by rewrite Hc|by exists c, ""%string|done|intros e [= <-]; lia|].
    cbn [dec_val default]. change (dec_val s (10 * 0 + (byte_at c - 48))) with (dec_val (String c s) 0). rewrite Hv. f_equal. unfold id. lia.
  - destruct (Z.leb_spec (slength (String c s) + k) 0) as [Hdp|Hdp]; [|destruct (Z.leb_spec 0 k) as [Hk0|Hk0]].
    + exists "0"%string, (String.append (zeros (Z.to_nat (- (slength (String c s) + k)))) (String c s)), None.
      split_and!; [by unfold num_text; rewrite sapp_nil_r|done|by exists "0"%char, ""%string|by rewrite digits_app, zeros_digits|done|].
      rewrite dec_val_app, zeros_val. change (dec_val "0" 0) with 0. rewrite Z.mul_0_l, Hv. f_equal. cbn [default].
      unfold slength. rewrite slength_nat_app. assert (Hzl : forall n, String.length (zeros n) = n) by (induction n; cbn; congruence).
      rewrite Hzl. unfold slength in Hdp. lia.
    + exists (String.append (String c s) (zeros (Z.to_nat k))), ""%string, None.
      split_and!; [done|by rewrite digits_app, Hds, zeros_digits| |done|done|].
      { exists c, (String.append s (zeros (Z.to_nat k))). split; [done|]. by rewrite Hc0. }
      cbn [dec_val default]. change (0 - slength "") with 0. rewrite dec_val_app, zeros_val, Hv. rewrite Z2Nat.id by lia.
      unfold f64_scaled. assert (0 < 10 ^ k) by (apply Z.pow_pos_nonneg; lia).
      rewrite (proj2 (Z.eqb_neq d 0)), (proj2 (Z.eqb_neq (d * 10 ^ k) 0)), (proj2 (Z.leb_le 0 k)) by nia.
      cbn [Z.leb Z.compare]. by rewrite Z.pow_0_r, Z.mul_1_r.
    + destruct (split_at (Z.to_nat (slength (String c s) + k)) (String c s)) as [a b] eqn:Hsp.
      pose proof (split_at_app _ _ _ _ Hsp) as Happ. apply split_at_length in Hsp; [|unfold slength in *; cbn [String.length] in *; lia].
      exists a, b, None. rewrite Happ in Hds, Hv. rewrite digits_app in Hds. apply andb_true_iff in Hds as [Ha Hb].
      split_and!; [by unfold num_text; rewrite sapp_nil_r|done| |done|done|].
      { destruct a as [|c' a]; [cbn in Hsp; lia|]. injection Happ as <- _. exists c, a. split; [done|]. by rewrite Hc0. }
      rewrite <- dec_val_app, Hv. f_equal. cbn [default]. apply (f_equal slength) in Happ.
      assert (slength (String.append a b) = slength a + slength b) by (unfold slength; rewrite slength_nat_app; lia).
      assert (slength a = slength (String c s) + k) by (unfold slength in *; lia). lia.
Qed.

Lemma same_float_eq x y : same_float x y = true -> x = y /\ f64_is_inf x = false.
Proof.
  destruct x as [| | |s m e], y as [| | |t n f]; try done. cbn [same_float]. rewrite !andb_true_iff.
  intros [[->%eqb_prop ->%Pos.eqb_eq] ->%Z.eqb_eq]. done.
Qed.

Lemma shortest_reads m e d k : shortest m e = Some (d, k) ->
  0 < d < 10 ^ 18 /\ Z.abs k < 400 /\ f64_scaled d 10 k = S754_finite false m e.
Proof.
  unfold shortest. destruct (if 0 <=? e then _ else _) as [num den]. set (mag := magnitude num den). clearbody mag.
  assert (H : forall l o, (forall r, o = Some r -> 0 < r.1 < 10 ^ 18 /\ Z.abs r.2 < 400 /\ f64_scaled r.1 10 r.2 = S754_finite false m e) ->
    forall r, fold_left (fun o n => match o with Some r => Some r | None => with_digits (S754_finite false m e) num den mag n end) l o = Some r ->
      0 < r.1 < 10 ^ 18 /\ Z.abs r.2 < 400 /\ f64_scaled r.1 10 r.2 = S754_finite false m e).
  { induction l as [|n l IH]; intros o Ho r; [apply Ho|]. cbn [fold_left]. apply IH. clear r.
    destruct o as [r0|]; [intros r [= <-]; by apply Ho|]. intros [d' k']. unfold with_digits.
    destruct (over num den (mag - n)) as [a b]. intros Hf. apply List.find_some in Hf as [_ Hf].
    rewrite !andb_true_iff, !Z.ltb_lt in Hf. destruct Hf as [[[H1 H2] H3] H4]. apply same_float_eq in H4 as [H4 _]. by split_and!. }
  intros Hs. apply (H _ None ltac:(done) (d, k) Hs).
Qed.

(** A number in a JSON text that reads as [x]. *)
Definition number_of (t : string) (x : f64) : Prop := read_number t = Some (t, ""%string) /\ ParseFloat t = Some x.

Lemma json_float_reads x t : json_float x = Some t -> number_of t x.
Proof.
  intros H. destruct x as [s|s| |s m e]; try done.
  - destruct s; injection H as <-; by vm_compute.
  - cbn [json_float] in H. destruct (shortest m e) as [[d k]|] eqn:E; [|done]. cbn [mbind option_bind] in H.
    destruct (shortest_reads m e d k E) as (Hd & Hk & Hx). set (exp := _ || _) in H. clearbody exp. injection H as H.
    destruct (layout_text exp d k Hd Hk) as (i & f & oe & El & Hi & Hio & Hf & He & Hv).
    rewrite El in H. assert (Ht : t = num_text s i f oe) by (rewrite <- H; by destruct s). rewrite Ht. clear H Ht t. split.
    + by apply number_num_text.
    + rewrite parse_num_text; [|done|destruct Hio as (c & r & -> & _); done|done|done]. cbv zeta. rewrite Hv, Hx. cbn [f64_is_inf]. by destruct s.
Qed.

(** Floats in JSON.  Whatever float the encoder writes, the text is a JSON number and [strconv.ParseFloat] reads
    exactly that float back, the sign of a zero included; an infinity or NaN is not written. *)
Theorem json_float_exact x t (H : json_float x = Some t) : number_of t x /\ f64_is_finite x = true.
Proof. split; [by apply json_float_reads|by destruct x]. Qed.

Lemma json_float_exact_witness : number_of "-0.3333333333333333" (f64_lit (-1) 3).
Proof. apply (json_float_exact (f64_lit (-1) 3)). by vm_compute. Defined.

(** Integers are written in decimal; below 2^53 they are read back as they were. *)
Lemma int_number n : 0 <= n < 2 ^ 53 -> number_of (itoa n) (f64_of_Z n).
Proof.
  intros Hn. destruct (itoa_digits n) as (c & s & E & Hd & Hv & Hz & _); [lia|]. unfold number_of. rewrite E.
  pose proof (number_num_text false (String c s) "" None Hd) as Hr. pose proof (parse_num_text false (String c s) "" None Hd) as Hp.
  unfold num_text in Hr, Hp. cbn [frac_text String.eqb] in Hr, Hp. rewrite !sapp_nil_r in Hr, Hp. split.
  - apply Hr; [by exists c, s|done|done].
  - rewrite Hp by done. cbv zeta. change (default 0 None - slength "") with 0.
    change (dec_val "" (dec_val (String c s) 0)) with (dec_val (String c s) 0). rewrite Hv.
    assert (f64_scaled n 10 0 = f64_of_Z n) as ->.
    { unfold f64_scaled. destruct (Z.eqb_spec n 0) as [->|]; [done|]. cbn [Z.leb Z.compare]. by rewrite Z.pow_0_r, Z.mul_1_r. }
    destruct (f64_small_exact n Hn) as [_ Hf]. by destruct (f64_of_Z n).
Qed.
