(* ===== verification/JsonPrint.v ===== *)
(** * The JSON encoder

    What [json.Marshal] and an indenting [json.Encoder] print of a value, and that the decoder reads it back: the
    value itself, with the invalid bytes of its strings replaced. *)

From Stdlib Require Import Strings.Ascii.
From stdpp Require Import base tactics numbers option list sets strings.
From S2P Require Import Prelude GoText Json JsonFacts.

(** ** Strings *)

(** The bytes that stand for themselves: printable, and none of the quote, the backslash and the three that HTML
    gives a meaning. *)
Definition html_safe (c : ascii) : bool :=
  let n := byte_at c in (32 <=? n) && (n <? 128) && negb (bool_decide (n ∈ [34; 38; 60; 62; 92])).

Definition hex_char (n : Z) : ascii := byte_of (if n <? 10 then 48 + n else 87 + n).

Definition escape_ascii (c : ascii) : string :=
  let n := byte_at c in
  if html_safe c then String c ""
  else if (n =? 92) || (n =? 34) then String "\" (String c "")
  else if n =? 8 then "\b" else if n =? 12 then "\f" else if n =? 10 then "\n" else if n =? 13 then "\r"
  else if n =? 9 then "\t"
  else String.append "\u00" (String (hex_char (n / 16)) (String (hex_char (n mod 16)) "")).

(** The last byte of U+2028 or U+2029 behind their first two. *)
Definition separator (s : string) : option ascii :=
  match s with
  | String a (String b (String c _)) =>
      if (byte_at a =? 226) && (byte_at b =? 128) && ((byte_at c =? 168) || (byte_at c =? 169)) then Some c else None
  | _ => None
  end.

(** [copy] bytes of a rune are still to be passed through, [skip] bytes to be left out. *)
Fixpoint escaped (s : string) (copy skip : nat) : string :=
  match s with
  | EmptyString => EmptyString
  | String c s' =>
      match skip, copy with
      | S k, _ => escaped s' 0 k
      | O, S k => String c (escaped s' k 0)
      | O, O =>
          if byte_at c <? 128 then String.append (escape_ascii c) (escaped s' 0 0)
          else match rune_width s with
          | O => String.append "\ufffd" (escaped s' 0 0)
          | S k =>
              match separator s with
              | Some e => String.append "\u202" (String (if byte_at e =? 168 then "8" else "9") (escaped s' 0 2))
              | None => String c (escaped s' k 0)
              end
          end
      end
  end.

Definition quoted (s : string) : string := String quote_char (String.append (escaped s 0 0) dq).

(** ** Values *)

Fixpoint blanks (n : nat) : string := match n with O => EmptyString | S n => String " " (blanks n) end.

(** A break before an item at a depth, when the encoder indents (by two blanks). *)
Definition break (pretty : bool) (d : nat) : string := if pretty then String lf (blanks (2 * d)) else "".

Definition enclosed (pretty : bool) (open close : ascii) (d : nat) (items : list string) : string :=
  match items with
  | [] => String open (String close "")
  | _ => String open (String.append (break pretty (S d))
           (String.append (String.concat (String "," (break pretty (S d))) items)
             (String.append (break pretty d) (String close ""))))
  end.

Definition colon (pretty : bool) : string := if pretty then ": " else ":".

Fixpoint print (pretty : bool) (d : nat) (v : json) : string :=
  match v with
  | JNull => "null"
  | JBool b => if b then "true" else "false"
  | JNum t => t
  | JStr s => quoted s
  | JArr l => enclosed pretty "[" "]" d (map (fun '(_, x) => print pretty (S d) x) l)
  | JObj l => enclosed pretty "{" "}" d
      (map (fun '(k, x) => String.append (quoted k) (String.append (colon pretty) (print pretty (S d) x))) l)
  end.

Definition marshal (v : json) : string := print false 0 v.
(** [Encode] ends the text with a line break. *)
Definition encode_indented (v : json) : string := String.append (print true 0 v) (String lf "").

(** ** What the decoder makes of it *)

Fixpoint norm (pretty : bool) (d : nat) (v : json) : json :=
  match v with
  | JStr s => JStr (to_valid s 0)
  | JArr l => JArr (map (fun '(_, x) => (print pretty (S d) x, norm pretty (S d) x)) l)
  | JObj l => JObj (map (fun '(k, x) => (to_valid k 0, norm pretty (S d) x)) l)
  | _ => v
  end.

(** Values the encoder prints: the texts of the numbers are numbers, and the nesting is within the decoder's. *)
Fixpoint printable (depth : nat) (v : json) {struct v} : bool :=
  match v with
  | JNum t => match read_number t with Some (u, r) => String.eqb u t && String.eqb r "" | None => false end
  | JArr l | JObj l =>
      match depth with O => false | S depth => forallb (fun '(_, x) => printable depth x) l end
  | _ => true
  end.

Example print1 :
  marshal (JObj [("a", JArr [(""%string, JNum "1"); (""%string, JStr (String "<" (bytes_of [10; 195; 40; 226; 128; 168]%nat)))]); ("b", JObj [])]%string) =
  ("{" +:+ dquoted "a" +:+ ":[1," +:+ dquoted "\u003c\n\ufffd(\u2028" +:+ "]," +:+ dquoted "b" +:+ ":{}}")%stdpp.
Proof. by vm_compute. Qed.
Example print2 :
  print true 0 (JObj [("a", JArr [(""%string, JNull); (""%string, JArr [])])])%string =
  ("{" +:+ String lf "  " +:+ dquoted "a" +:+ ": [" +:+ String lf "    null," +:+ String lf "    []" +:+
   String lf "  ]" +:+ String lf "}")%stdpp.
Proof. by vm_compute. Qed.

(** ** Reading a printed string *)

Definition pushed (c : string) (o : option (string * string)) : option (string * string) :=
  match o with Some (u, r) => Some (String.append c u, r) | None => None end.

Lemma read_plain c u : (byte_at c <? 32) = false -> Ascii.eqb c quote_char = false -> Ascii.eqb c "\" = false ->
  read_string (String c u) 0 0 = match rune_width (String c u) with
    | O => pushed (encode_rune rune_error) (read_string u 0 0)
    | S k => pushed (String c "") (read_string u k 0)
    end.
Proof. intros H1 H2 H3. cbn [read_string]. by rewrite H1, H2, H3. Qed.

Lemma read_ascii c u : html_safe c = true -> read_string (String c u) 0 0 = pushed (String c "") (read_string u 0 0).
Proof.
  intros H. unfold html_safe in H. rewrite !andb_true_iff, Z.leb_le, Z.ltb_lt, negb_true_iff in H.
  destruct H as [[H1 H2] H3]. apply bool_decide_eq_false in H3.
  assert (Hne : forall e, byte_at e ∈ [34; 38; 60; 62; 92] -> Ascii.eqb c e = false)
    by (intros e He; apply Ascii.eqb_neq; by intros ->).
  rewrite read_plain.
  - assert (rune_width (String c u) = 1%nat) as ->; [|done]. unfold rune_width. by rewrite (proj2 (Z.ltb_lt _ _)).
  - by apply Z.ltb_ge.
  - apply Hne. repeat constructor.
  - apply Hne. repeat constructor.
Qed.

Lemma read_short e d u : Ascii.eqb e "u" = false -> escape_of e = Some d ->
  read_string (String "\" (String e u)) 0 0 = pushed (String d "") (read_string u 0 0).
Proof.
  intros H1 H2. cbn [read_string]. change (Ascii.eqb "\" quote_char) with false. change (byte_at "\" <? 32) with false.
  change (Ascii.eqb "\" "\") with true. cbn iota. transitivity (match escape_of e with Some d => pushed (String d "") (read_string u 0 0) | None => None end).
  - clear -H1. destruct e as [[] [] [] [] [] [] [] []]; try reflexivity; done.
  - by rewrite H2.
Qed.

Lemma read_u a b d f u n : hex4 a b d f = Some n -> is_surrogate n = false ->
  read_string (String "\" (String "u" (String a (String b (String d (String f u)))))) 0 0 = pushed (encode_rune n) (read_string u 0 0).
Proof.
  intros H1 H2. cbn [read_string]. change (Ascii.eqb "\" quote_char) with false. change (byte_at "\" <? 32) with false.
  change (Ascii.eqb "\" "\") with true. cbn iota. by rewrite H1, H2.
Qed.

Lemma byte_of_at c : byte_of (byte_at c) = c.
Proof. unfold byte_of, byte_at. rewrite Nat2Z.id. apply Ascii.ascii_nat_embedding. Qed.

Lemma byte_at_of n : 0 <= n < 256 -> byte_at (byte_of n) = n.
Proof. intros H. unfold byte_of, byte_at. rewrite Ascii.nat_ascii_embedding by lia. lia. Qed.

Lemma hex_char_digit n : 0 <= n < 16 -> hex_digit (hex_char n) = Some n.
Proof.
  intros H. unfold hex_digit, hex_char. rewrite byte_at_of by (destruct (n <? 10); lia).
  destruct (Z.ltb_spec n 10).
  - rewrite (proj2 (Z.leb_le 48 _)), (proj2 (Z.leb_le _ 57)) by lia. cbn [andb]. f_equal. lia.
  - rewrite (proj2 (Z.leb_gt _ 57)), (proj2 (Z.leb_le 97 _)), (proj2 (Z.leb_le _ 102)), andb_false_r by lia. cbn [andb]. f_equal. lia.
Qed.

(** A byte below 128 is the sequence [\u00XX] that is written for it. *)
Lemma read_hex c u : byte_at c < 128 ->
  read_string (String.append "\u00" (String (hex_char (byte_at c / 16)) (String (hex_char (byte_at c mod 16)) u))) 0 0 =
    pushed (String c "") (read_string u 0 0).
Proof.
  intros Hc. assert (H0 : 0 <= byte_at c) by (unfold byte_at; lia). rewrite !sapp_cons, sapp_nil.
  rewrite (read_u _ _ _ _ _ (byte_at c)).
  - f_equal. unfold encode_rune. by rewrite (proj2 (Z.ltb_lt _ _)), byte_of_at.
  - unfold hex4. rewrite !hex_char_digit by (split; [apply Z.div_pos || apply Z.mod_pos_bound; lia|]; first [apply Z.div_lt_upper_bound|apply Z.mod_pos_bound]; lia).
    change (hex_digit "0") with (Some 0). cbn [mbind option_bind]. f_equal. pose proof (Z.div_mod (byte_at c) 16). lia.
  - unfold is_surrogate. by rewrite (proj2 (Z.leb_gt _ _)) by lia.
Qed.

Lemma read_escaped_ascii c u : byte_at c < 128 ->
  read_string (String.append (escape_ascii c) u) 0 0 = pushed (String c "") (read_string u 0 0).
Proof.
  intros Hc. unfold escape_ascii. destruct (html_safe c) eqn:Hs; [rewrite sapp_cons; by apply read_ascii|].
  assert (Hcase : forall n e d, byte_at c = n -> Ascii.eqb e "u" = false -> escape_of e = Some d -> byte_of n = d ->
    read_string (String "\" (String e u)) 0 0 = pushed (String c "") (read_string u 0 0)).
  { intros n e d Hn He Hd Hb. rewrite (read_short e d) by done. by rewrite <- Hb, <- Hn, byte_of_at. }
  destruct (_ || _) eqn:E.
  { rewrite !sapp_cons, sapp_nil. apply orb_true_iff in E as [E|E]; apply Z.eqb_eq in E.
    - assert (c = byte_of 92) as Hb by (by rewrite <- E, byte_of_at). rewrite Hb at 1. by apply (Hcase 92 _ (byte_of 92)).
    - assert (c = byte_of 34) as Hb by (by rewrite <- E, byte_of_at). rewrite Hb at 1. by apply (Hcase 34 _ (byte_of 34)). }
  repeat match goal with |- context [ byte_at c =? ?k ] =>
    destruct (Z.eqb_spec (byte_at c) k) as [Hn|_]; [rewrite !sapp_cons, sapp_nil; by eapply (Hcase k)|] end.
  rewrite !sapp_cons, sapp_nil. by apply (read_hex c u).
Qed.

Lemma read_escaped_bad u : read_string (String.append "\ufffd" u) 0 0 = pushed (encode_rune rune_error) (read_string u 0 0).
Proof. rewrite !sapp_cons, sapp_nil. by apply read_u. Qed.

Lemma read_escaped_separator s c u : separator s = Some c ->
  read_string (String.append "\u202" (String (if byte_at c =? 168 then "8" else "9") u)) 0 0 =
    pushed (String (byte_of 226) (String (byte_of 128) (String c ""))) (read_string u 0 0).
Proof.
  intros H. assert (Hc : c = byte_of 168 \/ c = byte_of 169).
  { unfold separator in H. destruct s as [|a [|b [|d s]]]; try done. destruct (_ && _) eqn:E; [|done]. injection H as <-.
    apply andb_true_iff in E as [_ E]. clear -E. destruct d as [[] [] [] [] [] [] [] []]; (by left) || (by right) || done. }
  rewrite !sapp_cons, sapp_nil. destruct Hc as [-> | ->]; (eapply eq_trans; [eapply read_u; vm_compute; reflexivity|reflexivity]).
Qed.

(** A rune's bytes are copied. *)
Lemma rune_width_copied c s k u : rune_width (String c s) = S k ->
  (k <= String.length s)%nat /\ rune_width (String c (String.append (escaped s k 0) u)) = S k.
Proof.
  unfold rune_width. set (x := byte_at c). destruct (x <? 128) eqn:E1; [by intros [= <-]; split; [lia|]|].
  destruct s as [|b s]; [by rewrite !andb_false_r|].
  destruct (_ && _ && _) eqn:E2 at 1.
  { intros [= <-]. split; [cbn; lia|]. cbn [escaped]. rewrite sapp_cons. by rewrite E2. }
  destruct s as [|d s]; [by rewrite !andb_false_r|].
  destruct ((224 <=? x) && _ && _ && _) eqn:E3 at 1.
  { intros [= <-]. split; [cbn; lia|]. cbn [escaped]. rewrite !sapp_cons. by rewrite E2, E3. }
  destruct s as [|e s]; [by rewrite !andb_false_r|].
  destruct ((240 <=? x) && _ && _ && _ && _) eqn:E4 at 1; [|done].
  intros [= <-]. split; [cbn; lia|]. cbn [escaped]. rewrite !sapp_cons. by rewrite E2, E3, E4.
Qed.

Lemma separator_shape s c : separator s = Some c ->
  exists u, s = String (byte_of 226) (String (byte_of 128) (String c u)) /\ rune_width s = 3%nat /\ (c = byte_of 168 \/ c = byte_of 169).
Proof.
  unfold separator. destruct s as [|a [|b [|d s]]]; try done. destruct (_ && _) eqn:E; [|done]. intros [= <-].
  rewrite !andb_true_iff, orb_true_iff, !Z.eqb_eq in E. destruct E as [[Ea Eb] Ed]. exists s.
  rewrite <- (byte_of_at a), <- (byte_of_at b), Ea, Eb.
  destruct Ed as [Ed|Ed]; rewrite <- (byte_of_at d), Ed; (split_and!; [done|done|auto]).
Qed.

Lemma escaped_parse n : forall s k t, (String.length s < n)%nat -> (k <= String.length s)%nat ->
  read_string (String.append (escaped s k 0) (String quote_char t)) k 0 = Some (to_valid s k, t).
Proof.
  induction n as [|n IH]; intros s k t Hn Hk; [lia|].
  destruct s as [|c s]; [destruct k; [done|cbn in Hk; lia]|]. cbn [String.length] in Hn, Hk.
  destruct k as [|k].
  2: { cbn [escaped to_valid]. rewrite sapp_cons. cbn [read_string]. by rewrite (IH s k t) by lia. }
  cbn [escaped to_valid].
  destruct (Z.ltb_spec (byte_at c) 128) as [Ha|Ha].
  { rewrite <- sapp_assoc, read_escaped_ascii, (IH s 0%nat t) by lia.
    assert (rune_width (String c s) = 1%nat) as ->; [|done]. unfold rune_width. by rewrite (proj2 (Z.ltb_lt _ _)). }
  assert (Hc : (byte_at c <? 32) = false /\ Ascii.eqb c quote_char = false /\ Ascii.eqb c "\" = false).
  { split; [lia|]. split; apply Ascii.eqb_neq; by intros ->. }
  destruct Hc as (C1 & C2 & C3). destruct (rune_width (String c s)) as [|k] eqn:Hw.
  - rewrite <- sapp_assoc, read_escaped_bad, (IH s 0%nat t) by lia. done.
  - destruct (separator (String c s)) as [e|] eqn:Hs.
    + destruct (separator_shape _ _ Hs) as (u & [= -> ->] & Hw3 & He). rewrite Hw3 in Hw. injection Hw as <-.
      rewrite <- sapp_assoc, (sapp_cons (if byte_at e =? 168 then "8"%char else "9"%char)), (read_escaped_separator _ _ _ Hs).
      cbn [escaped to_valid]. cbn [String.length] in Hn. by rewrite (IH u 0%nat t) by lia.
    + destruct (rune_width_copied c s k (String quote_char t) Hw) as [Hk' Hw'].
      rewrite sapp_cons, read_plain, Hw' by done. by rewrite (IH s k t) by lia.
Qed.

Lemma read_quoted s t : of_option (read_string (String.append (escaped s 0 0) (String quote_char t)) 0 0) = Parsed (to_valid s 0) t.
Proof. by rewrite (escaped_parse (S (String.length s))) by lia. Qed.

(** ** White space *)

Fixpoint blank (w : string) : bool := match w with String c w => json_space c && blank w | EmptyString => true end.

Lemma skip_blank w s : blank w = true -> skip_space (String.append w s) = skip_space s.
Proof.
  induction w as [|c w IH]; [done|]. cbn [blank]. intros [Hc Hw]%andb_true_iff. rewrite sapp_cons. cbn [skip_space].
  rewrite Hc. by apply IH.
Qed.

Lemma skip_idem s : skip_space (skip_space s) = skip_space s.
Proof. induction s as [|c s IH]; [done|]. cbn [skip_space]. destruct (json_space c) eqn:E; [done|]. cbn [skip_space]. by rewrite E. Qed.

Lemma blanks_blank n : blank (blanks n) = true.
Proof. by induction n. Qed.

Lemma break_blank pretty d : blank (break pretty d) = true.
Proof. destruct pretty; [|done]. cbn [break blank]. by rewrite blanks_blank. Qed.

Lemma break_delim pretty d c t : c ∈ [","; "]"; "}"]%char -> delim (String.append (break pretty d) (String c t)).
Proof.
  intros Hc. destruct pretty; unfold break; [rewrite sapp_cons|rewrite sapp_nil]; constructor; [|set_solver].
  unfold lf. set_solver.
Qed.

Lemma value_skip fuel depth s : value fuel depth (skip_space s) = value fuel depth s.
Proof. destruct fuel as [|fuel]; [done|]. cbn [value]. by rewrite skip_idem. Qed.

Lemma text_before_skip s r : text_before (skip_space s) r = text_before s r.
Proof. unfold text_before. by rewrite skip_idem. Qed.

(** ** Items *)

Ltac lens := repeat progress (rewrite ?length_sapp in *; cbn [String.length] in *); lia.

(** A text without white space in front that is one value. *)
Definition parses (depth : nat) (e : string) (v : json) : Prop :=
  skip_space e = e /\ exists fuel, value fuel depth e = Parsed v "".

Lemma parses_nonempty depth e v : parses depth e v -> e <> ""%string.
Proof. intros [Hs (fuel & H)] ->. by apply value_nonempty in H. Qed.

Lemma parses_text depth e v : parses depth e v -> json_text depth e.
Proof. intros [Hs (fuel & H)]. split; [done|]. by exists fuel, v. Qed.

Lemma value_at fuel depth w e v t :
  parses depth e v -> blank w = true -> delim t -> (2 * String.length (String.append e t) + 1 <= fuel)%nat ->
  value fuel depth (String.append w (String.append e t)) = Parsed v t /\ text_before (String.append w (String.append e t)) t = e.
Proof.
  intros Hp Hw Ht Hf. pose proof (parses_nonempty _ _ _ Hp) as Hn. destruct Hp as [Hs (f & H)].
  rewrite <- (value_skip fuel), <- text_before_skip, skip_blank by done. rewrite value_skip, text_before_skip. split.
  - apply (value_fuel f); [|done]. by apply (proj1 (parsed_stable t Ht f depth)) in H.
  - by apply text_before_text.
Qed.

Definition seps (w : string) (es : list string) : string := String.concat (String "," w) es.

Lemma seps_cons w e e' es : seps w (e :: e' :: es) = String.append e (String "," (String.append w (seps w (e' :: es)))).
Proof. reflexivity. Qed.

Lemma next_close {A} close (last more : string -> parsed A) w t :
  close ∈ ["]"; "}"]%char -> blank w = true -> next close last more (String.append w (String close t)) = last t.
Proof.
  intros Hc Hw. unfold next. rewrite skip_blank by done.
  apply elem_of_cons in Hc as [-> |[-> |[]%elem_of_nil]%elem_of_cons]; reflexivity.
Qed.

Lemma next_comma {A} close (last more : string -> parsed A) t : next close last more (String "," t) = more t.
Proof. reflexivity. Qed.

Lemma elements_at fuel depth w z es t : forall w0,
  es <> [] -> Forall (fun '(e, v) => parses depth e v) es -> blank w0 = true -> blank w = true ->
  blank z = true -> delim (String.append z (String "]" t)) ->
  let s := String.append w0 (String.append (seps w (map fst es)) (String.append z (String "]" t))) in
  (2 * String.length s + 2 <= fuel)%nat -> elements fuel depth s = Parsed es t.
Proof.
  revert fuel. induction es as [|[e v] es IH]; intros fuel w0 Hne Hes H0 Hw Hz Hd s Hf; [done|].
  apply Forall_cons in Hes as [He Hes]. destruct fuel as [|fuel]; [lia|]. subst s. cbn [elements].
  destruct es as [|[e' v'] es].
  - cbn [map fst seps String.concat] in *. rewrite length_sapp in Hf.
    destruct (value_at fuel depth w0 e v (String.append z (String "]" t)) He H0 Hd) as [-> Ht]; [lia|].
    cbn [pbind]. rewrite Ht. by apply next_close; [set_solver|].
  - cbn [map fst] in *. rewrite seps_cons in *.
    set (rest := seps w (e' :: map fst es)) in *.
    rewrite <- sapp_assoc, !length_sapp in Hf. cbn [String.length] in Hf.
    rewrite <- sapp_assoc, sapp_cons, <- sapp_assoc.
    destruct (value_at fuel depth w0 e v (String "," (String.append w (String.append rest (String.append z (String "]" t)))))
      He H0) as [-> Ht]; [constructor; set_solver| |].
    { lens. }
    cbn [pbind]. rewrite Ht, next_comma.
    assert (elements fuel depth (String.append w (String.append rest (String.append z (String "]" t)))) = Parsed ((e', v') :: es) t) as ->; [|done].
    apply (IH fuel w); try done. cbn [map fst]. fold rest. lens.
Qed.

(** The text of a member. *)
Definition member (c : string) (kv : string * string) : string := String.append (quoted kv.1) (String.append c kv.2).

Lemma key_quoted {A} (f : string -> string -> parsed A) w k b t : blank w = true -> blank b = true ->
  key f (String.append w (String.append (quoted k) (String.append (String ":" b) t))) = f (to_valid k 0) (String.append b t).
Proof.
  intros Hw Hb. unfold key, quoted. rewrite skip_blank by done. rewrite !sapp_cons. cbn [skip_space].
  change (json_space quote_char) with false. cbn iota. change (negb (Ascii.eqb quote_char quote_char)) with false. cbn iota.
  rewrite <- sapp_assoc. change (String.append dq ?t) with (String quote_char t). rewrite read_quoted. cbn [pbind skip_space].
  change (json_space ":") with false. done.
Qed.

Lemma members_at fuel depth w z b es t : forall w0,
  es <> [] -> Forall (fun '(k, e, v) => parses depth e v) es -> blank w0 = true -> blank w = true -> blank b = true ->
  blank z = true -> delim (String.append z (String "}" t)) ->
  let s := String.append w0 (String.append (seps w (map (fun '(k, e, v) => member (String ":" b) (k, e)) es)) (String.append z (String "}" t))) in
  (2 * String.length s + 2 <= fuel)%nat ->
  members fuel depth s = Parsed (map (fun '(k, e, v) => (to_valid k 0, v)) es) t.
Proof.
  revert fuel. induction es as [|[[k e] v] es IH]; intros fuel w0 Hne Hes H0 Hw Hb Hz Hd s Hf; [done|].
  apply Forall_cons in Hes as [He Hes]. destruct fuel as [|fuel]; [lia|]. subst s. cbn [members].
  assert (Hone : forall u, delim u -> (2 * String.length (String.append e u) + 1 <= fuel)%nat -> forall f : string -> json -> string -> parsed (list (string * json)),
    key (fun k r => pbind (value fuel depth r) (f k)) (String.append w0 (String.append (member (String ":" b) (k, e)) u)) = f (to_valid k 0) v u).
  { intros u Hu Hl f. unfold member. cbn [fst snd]. rewrite <- !sapp_assoc, key_quoted by done.
    by destruct (value_at fuel depth b e v u He Hb Hu Hl) as [-> _]. }
  destruct es as [|[[k' e'] v'] es].
  - cbn [map seps String.concat] in *. etransitivity; [apply Hone; [done|]|by apply next_close; [set_solver|]].
    unfold member in Hf. cbn [fst snd] in Hf. lens.
  - cbn [map] in *. rewrite seps_cons in *. set (rest := seps w (_ :: _)) in *.
    rewrite <- sapp_assoc, sapp_cons, <- sapp_assoc.
    etransitivity; [apply Hone; [constructor; set_solver|]|].
    2: {  rewrite next_comma.
      assert (members fuel depth (String.append w (String.append rest (String.append z (String "}" t)))) =
        Parsed (map (fun '(k, e, v) => (to_valid k 0, v)) ((k', e', v') :: es)) t) as ->; [|done].
      apply (IH fuel w); try done. cbn [map]. fold rest. lens. }
    unfold member in Hf. cbn [fst snd] in Hf. lens.
Qed.

(** ** The round trip *)

Lemma opened_at {A B} close (empty : B) wrap (body : string -> parsed A) w c q :
  blank w = true -> json_space c = false -> Ascii.eqb c close = false ->
  opened close empty wrap body (String.append w (String c q)) = pmap wrap (body (String c q)).
Proof. intros Hw Hc Hcl. unfold opened. rewrite skip_blank by done. cbn [skip_space]. by rewrite Hc, Hcl. Qed.

Lemma value_array f depth r : value (S f) (S depth) (String "[" r) = opened "]" (JArr []) JArr (elements f depth) r.
Proof. reflexivity. Qed.
Lemma value_object f depth r : value (S f) (S depth) (String "{" r) = opened "}" (JObj []) JObj (members f depth) r.
Proof. reflexivity. Qed.

Lemma json_nested_ind (P : json -> Prop) :
  P JNull -> (forall b, P (JBool b)) -> (forall t, P (JNum t)) -> (forall s, P (JStr s)) ->
  (forall l, Forall (fun '(_, x) => P x) l -> P (JArr l)) -> (forall l, Forall (fun '(_, x) => P x) l -> P (JObj l)) ->
  forall v, P v.
Proof.
  intros Hn Hb Ht Hs Ha Ho. fix IH 1. intros v.
  assert (Hall : forall l : list (string * json), Forall (fun '(_, x) => P x) l) by
    (fix go 1; intros [|[k x] l]; constructor; [apply IH|apply go]).
  destruct v; [exact Hn|apply Hb|apply Ht|apply Hs|apply Ha, Hall|apply Ho, Hall].
Qed.

Lemma parses_closed depth e v : (exists c q, e = String c q /\ json_space c = false) ->
  (exists fuel, value fuel depth e = Parsed v "") -> parses depth e v.
Proof. intros (c & q & -> & Hc) H. split; [|done]. cbn [skip_space]. by rewrite Hc. Qed.

(** An array or an object in one piece. *)
Lemma parses_array pretty d depth es :
  Forall (fun '(e, v) => parses depth e v) es -> parses (S depth) (enclosed pretty "[" "]" d (map fst es)) (JArr es).
Proof.
  intros Hes. destruct es as [|[e v] es]; [apply parses_closed; [by do 2 eexists|by exists 1%nat]|].
  apply parses_closed; [by do 2 eexists|]. cbn [map fst enclosed].
  change (String.concat (String "," ?w) ?l) with (seps w l).
  set (s := String.append (seps _ _) _). exists (S (2 * String.length s + 2)). rewrite value_array.
  assert (Hs : exists c q, s = String c q /\ json_space c = false /\ Ascii.eqb c "]" = false).
  { pose proof Hes as [He _]%Forall_cons. destruct (head_not_closing depth e) as (c & r & -> & ? & ?); [by eapply parses_text|].
    subst s. destruct es as [|[e' v'] es]; cbn [map fst]; [|rewrite seps_cons]; unfold seps; cbn [String.concat];
      rewrite !sapp_cons; by do 2 eexists. }
  destruct Hs as (c & q & Es & Hc & Hcl). rewrite Es at 2. rewrite opened_at, <- Es by (done || apply break_blank).
  assert (elements (2 * String.length s + 2) depth s = Parsed ((e, v) :: es) "") as ->; [|done].
  apply (elements_at _ depth (break pretty (S d)) (break pretty d) ((e, v) :: es) "" ""); try done;
    [apply break_blank|apply break_blank|apply break_delim; set_solver].
Qed.

Lemma parses_object pretty d depth es :
  Forall (fun '(k, e, v) => parses depth e v) es ->
  parses (S depth) (enclosed pretty "{" "}" d (map (fun '(k, e, v) => member (colon pretty) (k, e)) es))
    (JObj (map (fun '(k, e, v) => (to_valid k 0, v)) es)).
Proof.
  intros Hes. destruct es as [|[[k e] v] es]; [apply parses_closed; [by do 2 eexists|by exists 1%nat]|].
  apply parses_closed; [by do 2 eexists|]. set (es' := (k, e, v) :: es) in *.
  assert (Hb : exists b, colon pretty = String ":" b /\ blank b = true) by (destruct pretty; by eexists).
  destruct Hb as (b & -> & Hb).
  change (enclosed pretty "{" "}" d (map ?f es')) with (String "{" (String.append (break pretty (S d))
    (String.append (seps (break pretty (S d)) (map f es')) (String.append (break pretty d) (String "}" ""))))).
  set (s := String.append (seps _ _) _). exists (S (2 * String.length s + 2)). rewrite value_object.
  assert (Hs : exists q, s = String quote_char q).
  { subst s es'. destruct es as [|[[k' e'] v'] es]; cbn [map]; [|rewrite seps_cons]; unfold seps, member, quoted; cbn [String.concat fst];
      rewrite !sapp_cons; by eexists. }
  destruct Hs as (q & Es). rewrite Es at 2. rewrite opened_at, <- Es by (done || apply break_blank).
  assert (members (2 * String.length s + 2) depth s = Parsed (map (fun '(k, e, v) => (to_valid k 0, v)) es') "") as ->; [|done].
  apply (members_at _ depth (break pretty (S d)) (break pretty d) b es' "" ""); try done;
    [apply break_blank|apply break_blank|apply break_delim; set_solver].
Qed.

Lemma parses_number depth t : read_number t = Some (t, ""%string) -> parses depth t (JNum t).
Proof.
  intros H. assert (Hc : exists c q, t = String c q /\ json_space c = false /\ Ascii.eqb c quote_char = false /\
    forallb (fun x => negb (Ascii.eqb c x)) ["["; "{"; "t"; "f"; "n"]%char = true).
  { destruct t as [|c q]; [done|]. exists c, q. split; [done|].
    destruct c as [[] [] [] [] [] [] [] []]; try (split_and!; reflexivity); vm_compute in H; discriminate H. }
  destruct Hc as (c & q & -> & H1 & H2 & H3). apply parses_closed; [by do 2 eexists|]. exists 1%nat.
  cbn [forallb] in H3. rewrite !andb_true_iff, !negb_true_iff in H3. destruct H3 as (N1 & N2 & N3 & N4 & N5 & _).
  cbn [value skip_space]. by rewrite H1, H2, N1, N2, N3, N4, N5, H.
Qed.

(** The decoder reads back what the encoder printed, compact or indented. *)
Lemma print_parses v : forall pretty d depth, printable depth v = true -> parses depth (print pretty d v) (norm pretty d v).
Proof.
  induction v as [|b|t|s|l IH|l IH] using json_nested_ind; intros pretty d depth Hp.
  - apply parses_closed; [by do 2 eexists|exists 1%nat; reflexivity].
  - destruct b; (apply parses_closed; [by do 2 eexists|exists 1%nat; reflexivity]).
  - cbn [printable] in Hp. destruct (read_number t) as [[u r]|] eqn:E; [|done].
    apply andb_true_iff in Hp as [->%String.eqb_eq ->%String.eqb_eq]. by apply parses_number.
  - apply parses_closed; [by do 2 eexists|]. exists 1%nat. cbn [print norm]. unfold quoted. cbn [value skip_space].
    change (json_space quote_char) with false. change (Ascii.eqb quote_char quote_char) with true. cbn iota.
    unfold dq. by rewrite read_quoted.
  - destruct depth as [|depth]; [done|]. cbn [printable] in Hp. cbn [print norm].
    set (es := map (fun '(_, x) => (print pretty (S d) x, norm pretty (S d) x)) l).
    assert (map (fun '(_, x) => print pretty (S d) x) l = map fst es) as ->.
    { subst es. rewrite map_map. apply map_ext. by intros [k x]. }
    apply parses_array. subst es. rewrite forallb_forall in Hp. apply Forall_map. rewrite Forall_forall in IH |- *.
    intros [k x] Hin. apply (IH (k, x) Hin). apply (Hp (k, x)). by apply list_elem_of_In.
  - destruct depth as [|depth]; [done|]. cbn [printable] in Hp. cbn [print norm].
    set (es := map (fun '(k, x) => (k, print pretty (S d) x, norm pretty (S d) x)) l).
    assert (map (fun '(k, x) => String.append (quoted k) (String.append (colon pretty) (print pretty (S d) x))) l =
            map (fun '(k, e, v) => member (colon pretty) (k, e)) es) as ->.
    { subst es. rewrite map_map. apply map_ext. by intros [k x]. }
    assert (map (fun '(k, x) => (to_valid k 0, norm pretty (S d) x)) l = map (fun '(k, e, v) => (to_valid k 0, v)) es) as ->.
    { subst es. rewrite map_map. apply map_ext. by intros [k x]. }
    apply parses_object. subst es. rewrite forallb_forall in Hp. apply Forall_map. rewrite Forall_forall in IH |- *.
    intros [k x] Hin. apply (IH (k, x) Hin). apply (Hp (k, x)). by apply list_elem_of_In.
Qed.

Lemma parses_decode e v t : parses max_depth e v -> t = ""%string \/ delim t -> decode_value (String.append e t) = Parsed v t.
Proof.
  intros [Hs (f & H)] Ht. unfold decode_value. apply (value_fuel f); [|lia].
  destruct Ht as [-> |Ht]; [by rewrite sapp_nil_r|]. by apply (proj1 (parsed_stable t Ht f max_depth)) in H.
Qed.

Lemma encode_indented_decodes v : printable max_depth v = true -> unmarshal (encode_indented v) = Some (norm true 0 v).
Proof.
  intros Hp. unfold unmarshal, encode_indented.
  rewrite (parses_decode _ (norm true 0 v)); [done|by apply print_parses|right; constructor; unfold lf; set_solver].
Qed.

Lemma marshal_decodes v : printable max_depth v = true -> unmarshal (marshal v) = Some (norm false 0 v).
Proof.
  intros Hp. unfold unmarshal, marshal.
  rewrite <- (sapp_nil_r (print false 0 v)), (parses_decode _ (norm false 0 v)); [done|by apply print_parses|by left].
Qed.

(** C0: [json.Unmarshal] is the inverse of [json.Marshal], and of an encoder that indents.  Every value whose numbers
    are written as JSON numbers and that is nested no deeper than the decoder reads comes back from the text
    printed for it, with the bytes of its strings that are not UTF-8 replaced. *)
Theorem decode_encode v (Hp : printable max_depth v = true) :
  unmarshal (marshal v) = Some (norm false 0 v) /\ unmarshal (encode_indented v) = Some (norm true 0 v).
Proof. split; [by apply marshal_decodes|by apply encode_indented_decodes]. Qed.

Lemma decode_encode_witness :
  let v := JObj [("a", JArr [(""%string, JNum "-1.5e3"); (""%string, JStr (bytes_of [60; 10; 195; 40]%nat))]); ("b", JNull)]%string in
  unmarshal (marshal v) = Some (norm false 0 v).
Proof. apply decode_encode. by vm_compute. Defined.
