(* ===== verification/GetJson.v ===== *)
(** * The registry's requests ([getJSON] of [internal/router/registry.go])

    The text an endpoint answered becomes the [map[string]any] that [pollBackend] looks into: the first 4 MiB of
    whatever could be read, whatever the status, decoded as one JSON object. *)

From Stdlib Require Import Floats.SpecFloat.
From stdpp Require Import base tactics numbers option list strings gmap.
From S2P Require Import Prelude GoFloat GoText GoStrconv GoHttp Json Routing Registry.
Open Scope go_scope.

(** [m[k] = v] of a map kept as a list. *)
Fixpoint map_set (k : string) (v : Registry.Json) (m : JsonObj) : JsonObj :=
  match m with
  | [] => [(k, v)]
  | (k', v') :: m => if String.eqb k k' then (k, v) :: m else (k', v') :: map_set k v m
  end.

(** A decoded value as an [any]: numbers are floats, the last member of a name counts. *)
Fixpoint any_of (v : Json.json) : Registry.Json :=
  match v with
  | Json.JNull => JNull
  | Json.JBool b => JBool b
  | Json.JNum t => JNum (default f64_zero (ParseFloat t))
  | Json.JStr s => JStr s
  | Json.JArr l => JArr (map (fun '(_, x) => any_of x) l)
  | Json.JObj l => JObj (fold_left (fun m '(k, x) => map_set k (any_of x) m) l [])
  end.

(** Every number is within the range of a float; one that is not is an error of the decoding. *)
Fixpoint in_range (v : Json.json) : bool :=
  match v with
  | Json.JNum t => match ParseFloat t with Some _ => true | None => false end
  | Json.JArr l | Json.JObj l => forallb (fun '(_, x) => in_range x) l
  | _ => true
  end.

Definition max_answer : Z := 4 * 1024 * 1024.

(** What was read of an answer, decoded; [None]: the request failed.  A [null] leaves the map nil. *)
Definition decode_answer (page : option string) : option JsonObj :=
  body ← page;
  v ← unmarshal (String.substring 0 (Z.to_nat max_answer) body);
  match v with
  | Json.JObj _ => if in_range v then match any_of v with JObj m => Some m | _ => None end else None
  | _ => None
  end.

(** What the five endpoints answered, as text. *)
Record Pages := {
  pg_readyz : option string;
  pg_status : option string;
  pg_queue : option string;
  pg_runtime : option string;
  pg_cache : option string;
  pg_now : Z;
}.

Definition poll_paths : list string := ["/readyz"; "/v1/status"; "/v1/queue"; "/v1/runtime"; "/v1/cache"].

Section requests.
  Context {url_parser : UrlParse}.

(** The outer [None] is the panic of [client.Do] on a nil request; nothing in the goroutine of the poll recovers it. *)
Definition getJSON (url : string) (page : option string) : option (option JsonObj) :=
  with_request url (decode_answer page).

Definition answers_of (b : Backend) (p : Pages) : option Answers :=
  let get path page := getJSON (b.(be_SnapshotURL) +:+ path)%stdpp page in
  readyz ← get "/readyz"%string p.(pg_readyz);
  status ← get "/v1/status"%string p.(pg_status);
  queue ← get "/v1/queue"%string p.(pg_queue);
  runtime ← get "/v1/runtime"%string p.(pg_runtime);
  cache ← get "/v1/cache"%string p.(pg_cache);
  Some {| an_readyz := readyz; an_status := status; an_queue := queue; an_runtime := runtime; an_cache := cache;
          an_now := p.(pg_now) |}.

(** [pollBackend] over the texts. *)
Definition poll_pages (b : Backend) (p : Pages) (prevs : gmap string counterSample) :
    option (gmap string counterSample * (BackendState * option (gmap string Z))) :=
  a ← answers_of b p; Some (pollBackend b a prevs).

(** The five addresses of a backend parse. *)
Definition polls (b : Backend) : bool := parses_at b.(be_SnapshotURL) poll_paths.

(** A poll panics exactly when one of the addresses does not parse, whatever is answered. *)
Lemma answers_of_polls b p : answers_of b p =
  if polls b then
    Some {| an_readyz := decode_answer p.(pg_readyz); an_status := decode_answer p.(pg_status);
            an_queue := decode_answer p.(pg_queue); an_runtime := decode_answer p.(pg_runtime);
            an_cache := decode_answer p.(pg_cache); an_now := p.(pg_now) |}
  else None.
Proof.
  unfold answers_of, polls, parses_at, poll_paths, getJSON, with_request. cbn [forallb].
  by repeat destruct (url_parses _).
Qed.
End requests.

Example get1 :
  decode_answer (Some ("{" +:+ dquoted "a" +:+ ":1, " +:+ dquoted "b" +:+ ":[true], " +:+ dquoted "a" +:+ ":2.5}")%stdpp) =
    Some [("a", JNum (f64_lit 5 2)); ("b", JArr [JBool true])]%string /\
  map decode_answer [None; Some "null"; Some "[]"; Some "{"; Some ("{" +:+ dquoted "a" +:+ ":1e999}")%stdpp]%string = [None; None; None; None; None].
Proof. by vm_compute. Qed.
