(* ===== verification/Gateway.v ===== *)
(** * The router gateway ([internal/router/gateway.go])

    A request is handled as a pure function of what the environment does: the snapshots the registry
    holds, the answers of the sidecars, the reads and writes of the relay.  The result is the trace
    of effects in program order: events emitted, and calls on the client's [http.ResponseWriter].
    The routing policy is any [PolicyOps]; the theorems assume only [PolicyLaws].  The readings of the clock are
    inputs too, one for each call of [time.Now] and [time.Since]. *)

From Stdlib Require Import Floats.SpecFloat.
From stdpp Require Import base tactics numbers option list strings gmap.
From S2P Require Import Prelude Ordering GoFloat GoTime Model Routing CacheAware Registry GoStrconv GoHttp RequestIds Unmarshal Bodies.

(** ** Effects *)

Inductive Effect :=
  | Emit (kind reqID routeID backendID : string) (fields : list (string * Evidence))
  | HeaderSet (k v : string)
  | HeaderAdd (k v : string)
  | WriteHeader (status : Z)
  | Write (data : string)
  | WriteError (code detail reqID : string)
  | Flush
  | Send (url : string) (headers : Headers) (body backendID : string).

Record Gateway := { gw_emitter : bool; gw_maxRetries : Z }.

Definition NewGateway (emitter : bool) (maxRetries : Z) : Gateway :=
  {| gw_emitter := emitter; gw_maxRetries := maxRetries |}.

(** [emit] drops the event when there is no emitter. *)
Definition emit (g : Gateway) (kind reqID routeID backendID : string)
    (fields : list (string * Evidence)) : list Effect :=
  if g.(gw_emitter) then [Emit kind reqID routeID backendID fields] else [].

Definition httpErr (status : Z) (code reqID detail : string) : list Effect :=
  [HeaderSet "Content-Type" "application/json"; HeaderSet "X-Request-ID" reqID; WriteHeader status;
   WriteError code detail reqID].

Definition backendByID (snap : BackendSnapshot) (id : string) : option BackendState :=
  List.find (fun b => String.eqb (id_of b) id) snap.(sn_Backends).

(** ** The body

    [json.Unmarshal] into four anonymous structs.  [extractModel] and [extractMaxTokens] do not look at the error:
    what was stored before it counts. *)
Definition detectStream (body : string) : bool :=
  match checked (Unmarshal (only "stream" (into_ptr false into_bool)) body None) with Some (Some s) => s | _ => false end.
Definition extractModel (body : string) : string := (Unmarshal (only "model" into_string) body ""%string).1.
Definition extractMaxTokens (body : string) : Z := (Unmarshal (only "max_tokens" into_int) body 0).1.
Definition estimateTokens (body : string) : Z :=
  match checked (Unmarshal (only "messages" messages) body no_slice) with
  | None => 0
  | Some ms => Z.quot (content_length ms 0) 4
  end.

(** ** The upstream *)

Inductive ReadErr := EOF | ReadFailed (msg : string).

(** One turn of the relay loop: what [ReadBytes] returns, whether the write downstream fails,
    whether the client's context is done when the loop looks, and the clock after the read and at the end of
    the stream. *)
Record Turn := {
  tn_line : string;
  tn_err : option ReadErr;
  tn_writeFails : bool;
  tn_ctxDone : bool;
  tn_readAt : Z;
  tn_endAt : Z;
}.

(** An answer, and the clock when an unstreamed one has been written. *)
Record Response := {
  rp_status : Z;
  rp_header : list (string * list string);
  rp_body : string;
  rp_turns : list Turn;
  rp_firstAt : Z;
  rp_doneAt : Z;
}.

(** [g.client.Do(req)] *)
Definition Upstream : Type := (string + Response)%type.

Definition hopByHop (k : string) : bool :=
  bool_decide (k ∈ (["Connection"; "Keep-Alive"; "Transfer-Encoding"; "Upgrade"; "Proxy-Authenticate";
                    "Proxy-Authorization"; "Te"; "Trailers"] : list string)).

(** [ms(now.Sub(t))] as a field. *)
Definition ev_ms (name : string) (now t : Z) : string * Evidence := (name, EvFloat (dur_ms_float (time_sub now t))).

(** ** The relay loop

    State: has a first byte been seen, events and bytes so far.  The result is the return value, or
    [None] while the loop is still reading when the given turns end. *)
Section relay.
  Variables (g : Gateway) (reqID routeID backendID : string) (clientStart : Z).

Definition ev_events (n : Z) : string * Evidence := ("events", EvInt n).

Fixpoint relay_loop (turns : list Turn) (first : bool) (events bytesn : Z) :
    list Effect * option (string * bool) :=
  match turns with
  | [] => ([], None)
  | t :: turns =>
      let nonempty := negb (String.eqb t.(tn_line) "") in
      let e1 := if nonempty && negb first then emit g "FIRST_CLIENT_BYTE" reqID routeID backendID [ev_ms "ttft_ms" t.(tn_readAt) clientStart] else [] in
      let first := first || nonempty in
      if nonempty && t.(tn_writeFails) then
        (e1 ++ emit g "CLIENT_CANCELLED" reqID routeID backendID
                 [("phase", EvString "downstream_write_fail"); ev_events events], Some ("", true))
      else
        let e2 := if nonempty then [Write t.(tn_line); Flush] else [] in
        let events := if nonempty then wrap64 (events + 1) else events in
        let bytesn := if nonempty then wrap64 (bytesn + slen t.(tn_line)) else bytesn in
        match t.(tn_err) with
        | Some EOF =>
            (e1 ++ e2 ++ emit g "REQUEST_COMPLETED" reqID routeID backendID
                           [("stream", EvBool true); ev_events events; ("bytes", EvInt bytesn);
                            ev_ms "e2e_ms" t.(tn_endAt) clientStart],
             Some ("", true))
        | Some (ReadFailed msg) =>
            if negb first then
              if t.(tn_ctxDone) then
                (e1 ++ e2 ++ emit g "CLIENT_CANCELLED" reqID routeID backendID
                               [("phase", EvString "pre_first_byte")], Some ("", true))
              else (e1 ++ e2, Some (("stream_err_pre_first_byte:" +:+ msg)%stdpp, false))
            else if t.(tn_ctxDone) then
              (e1 ++ e2 ++ emit g "CLIENT_CANCELLED" reqID routeID backendID
                             [("phase", EvString "mid_stream"); ev_events events], Some ("", true))
            else
              (e1 ++ e2 ++ emit g "PARTIAL_STREAM_FAILED" reqID routeID backendID
                             [("err", EvString msg); ev_events events; ("bytes", EvInt bytesn)],
               Some ("", true))
        | None =>
            if t.(tn_ctxDone) then
              (e1 ++ e2 ++ emit g "CLIENT_CANCELLED" reqID routeID backendID
                             [("phase", EvString "mid_stream"); ev_events events], Some ("", true))
            else
              let '(rest, r) := relay_loop turns first events bytesn in (e1 ++ e2 ++ rest, r)
        end
  end.
End relay.

(** [for k, vals := range resp.Header]; the list is in the order of the range. *)
Definition copy_headers (h : list (string * list string)) : list Effect :=
  flat_map (fun '(k, vals) => if hopByHop k then [] else map (HeaderAdd k) vals) h.

(** ** [forward]: [(retryReason, sentToClient)]

    [FwReading]: still reading when the given turns end.  [FwPanicked]: the first use of a nil request, or
    [WriteHeader] with a code it refuses. *)
Inductive Forwarded := FwReturned (reason : string) (sent : bool) | FwReading | FwPanicked.

Definition relay_result (r : option (string * bool)) : Forwarded :=
  match r with Some (reason, sent) => FwReturned reason sent | None => FwReading end.

Definition chat_url (b : BackendState) : string := (b.(bs_Backend).(be_SidecarURL) +:+ "/v1/chat/completions")%stdpp.

Section forward.
  Context {url_parser : UrlParse}.

Definition forward (g : Gateway) (client : Headers) (b : BackendState) (body reqID routeID : string)
    (stream flushable : bool) (clientStart : Z) (up : Upstream) : list Effect * Forwarded :=
  let id := id_of b in
  let url := chat_url b in
  if negb (url_parses url) then ([], FwPanicked)
  else
  let send := [Send url (forward_headers reqID routeID id client) body id] in
  match up with
  | inl err => (send, FwReturned ("sidecar_connect_failed:" +:+ err)%stdpp false)
  | inr resp =>
      if (resp.(rp_status) =? 429) || (resp.(rp_status) =? 503) then
        (send, FwReturned ("sidecar_reject_" +:+ itoa resp.(rp_status))%stdpp false)
      else if negb stream then
        let head := send ++ copy_headers resp.(rp_header) ++
                    [HeaderSet "X-Request-ID" reqID; HeaderSet "X-Backend-ID" id] in
        if negb (writable resp.(rp_status)) then (head, FwPanicked)
        else
        (head ++ [WriteHeader resp.(rp_status); Write resp.(rp_body)] ++
         emit g "FIRST_CLIENT_BYTE" reqID routeID id [ev_ms "ttft_ms" resp.(rp_firstAt) clientStart] ++
         emit g "REQUEST_COMPLETED" reqID routeID id
           [("status", EvInt resp.(rp_status)); ("stream", EvBool false); ev_ms "e2e_ms" resp.(rp_doneAt) clientStart],
         FwReturned "" true)
      else if negb flushable then (send, FwReturned "no_flusher" false)
      else
        let '(effects, r) := relay_loop g reqID routeID id clientStart resp.(rp_turns) false 0 0 in
        (send ++ [HeaderSet "Content-Type" "text/event-stream"; HeaderSet "Cache-Control" "no-cache";
                  HeaderSet "X-Request-ID" reqID; HeaderSet "X-Backend-ID" id; WriteHeader 200] ++ effects, relay_result r)
  end.
End forward.

Definition pickAlternative (snap : BackendSnapshot) (tried : list string) : string :=
  match List.find (fun b => negb (bool_decide (id_of b ∈ tried))) (eligible snap) with
  | Some b => id_of b
  | None => ""
  end.

(** ** The attempt loop *)

(** What the environment does in one attempt: the sidecar's answer, the snapshot read after a
    failure, and the clock before the decision, after it, and after a failure. *)
Record AttemptEnv := {
  ae_up : string -> Upstream;
  ae_next : BackendSnapshot;
  ae_start : Z;
  ae_decided : Z;
  ae_failed : Z;
}.

(** The text of a decision's reason. *)
Fixpoint reason_text (r : Reason) : string :=
  let f := FormatFixed 1 in
  match r with
  | ReasonText s => s
  | ReasonMinFinish finish queue prefill uncached matched decode stale kv =>
      ("min_finish=" +:+ f finish +:+ "ms(q=" +:+ f queue +:+ "+prefill=" +:+ f prefill +:+ "[uncached=" +:+
       itoa uncached +:+ "/match=" +:+ itoa matched +:+ "]+decode=" +:+ f decode +:+ "+stale=" +:+ f stale +:+
       "+kv=" +:+ f kv +:+ ")")%stdpp
  | ReasonMaxMatched matched => ("max_matched_prefix=" +:+ itoa matched)%stdpp
  | ReasonPlus r suffix => (reason_text r +:+ suffix)%stdpp
  end.

(** How handling ends: returned, still relaying when the given turns end, or a panic, which [net/http] recovers by
    closing the connection. *)
Inductive Ending := Returned | Relaying | Panicked.

Section gateway.
  Context {P : Type} `{!PolicyOps P} `{!UrlParse}.
  Variables (g : Gateway) (client : Headers) (body reqID : string) (feat : RequestFeatures)
            (stream flushable : bool) (clientStart : Z) (env : nat -> AttemptEnv).

(** The backend an attempt uses: the policy's choice, or an untried alternative to it. *)
Definition choose_backend (snap : BackendSnapshot) (tried : list string) (d : RouteDecision) : RouteDecision :=
  if bool_decide (d.(rd_BackendID) ∈ tried) then
    let alt := pickAlternative snap tried in
    if negb (String.eqb alt "") then
      {| rd_BackendID := alt; rd_PolicyName := d.(rd_PolicyName); rd_PolicyVersion := d.(rd_PolicyVersion);
         rd_Reason := ReasonPlus d.(rd_Reason) "+retry_alt" |}
    else d
  else d.

(** [for attempt := ...; attempt <= g.maxRetries; attempt++]; [remaining] attempts remain.  [None] is a
    panic of the policy. *)
Fixpoint attempt_loop (remaining attempt : nat) (p : P) (snap : BackendSnapshot) (tried : list string)
    (lastErr : string) : option (P * list Effect * Ending) :=
  match remaining with
  | O => Some (p, httpErr 502 "ALL_ATTEMPTS_FAILED" reqID lastErr, Returned)
  | S remaining =>
      '(p, r) ← SelectBackend p feat snap;
      match r with
      | inl _ =>
          Some (p, emit g "ROUTE_ATTEMPT_FAILED" reqID "" ""
                     [("reason", EvString "no_eligible_backend"); ("attempt", EvInt (Z.of_nat attempt))] ++
                   httpErr 503 "NO_ELIGIBLE_BACKEND" reqID "no healthy backend", Returned)
      | inr d =>
          let d := choose_backend snap tried d in
          let id := d.(rd_BackendID) in
          let tried := id :: tried in
          let routeID := route_id reqID (Z.of_nat attempt) in
          match backendByID snap id with
          | None => attempt_loop remaining (S attempt) p snap tried "backend_not_in_snapshot"
          | Some b =>
              let started :=
                emit g "ROUTE_DECIDED" reqID routeID id
                  [("policy", EvString d.(rd_PolicyName)); ("policy_version", EvString d.(rd_PolicyVersion));
                   ("reason", EvString (reason_text d.(rd_Reason)));
                   ev_ms "decision_latency_ms" (env attempt).(ae_decided) (env attempt).(ae_start);
                   ("attempt", EvInt (Z.of_nat attempt))] ++
                emit g "ROUTE_ATTEMPT_STARTED" reqID routeID id [] in
              let '(effects, res) :=
                forward g client b body reqID routeID stream flushable clientStart ((env attempt).(ae_up) id) in
              match res with
              | FwReading => Some (p, started ++ effects, Relaying)
              | FwPanicked => Some (p, started ++ effects, Panicked)
              | FwReturned _ true => Some (p, started ++ effects, Returned)
              | FwReturned reason false =>
                  let failed := emit g "ROUTE_ATTEMPT_FAILED" reqID routeID id
                                  [("reason", EvString reason); ("attempt", EvInt (Z.of_nat attempt));
                                   ev_ms "wasted_ms" (env attempt).(ae_failed) (env attempt).(ae_start)] in
                  '(p, rest, e) ← attempt_loop remaining (S attempt) p (env attempt).(ae_next) tried reason;
                  Some (p, started ++ effects ++ failed ++ rest, e)
              end
          end
      end
  end.
End gateway.

(** ** The state recorded for every candidate *)

(** [byID[s.BackendID] = s] over the breakdown: the last score of an id stays. *)
Definition score_by_id (scores : list CandidateScore) (id : string) : option CandidateScore :=
  fold_left (fun o s => if String.eqb s.(cs_BackendID) id then Some s else o) scores None.

Definition candidate_fields (b : BackendState) (cs : option CandidateScore) : list (string * Evidence) :=
  [("queue_depth", EvInt b.(bs_QueueDepth)); ("queue_inflight", EvInt b.(bs_QueueInflight));
   ("queue_max", EvInt b.(bs_QueueMax)); ("runtime_running", EvFloat b.(bs_RuntimeRunning));
   ("runtime_waiting", EvFloat b.(bs_RuntimeWaiting)); ("kv_cache_util", EvFloat b.(bs_KVCacheUtil));
   ("kv_headroom", EvFloat b.(bs_KVHeadroom)); ("kv_headroom_supported", EvBool b.(bs_KVHeadroomSupported));
   ("lifecycle_state", EvString b.(bs_LifecycleState)); ("stability_score", EvFloat b.(bs_StabilityScore));
   ("snapshot_age_ms", EvInt b.(bs_SnapshotAgeMs)); ("gen_tokens_per_sec", EvFloat b.(bs_GenTokensPerSec));
   ("service_rate_supported", EvBool b.(bs_ServiceRateSupported));
   ("cache_observation_supported", EvBool b.(bs_CacheObservationSupported));
   ("cache_match_supported", EvBool b.(bs_CacheMatchSupported));
   ("cache_confidence", EvFloat b.(bs_CacheConfidence)); ("cache_ready", EvBool b.(bs_CacheReady));
   ("cache_snapshot_age_ms", EvInt b.(bs_CacheSnapshotAgeMs));
   ("cache_event_sequence", EvInt b.(bs_CacheEventSequence));
   ("cache_reset_epoch", EvInt b.(bs_CacheResetEpoch)); ("cache_index_size", EvInt b.(bs_CacheIndexSize));
   ("eligible", EvBool (isEligible b))] ++
  match cs with
  | None => []
  | Some cs =>
      [("matched_prefix_tokens", EvInt cs.(cs_MatchedPrefixTokens)); ("match_ratio", EvFloat cs.(cs_MatchRatio));
       ("uncached_prompt_tokens", EvInt cs.(cs_UncachedPromptTokens));
       ("estimated_prefill_saved_ms", EvFloat cs.(cs_EstPrefillSavedMs));
       ("est_queue_ms", EvFloat cs.(cs_EstQueueMs)); ("est_prefill_ms", EvFloat cs.(cs_EstPrefillMs));
       ("est_decode_ms", EvFloat cs.(cs_EstDecodeMs));
       ("cache_staleness_penalty_ms", EvFloat cs.(cs_StalenessPenaltyMs));
       ("kv_pressure_penalty_ms", EvFloat cs.(cs_KVPenaltyMs));
       ("final_analytical_score_ms", EvFloat cs.(cs_FinalScoreMs)); ("cache_used", EvBool cs.(cs_CacheUsed))]
  end.

Section handler.
  Context {P : Type} `{!PolicyOps P} `{!SliceSort} `{!UrlParse}.

Definition emitCandidateState (g : Gateway) (reg : Registry) (reqID : string) (feat : RequestFeatures)
    (snap : BackendSnapshot) : list Effect :=
  let scorer := NewCacheAwarePolicy DefaultCacheAwareConfig (Some (LookupPrefixTokens reg)) in
  let scores := ScoreBreakdown scorer feat snap in
  flat_map (fun b => emit g "CANDIDATE_STATE" reqID "" (id_of b)
                       (candidate_fields b (score_by_id scores (id_of b)))) snap.(sn_Backends).

(** ** The handler *)

(** The clock at the start, for a generated id, and when the snapshot has been read. *)
Record ClientRequest := {
  cr_header : Headers;
  cr_body : string + string;
  cr_start : Z;
  cr_now : Z;
  cr_snapAt : Z;
}.

Definition features (sha256 : string -> list Z) (r : ClientRequest) (body reqID : string) : RequestFeatures :=
  let '(prefixKeyHash, prefixTokens, sessionKeyHash) := extractPrefixFeatures sha256 r.(cr_header) in
  {| rf_RequestID := reqID; rf_Model := extractModel body; rf_Stream := detectStream body;
     rf_InputLenEst := estimateTokens body; rf_RequestedOutput := extractMaxTokens body;
     rf_SLOClass := header_get r.(cr_header) "X-Slo-Class"; rf_PrefixKeyHash := prefixKeyHash;
     rf_PrefixTokens := prefixTokens; rf_CacheEligible := negb (String.eqb prefixKeyHash "");
     rf_SessionKeyHash := sessionKeyHash |}.

Definition ChatCompletions (sha256 : string -> list Z) (g : Gateway) (reg : Registry) (p : P)
    (r : ClientRequest) (flushable : bool) (env : nat -> AttemptEnv) : option (P * list Effect * Ending) :=
  let reqID := orGen (header_get r.(cr_header) "X-Request-Id") "creq" r.(cr_now) in
  match r.(cr_body) with
  | inl err => Some (p, httpErr 400 "READ_BODY" reqID err, Returned)
  | inr raw =>
      let body := limit_body raw in
      let feat := features sha256 r body reqID in
      let snap := reg.(rg_snap) in
      let received :=
        emit g "REQUEST_RECEIVED" reqID "" ""
          ([("stream", EvBool feat.(rf_Stream)); ("model", EvString feat.(rf_Model));
            ("input_len_est", EvInt feat.(rf_InputLenEst))] ++
           if feat.(rf_CacheEligible) then
             [("cache_eligible", EvBool true); ("prefix_key_hash", EvString feat.(rf_PrefixKeyHash));
              ("prefix_tokens", EvInt feat.(rf_PrefixTokens))] else []) ++
        emit g "BACKEND_SNAPSHOT_READ" reqID "" ""
          [ev_ms "snapshot_age_ms" r.(cr_snapAt) snap.(sn_Timestamp); ("n_backends", EvInt (Z.of_nat (length snap.(sn_Backends))))] ++
        emitCandidateState g reg reqID feat snap in
      '(p, effects, e) ← attempt_loop g r.(cr_header) body reqID feat feat.(rf_Stream) flushable r.(cr_start) env
                           (Z.to_nat (g.(gw_maxRetries) + 1)) 0 p snap [] "";
      Some (p, received ++ effects, e)
  end.
End handler.
