(* ===== verification/GatewayFacts.v ===== *)
(** * Properties of the gateway

    What the client and the sidecars see of a handled request, read off the trace of effects. *)

From Stdlib Require Import Floats.SpecFloat.
From stdpp Require Import base tactics numbers option list strings gmap.
From S2P Require Import Prelude Ordering GoFloat GoTime GoHttp Model Routing CacheAware Registry RequestIds Json Bodies Gateway CacheProvider.

(** ** Views of a trace *)

Definition sends (t : list Effect) : list string := omap (fun e => match e with Send _ _ _ id => Some id | _ => None end) t.
(** The backends contacted, and the addresses used. *)
Definition contacts (t : list Effect) : list (string * string) :=
  omap (fun e => match e with Send url _ _ id => Some (id, url) | _ => None end) t.
Definition writes (t : list Effect) : list string := omap (fun e => match e with Write d => Some d | _ => None end) t.
Definition statuses (t : list Effect) : list Z := omap (fun e => match e with WriteHeader s => Some s | _ => None end) t.
Definition errors (t : list Effect) : list string := omap (fun e => match e with WriteError c _ _ => Some c | _ => None end) t.

(** [net/http] keeps the first status a handler writes. *)
Definition client_status (t : list Effect) : option Z := head (statuses t).

Definition is_write (e : Effect) : bool := match e with Write _ => true | _ => false end.

(** After the first relayed byte nothing is sent upstream and no error body is written;
    [seen]: has a byte been relayed. *)
Fixpoint no_reroute (seen : bool) (t : list Effect) : bool :=
  match t with
  | [] => true
  | (Send _ _ _ _ | WriteError _ _ _) :: t => negb seen && no_reroute seen t
  | Write _ :: t => no_reroute true t
  | _ :: t => no_reroute seen t
  end.

Lemma no_reroute_app seen t1 t2 :
  no_reroute seen (t1 ++ t2) = no_reroute seen t1 && no_reroute (seen || existsb is_write t1) t2.
Proof.
  revert seen. induction t1 as [|e t1 IH]; intros seen; simpl; [by rewrite orb_false_r|].
  destruct e; simpl; rewrite ?IH, ?orb_true_r, ?andb_assoc; try done.
Qed.

Lemma no_reroute_spec t :
  no_reroute false t = true ->
  forall t1 d t2, t = t1 ++ Write d :: t2 -> sends t2 = [] /\ errors t2 = [].
Proof.
  intros H t1 d t2 ->. rewrite no_reroute_app in H. apply andb_true_iff in H as [_ H]. simpl in H.
  clear t1. induction t2 as [|e t2 IH]; [done|]. destruct e; simpl in *; try (by apply IH); done.
Qed.

(** Emissions are invisible in the views. *)
Lemma emit_views g k r o b f :
  sends (emit g k r o b f) = [] /\ writes (emit g k r o b f) = [] /\ statuses (emit g k r o b f) = [] /\
  errors (emit g k r o b f) = [] /\ existsb is_write (emit g k r o b f) = false /\
  forall s, no_reroute s (emit g k r o b f) = true.
Proof. unfold emit. by destruct (gw_emitter g). Qed.

Lemma views_app t1 t2 :
  sends (t1 ++ t2) = sends t1 ++ sends t2 /\ writes (t1 ++ t2) = writes t1 ++ writes t2 /\
  statuses (t1 ++ t2) = statuses t1 ++ statuses t2 /\ errors (t1 ++ t2) = errors t1 ++ errors t2.
Proof. unfold sends, writes, statuses, errors. by rewrite !omap_app. Qed.

Lemma contacts_app t1 t2 : contacts (t1 ++ t2) = contacts t1 ++ contacts t2.
Proof. apply omap_app. Qed.

Lemma sends_contacts t : sends t = map fst (contacts t).
Proof. induction t as [|e t IH]; [done|]. destruct e; try exact IH. exact (f_equal (cons _) IH). Qed.

Lemma no_contacts t : sends t = [] -> contacts t = [].
Proof. rewrite sends_contacts. apply map_eq_nil. Qed.

Lemma existsb_writes t : existsb is_write t = negb (bool_decide (writes t = [])).
Proof.
  induction t as [|e t IH]; [done|]. unfold writes in *. destruct e; simpl; done.
Qed.

(** ** One relay *)

(** What a relay leaves: nothing but relayed bytes, flushes and events; and a retryable failure has
    relayed nothing. *)
Record relay_ok (first : bool) (res : list Effect * option (string * bool)) : Prop := {
  ro_sends : sends (fst res) = [];
  ro_errors : errors (fst res) = [];
  ro_statuses : statuses (fst res) = [];
  ro_retry : forall r, snd res = Some (r, false) -> first = false /\ writes (fst res) = [];
}.

Lemma relay_loop_ok g reqID routeID id start turns first events bytesn :
  relay_ok first (relay_loop g reqID routeID id start turns first events bytesn).
Proof.
  revert first events bytesn. induction turns as [|t turns IH]; intros first events bytesn; [by split|].
  cbn [relay_loop].
  set (e1 := if negb (String.eqb (tn_line t) "") && negb first then _ else []).
  assert (He1 : sends e1 = [] /\ errors e1 = [] /\ statuses e1 = [] /\ writes e1 = []).
  { subst e1. destruct (_ && _); [|done]. unfold emit. by destruct (gw_emitter g). }
  destruct He1 as (S1 & E1 & T1 & W1). clearbody e1.
  assert (Hterm : forall k f e2 s, sends e2 = [] -> errors e2 = [] -> statuses e2 = [] ->
            relay_ok first (e1 ++ e2 ++ emit g k reqID routeID id f, Some (s, true))).
  { intros k f e2 s S2 E2 T2. destruct (emit_views g k reqID routeID id f) as (S3 & W3 & T3 & E3 & _).
    split; cbn [fst snd]; [| | |done].
    - by rewrite !(proj1 (views_app _ _)), S1, S2, S3.
    - by rewrite !(proj2 (proj2 (proj2 (views_app _ _)))), E1, E2, E3.
    - by rewrite !(proj1 (proj2 (proj2 (views_app _ _)))), T1, T2, T3. }
  destruct (String.eqb (tn_line t) "") eqn:Hline; cbn [negb andb].
  - rewrite orb_false_r. destruct (tn_err t) as [[|msg]|]; [by apply Hterm| |].
    + destruct first; cbn [negb]; destruct (tn_ctxDone t); try (by apply Hterm).
      split; cbn [fst snd]; rewrite ?app_nil_r; [done..|]. intros r [= <-]. by rewrite W1.
    + destruct (tn_ctxDone t); [by apply Hterm|]. specialize (IH first events bytesn).
      destruct (relay_loop _ _ _ _ _ turns _ _ _) as [rest res]. destruct IH as [S E T R]. cbn [fst snd] in *.
      split; cbn [fst snd app]; rewrite ?(proj1 (views_app _ _)), ?(proj2 (proj2 (proj2 (views_app _ _)))),
        ?(proj1 (proj2 (proj2 (views_app _ _)))), ?S1, ?E1, ?T1; [done..|].
      intros r Hr. destruct (R r Hr) as [Hf Hw]. by rewrite (proj1 (proj2 (views_app _ _))), W1, Hw.
  - rewrite orb_true_r. destruct (tn_writeFails t); [by apply (Hterm _ _ [])|]. cbn [negb].
    destruct (tn_err t) as [[|msg]|]; [by apply Hterm|destruct (tn_ctxDone t); by apply Hterm|].
    destruct (tn_ctxDone t); [by apply Hterm|]. specialize (IH true (wrap64 (events + 1)) (wrap64 (bytesn + slen (tn_line t)))).
    destruct (relay_loop _ _ _ _ _ turns _ _ _) as [rest res]. destruct IH as [S E T R]. cbn [fst snd] in *.
    split; cbn [fst snd]; rewrite ?(proj1 (views_app _ _)), ?(proj2 (proj2 (proj2 (views_app _ _)))),
      ?(proj1 (proj2 (proj2 (views_app _ _)))), ?S1, ?E1, ?T1; [done..|].
    intros r Hr. by destruct (R r Hr).
Qed.

(** ** One forward *)

Lemma quiet_no_reroute seen t : sends t = [] -> errors t = [] -> no_reroute seen t = true.
Proof.
  unfold sends, errors. revert seen. induction t as [|e t IH]; intros seen; [done|].
  destruct e; simpl; try done; auto.
Qed.

Lemma copy_headers_quiet h :
  sends (copy_headers h) = [] /\ errors (copy_headers h) = [] /\ statuses (copy_headers h) = [] /\
  writes (copy_headers h) = [].
Proof.
  assert (H : Forall (fun e => match e with HeaderAdd _ _ => True | _ => False end) (copy_headers h)).
  { induction h as [|[k vals] h IH]; [constructor|]. unfold copy_headers in *. simpl.
    apply Forall_app. split; [|done]. destruct (hopByHop k); [constructor|].
    apply Forall_map, Forall_true. done. }
  unfold sends, errors, statuses, writes. induction H as [|e t He _ IH]; [done|]. destruct e; done.
Qed.

(** An answer whose status [WriteHeader] refuses. *)
Definition bad_answer (up : Upstream) : Prop :=
  match up with inr resp => writable resp.(rp_status) = false | inl _ => False end.

Section forward.
  Context {url_parser : UrlParse}.

Lemma forward_unparsed g client b body reqID routeID stream flushable start up :
  url_parses (chat_url b) = false ->
  forward g client b body reqID routeID stream flushable start up = ([], FwPanicked).
Proof. unfold forward. by intros ->. Qed.

Lemma forward_shape g client b body reqID routeID stream flushable start up :
  url_parses (chat_url b) = true ->
  let res := forward g client b body reqID routeID stream flushable start up in
  exists rest, fst res = Send (chat_url b) (forward_headers reqID routeID (id_of b) client) body (id_of b) :: rest /\
    sends rest = [] /\ errors rest = [] /\
    (forall r, snd res = FwReturned r false -> writes rest = []) /\
    (forall r, snd res = FwReturned r true -> statuses rest <> []) /\
    (snd res = FwPanicked -> bad_answer up).
Proof.
  intros Hurl. cbv zeta. unfold forward. rewrite Hurl. cbn [negb]. destruct up as [err|resp]; [by exists []|].
  destruct (_ || _); [by exists []|]. destruct stream; cbn [negb].
  - destruct flushable; cbn [negb]; [|by exists []].
    pose proof (relay_loop_ok g reqID routeID (id_of b) start (rp_turns resp) false 0 0) as [S E T R].
    destruct (relay_loop _ _ _ _ _ _ _ _ _) as [effects r]. cbn [fst snd] in *.
    eexists. split; [reflexivity|]. unfold sends, errors, writes, statuses in *. cbn [app omap list_omap].
    split_and!; [done|done| |done|by destruct r as [[? ?]|]].
    intros r' Hr. apply (R r'). destruct r as [[? ?]|]; [by injection Hr as -> ->|done].
  - destruct (copy_headers_quiet (rp_header resp)) as (S1 & E1 & T1 & W1).
    destruct (writable (rp_status resp)) eqn:Hw; cbn [negb].
    2: { eexists. split; [reflexivity|]. cbn [snd]. split_and!; [| |done..|by intros _].
      - by rewrite (proj1 (views_app _ _)), S1.
      - by rewrite (proj2 (proj2 (proj2 (views_app _ _)))), E1. }
    eexists. split; [rewrite <- app_assoc; reflexivity|]. cbn [snd].
    destruct (emit_views g "FIRST_CLIENT_BYTE" reqID routeID (id_of b) [ev_ms "ttft_ms" (rp_firstAt resp) start]) as (S2 & W2 & T2 & E2 & _).
    destruct (emit_views g "REQUEST_COMPLETED" reqID routeID (id_of b)
      [("status"%string, EvInt (rp_status resp)); ("stream"%string, EvBool false); ev_ms "e2e_ms" (rp_doneAt resp) start])
      as (S3 & W3 & T3 & E3 & _).
    split_and!; [| |done| |done]; rewrite ?(proj1 (views_app _ _)), ?(proj2 (proj2 (proj2 (views_app _ _)))).
    + by rewrite S1, S2, S3.
    + by rewrite E1, E2, E3.
    + intros r _. rewrite !(proj1 (proj2 (proj2 (views_app _ _)))), T1, T2, T3. done.
Qed.
End forward.

(** ** The attempt loop *)

Section loop.
  Context {P : Type} `{!PolicyOps P} `{!UrlParse}.
  Variables (g : Gateway) (client : Headers) (body reqID : string) (feat : RequestFeatures)
            (stream flushable : bool) (start : Z) (env : nat -> AttemptEnv).

#[local] Abbreviation loop := (attempt_loop g client body reqID feat stream flushable start env).

(** The loop's result, one turn at a time, as an induction principle over its traces: nothing
    relayed and no error body so far when another attempt starts. *)
Lemma attempt_loop_ind (Q : nat -> nat -> P -> BackendSnapshot -> list string -> list Effect -> Ending -> Prop) :
  (forall attempt p snap tried lastErr,
     Q 0%nat attempt p snap tried (httpErr 502 "ALL_ATTEMPTS_FAILED" reqID lastErr) Returned) ->
  (forall remaining attempt p p' e snap tried t, SelectBackend p feat snap = Some (p', inl e) ->
     sends t = [] -> writes t = [] ->
     Q (S remaining) attempt p snap tried (t ++ httpErr 503 "NO_ELIGIBLE_BACKEND" reqID "no healthy backend") Returned) ->
  (forall remaining attempt p p' d snap tried t e, SelectBackend p feat snap = Some (p', inr d) ->
     backendByID snap (rd_BackendID (choose_backend snap tried d)) = None ->
     Q remaining (S attempt) p' snap (rd_BackendID (choose_backend snap tried d) :: tried) t e ->
     Q (S remaining) attempt p snap tried t e) ->
  (forall remaining attempt p p' d b snap tried quiet rest e h, SelectBackend p feat snap = Some (p', inr d) ->
     backendByID snap (rd_BackendID (choose_backend snap tried d)) = Some b -> url_parses (chat_url b) = true ->
     sends (quiet ++ rest) = [] -> errors (quiet ++ rest) = [] -> writes quiet = [] ->
     (e = Returned -> statuses rest <> []) -> (e = Panicked -> bad_answer (ae_up (env attempt) (id_of b))) ->
     Q (S remaining) attempt p snap tried (quiet ++ Send (chat_url b) h body (id_of b) :: rest) e) ->
  (forall remaining attempt p p' d b snap tried quiet, SelectBackend p feat snap = Some (p', inr d) ->
     backendByID snap (rd_BackendID (choose_backend snap tried d)) = Some b -> url_parses (chat_url b) = false ->
     sends quiet = [] -> errors quiet = [] -> writes quiet = [] -> Q (S remaining) attempt p snap tried quiet Panicked) ->
  (forall remaining attempt p p' d b snap tried quiet mid rest e h, SelectBackend p feat snap = Some (p', inr d) ->
     backendByID snap (rd_BackendID (choose_backend snap tried d)) = Some b -> url_parses (chat_url b) = true ->
     sends (quiet ++ mid) = [] -> errors (quiet ++ mid) = [] -> writes (quiet ++ mid) = [] ->
     Q remaining (S attempt) p' (ae_next (env attempt)) (rd_BackendID (choose_backend snap tried d) :: tried) rest e ->
     Q (S remaining) attempt p snap tried (quiet ++ Send (chat_url b) h body (id_of b) :: mid ++ rest) e) ->
  forall remaining attempt p snap tried lastErr p' t e,
    loop remaining attempt p snap tried lastErr = Some (p', t, e) -> Q remaining attempt p snap tried t e.
Proof.
  intros Hend Hnone Hskip Hfinal Hpanic Hretry. induction remaining as [|remaining IH];
    intros attempt p snap tried lastErr p' t e; cbn [attempt_loop].
  { intros [= <- <- <-]. apply Hend. }
  destruct (SelectBackend p feat snap) as [[p1 [err|d]]|] eqn:Hsel; cbn [mbind option_bind]; [| |done].
  { intros [= <- <- <-]. by apply (Hnone _ _ _ p1 err); [|apply emit_views..]. }
  destruct (backendByID snap (rd_BackendID (choose_backend snap tried d))) as [b|] eqn:Hb.
  2: { intros Hl. apply (Hskip _ _ _ p1 d); [done|done|]. by eapply IH. }
  assert (Hid : rd_BackendID (choose_backend snap tried d) = id_of b).
  { apply List.find_some in Hb as [_ Hb]. by apply String.eqb_eq in Hb. }
  set (quiet := _ ++ _).
  assert (Hq : sends quiet = [] /\ errors quiet = [] /\ writes quiet = []).
  { subst quiet. unfold emit. by destruct (gw_emitter g). }
  destruct Hq as (Q1 & Q2 & Q3). clearbody quiet.
  destruct (url_parses (chat_url b)) eqn:Hurl.
  2: { rewrite forward_unparsed by done. rewrite app_nil_r. intros [= <- <- <-]. by apply (Hpanic _ _ _ p1 d b). }
  destruct (forward_shape g client b body reqID (route_id reqID (Z.of_nat attempt)) stream flushable start
              (ae_up (env attempt) (rd_BackendID (choose_backend snap tried d))) Hurl)
    as (rest & Hfst & S' & E & W & T & B).
  destruct (forward _ _ _ _ _ _ _ _ _ _) as [effects res]. cbn [fst snd] in *. subst effects.
  set (h := forward_headers _ _ _ _) in *.
  assert (Hsent : forall e, (e = Returned -> statuses rest <> []) -> (e = Panicked -> res = FwPanicked) ->
    Q (S remaining) attempt p snap tried (quiet ++ Send (chat_url b) h body (id_of b) :: rest) e).
  { intros e' H1 H2. apply (Hfinal _ _ _ p1 d b); try done;
      rewrite ?(proj1 (views_app _ _)), ?(proj2 (proj2 (proj2 (views_app _ _)))), ?Q1, ?Q2, ?S', ?E; try done.
    intros He. rewrite <- Hid. by apply B, H2. }
  destruct res as [reason [|]| |].
  - intros [= <- <- <-]. apply Hsent; [|done]. intros _. by apply (T reason).
  - destruct (loop remaining (S attempt) p1 (ae_next (env attempt)) _ reason) as [[[p2 t2] e2]|] eqn:Hl;
      cbn [mbind option_bind]; [|done].
    intros [= <- <- <-]. set (failed := emit _ _ _ _ _ _).
    assert (Hf : sends failed = [] /\ errors failed = [] /\ writes failed = []).
    { subst failed. unfold emit. by destruct (gw_emitter g). }
    destruct Hf as (F1 & F2 & F3).
    cbn [app]. rewrite (app_assoc rest failed t2).
    apply (Hretry _ _ _ p1 d b _ _ quiet (rest ++ failed) t2); [done|done|done| | | |eapply IH; exact Hl].
    + by rewrite !(proj1 (views_app _ _)), Q1, S', F1.
    + by rewrite !(proj2 (proj2 (proj2 (views_app _ _)))), Q2, E, F2.
    + by rewrite !(proj1 (proj2 (views_app _ _))), Q3, (W reason), F3.
  - intros [= <- <- <-]. by apply Hsent.
  - intros [= <- <- <-]. by apply Hsent.
Qed.
End loop.

(** ** What the emissions and the choice of a backend contribute *)

Lemma no_writes_no_reroute t : writes t = [] -> no_reroute false t = true /\ existsb is_write t = false.
Proof. induction t as [|e t IH]; [done|]. unfold writes in *. destruct e; simpl; try done; apply IH. Qed.

Lemma candidates_quiet `{!SliceSort} g reg reqID feat snap :
  sends (emitCandidateState g reg reqID feat snap) = [] /\
  writes (emitCandidateState g reg reqID feat snap) = [].
Proof.
  unfold emitCandidateState. generalize (ScoreBreakdown (NewCacheAwarePolicy DefaultCacheAwareConfig
    (Some (LookupPrefixTokens reg))) feat snap). intros scores.
  induction (sn_Backends snap) as [|b bs [IH1 IH2]]; [done|]. cbn [flat_map].
  rewrite (proj1 (views_app _ _)), (proj1 (proj2 (views_app _ _))), IH1, IH2, !app_nil_r.
  split; apply emit_views.
Qed.

(** The handler is a quiet prefix followed by the attempt loop. *)
Lemma chat_shape {P} `{!PolicyOps P} `{!SliceSort} `{!UrlParse} sha256 g reg (p : P) r flushable env :
  let reqID := orGen (header_get (cr_header r) "X-Request-Id") "creq" (cr_now r) in
  (exists err, cr_body r = inl err /\
     ChatCompletions sha256 g reg p r flushable env = Some (p, httpErr 400 "READ_BODY" reqID err, Returned)) \/
  exists raw quiet, let body := limit_body raw in let feat := features sha256 r body reqID in
    cr_body r = inr raw /\ sends quiet = [] /\ writes quiet = [] /\
    ChatCompletions sha256 g reg p r flushable env =
    (fun res => (fst (fst res), quiet ++ snd (fst res), snd res)) <$>
      attempt_loop g (cr_header r) body reqID feat (rf_Stream feat) flushable (cr_start r) env
        (Z.to_nat (gw_maxRetries g + 1)) 0 p (rg_snap reg) [] "".
Proof.
  intros reqID. unfold ChatCompletions. fold reqID. destruct (cr_body r) as [err|raw]; [left; by exists err|right].
  exists raw. set (feat := features sha256 r (limit_body raw) reqID).
  destruct (candidates_quiet g reg reqID feat (rg_snap reg)) as [S3 W3].
  eexists. cbv zeta. split; [done|]. split; [|split]; [| |].
  3: { fold feat. destruct (attempt_loop _ _ _ _ _ _ _ _ _ _ _ _ _ _) as [[[p' t] e]|]; reflexivity. }
  - rewrite !(proj1 (views_app _ _)), S3. unfold emit. by destruct (gw_emitter g).
  - rewrite !(proj1 (proj2 (views_app _ _))), W3. unfold emit. by destruct (gw_emitter g).
Qed.

Lemma find_id_some (l : list BackendState) id b :
  List.find (fun b => String.eqb (id_of b) id) l = Some b -> b ∈ l /\ id_of b = id.
Proof. intros [H1 H2]%List.find_some. split; [by apply list_elem_of_In|by apply String.eqb_eq]. Qed.

Lemma backendByID_eligible snap b : b ∈ eligible snap -> exists c, backendByID snap (id_of b) = Some c /\ id_of c = id_of b.
Proof.
  intros [Hb _]%elem_of_eligible. unfold backendByID.
  destruct (List.find _ _) as [c|] eqn:Hf.
  - exists c. split; [done|]. by apply find_id_some in Hf as [_ ?].
  - exfalso. apply list_elem_of_In in Hb. pose proof (List.find_none _ _ Hf b Hb) as H. simpl in H.
    by rewrite String.eqb_refl in H.
Qed.

(** The backend of an attempt is eligible; if it was tried before, so was every other one. *)
Lemma choose_backend_ok snap tried d b :
  b ∈ eligible snap -> id_of b = rd_BackendID d ->
  (exists c, c ∈ eligible snap /\ id_of c = rd_BackendID (choose_backend snap tried d)) /\
  (rd_BackendID (choose_backend snap tried d) ∈ tried ->
   (forall c, c ∈ eligible snap -> id_of c <> "") -> forall c, c ∈ eligible snap -> id_of c ∈ tried).
Proof.
  intros Hb Hid. unfold choose_backend, pickAlternative.
  destruct (bool_decide_reflect (rd_BackendID d ∈ tried)) as [Hin|Hin]; cbn [rd_BackendID];
    [|split; [by exists b|done]].
  destruct (List.find _ (eligible snap)) as [alt|] eqn:Hf.
  - apply List.find_some in Hf as [Halt Hnew]. apply list_elem_of_In in Halt.
    apply negb_true_iff, bool_decide_eq_false in Hnew.
    destruct (String.eqb_spec (id_of alt) "") as [He|He]; cbn [negb rd_BackendID].
    + split; [by exists b|]. intros _ Hne. by destruct (Hne alt).
    + split; [by exists alt|]. intros ?. done.
  - split; [by exists b|]. intros _ _ c Hc. apply list_elem_of_In in Hc.
    pose proof (List.find_none _ _ Hf c Hc) as H. simpl in H.
    by apply negb_false_iff, bool_decide_eq_true in H.
Qed.

(** ** Properties *)

(** C17: no request is rerouted after its first byte: once a byte of an answer has been relayed to the
    client, no further sidecar is contacted and no error body is appended, so what the client
    receives comes from one backend; this holds for every policy and every behaviour of the
    sidecars and the client. *)
Theorem no_reroute_after_first_byte {P} `{!PolicyOps P} `{!SliceSort} `{!UrlParse} sha256 g reg (p p' : P) r flushable env t e
    (Hrun : ChatCompletions sha256 g reg p r flushable env = Some (p', t, e)) :
  forall t1 d t2, t = t1 ++ Write d :: t2 -> sends t2 = [] /\ errors t2 = [].
Proof.
  apply no_reroute_spec.
  destruct (chat_shape sha256 g reg p r flushable env) as [(err & _ & Hc)|(raw & quiet & _ & _ & Wq & Hc)];
    rewrite Hc in Hrun; [by injection Hrun as _ <- _|].
  apply fmap_Some in Hrun as ([[p1 t1] e1] & Hl & [= _ -> _]). simpl.
  rewrite no_reroute_app. destruct (no_writes_no_reroute quiet Wq) as [-> ->]. simpl. revert Hl.
  apply (attempt_loop_ind _ _ _ _ _ _ _ _ _ (fun _ _ _ _ _ t _ => no_reroute false t = true)).
  - done.
  - intros ? ? ? ? ? ? ? t _ St Wt. rewrite no_reroute_app.
    by destruct (no_writes_no_reroute t Wt) as [-> ->].
  - done.
  - intros ? ? ? ? ? ? ? ? q rest ? ? _ _ _ S E W _ _. rewrite no_reroute_app.
    destruct (no_writes_no_reroute q W) as [-> ->]. simpl. apply quiet_no_reroute.
    + by rewrite (proj1 (views_app _ _)) in S; apply app_eq_nil in S as [_ ?].
    + by rewrite (proj2 (proj2 (proj2 (views_app _ _)))) in E; apply app_eq_nil in E as [_ ?].
  - intros ? ? ? ? ? ? ? ? q _ _ _ _ _ W. by apply no_writes_no_reroute.
  - intros ? ? ? ? ? ? ? ? q mid rest ? ? _ _ _ S E W IH. rewrite no_reroute_app.
    rewrite (proj1 (proj2 (views_app _ _))) in W. apply app_eq_nil in W as [Wq' Wm].
    destruct (no_writes_no_reroute q Wq') as [-> ->]. simpl. rewrite no_reroute_app.
    by destruct (no_writes_no_reroute mid Wm) as [-> ->].
Qed.

(** ** Attempts under the policy's laws *)

(** The snapshot attempt [k] routes on. *)
Definition snap_at (snap : BackendSnapshot) (env : nat -> AttemptEnv) (k : nat) : BackendSnapshot :=
  match k with O => snap | S j => ae_next (env j) end.

(** The ids of a snapshot's entries are different. *)
Definition distinct_ids (snap : BackendSnapshot) : Prop := NoDup (map id_of snap.(sn_Backends)).

(** What attempt on [id] at [url] used: the first entry of that id, at the entry's own address; some entry of that id
    is eligible, which is this one when the ids are different. *)
Definition routed `{!UrlParse} (snap : BackendSnapshot) (id url : string) : Prop :=
  exists b, backendByID snap id = Some b /\ url = chat_url b /\ url_parses url = true /\
    (exists c, c ∈ eligible snap /\ id_of c = id) /\ (distinct_ids snap -> b ∈ eligible snap).

(** The backends contacted, in order, against the snapshots they were chosen from; [tried] are those
    of earlier attempts. *)
Definition attempts_ok `{!UrlParse} (tried : list string) (cs : list (string * string)) (snaps : nat -> BackendSnapshot) : Prop :=
  forall k id url, cs !! k = Some (id, url) ->
    routed (snaps k) id url /\
    (id ∈ take k (map fst cs) ++ tried -> (forall c, c ∈ eligible (snaps k) -> id_of c <> "") ->
     forall c, c ∈ eligible (snaps k) -> id_of c ∈ take k (map fst cs) ++ tried).

Lemma attempts_ok_cons `{!UrlParse} tried id url cs snaps :
  (routed (snaps 0%nat) id url /\
   (id ∈ tried -> (forall c, c ∈ eligible (snaps 0%nat) -> id_of c <> "") ->
    forall c, c ∈ eligible (snaps 0%nat) -> id_of c ∈ tried)) ->
  attempts_ok (id :: tried) cs (fun k => snaps (S k)) ->
  attempts_ok tried ((id, url) :: cs) snaps.
Proof.
  intros H0 Hr [|k] id' url' Hk; simpl in Hk.
  - injection Hk as <- <-. done.
  - destruct (Hr k id' url' Hk) as [He Ht]. split; [done|]. simpl.
    assert (Hp : forall x, x ∈ id :: take k (map fst cs) ++ tried <-> x ∈ take k (map fst cs) ++ id :: tried).
    { intros x. rewrite elem_of_cons, !elem_of_app, elem_of_cons. tauto. }
    intros Hin Hne c Hc. apply Hp. apply Ht; [by apply Hp|done|done].
Qed.

(** What makes a handler panic: the address of an entry it chose does not parse, or a status cannot be written. *)
Definition panic_cause `{!UrlParse} (snaps : nat -> BackendSnapshot) (ups : nat -> string -> Upstream) : Prop :=
  exists k b, b ∈ (snaps k).(sn_Backends) /\ (url_parses (chat_url b) = false \/ bad_answer (ups k (id_of b))).

Lemma panic_cause_next `{!UrlParse} snaps ups :
  panic_cause (fun k => snaps (S k)) (fun k => ups (S k)) -> panic_cause snaps ups.
Proof. intros (k & b & Hc). by exists (S k), b. Qed.

Lemma backendByID_elem snap id b : backendByID snap id = Some b -> b ∈ sn_Backends snap /\ id_of b = id.
Proof. apply find_id_some. Qed.

Lemma distinct_eligible snap b c : distinct_ids snap -> b ∈ sn_Backends snap -> c ∈ eligible snap -> id_of c = id_of b ->
  b ∈ eligible snap.
Proof.
  intros Hd Hb Hc He. assert (Hc' : c ∈ sn_Backends snap) by (by apply elem_of_eligible in Hc as [Hc _]).
  apply list_elem_of_lookup in Hb as [i Hi], Hc' as [j Hj].
  assert (i = j) as ->.
  { eapply NoDup_lookup; [exact Hd| |]; change (map id_of ?l) with (id_of <$> l); rewrite list_lookup_fmap; [by rewrite Hi|].
    rewrite Hj. cbn. by rewrite He. }
  rewrite Hi in Hj. by injection Hj as ->.
Qed.

Section laws.
  Context {P : Type} `{PolicyLaws P} `{!UrlParse}.
  Variables (g : Gateway) (client : Headers) (body reqID : string) (feat : RequestFeatures)
            (stream flushable : bool) (start : Z) (env : nat -> AttemptEnv).

(** One choice of the policy. *)
Lemma chosen_ok n p p' d snap tried :
  pol_inv n p -> Z.of_nat n < 2 ^ 63 -> SelectBackend p feat snap = Some (p', inr d) ->
  pol_inv (S n) p' /\
  (exists c, backendByID snap (rd_BackendID (choose_backend snap tried d)) = Some c /\
             id_of c = rd_BackendID (choose_backend snap tried d) /\
             (url_parses (chat_url c) = true -> routed snap (id_of c) (chat_url c))) /\
  (rd_BackendID (choose_backend snap tried d) ∈ tried ->
   (forall c, c ∈ eligible snap -> id_of c <> "") -> forall c, c ∈ eligible snap -> id_of c ∈ tried).
Proof.
  intros Hi Hn Hs. destruct (pol_step n p feat snap Hi Hn) as (q & r & Hs' & Hq & Hr).
  rewrite Hs in Hs'. injection Hs' as <- <-. destruct Hr as (b & Hb & Hid).
  destruct (choose_backend_ok snap tried d b Hb Hid) as [(c & Hc & Hcid) Ht].
  split; [done|]. split; [|done]. destruct (backendByID_eligible snap c Hc) as (c' & Hf & Hc'). exists c'.
  rewrite <- Hcid. split; [done|]. split; [done|]. intros Hurl. exists c'. rewrite Hc'. split_and!; [done..|by exists c|].
  intros Hd. apply (distinct_eligible snap c' c Hd); [|done..]. by apply backendByID_elem in Hf as [? _].
Qed.

Lemma attempt_loop_total n remaining attempt p snap tried lastErr :
  pol_inv n p -> Z.of_nat (n + remaining) <= 2 ^ 63 ->
  exists res, attempt_loop g client body reqID feat stream flushable start env remaining attempt p snap tried lastErr = Some res.
Proof.
  revert n attempt p snap tried lastErr. induction remaining as [|remaining IH]; intros n attempt p snap tried lastErr Hi Hn.
  { by eexists. }
  cbn [attempt_loop]. destruct (pol_step n p feat snap Hi) as (p1 & r & Hs & Hp1 & Hr); [lia|].
  rewrite Hs. cbn [mbind option_bind]. destruct r as [err|d]; [by eexists|].
  destruct (backendByID _ _) as [b|]; [|apply (IH (S n)); [done|lia]].
  destruct (forward _ _ _ _ _ _ _ _ _ _) as [effects [reason [|]| |]]; [by eexists| |by eexists..].
  destruct (IH (S n) (S attempt) p1 (ae_next (env attempt))
              (rd_BackendID (choose_backend snap tried d) :: tried) reason Hp1) as [[[p2 t] e] ->]; [lia|].
  by eexists.
Qed.

#[local] Abbreviation loop_ok := (fun (remaining attempt : nat) (snap : BackendSnapshot) (tried : list string) (t : list Effect) (e : Ending) =>
  let snaps := fun k => match k with O => snap | S j => ae_next (env (attempt + j)%nat) end in
  (length (sends t) <= remaining)%nat /\ attempts_ok tried (contacts t) snaps /\ (e = Returned -> statuses t <> []) /\
  (e = Panicked -> panic_cause snaps (fun k => ae_up (env (attempt + k)%nat)))).

(** A trace that contacts one more backend in front of the rest of the loop. *)
Lemma loop_ok_cons remaining attempt snap tried quiet mid rest e h b :
  sends (quiet ++ mid) = [] -> routed snap (id_of b) (chat_url b) ->
  (id_of b ∈ tried -> (forall c, c ∈ eligible snap -> id_of c <> "") -> forall c, c ∈ eligible snap -> id_of c ∈ tried) ->
  loop_ok remaining (S attempt) (ae_next (env attempt)) (id_of b :: tried) rest e ->
  loop_ok (S remaining) attempt snap tried (quiet ++ Send (chat_url b) h body (id_of b) :: mid ++ rest) e.
Proof.
  cbv zeta. intros S Hr Ht (Hlen & Hok & Hst & Hp). rewrite (proj1 (views_app _ _)) in S. apply app_eq_nil in S as [Sq Sm].
  rewrite contacts_app, (no_contacts quiet Sq), (proj1 (views_app _ _)), Sq, (proj1 (proj2 (proj2 (views_app _ _)))).
  change (contacts (Send ?u h body ?i :: ?x)) with ((i, u) :: contacts x).
  change (sends (Send ?u h body ?i :: ?x)) with (i :: sends x). change (statuses (Send ?u h body ?i :: ?x)) with (statuses x).
  rewrite contacts_app, (no_contacts mid Sm), (proj1 (views_app mid _)), Sm, (proj1 (proj2 (proj2 (views_app mid _)))).
  cbn [app]. split_and!; [simpl; lia| | |].
  - apply attempts_ok_cons; [done|]. intros k id url Hk. specialize (Hok k id url Hk).
    destruct k as [|k]; [by rewrite Nat.add_0_r|]. by rewrite Nat.add_succ_comm in Hok.
  - intros He Hnil. apply app_eq_nil in Hnil as [_ Hnil]. apply app_eq_nil in Hnil as [_ Hnil]. by apply (Hst He).
  - intros He. apply panic_cause_next. destruct (Hp He) as (k & c & Hc & Hcause). exists k, c. split.
    + destruct k as [|k]; [by rewrite Nat.add_0_r|]. by rewrite Nat.add_succ_comm in Hc.
    + by rewrite <- Nat.add_succ_comm.
Qed.

Lemma attempt_loop_sound remaining attempt p snap tried lastErr p' t e :
  attempt_loop g client body reqID feat stream flushable start env remaining attempt p snap tried lastErr = Some (p', t, e) ->
  forall n, pol_inv n p -> Z.of_nat (n + remaining) <= 2 ^ 63 -> loop_ok remaining attempt snap tried t e.
Proof.
  apply (attempt_loop_ind g client body reqID feat stream flushable start env (fun remaining attempt p snap tried t e =>
    forall n, pol_inv n p -> Z.of_nat (n + remaining) <= 2 ^ 63 -> loop_ok remaining attempt snap tried t e)); clear; cbv zeta.
  - intros. split_and!; [simpl; lia|by intros k id|done|done].
  - intros remaining attempt p p' err snap tried t _ S W n _ _.
    rewrite (proj1 (views_app _ _)), contacts_app, (no_contacts t S), S. split_and!; [simpl; lia|by intros k id| |done].
    rewrite (proj1 (proj2 (proj2 (views_app _ _)))). intros _ Hnil. by apply app_eq_nil in Hnil as [_ ?].
  - intros remaining attempt p p' d snap tried t e Hs Hnone _ n Hi Hn.
    destruct (chosen_ok n p p' d snap tried Hi ltac:(lia) Hs) as (_ & (c & Hc & _) & _). congruence.
  - intros remaining attempt p p' d b snap tried q rest e h Hs Hb Hurl S E W T B n Hi Hn.
    destruct (chosen_ok n p p' d snap tried Hi ltac:(lia) Hs) as (_ & (c & Hc & Hcid & Hr) & Hel).
    rewrite Hb in Hc. injection Hc as <-. rewrite <- Hcid in Hel.
    rewrite (proj1 (views_app _ _)) in S. apply app_eq_nil in S as [Sq Sr].
    rewrite contacts_app, (no_contacts q Sq), (proj1 (views_app _ _)), Sq, (proj1 (proj2 (proj2 (views_app _ _)))).
    change (contacts (Send ?u h body ?i :: ?x)) with ((i, u) :: contacts x).
    change (sends (Send ?u h body ?i :: ?x)) with (i :: sends x). change (statuses (Send ?u h body ?i :: ?x)) with (statuses x).
    rewrite (no_contacts rest Sr), Sr. cbn [app]. split_and!; [simpl; lia| | |].
    + apply attempts_ok_cons; [by split; [apply Hr|]|by intros k id].
    + intros He Hnil. apply app_eq_nil in Hnil as [_ Hnil]. by apply (T He).
    + intros He. exists 0%nat, b. split; [by apply backendByID_elem in Hb as [? _]|]. right. rewrite Nat.add_0_r. by apply B.
  - intros remaining attempt p p' d b snap tried q Hs Hb Hurl S E W n Hi Hn. rewrite (no_contacts q S), S.
    split_and!; [simpl; lia|by intros k id|done|]. intros _. exists 0%nat, b.
    split; [by apply backendByID_elem in Hb as [? _]|by left].
  - intros remaining attempt p p' d b snap tried q mid rest e h Hs Hb Hurl S E W IH n Hi Hn.
    destruct (chosen_ok n p p' d snap tried Hi ltac:(lia) Hs) as (Hi' & (c & Hc & Hcid & Hr) & Hel).
    rewrite Hb in Hc. injection Hc as <-. rewrite <- Hcid in Hel, IH.
    apply loop_ok_cons; [done|by apply Hr|done|]. apply (IH (Datatypes.S n) Hi'). lia.
Qed.
End laws.

(** C18: the retry discipline: with a policy that keeps its laws the loop ends after at most [maxRetries + 1]
    attempts, and no more sidecars than that are contacted.  Each attempt goes to the first entry of the chosen id, at
    that entry's own address; an entry of this id was eligible in the snapshot of the attempt, and when the ids of the
    snapshot are different it is the entry contacted.  An id is contacted again only when no eligible backend of that
    snapshot is untried (and none has the empty id).  A handler that returns has written a status, and one that panics
    chose an entry whose address does not parse or got an answer whose status cannot be written. *)
Theorem retry_discipline {P} `{PolicyLaws P} `{!SliceSort} `{!UrlParse} sha256 g reg (p : P) r flushable env n
    (Hinv : pol_inv n p) (Hn : Z.of_nat n + Z.max 0 (gw_maxRetries g + 1) <= 2 ^ 63) :
  exists p' t e, ChatCompletions sha256 g reg p r flushable env = Some (p', t, e) /\
    Z.of_nat (length (sends t)) <= Z.max 0 (gw_maxRetries g + 1) /\
    attempts_ok [] (contacts t) (snap_at (rg_snap reg) env) /\
    (e = Returned -> statuses t <> []) /\
    (e = Panicked -> panic_cause (snap_at (rg_snap reg) env) (fun k => ae_up (env k))).
Proof.
  destruct (chat_shape sha256 g reg p r flushable env) as [(err & _ & Hc)|(raw & quiet & _ & Sq & _ & Hc)]; rewrite Hc.
  { eexists _, _, _. split; [reflexivity|]. by split_and!; [simpl; lia|intros k id|..]. }
  set (reqID := orGen _ _ _). set (feat := features _ _ _ _).
  destruct (attempt_loop_total g (cr_header r) (limit_body raw) reqID feat (rf_Stream feat) flushable (cr_start r) env n
              (Z.to_nat (gw_maxRetries g + 1)) 0 p (rg_snap reg) [] "" Hinv) as [[[p1 t] e] Hl]; [lia|].
  destruct (attempt_loop_sound _ _ _ _ _ _ _ _ _ _ _ _ _ _ _ _ _ _ Hl n Hinv) as (Hlen & Hok & Hst & Hp); [lia|].
  rewrite Hl. eexists _, _, _. split; [reflexivity|]. cbn [fst snd].
  rewrite (proj1 (views_app _ _)), contacts_app, (no_contacts quiet Sq), Sq. cbn [app].
  split; [lia|]. split; [exact Hok|]. split; [|exact Hp].
  intros He. rewrite (proj1 (proj2 (proj2 (views_app _ _)))). intros Hnil.
  apply app_eq_nil in Hnil as [_ Hnil]. by apply (Hst He).
Qed.

(** The bytes the upstream produced. *)
Definition lines (turns : list Turn) : list string :=
  List.filter (fun l => negb (String.eqb l "")) (map tn_line turns).

(** Every write is flushed before anything else happens. *)
Fixpoint flushed (t : list Effect) : bool :=
  match t with
  | [] => true
  | Write _ :: (Flush :: _) as t => flushed t
  | Write _ :: _ => false
  | _ :: t => flushed t
  end.

(** A stream that ends with EOF while the client stays. *)
Fixpoint clean_stream (turns : list Turn) : bool :=
  match turns with
  | [] => false
  | t :: turns =>
      negb t.(tn_writeFails) &&
      match t.(tn_err) with
      | Some EOF => bool_decide (turns = [])
      | Some (ReadFailed _) => false
      | None => negb t.(tn_ctxDone) && clean_stream turns
      end
  end.

(** Effects that are only events. *)
Definition silent (t : list Effect) : Prop :=
  Forall (fun e => match e with Emit _ _ _ _ _ => True | _ => False end) t.

Lemma emit_silent g k r o b f : silent (emit g k r o b f).
Proof. unfold emit, silent. destruct (gw_emitter g); repeat constructor. Qed.

Lemma silent_app t x : silent t -> writes (t ++ x) = writes x /\ flushed (t ++ x) = flushed x.
Proof. induction 1 as [|e t He _ IH]; [done|]. by destruct e. Qed.

Lemma silent_alone t : silent t -> writes t = [] /\ flushed t = true.
Proof. intros H. rewrite <- (app_nil_r t). by destruct (silent_app t [] H) as [-> ->]. Qed.

(** One turn: events, then the write and its flush, then either events and the end, or the rest of
    the loop. *)
Lemma relay_turn g reqID routeID id start t turns first events bytesn :
  exists e1 e2 r,
    relay_loop g reqID routeID id start (t :: turns) first events bytesn =
      (e1 ++ (if String.eqb (tn_line t) "" || tn_writeFails t then [] else [Write (tn_line t); Flush]) ++ e2, r) /\
    silent e1 /\
    ((silent e2 /\ (tn_err t = None -> (negb (String.eqb (tn_line t) "") && tn_writeFails t) || tn_ctxDone t = true) /\
      (tn_err t = Some EOF -> r = Some ("", true))) \/
     (exists first' events' bytesn', (e2, r) = relay_loop g reqID routeID id start turns first' events' bytesn' /\
        tn_err t = None /\ tn_ctxDone t = false /\ (negb (String.eqb (tn_line t) "") && tn_writeFails t) = false)).
Proof.
  cbn [relay_loop]. set (e1 := if negb (String.eqb (tn_line t) "") && negb first then _ else []).
  assert (He1 : silent e1) by (subst e1; destruct (_ && _); [apply emit_silent|constructor]).
  clearbody e1. exists e1. destruct (String.eqb (tn_line t) "") eqn:Hline; cbn [negb andb orb].
  - destruct (tn_err t) as [[|msg]|]; [| |destruct (tn_ctxDone t)].
    + eexists _, _. split; [reflexivity|]. split; [done|]. left. split_and!; [apply emit_silent|done|done].
    + destruct (negb _); destruct (tn_ctxDone t);
        (eexists _, _; split; [reflexivity|]; split; [done|]; left;
         split_and!; [apply emit_silent||constructor|done|done]).
    + eexists _, _. split; [reflexivity|]. split; [done|]. left. split_and!; [apply emit_silent|done|done].
    + destruct (relay_loop _ _ _ _ _ turns _ _ _) as [rest r] eqn:Hr. exists rest, r. split; [done|].
      split; [done|]. right. by eexists _, _, _.
  - destruct (tn_writeFails t); cbn [negb andb orb].
    { eexists _, _. split; [reflexivity|]. split; [done|]. left. split_and!; [apply emit_silent|done|done]. }
    destruct (tn_err t) as [[|msg]|]; [| |destruct (tn_ctxDone t)].
    + eexists _, _. split; [reflexivity|]. split; [done|]. left. split_and!; [apply emit_silent|done|done].
    + destruct (negb _); destruct (tn_ctxDone t);
        (eexists _, _; split; [reflexivity|]; split; [done|]; left;
         split_and!; [apply emit_silent||constructor|done|done]).
    + eexists _, _. split; [reflexivity|]. split; [done|]. left. split_and!; [apply emit_silent|done|done].
    + destruct (relay_loop _ _ _ _ _ turns _ _ _) as [rest r] eqn:Hr. exists rest, r. split; [done|].
      split; [done|]. right. by eexists _, _, _.
Qed.

(** The relay is transparent: what it writes is exactly a prefix of the non-empty lines the
    upstream sent, unchanged and in order, each flushed at once; and when the upstream ends the
    stream and the client stays, it is all of them and the attempt counts as delivered. *)
Theorem relay_transparent g reqID routeID id start turns first events bytesn :
  let '(t, r) := relay_loop g reqID routeID id start turns first events bytesn in
  writes t `prefix_of` lines turns /\ flushed t = true /\
  (clean_stream turns = true -> writes t = lines turns /\ r = Some ("", true)).
Proof.
  revert first events bytesn. induction turns as [|t turns IH]; intros first events bytesn; [by split_and!|].
  destruct (relay_turn g reqID routeID id start t turns first events bytesn) as (e1 & e2 & r & -> & S1 & Hcase).
  destruct (silent_app e1 ((if String.eqb (tn_line t) "" || tn_writeFails t then [] else
                             [Write (tn_line t); Flush]) ++ e2) S1) as [-> ->].
  set (own := if String.eqb (tn_line t) "" then [] else [tn_line t]).
  assert (Hlines : lines (t :: turns) = own ++ lines turns)
    by (subst own; unfold lines; simpl; by destruct (String.eqb (tn_line t) "")).
  assert (Hw : forall x, flushed x = true ->
    let w := (if String.eqb (tn_line t) "" || tn_writeFails t then [] else [Write (tn_line t); Flush]) ++ x in
    flushed w = true /\ writes w = (if negb (String.eqb (tn_line t) "") && tn_writeFails t then [] else own) ++ writes x).
  { intros x Hx. subst own. by destruct (String.eqb (tn_line t) ""), (tn_writeFails t). }
  rewrite Hlines. cbn [clean_stream]. destruct Hcase as [(S2 & Hend & Heof)|(f' & ev' & by' & Hrest & He & Hctx & Hwf)].
  - destruct (silent_alone e2 S2) as [W2 F2]. destruct (Hw e2 F2) as [-> ->]. rewrite W2, app_nil_r.
    split_and!; [destruct (_ && _); [apply prefix_nil|by apply prefix_app_r]|done|].
    destruct (tn_err t) as [[|]|]; [|by rewrite andb_false_r|].
    + intros [Hf Hnil]%andb_true_iff. apply negb_true_iff in Hf as ->.
      apply bool_decide_eq_true in Hnil as ->. rewrite andb_false_r.
      split; [by rewrite app_nil_r|by apply Heof].
    + intros [Hf [Hc _]%andb_true_iff]%andb_true_iff. specialize (Hend eq_refl).
      apply negb_true_iff in Hf, Hc. rewrite Hf, Hc, andb_false_r in Hend. done.
  - specialize (IH f' ev' by'). rewrite <- Hrest in IH. destruct IH as (Hp & Hf & Hcl).
    destruct (Hw e2 Hf) as [-> ->]. rewrite Hwf, He, Hctx. split_and!; [by apply prefix_app|done|].
    intros [_ Hc]%andb_true_iff. simpl in Hc. by destruct (Hcl Hc) as [-> ->].
Qed.

(** ** What the router retries on *)

(** The upstream fails before it sent a byte, while the client is there. *)
Fixpoint breaks_early (turns : list Turn) : bool :=
  match turns with
  | [] => false
  | t :: turns =>
      String.eqb t.(tn_line) "" && negb t.(tn_ctxDone) &&
      match t.(tn_err) with Some (ReadFailed _) => true | Some EOF => false | None => breaks_early turns end
  end.

(** No answer, a refusal, or a stream that cannot be relayed or breaks before its first byte. *)
Definition retried (stream flushable : bool) (up : Upstream) : bool :=
  match up with
  | inl _ => true
  | inr resp =>
      (resp.(rp_status) =? 429) || (resp.(rp_status) =? 503) || stream && (negb flushable || breaks_early resp.(rp_turns))
  end.

Lemma relay_retry g reqID routeID id start turns first events bytesn :
  (exists reason, snd (relay_loop g reqID routeID id start turns first events bytesn) = Some (reason, false)) <->
  first = false /\ breaks_early turns = true.
Proof.
  revert first events bytesn. induction turns as [|t turns IH]; intros first events bytesn.
  { cbn. split; [by intros [? ?]|by intros [_ ?]]. }
  cbn [relay_loop breaks_early]. specialize (IH (first || negb (String.eqb (tn_line t) ""))
    (if negb (String.eqb (tn_line t) "") then wrap64 (events + 1) else events)
    (if negb (String.eqb (tn_line t) "") then wrap64 (bytesn + slen (tn_line t)) else bytesn)).
  destruct (String.eqb (tn_line t) ""); cbn [negb andb orb] in *; rewrite ?orb_false_r, ?orb_true_r in *.
  - destruct (tn_err t) as [[|msg]|], first, (tn_ctxDone t); cbn [negb andb snd] in *;
      try (split; [by intros [? ?]|by intros [? ?]]); try (destruct (relay_loop _ _ _ _ _ _ _ _ _); exact IH).
    split; [done|by eexists].
  - destruct (tn_writeFails t); cbn [snd]; [split; [by intros [? ?]|by intros [_ ?]]|].
    destruct (tn_err t) as [[|msg]|], (tn_ctxDone t); cbn [negb andb snd] in *;
      try (split; [by intros [? ?]|by intros [_ ?]]).
    destruct (relay_loop _ _ _ _ _ _ _ _ _). cbn [snd] in *. rewrite IH. split; [by intros [? _]|by intros [_ ?]].
Qed.

Lemma retried_iff `{!UrlParse} g client b body reqID routeID stream flushable start up : url_parses (chat_url b) = true ->
  (exists reason, snd (forward g client b body reqID routeID stream flushable start up) = FwReturned reason false) <->
  retried stream flushable up = true.
Proof.
  intros Hu. unfold forward, retried. rewrite Hu. cbn [negb]. destruct up as [err|resp]; [split; [done|by eexists]|].
  destruct (_ || _); cbn [orb]; [split; [done|by eexists]|]. destruct stream; cbn [negb andb].
  - destruct flushable; cbn [negb orb]; [|split; [done|by eexists]].
    pose proof (relay_retry g reqID routeID (id_of b) start (rp_turns resp) false 0 0) as Hr.
    destruct (relay_loop _ _ _ _ _ _ _ _ _) as [t r]. cbn [snd] in *. split.
    + intros [reason Hx]. apply Hr. exists reason. destruct r as [[? ?]|]; [by injection Hx as -> ->|done].
    + intros Hb. destruct (proj2 Hr (conj eq_refl Hb)) as [reason ->]. by exists reason.
  - destruct (writable _); cbn; split; by try intros [? ?].
Qed.

(** The status of a streamed request is fixed before anything of the answer is read: whatever status
    the sidecar sent (other than 429 and 503) and whatever is written later, a 502 after the last
    failed attempt included, the client has been told 200. *)
Lemma stream_status_is_200 `{!UrlParse} g client b body reqID routeID start resp later :
  url_parses (chat_url b) = true -> rp_status resp <> 429 -> rp_status resp <> 503 ->
  client_status (fst (forward g client b body reqID routeID true true start (inr resp)) ++ later) = Some 200.
Proof.
  intros Hu H1 H2. unfold forward. rewrite Hu. cbn [negb].
  rewrite (proj2 (Z.eqb_neq _ 429)), (proj2 (Z.eqb_neq _ 503)) by done. cbn [orb negb].
  by destruct (relay_loop _ _ _ _ _ _ _ _ _) as [effects r].
Qed.

(** ** Witnesses *)

#[local] Existing Instance control_free.

Example sample_body : string :=
  ("{" +:+ dquoted "model" +:+ ":" +:+ dquoted "m" +:+ "," +:+ dquoted "stream" +:+ ":true," +:+
   dquoted "max_tokens" +:+ ":16," +:+ dquoted "messages" +:+ ":[{" +:+ dquoted "role" +:+ ":" +:+ dquoted "user" +:+
   "," +:+ dquoted "content" +:+ ":" +:+ dquoted "hello" +:+ "},{" +:+ dquoted "content" +:+ ":" +:+
   dquoted "world!" +:+ "}]}")%stdpp.
Example sample_features :
  (extractModel sample_body, detectStream sample_body, extractMaxTokens sample_body, estimateTokens sample_body) =
  ("m"%string, true, 16, 2).
Proof. by vm_compute. Qed.
Example sample_request : ClientRequest :=
  {| cr_header := {[ "X-Request-Id" := ["abc"]; "X-Cache-Prefix-Key" := ["secret"] ]};
     cr_body := inr sample_body; cr_start := 7; cr_now := 9; cr_snapAt := 200 |}.

(** The first sidecar contacted fails before its first byte, the second streams two lines. *)
Example sample_env (k : nat) : AttemptEnv :=
  {| ae_up := fun _ =>
       inr {| rp_status := 200; rp_header := []; rp_body := ""; rp_firstAt := 0; rp_doneAt := 0;
              rp_turns :=
                if (k =? 0)%nat
                then [{| tn_line := ""; tn_err := Some (ReadFailed "reset"); tn_writeFails := false; tn_ctxDone := false; tn_readAt := 3 * millisecond; tn_endAt := 4 * millisecond |}]
                else [{| tn_line := "data: 1"; tn_err := None; tn_writeFails := false; tn_ctxDone := false; tn_readAt := 3 * millisecond; tn_endAt := 4 * millisecond |};
                      {| tn_line := "data: [DONE]"; tn_err := Some EOF; tn_writeFails := false; tn_ctxDone := false; tn_readAt := 3 * millisecond; tn_endAt := 4 * millisecond |}] |};
     ae_next := sample_snap; ae_start := 10; ae_decided := 20; ae_failed := 30 |}.

Example sample_gateway : Gateway := NewGateway true 1.
Example sample_registry : Registry :=
  {| rg_backends := []; rg_interval := second; rg_snap := sample_snap; rg_cacheDir := ∅;
     rg_cacheDirMax := 4096; rg_prev := ∅ |}.

Example sample_run : option (LeastQueuedPolicy * list Effect * Ending) :=
  ChatCompletions toy_digest sample_gateway sample_registry LeastQueued sample_request true sample_env.

Example sample_trace : list Effect := match sample_run with Some (_, t, _) => t | None => [] end.

Lemma sample_run_eq :
  ChatCompletions toy_digest sample_gateway sample_registry LeastQueued sample_request true sample_env =
  Some (LeastQueued, sample_trace, Returned).
Proof. vm_compute. reflexivity. Qed.

Lemma no_reroute_after_first_byte_witness :
  writes sample_trace = ["data: 1"; "data: [DONE]"]%string /\ sends sample_trace = ["c"; "a"]%string /\
  forall t1 d t2, sample_trace = t1 ++ Write d :: t2 -> sends t2 = [] /\ errors t2 = [].
Proof.
  split; [vm_compute; reflexivity|]. split; [vm_compute; reflexivity|].
  exact (no_reroute_after_first_byte toy_digest sample_gateway sample_registry LeastQueued LeastQueued
           sample_request true sample_env sample_trace Returned sample_run_eq).
Defined.

Lemma retry_discipline_witness :
  exists p' t e, ChatCompletions toy_digest sample_gateway sample_registry LeastQueued sample_request true sample_env =
    Some (p', t, e) /\ Z.of_nat (length (sends t)) <= 2 /\ attempts_ok [] (contacts t) (snap_at sample_snap sample_env).
Proof.
  destruct (retry_discipline toy_digest sample_gateway sample_registry LeastQueued sample_request true sample_env 0 ltac:(exact I)
    ltac:(simpl; lia)) as (p' & t & e & H1 & H2 & H3 & _).
  exists p', t, e. split; [exact H1|]. split; [exact H2|exact H3].
Defined.
