(* ===== verification/Supervisor.v ===== *)
(** * The supervisor ([internal/engine/supervisor.go])

    One poll of a device runs the history, the stability score and the lifecycle machine in order
    and assembles the published status.  [None] is a panic (of the ring buffers, or of a nil map
    entry).  The adapter's answers and the clock readings are inputs; [math.Exp] is the parameter of
    [Stability]. *)

From Stdlib Require Import Floats.SpecFloat.
From stdpp Require Import base tactics numbers option list strings gmap.
From S2P Require Import Prelude GoFloat GoTime Model Lifecycle Ring History Stability AdmissionQueue.
Open Scope go_scope.

Definition rapidRestartSec : f64 := f64_of_Z 10.

(** ** The worker event log *)

Record workerEventLog := {
  wl_disappearances : list Z;
  wl_appearances : list Z;
  wl_windowSec : f64;
  wl_maxEntries : Z;
}.

Definition newWorkerEventLog (windowSec : f64) (maxEntries : Z) : workerEventLog :=
  {| wl_disappearances := []; wl_appearances := []; wl_windowSec := windowSec; wl_maxEntries := maxEntries |}.

(** [maxEntries] is the capacity of the event ring, which is not negative. *)
Definition pruneTimes (s : list Z) (now : Z) (windowSec : f64) (maxEntries : Z) : list Z :=
  let cutoff := wrap64 (now - dur_of_seconds windowSec) in
  let s := drop_while (fun t => t <? cutoff) s in
  if maxEntries <? Z.of_nat (length s) then lastn (Z.to_nat maxEntries) s else s.

Definition recordDisappearance (now : Z) (w : workerEventLog) : workerEventLog :=
  {| wl_disappearances := pruneTimes (w.(wl_disappearances) ++ [now]) now w.(wl_windowSec) w.(wl_maxEntries);
     wl_appearances := w.(wl_appearances); wl_windowSec := w.(wl_windowSec);
     wl_maxEntries := w.(wl_maxEntries) |}.

Definition recordAppearance (now : Z) (w : workerEventLog) : workerEventLog :=
  {| wl_disappearances := w.(wl_disappearances);
     wl_appearances := pruneTimes (w.(wl_appearances) ++ [now]) now w.(wl_windowSec) w.(wl_maxEntries);
     wl_windowSec := w.(wl_windowSec); wl_maxEntries := w.(wl_maxEntries) |}.

Definition disappearancesInWindow (now : Z) (w : workerEventLog) : workerEventLog * Z :=
  let d := pruneTimes w.(wl_disappearances) now w.(wl_windowSec) w.(wl_maxEntries) in
  ({| wl_disappearances := d; wl_appearances := w.(wl_appearances);
      wl_windowSec := w.(wl_windowSec); wl_maxEntries := w.(wl_maxEntries) |}, Z.of_nat (length d)).

Definition rapidRestartEvents (now : Z) (rapidRestartSec : f64) (w : workerEventLog) : workerEventLog * Z :=
  let ds := pruneTimes w.(wl_disappearances) now w.(wl_windowSec) w.(wl_maxEntries) in
  let aps := pruneTimes w.(wl_appearances) now w.(wl_windowSec) w.(wl_maxEntries) in
  let thresh := dur_of_seconds rapidRestartSec in
  ({| wl_disappearances := ds; wl_appearances := aps;
      wl_windowSec := w.(wl_windowSec); wl_maxEntries := w.(wl_maxEntries) |},
   Z.of_nat (countb (fun d => existsb (fun a => (d <? a) && (wrap64 (a - d) <=? thresh)) aps) ds)).

(** ** State *)

(** [sd_lastStatus] is [None] until the first poll stores a status (Go's zero value). *)
Record deviceState := {
  sd_identity : Identity;
  sd_machine : LifecycleMachine;
  sd_stab : StabilityCalc;
  sd_hist : DeviceHistory;
  sd_wasOffline : bool;
  sd_offlineMono : Z;
  sd_lastStatus : option DeviceStatus;
  sd_collected : bool;
  sd_lastProbeOK : bool;
  sd_lastSampleWall : Z;
  sd_lastSampleMono : Z;
  sd_workerSeen : bool;
  sd_workerEvents : workerEventLog;
}.

Definition with_hist (h : DeviceHistory) (d : deviceState) : deviceState :=
  {| sd_identity := d.(sd_identity); sd_machine := d.(sd_machine); sd_stab := d.(sd_stab); sd_hist := h;
     sd_wasOffline := d.(sd_wasOffline); sd_offlineMono := d.(sd_offlineMono);
     sd_lastStatus := d.(sd_lastStatus); sd_collected := d.(sd_collected);
     sd_lastProbeOK := d.(sd_lastProbeOK); sd_lastSampleWall := d.(sd_lastSampleWall);
     sd_lastSampleMono := d.(sd_lastSampleMono); sd_workerSeen := d.(sd_workerSeen);
     sd_workerEvents := d.(sd_workerEvents) |}.
Definition with_core (m : LifecycleMachine) (s : StabilityCalc) (d : deviceState) : deviceState :=
  {| sd_identity := d.(sd_identity); sd_machine := m; sd_stab := s; sd_hist := d.(sd_hist);
     sd_wasOffline := d.(sd_wasOffline); sd_offlineMono := d.(sd_offlineMono);
     sd_lastStatus := d.(sd_lastStatus); sd_collected := d.(sd_collected);
     sd_lastProbeOK := d.(sd_lastProbeOK); sd_lastSampleWall := d.(sd_lastSampleWall);
     sd_lastSampleMono := d.(sd_lastSampleMono); sd_workerSeen := d.(sd_workerSeen);
     sd_workerEvents := d.(sd_workerEvents) |}.
Definition with_edge (was : bool) (since : Z) (d : deviceState) : deviceState :=
  {| sd_identity := d.(sd_identity); sd_machine := d.(sd_machine); sd_stab := d.(sd_stab);
     sd_hist := d.(sd_hist); sd_wasOffline := was; sd_offlineMono := since;
     sd_lastStatus := d.(sd_lastStatus); sd_collected := d.(sd_collected);
     sd_lastProbeOK := d.(sd_lastProbeOK); sd_lastSampleWall := d.(sd_lastSampleWall);
     sd_lastSampleMono := d.(sd_lastSampleMono); sd_workerSeen := d.(sd_workerSeen);
     sd_workerEvents := d.(sd_workerEvents) |}.
Definition with_workers (seen : bool) (w : workerEventLog) (d : deviceState) : deviceState :=
  {| sd_identity := d.(sd_identity); sd_machine := d.(sd_machine); sd_stab := d.(sd_stab);
     sd_hist := d.(sd_hist); sd_wasOffline := d.(sd_wasOffline); sd_offlineMono := d.(sd_offlineMono);
     sd_lastStatus := d.(sd_lastStatus); sd_collected := d.(sd_collected);
     sd_lastProbeOK := d.(sd_lastProbeOK); sd_lastSampleWall := d.(sd_lastSampleWall);
     sd_lastSampleMono := d.(sd_lastSampleMono); sd_workerSeen := seen; sd_workerEvents := w |}.
Definition with_sample (ok : bool) (wall mono : Z) (st : DeviceStatus) (d : deviceState) : deviceState :=
  {| sd_identity := d.(sd_identity); sd_machine := d.(sd_machine); sd_stab := d.(sd_stab);
     sd_hist := d.(sd_hist); sd_wasOffline := d.(sd_wasOffline); sd_offlineMono := d.(sd_offlineMono);
     sd_lastStatus := Some st; sd_collected := true; sd_lastProbeOK := ok;
     sd_lastSampleWall := if ok then wall else d.(sd_lastSampleWall);
     sd_lastSampleMono := if ok then mono else d.(sd_lastSampleMono);
     sd_workerSeen := d.(sd_workerSeen); sd_workerEvents := d.(sd_workerEvents) |}.

(** The last published compute-process count, memory use and lifecycle, zero before the first. *)
Definition last_procs (d : deviceState) : Field Z :=
  match d.(sd_lastStatus) with Some st => h_ComputeProcs (ds_Health st) | None => Unsup 0 end.
Definition last_mem (d : deviceState) : Field Z :=
  match d.(sd_lastStatus) with Some st => h_MemUsedBytes (ds_Health st) | None => Unsup 0 end.

(** ** Events *)

Definition event (wall : Z) (devID : string) (kind : EventKind) (from to : option LifecycleState)
    (detail : string) (codes : list string) (evidence : list (string * Evidence)) (cause : string) : Event :=
  {| ev_Timestamp := wall; ev_DeviceID := devID; ev_Kind := kind; ev_From := from; ev_To := to;
     ev_Detail := detail; ev_Evidence := evidence; ev_TerminationCause := cause;
     ev_GroundTruthSource := ""; ev_ReasonCodes := codes |}.

Definition add_event (e : Event) (d : deviceState) : option deviceState :=
  h ← AddEvent e d.(sd_hist); Some (with_hist h d).

(** ** Worker detection *)

Definition detectWorkers (devID : string) (h : Health) (wall mono : Z) (d : deviceState) : option deviceState :=
  let cur := h.(h_ComputeProcs) in
  if negb cur.(Supported) then Some d
  else
    let prev := last_procs d in
    if negb prev.(Supported) then
      if 0 <? cur.(Value) then
        d |> with_workers true d.(sd_workerEvents)
          |> add_event (event wall devID EventWorkerObserved None None "compute process present" []
                          [("process_count", EvInt cur.(Value))] "")
      else Some d
    else
      let memReleased :=
        if (cur.(Value) <? prev.(Value)) && (last_mem d).(Supported) && h.(h_MemUsedBytes).(Supported)
        then wrap64 (wrap64 (last_mem d).(Value) - wrap64 h.(h_MemUsedBytes).(Value)) else 0 in
      if prev.(Value) <? cur.(Value) then
        d |> with_hist (Nat.iter (Z.to_nat (wrap64 (cur.(Value) - prev.(Value)))) MarkWorkerStart d.(sd_hist))
          |> with_workers true (recordAppearance mono d.(sd_workerEvents))
          |> add_event (event wall devID EventWorkerStarted None None "compute process count increased" []
                          [("previous_process_count", EvInt prev.(Value));
                           ("current_process_count", EvInt cur.(Value))] "")
      else if cur.(Value) <? prev.(Value) then
        d |> with_hist (Nat.iter (Z.to_nat (wrap64 (prev.(Value) - cur.(Value)))) MarkWorkerStop d.(sd_hist))
          |> with_workers d.(sd_workerSeen) (recordDisappearance mono d.(sd_workerEvents))
          |> add_event (event wall devID EventWorkerDisappeared None None
                          "compute process count decreased (cause NOT observable from host signals — neutral)" []
                          [("previous_process_count", EvInt prev.(Value));
                           ("current_process_count", EvInt cur.(Value));
                           ("memory_released_bytes", EvInt memReleased)] CauseUnknown)
      else Some d.

Fixpoint join_from (out : string) (codes : list string) : string :=
  match codes with [] => out | c :: codes => join_from ((out +:+ "," +:+ c)%stdpp) codes end.
Definition joinReasons (codes : list string) : string :=
  match codes with [] => "healthy" | c :: codes => join_from c codes end.

(** ** Capacity *)

Definition computeCapacityHint (h : Health) (stability : f64) : CapacityHint :=
  let freeRatio := h.(h_EffectiveFreeMemRatio) in
  let utilHeadroom :=
    if h.(h_UtilizationGPU).(Supported)
    then f64_sub f64_one (f64_div h.(h_UtilizationGPU).(Value) (f64_of_Z 100)) else f64_one in
  {| ch_HostCapacityHint := clamp01 (f64_mul (f64_mul freeRatio utilHeadroom) stability);
     ch_CapacitySemantics := "heuristic_host_derived";
     ch_Components := list_to_map
       [("free_memory_ratio", clamp01 freeRatio); ("utilization_headroom", clamp01 utilHeadroom);
        ("stability_score", clamp01 stability)];
     ch_RuntimeServingCapacitySupported := false |}.

Definition probeFailDetail (h : Health) : string :=
  match List.rev h.(h_UnsupportedFields) with f :: _ => f | [] => "probe failed" end.

(** ** One poll *)

(** The adapter's sample and active access probe, and the clock readings of the poll. *)
Record PollInput := { in_mono : Z; in_wall : Z; in_health : Health; in_access : bool }.

(** [health] with the fields the poll sets. *)
Definition set_access (access : bool) (h : Health) : Health :=
  {| h_Timestamp := h.(h_Timestamp); h_HeartbeatOK := true; h_GPUVisible := h.(h_GPUVisible);
     h_GPUAccessible := access; h_UtilizationGPU := h.(h_UtilizationGPU);
     h_MemUsedBytes := h.(h_MemUsedBytes); h_MemFreeBytes := h.(h_MemFreeBytes);
     h_MemTotalBytes := h.(h_MemTotalBytes); h_TemperatureC := h.(h_TemperatureC);
     h_PowerWatts := h.(h_PowerWatts); h_PowerLimitWatts := h.(h_PowerLimitWatts);
     h_SMClockMHz := h.(h_SMClockMHz); h_MemClockMHz := h.(h_MemClockMHz);
     h_ComputeProcs := h.(h_ComputeProcs); h_EffectiveFreeMemRatio := h.(h_EffectiveFreeMemRatio);
     h_ProbeLatencyMs := h.(h_ProbeLatencyMs); h_ProbeFailure := h.(h_ProbeFailure);
     h_ECCUncorrectable := h.(h_ECCUncorrectable); h_ECCCorrectable := h.(h_ECCCorrectable);
     h_XIDErrors := h.(h_XIDErrors); h_RASUncorrectable := h.(h_RASUncorrectable);
     h_RASCorrectable := h.(h_RASCorrectable); h_UnsupportedFields := h.(h_UnsupportedFields) |}.

(** [(hardEvidence, softFailure, failReason)] *)
Definition classify_failure (h : Health) (access : bool) : bool * bool * string :=
  match h.(h_ProbeFailure).(pf_Class) with
  | FailureHard => (true, false, h.(h_ProbeFailure).(pf_Reason))
  | FailureSoft => (false, true, h.(h_ProbeFailure).(pf_Reason))
  | FailureNone => if negb access then (false, true, ReasonGPUAccessProbeFail) else (false, false, "")
  end.

Definition uncorr_reading (h : Health) : Z * bool :=
  if h.(h_ECCUncorrectable).(Supported) then (h.(h_ECCUncorrectable).(Value), true)
  else if h.(h_RASUncorrectable).(Supported) then (h.(h_RASUncorrectable).(Value), true)
  else (0, false).

Definition class_string (c : FailureClass) : string :=
  match c with FailureNone => "" | FailureHard => "hard" | FailureSoft => "soft" end.

(** The disconnect and rejoin edges. *)
Definition disconnect_edge (devID : string) (wall mono : Z) (info : LifecycleInfo)
    (newState : LifecycleState) (d : deviceState) : option deviceState :=
  if LifecycleState_eqb newState StateOffline && negb d.(sd_wasOffline) then
    h ← MarkDisconnect mono d.(sd_hist);
    d |> with_hist h |> with_edge true mono
      |> add_event (event wall devID EventDisconnect None None "device entered OFFLINE" info.(li_ReasonCodes)
                      [("hard_offline", EvBool info.(li_HardOffline));
                       ("consecutive_soft_failures", EvInt info.(li_ConsecutiveSoftFailures))] "")
  else Some d.

Definition rejoin_edge (devID : string) (wall mono : Z) (newState : LifecycleState) (d : deviceState) :
    option deviceState :=
  if d.(sd_wasOffline) && LifecycleState_eqb newState StateRecovering then
    let recMs := f64_of_Z (dur_milliseconds (wrap64 (mono - d.(sd_offlineMono)))) in
    d |> with_hist (MarkRejoin recMs d.(sd_hist)) |> with_edge false d.(sd_offlineMono)
      |> add_event (event wall devID EventRejoin None (Some StateRecovering)
                      "probe recovered, entering RECOVERING" [] [("recovery_duration_ms", EvFloat recMs)] "")
  else Some d.

Section poll.
  Variable exp : f64 -> f64.

(** The stability inputs after the probe was recorded: also prunes the worker log. *)
Definition stability_inputs (mono newUncorr : Z) (hist : DeviceHistory) (w : workerEventLog) :
    option (workerEventLog * StabilityInputs) :=
  let rel := Snapshot hist in
  discs ← DisconnectsInWindow mono hist;
  let '(w, disappeared) := disappearancesInWindow mono w in
  let '(w, rapid) := rapidRestartEvents mono rapidRestartSec w in
  Some (w,
    {| si_RecentAvailability := rel.(rel_RecentAvailability);
       si_ConsecutiveFailures := rel.(rel_ConsecutiveFailures);
       si_DisconnectsInWindow := discs; si_LastRecoveryMs := rel.(rel_LastRecoveryMs);
       si_ErrorCountDelta := newUncorr; si_LatencyP95Ms := rel.(rel_ProbeLatencyP95Ms);
       si_LatencyP50Ms := rel.(rel_ProbeLatencyP50Ms);
       si_ThroughputVariance :=
         if rel.(rel_ThroughputVariance).(Supported) then rel.(rel_ThroughputVariance).(Value)
         else f64_of_Z (-1);
       si_WorkerDisappearancesObserved := disappeared; si_ConfirmedAbnormalWorkerExits := 0;
       si_ConfirmedOOMEvents := 0; si_RapidRestartEvents := rapid |}).

Definition pollDevice (accessEach : bool) (devID : string) (i : PollInput) (d : deviceState) :
    option deviceState :=
  let mono := i.(in_mono) in
  let wall := i.(in_wall) in
  let access := if accessEach then i.(in_access) else i.(in_health).(h_GPUVisible) in
  let health := set_access access i.(in_health) in
  let probeOK := health.(h_GPUVisible) && access in
  hist ← RecordProbe probeOK health.(h_ProbeLatencyMs) mono wall d.(sd_hist);
  let '(hard, soft, failReason) := classify_failure health access in
  let '(curUncorr, uncorrSup) := uncorr_reading health in
  let '(hist, newUncorr) := ObserveUncorr curUncorr uncorrSup hist in
  '(w, stabIn) ← stability_inputs mono newUncorr hist d.(sd_workerEvents);
  let '(stabCalc, stab) := Update exp stabIn wall d.(sd_stab) in
  let o :=
    {| o_ProbeOK := probeOK; o_GPUVisible := health.(h_GPUVisible); o_GPUAccessible := access;
       o_HardOfflineEvidence := hard; o_SoftFailure := soft;
       o_UtilPct := health.(h_UtilizationGPU).(Value); o_UtilSupported := health.(h_UtilizationGPU).(Supported);
       o_FreeMemRatio := health.(h_EffectiveFreeMemRatio); o_StabilityScore := stab.(ss_Score);
       o_NewUncorrErrors := newUncorr; o_Mono := mono; o_ProbeFailReason := failReason |} in
  let prevState := d.(sd_machine).(lm_state) in
  let '(machine, transitioned) := Step d.(sd_machine) o in
  let newState := machine.(lm_state) in
  let info := Info machine in
  let d := d |> with_hist hist |> with_workers d.(sd_workerSeen) w |> with_core machine stabCalc in
  d ← disconnect_edge devID wall mono info newState d;
  d ← rejoin_edge devID wall mono newState d;
  d ← (if transitioned : bool then
         add_event (event wall devID EventStateTransition (Some prevState) (Some newState)
                      (joinReasons info.(li_ReasonCodes)) info.(li_ReasonCodes) [] "") d
       else Some d);
  d ← (if negb probeOK then
         add_event (event wall devID EventProbeFailure None None (probeFailDetail health) [failReason]
                      [("class", EvString (class_string health.(h_ProbeFailure).(pf_Class)))] "") d
       else Some d);
  d ← detectWorkers devID health wall mono d;
  let status :=
    {| ds_Identity := d.(sd_identity); ds_Health := health; ds_LifecycleState := newState;
       ds_Lifecycle := info; ds_Reliability := Snapshot d.(sd_hist); ds_Stability := stab;
       ds_Capacity := computeCapacityHint health stab.(ss_Score) |} in
  hist ← AddPoint
    {| hp_Timestamp := wall; hp_DeviceID := devID; hp_LifecycleState := newState;
       hp_StabilityScore := stab.(ss_Score); hp_UtilGPU := health.(h_UtilizationGPU).(Value);
       hp_MemUsedBytes := health.(h_MemUsedBytes).(Value);
       hp_TemperatureC := health.(h_TemperatureC).(Value); hp_ProbeOK := probeOK;
       hp_ProbeLatencyMs := health.(h_ProbeLatencyMs) |} d.(sd_hist);
  Some (d |> with_hist hist |> with_sample probeOK wall mono status).
End poll.

(** ** The host *)

Record Supervisor := {
  sv_devices : gmap string deviceState;
  sv_order : list string;
  sv_instanceID : string;
  sv_hostname : string;
  sv_bootID : string;
  sv_version : string;
  sv_vendor : Vendor;
  sv_startWall : Z;
  sv_lifeCfg : LifecycleConfig;
  sv_stabCfg : StabilityConfig;
  sv_winSec : f64;
  sv_probeRingCap : Z;
  sv_pointRingCap : Z;
  sv_eventRingCap : Z;
  sv_accessEach : bool;
  sv_maxTelemetryAge : Z;
  sv_pollInterval : Z;
}.

Definition NewSupervisor (vendor : Vendor) (instanceID hostname bootID version : string)
    (lifeCfg : LifecycleConfig) (stabCfg : StabilityConfig) (winSec : f64)
    (probeRingCap pointRingCap eventRingCap : Z) (accessEach : bool) (now : Z) : Supervisor :=
  {| sv_devices := ∅; sv_order := []; sv_instanceID := instanceID; sv_hostname := hostname;
     sv_bootID := bootID; sv_version := version; sv_vendor := vendor; sv_startWall := now;
     sv_lifeCfg := lifeCfg; sv_stabCfg := stabCfg; sv_winSec := winSec;
     sv_probeRingCap := probeRingCap; sv_pointRingCap := pointRingCap; sv_eventRingCap := eventRingCap;
     sv_accessEach := accessEach; sv_maxTelemetryAge := 15 * second; sv_pollInterval := 2 * second |}.

Definition with_devices (m : gmap string deviceState) (order : list string) (s : Supervisor) : Supervisor :=
  {| sv_devices := m; sv_order := order; sv_instanceID := s.(sv_instanceID);
     sv_hostname := s.(sv_hostname); sv_bootID := s.(sv_bootID); sv_version := s.(sv_version);
     sv_vendor := s.(sv_vendor); sv_startWall := s.(sv_startWall); sv_lifeCfg := s.(sv_lifeCfg);
     sv_stabCfg := s.(sv_stabCfg); sv_winSec := s.(sv_winSec); sv_probeRingCap := s.(sv_probeRingCap);
     sv_pointRingCap := s.(sv_pointRingCap); sv_eventRingCap := s.(sv_eventRingCap);
     sv_accessEach := s.(sv_accessEach); sv_maxTelemetryAge := s.(sv_maxTelemetryAge);
     sv_pollInterval := s.(sv_pollInterval) |}.

Definition new_device (s : Supervisor) (id : Identity) : option deviceState :=
  let id :=
    {| id_SidecarInstanceID := s.(sv_instanceID); id_Hostname := s.(sv_hostname);
       id_BackendID := (s.(sv_hostname) +:+ "-gpu" +:+ id.(id_DeviceID))%stdpp;
       id_Vendor := id.(id_Vendor); id_DeviceID := id.(id_DeviceID); id_GPUModel := id.(id_GPUModel);
       id_GPUUUID := id.(id_GPUUUID); id_DriverVersion := id.(id_DriverVersion);
       id_RuntimeVersion := id.(id_RuntimeVersion); id_BootID := s.(sv_bootID);
       id_SidecarVersion := s.(sv_version) |} in
  hist ← NewDeviceHistory s.(sv_probeRingCap) s.(sv_pointRingCap) s.(sv_eventRingCap) s.(sv_winSec);
  Some
    {| sd_identity := id; sd_machine := NewLifecycleMachine s.(sv_lifeCfg);
       sd_stab := NewStabilityCalc s.(sv_stabCfg); sd_hist := MarkSidecarStart hist;
       sd_wasOffline := false; sd_offlineMono := 0; sd_lastStatus := None; sd_collected := false;
       sd_lastProbeOK := false; sd_lastSampleWall := 0; sd_lastSampleMono := 0; sd_workerSeen := false;
       sd_workerEvents := newWorkerEventLog s.(sv_winSec) s.(sv_eventRingCap) |}.

(** [Init] after a successful [Discover]; an empty filter keeps every device. *)
Fixpoint Init (filter : list string) (ids : list Identity) (s : Supervisor) : option Supervisor :=
  match ids with
  | [] => Some s
  | id :: ids =>
      if negb (bool_decide (filter = [])) && negb (bool_decide (id.(id_DeviceID) ∈ filter))
      then Init filter ids s
      else
        d ← new_device s id;
        Init filter ids (with_devices (<[id.(id_DeviceID) := d]> s.(sv_devices))
                           (s.(sv_order) ++ [id.(id_DeviceID)]) s)
  end.

(** [PollOnce]: the devices in order; an id without an entry is skipped. *)
Fixpoint poll_devices (exp : f64 -> f64) (input : string -> PollInput) (order : list string)
    (s : Supervisor) : option Supervisor :=
  match order with
  | [] => Some s
  | devID :: order =>
      match s.(sv_devices) !! devID with
      | None => poll_devices exp input order s
      | Some d =>
          d ← pollDevice exp s.(sv_accessEach) devID (input devID) d;
          poll_devices exp input order (with_devices (<[devID := d]> s.(sv_devices)) s.(sv_order) s)
      end
  end.
Definition PollOnce (exp : f64 -> f64) (input : string -> PollInput) (s : Supervisor) : option Supervisor :=
  poll_devices exp input s.(sv_order) s.

(** [SetDraining]: [(found, changed)]. *)
Definition device_SetDraining (devID : string) (drain : bool) (source : string) (wall : Z) (d : deviceState) :
    option (deviceState * bool) :=
  let '(machine, (prevState, changed)) := SetDrainingChecked drain d.(sd_machine) in
  let d := with_core machine d.(sd_stab) d in
  if negb changed then Some (d, false)
  else
    d ← add_event (event wall devID EventStateTransition (Some prevState) (Some prevState)
                     "operator drain change" [ReasonOperatorDrain]
                     [("draining_previous", EvBool (negb drain)); ("draining_new", EvBool drain);
                      ("request_source", EvString source)] "") d;
    Some (d, true).

Definition Supervisor_SetDraining (devID : string) (drain : bool) (source : string) (wall : Z) (s : Supervisor) :
    option (Supervisor * (bool * bool)) :=
  match s.(sv_devices) !! devID with
  | None => Some (s, (false, false))
  | Some d =>
      '(d, changed) ← device_SetDraining devID drain source wall d;
      Some (with_devices (<[devID := d]> s.(sv_devices)) s.(sv_order) s, (true, changed))
  end.

Definition Draining (devID : string) (s : Supervisor) : bool :=
  match s.(sv_devices) !! devID with None => false | Some d => d.(sd_machine).(lm_draining) end.

Definition Supervisor_SetThroughputVariance (devID : string) (cov : f64) (s : Supervisor) : Supervisor :=
  match s.(sv_devices) !! devID with
  | None => s
  | Some d => with_devices (<[devID := with_hist (SetThroughputVariance cov d.(sd_hist)) d]> s.(sv_devices))
                s.(sv_order) s
  end.

(** [s.devices[devID].x]: a missing entry is a nil dereference. *)
Definition HostStatus_of (now : Z) (s : Supervisor) : option HostStatus :=
  devices ← mapM (fun devID => sd_lastStatus <$> s.(sv_devices) !! devID) s.(sv_order);
  Some {| hs_SidecarInstanceID := s.(sv_instanceID); hs_Hostname := s.(sv_hostname);
          hs_Vendor := s.(sv_vendor); hs_SidecarVersion := s.(sv_version); hs_BootID := s.(sv_bootID);
          hs_Timestamp := now; hs_UptimeSeconds := dur_seconds (time_sub now s.(sv_startWall));
          hs_Devices := devices |}.

Definition Supervisor_History (s : Supervisor) : option (list HistoryPoint) :=
  mjoin <$> mapM (fun devID => d ← s.(sv_devices) !! devID; Points d.(sd_hist)) s.(sv_order).

Definition Supervisor_Events (s : Supervisor) : option (list Event) :=
  mjoin <$> mapM (fun devID => d ← s.(sv_devices) !! devID; Events d.(sd_hist)) s.(sv_order).

(** ** Readiness *)

Record DeviceReadiness := {
  dr_DeviceID : string;
  dr_Ready : bool;
  dr_LifecycleState : string;
  dr_TelemetryAgeMs : Z;
  dr_Reasons : list string;
}.

Record ReadinessResult := {
  rr_ControlPlaneReady : bool;
  rr_AnyDeviceReady : bool;
  rr_AllDevicesReady : bool;
  rr_ReadyDeviceCount : Z;
  rr_TotalDeviceCount : Z;
  rr_Ready : bool;
  rr_ReadyDevices : Z;
  rr_TotalDevices : Z;
  rr_Reasons : list string;
  rr_Details : list DeviceReadiness;
}.

Definition last_visible (d : deviceState) : bool :=
  match d.(sd_lastStatus) with Some st => h_GPUVisible (ds_Health st) | None => false end.
Definition last_accessible (d : deviceState) : bool :=
  match d.(sd_lastStatus) with Some st => h_GPUAccessible (ds_Health st) | None => false end.
Definition last_offline (d : deviceState) : bool :=
  match d.(sd_lastStatus) with Some st => LifecycleState_eqb (ds_LifecycleState st) StateOffline | None => false end.
Definition last_state_string (d : deviceState) : string :=
  match d.(sd_lastStatus) with Some st => LifecycleState_string (ds_LifecycleState st) | None => "" end.
Definition last_timestamp (d : deviceState) : Z :=
  match d.(sd_lastStatus) with Some st => h_Timestamp (ds_Health st) | None => time_zero end.

Definition when (b : bool) (r : string) : list string := if b then [r] else [].

Definition deviceReadinessLocked (s : Supervisor) (devID : string) (now : Z) (collectorStalled : bool) :
    option DeviceReadiness :=
  d ← s.(sv_devices) !! devID;
  let age := time_sub now d.(sd_lastSampleWall) in
  let no_sample := time_is_zero d.(sd_lastSampleWall) in
  let reasons :=
    when (negb d.(sd_collected)) "NO_COLLECTION_YET" ++
    when (negb (last_visible d)) "GPU_NOT_VISIBLE" ++
    when (negb (last_accessible d)) "GPU_NOT_ACCESSIBLE" ++
    when (negb d.(sd_lastProbeOK)) "LAST_PROBE_FAILED" ++
    (if negb no_sample then when (s.(sv_maxTelemetryAge) <? age) "TELEMETRY_STALE" else ["NO_SUCCESSFUL_SAMPLE"]) ++
    when (last_offline d) "LIFECYCLE_OFFLINE" ++
    when collectorStalled "COLLECTOR_STALLED" in
  Some {| dr_DeviceID := devID; dr_Ready := bool_decide (reasons = []);
          dr_LifecycleState := last_state_string d;
          dr_TelemetryAgeMs := if negb no_sample then dur_milliseconds age else -1;
          dr_Reasons := reasons |}.

(** [(anyCollected, newest)] over the devices. *)
Fixpoint newest_sample (s : Supervisor) (order : list string) (acc : bool * Z) : option (bool * Z) :=
  match order with
  | [] => Some acc
  | devID :: order =>
      d ← s.(sv_devices) !! devID;
      let '(any, newest) := acc in
      newest_sample s order
        (any || d.(sd_collected),
         if time_after (last_timestamp d) newest then last_timestamp d else newest)
  end.

Definition collectorStalled (s : Supervisor) (now : Z) : option bool :=
  '(any, newest) ← newest_sample s s.(sv_order) (false, time_zero);
  if negb any || time_is_zero newest then Some true
  else
    let limit := wrap64 (3 * s.(sv_pollInterval)) in
    let limit := if limit <? 6 * second then 6 * second else limit in
    Some (limit <? time_sub now newest).

(** The reasons not seen yet, in order; the map [seen] as the list of its keys. *)
Fixpoint dedup_reasons (seen : list string) (rs : list string) : list string :=
  match rs with
  | [] => []
  | r :: rs => if bool_decide (r ∈ seen) then dedup_reasons seen rs else r :: dedup_reasons (r :: seen) rs
  end.

Definition Readiness (s : Supervisor) (now : Z) : option ReadinessResult :=
  stalled ← collectorStalled s now;
  details ← mapM (fun devID => deviceReadinessLocked s devID now stalled) s.(sv_order);
  let ready := Z.of_nat (countb dr_Ready details) in
  let total := Z.of_nat (length s.(sv_order)) in
  let any := 0 <? ready in
  let cp := any && negb stalled in
  let reasons :=
    if negb cp then
      let rs := when stalled "COLLECTOR_STALLED" ++
                dedup_reasons (when stalled "COLLECTOR_STALLED") (mjoin (map dr_Reasons details)) in
      match rs with [] => ["NO_READY_DEVICES"] | _ => rs end
    else [] in
  Some {| rr_ControlPlaneReady := cp; rr_AnyDeviceReady := any;
          rr_AllDevicesReady := (0 <? total) && (ready =? total);
          rr_ReadyDeviceCount := ready; rr_TotalDeviceCount := total; rr_Ready := cp;
          rr_ReadyDevices := ready; rr_TotalDevices := total; rr_Reasons := reasons; rr_Details := details |}.

(** [DeviceReadiness(devID, now)]: [None] inside is [found = false]. *)
Definition device_readiness (s : Supervisor) (devID : string) (now : Z) : option (option DeviceReadiness) :=
  match s.(sv_devices) !! devID with
  | None => Some None
  | Some _ =>
      stalled ← collectorStalled s now;
      Some <$> deviceReadinessLocked s devID now stalled
  end.

(** ** Settings and accessors *)

Definition with_timing (maxAge poll : Z) (s : Supervisor) : Supervisor :=
  {| sv_devices := s.(sv_devices); sv_order := s.(sv_order); sv_instanceID := s.(sv_instanceID);
     sv_hostname := s.(sv_hostname); sv_bootID := s.(sv_bootID); sv_version := s.(sv_version);
     sv_vendor := s.(sv_vendor); sv_startWall := s.(sv_startWall); sv_lifeCfg := s.(sv_lifeCfg);
     sv_stabCfg := s.(sv_stabCfg); sv_winSec := s.(sv_winSec); sv_probeRingCap := s.(sv_probeRingCap);
     sv_pointRingCap := s.(sv_pointRingCap); sv_eventRingCap := s.(sv_eventRingCap);
     sv_accessEach := s.(sv_accessEach); sv_maxTelemetryAge := maxAge; sv_pollInterval := poll |}.
Definition SetPollInterval (d : Z) (s : Supervisor) : Supervisor := with_timing s.(sv_maxTelemetryAge) d s.
Definition SetMaxTelemetryAge (d : Z) (s : Supervisor) : Supervisor := with_timing d s.(sv_pollInterval) s.
Definition Ready (s : Supervisor) (now : Z) : option bool := r ← Readiness s now; Some r.(rr_Ready).
Definition DeviceCount (s : Supervisor) : Z := Z.of_nat (length s.(sv_order)).
