(* ===== verification/SupervisorFacts.v ===== *)
(** * Properties of the supervisor

    The invariant of a device over every sequence of polls and operator requests, the readiness
    contract and the evidence of worker changes. *)

From Stdlib Require Import Floats.SpecFloat.
From stdpp Require Import base tactics numbers option list strings gmap.
From S2P Require Import Prelude GoFloat GoTime Model Lifecycle LifecycleFacts Ring History HistoryFacts Stability.
From S2P Require Import AdmissionQueue Supervisor.
Open Scope go_scope.

(** ** Histories that cannot panic *)

Record hist_wf (d : DeviceHistory) : Prop := {
  hw_probes : exists l, ring_rep (dh_probes d) l;
  hw_points : exists l, ring_rep (dh_points d) l;
  hw_events : exists l, ring_rep (dh_events d) l;
  hw_disconnects : exists l, ring_rep (dh_disconnects d) l;
  hw_cap : r_cap (dh_probes d) <= percentile_max;
}.

(** The two counters of the disconnect accounting. *)
Definition counts_of (d : DeviceHistory) : Z * Z := (rel_DisconnectCount (dh_rel d), rel_RejoinCount (dh_rel d)).

Lemma RecordProbe_wf ok l mono wall d :
  hist_wf d -> exists d', RecordProbe ok l mono wall d = Some d' /\ hist_wf d' /\ counts_of d' = counts_of d.
Proof.
  intros [[l1 H1] [l2 H2] [l3 H3] [l4 H4] Hcap]. unfold RecordProbe.
  set (p := {| pr_mono := mono; pr_ok := ok; pr_latency := l |}).
  destruct (ring_push_rep _ _ p H1) as (r' & -> & Hr' & Hcr). simpl. set (d1 := set_rel _ _).
  destruct (recomputeWindow_Some mono d1 (l1 ++ [p])) as
    (d' & -> & Hd1 & Hd2 & Hd3 & Hd4 & Hd5 & Hc1 & Hc2 & Hc3 & _); [done|subst d1; simpl; lia|].
  exists d'. split; [done|]. split.
  - split; rewrite ?Hd1, ?Hd2, ?Hd3, ?Hd4; subst d1; simpl; [by eexists..|lia].
  - unfold counts_of. rewrite Hc2, Hc3. subst d1. simpl. by destruct ok.
Qed.

Lemma AddEvent_wf e d :
  hist_wf d -> exists d', AddEvent e d = Some d' /\ hist_wf d' /\ dh_rel d' = dh_rel d.
Proof.
  intros [H1 H2 [l3 H3] H4 Hcap]. unfold AddEvent.
  destruct (ring_push_rep _ _ e H3) as (r' & -> & Hr' & Hcr). eexists. split; [done|].
  split; [by split; try done; eexists|done].
Qed.

Lemma AddPoint_wf p d :
  hist_wf d -> exists d', AddPoint p d = Some d' /\ hist_wf d' /\ dh_rel d' = dh_rel d.
Proof.
  intros [H1 [l2 H2] H3 H4 Hcap]. unfold AddPoint.
  destruct (ring_push_rep _ _ p H2) as (r' & -> & Hr' & Hcr). eexists. split; [done|].
  split; [by split; try done; eexists|done].
Qed.

Lemma MarkDisconnect_wf mono d :
  hist_wf d -> exists d', MarkDisconnect mono d = Some d' /\ hist_wf d' /\
    counts_of d' = (wrap64 (rel_DisconnectCount (dh_rel d) + 1), rel_RejoinCount (dh_rel d)).
Proof.
  intros [H1 H2 H3 [l4 H4] Hcap]. unfold MarkDisconnect.
  destruct (ring_push_rep _ _ mono H4) as (r' & -> & Hr' & Hcr). eexists. split; [done|].
  split; [by split; try done; eexists|done].
Qed.

Lemma hist_wf_rel r d : hist_wf d -> hist_wf (set_rel r d).
Proof. by intros [? ? ? ? ?]. Qed.

Lemma ObserveUncorr_wf cur sup d :
  hist_wf d -> hist_wf (fst (ObserveUncorr cur sup d)) /\ counts_of (fst (ObserveUncorr cur sup d)) = counts_of d.
Proof.
  intros [? ? ? ? ?]. unfold ObserveUncorr. destruct sup; [destruct (dh_haveUncorr d)|]; simpl; done.
Qed.

Lemma DisconnectsInWindow_wf now d : hist_wf d -> exists n, DisconnectsInWindow now d = Some n.
Proof.
  intros [_ _ _ [l4 H4] _]. unfold DisconnectsInWindow. rewrite (ring_items_rep _ _ H4). by eexists.
Qed.

Lemma iter_mark (f : DeviceHistory -> DeviceHistory) n d :
  (forall d, hist_wf d -> hist_wf (f d) /\ counts_of (f d) = counts_of d) ->
  hist_wf d -> hist_wf (Nat.iter n f d) /\ counts_of (Nat.iter n f d) = counts_of d.
Proof.
  intros Hf Hd. induction n as [|n [IH1 IH2]]; [done|]. simpl.
  destruct (Hf _ IH1) as [H1 H2]. split; [done|congruence].
Qed.

Lemma new_hist_wf s : 0 < sv_probeRingCap s <= percentile_max -> 0 < sv_pointRingCap s -> 0 < sv_eventRingCap s ->
  exists d, NewDeviceHistory (sv_probeRingCap s) (sv_pointRingCap s) (sv_eventRingCap s) (sv_winSec s) = Some d /\
    hist_wf d /\ counts_of d = (0, 0).
Proof.
  intros H1 H2 H3. destruct (hist_rep_new (sv_probeRingCap s) (sv_pointRingCap s) (sv_eventRingCap s) (sv_winSec s))
    as (d & Hd & [R1 R2 R3 R4 _ R5 R6] & Hc & _); [lia..|].
  exists d. split; [done|]. split; [split; [by eexists..|lia]|]. unfold counts_of. by rewrite R5, R6.
Qed.

(** ** The worker log stays bounded *)

Lemma pruneTimes_bound s now w m : 0 <= m -> Z.of_nat (length (pruneTimes s now w m)) <= m.
Proof.
  intros Hm. unfold pruneTimes. destruct (Z.ltb_spec m (Z.of_nat (length (drop_while
    (fun t => t <? wrap64 (now - dur_of_seconds w)) s)))); [|lia].
  rewrite length_lastn. lia.
Qed.

Definition log_ok (w : workerEventLog) : Prop :=
  0 <= wl_maxEntries w /\ Z.of_nat (length (wl_disappearances w)) <= wl_maxEntries w /\
  Z.of_nat (length (wl_appearances w)) <= wl_maxEntries w.

Lemma log_ok_ops w now :
  log_ok w -> log_ok (recordDisappearance now w) /\ log_ok (recordAppearance now w) /\
  log_ok (fst (disappearancesInWindow now w)) /\ log_ok (fst (rapidRestartEvents now rapidRestartSec w)).
Proof.
  intros (H0 & H1 & H2). unfold log_ok.
  split_and!; simpl; try done; by apply pruneTimes_bound.
Qed.

(** ** The invariant of a device *)

Lemma wrap64_mod z : wrap64 z `mod` 2 ^ 64 = z `mod` 2 ^ 64.
Proof. unfold wrap64. rewrite Zminus_mod_idemp_l. f_equal. lia. Qed.

Lemma wrap64_wrap64_add a b : wrap64 (wrap64 a + b) = wrap64 (a + b).
Proof.
  unfold wrap64 at 1 3. f_equal. rewrite <- Z.add_assoc, <- Zplus_mod_idemp_l, wrap64_mod, Zplus_mod_idemp_l.
  f_equal. lia.
Qed.

Definition is_offline (m : LifecycleMachine) : bool := LifecycleState_eqb (lm_state m) StateOffline.

(** Disconnects exceed rejoins by one exactly while the device counts as offline. *)
Definition balanced (was : bool) (c : Z * Z) : Prop := fst c = wrap64 (snd c + if was then 1 else 0).

Record device_inv (d : deviceState) : Prop := {
  di_hist : hist_wf (sd_hist d);
  di_machine : lc_inv (sd_machine d);
  di_offline : sd_wasOffline d = is_offline (sd_machine d);
  di_counts : balanced (sd_wasOffline d) (counts_of (sd_hist d));
  di_log : log_ok (sd_workerEvents d);
  di_status : forall st, sd_lastStatus d = Some st ->
    ds_LifecycleState st = lm_state (sd_machine d) /\
    in_unit (ss_Score (ds_Stability st)) = true /\
    in_unit (ch_HostCapacityHint (ds_Capacity st)) = true;
}.

Lemma Step_from_offline m o :
  lc_inv m -> lm_state m = StateOffline ->
  lm_state (fst (Step m o)) = StateOffline \/ lm_state (fst (Step m o)) = StateRecovering.
Proof.
  intros Hi Hs. pose proof (lc_inv_Step m o Hi) as Hi'. apply (inv_latch _ Hi').
  destruct (lm_recoveryLatched (fst (Step m o))) eqn:E; [done|exfalso].
  assert (Hl : lm_recoveryLatched m = true) by (apply (inv_latch _ Hi); by left).
  destruct (Step_release m o Hi Hl E) as [Hr _]. congruence.
Qed.

(** The edges, given the state before and after the step. *)
Lemma edges_ok devID wall mono info m' d :
  hist_wf (sd_hist d) -> balanced (sd_wasOffline d) (counts_of (sd_hist d)) ->
  (sd_wasOffline d = true -> lm_state m' = StateOffline \/ lm_state m' = StateRecovering) ->
  exists d1, (d1 ← disconnect_edge devID wall mono info (lm_state m') d;
              rejoin_edge devID wall mono (lm_state m') d1) = Some d1 /\
    hist_wf (sd_hist d1) /\ sd_wasOffline d1 = is_offline m' /\
    balanced (sd_wasOffline d1) (counts_of (sd_hist d1)) /\
    sd_machine d1 = sd_machine d /\ sd_stab d1 = sd_stab d /\ sd_workerEvents d1 = sd_workerEvents d /\
    sd_identity d1 = sd_identity d.
Proof.
  intros Hh Hb Hfrom. unfold disconnect_edge, rejoin_edge, is_offline in *.
  destruct (sd_wasOffline d) eqn:Hw; cbn [negb].
  - rewrite andb_false_r. cbn [mbind option_bind]. rewrite Hw. cbn [andb].
    destruct (Hfrom eq_refl) as [Hs|Hs]; rewrite Hs.
    + exists d. rewrite Hw. by split_and!.
    + unfold add_event. cbn [sd_hist with_edge with_hist].
      set (recMs := f64_of_Z _).
      match goal with |- context [ AddEvent ?e ?h ] =>
        destruct (AddEvent_wf e h) as (h' & -> & Hh' & Hrel); [by apply hist_wf_rel|] end.
      eexists. split; [reflexivity|]. cbn. split; [done|]. split; [done|]. split; [|done].
      unfold balanced, counts_of in *. rewrite Hrel. cbn. cbn [fst snd] in Hb.
      by rewrite wrap64_wrap64_add, Z.add_0_r.
  - rewrite andb_true_r. destruct (LifecycleState_eqb (lm_state m') StateOffline) eqn:Hs.
    + destruct (MarkDisconnect_wf mono (sd_hist d) Hh) as (h1 & -> & Hh1 & Hc1). cbn [mbind option_bind].
      unfold add_event. cbn [sd_hist with_edge with_hist].
      match goal with |- context [ AddEvent ?e ?h ] =>
        destruct (AddEvent_wf e h Hh1) as (h' & -> & Hh' & Hrel) end.
      cbn [mbind option_bind sd_wasOffline with_hist with_edge].
      apply LifecycleState_eqb_spec in Hs. rewrite Hs. cbn [andb].
      change (LifecycleState_eqb StateOffline StateRecovering) with false. cbn [andb].
      eexists. split; [reflexivity|]. cbn. split; [done|]. split; [done|]. split; [|done].
      unfold balanced in *. replace (counts_of h') with (counts_of h1) by (unfold counts_of; by rewrite Hrel).
      rewrite Hc1. unfold counts_of in Hb. cbn [fst snd] in *. rewrite Hb, wrap64_wrap64_add. f_equal. lia.
    + cbn [mbind option_bind]. rewrite Hw. cbn [andb]. exists d. rewrite Hw. by split_and!.
Qed.

(** What an event or a worker change leaves alone. *)
Record kept (d d' : deviceState) : Prop := {
  k_hist : hist_wf (sd_hist d');
  k_counts : counts_of (sd_hist d') = counts_of (sd_hist d);
  k_offline : sd_wasOffline d' = sd_wasOffline d;
  k_machine : sd_machine d' = sd_machine d;
  k_status : sd_lastStatus d' = sd_lastStatus d;
  k_log : log_ok (sd_workerEvents d');
}.

Lemma kept_refl d : hist_wf (sd_hist d) -> log_ok (sd_workerEvents d) -> kept d d.
Proof. by split. Qed.

Lemma kept_trans d d' d'' : kept d d' -> kept d' d'' -> kept d d''.
Proof. intros [] []. split; congruence. Qed.

Lemma add_event_kept e d d0 : kept d0 d -> exists d', add_event e d = Some d' /\ kept d0 d'.
Proof.
  intros [Hh Hc Ho Hm Hs Hl]. unfold add_event.
  destruct (AddEvent_wf e _ Hh) as (h & -> & Hh' & Hrel). eexists. split; [reflexivity|].
  split; cbn; try done. rewrite <- Hc. unfold counts_of. by rewrite Hrel.
Qed.

Lemma with_hist_kept h d d0 : kept d0 d -> hist_wf h -> counts_of h = counts_of (sd_hist d) -> kept d0 (with_hist h d).
Proof. intros [Hh Hc Ho Hm Hs Hl] H1 H2. split; cbn; try done. congruence. Qed.

Lemma with_workers_kept b w d d0 : kept d0 d -> log_ok w -> kept d0 (with_workers b w d).
Proof. intros [Hh Hc Ho Hm Hs Hl] H1. by split. Qed.

Lemma mark_kept d0 d n (f : DeviceHistory -> DeviceHistory) :
  (forall h, hist_wf h -> hist_wf (f h) /\ counts_of (f h) = counts_of h) ->
  kept d0 d -> kept d0 (with_hist (Nat.iter n f (sd_hist d)) d).
Proof.
  intros Hf Hk. destruct (iter_mark f n (sd_hist d) Hf (k_hist _ _ Hk)). by apply with_hist_kept.
Qed.

Lemma detectWorkers_kept devID h wall mono d d0 :
  kept d0 d -> exists d', detectWorkers devID h wall mono d = Some d' /\ kept d0 d'.
Proof.
  intros Hk. unfold detectWorkers.
  destruct (log_ok_ops _ mono (k_log _ _ Hk)) as (Hl1 & Hl2 & _).
  destruct (negb (Supported (h_ComputeProcs h))); [by exists d|].
  destruct (negb (Supported (last_procs d))).
  { destruct (_ <? _); [|by exists d]. apply add_event_kept, with_workers_kept; [done|apply Hk]. }
  destruct (Value (last_procs d) <? _).
  { apply add_event_kept, with_workers_kept; [|done]. apply mark_kept; [|done].
    intros; split; [by apply hist_wf_rel|done]. }
  destruct (_ <? Value (last_procs d)); [|by exists d].
  apply add_event_kept, with_workers_kept; [|done]. apply mark_kept; [|done].
  intros; split; [by apply hist_wf_rel|done].
Qed.

Lemma stability_inputs_ok mono n h w :
  hist_wf h -> log_ok w -> exists w' i, stability_inputs mono n h w = Some (w', i) /\ log_ok w'.
Proof.
  intros Hh Hl. unfold stability_inputs. destruct (DisconnectsInWindow_wf mono _ Hh) as [k ->].
  destruct (disappearancesInWindow mono w) as [w1 n1] eqn:E1.
  assert (H1 : log_ok w1) by (pose proof (log_ok_ops w mono Hl) as (_ & _ & H & _); by rewrite E1 in H).
  destruct (rapidRestartEvents mono rapidRestartSec w1) as [w2 n2] eqn:E2.
  assert (H2 : log_ok w2) by (pose proof (log_ok_ops w1 mono H1) as (_ & _ & _ & H); by rewrite E2 in H).
  by do 2 eexists.
Qed.

Lemma Update_unit exp i now s :
  exists s' sc, Update exp i now s = (s', sc) /\ in_unit (ss_Score sc) = true.
Proof.
  unfold Update. destruct (instantaneous exp s i) as [inst comps]. do 2 eexists. split; [reflexivity|].
  apply clamp01_unit.
Qed.

(** The optional events of a poll. *)
Lemma add_event_if_kept (b : bool) e d d0 :
  kept d0 d -> exists d', (if b then add_event e d else Some d) = Some d' /\ kept d0 d'.
Proof. intros Hk. destruct b; [by apply add_event_kept|by exists d]. Qed.

Ltac rebind := cbn [mbind option_bind].

(** The observation a poll hands to the lifecycle machine. *)
Definition observed (acc : bool) (i : PollInput) (o : LifecycleObservation) : Prop :=
  let access := if acc then i.(in_access) else i.(in_health).(h_GPUVisible) in
  classify_failure (set_access access i.(in_health)) access =
    (o.(o_HardOfflineEvidence), o.(o_SoftFailure), o.(o_ProbeFailReason)) /\
  o.(o_GPUVisible) = i.(in_health).(h_GPUVisible) /\ o.(o_GPUAccessible) = access /\
  o.(o_ProbeOK) = i.(in_health).(h_GPUVisible) && access.

Lemma pollDevice_step exp acc devID i d :
  device_inv d -> exists d' o, pollDevice exp acc devID i d = Some d' /\ device_inv d' /\
    sd_machine d' = fst (Step (sd_machine d) o) /\ observed acc i o /\ is_Some (sd_lastStatus d').
Proof.
  intros [Hh Hm Ho Hb Hl _]. unfold pollDevice.
  set (access := if acc then _ else _). set (health := set_access _ _). set (ok := _ && access).
  destruct (RecordProbe_wf ok (h_ProbeLatencyMs health) (in_mono i) (in_wall i) _ Hh) as (h1 & -> & Hh1 & Hc1).
  rebind. destruct (classify_failure health access) as [[hard soft] failReason] eqn:Ecl.
  destruct (uncorr_reading health) as [cur sup].
  destruct (ObserveUncorr_wf cur sup _ Hh1) as [Hh2 Hc2]. destruct (ObserveUncorr cur sup h1) as [h2 newU]. cbn [fst] in *.
  destruct (stability_inputs_ok (in_mono i) newU _ _ Hh2 Hl) as (w & si & -> & Hw). rebind.
  destruct (Update_unit exp si (in_wall i) (sd_stab d)) as (calc & sc & -> & Hsc).
  set (o := {| o_ProbeOK := _ |}).
  assert (Hobs : observed acc i o) by (split; [exact Ecl|done]).
  pose proof (lc_inv_Step (sd_machine d) o Hm) as Hm'. pose proof (Step_from_offline (sd_machine d) o Hm) as Hfrom.
  destruct (Step (sd_machine d) o) as [m' tr] eqn:Est. cbn [fst] in *.
  match goal with |- context [ disconnect_edge _ _ _ _ _ ?x ] => set (d1 := x) end.
  destruct (edges_ok devID (in_wall i) (in_mono i) (Info m') m' d1) as (d2 & Hd2 & Hh3 & Hw3 & Hb3 & Hm3 & _ & Hl3 & _);
    [done|by subst d1; cbn; rewrite Hc2, Hc1|cbn; rewrite Ho; intros Hs; by apply Hfrom, LifecycleState_eqb_spec|].
  destruct (disconnect_edge _ _ _ _ _ d1) as [d1'|]; [|done]. cbn [mbind option_bind] in Hd2.
  rebind. rewrite Hd2. rebind.
  assert (Hk : kept d2 d2) by (apply kept_refl; [done|by rewrite Hl3]).
  match goal with |- context [ if tr then add_event ?e d2 else _ ] =>
    destruct (add_event_if_kept tr e d2 d2 Hk) as (d3 & -> & Hk3) end. rebind.
  match goal with |- context [ if negb ok then add_event ?e d3 else _ ] =>
    destruct (add_event_if_kept (negb ok) e d3 d2 Hk3) as (d4 & -> & Hk4) end. rebind.
  destruct (detectWorkers_kept devID health (in_wall i) (in_mono i) d4 d2 Hk4) as (d5 & -> & [Hh5 Hc5 Ho5 Hm5 _ Hl5]).
  rebind. match goal with |- context [ AddPoint ?p ?h ] => destruct (AddPoint_wf p h Hh5) as (h6 & -> & Hh6 & Hr6) end.
  rebind. eexists _, o. split; [reflexivity|]. assert (Hc6 : counts_of h6 = counts_of (sd_hist d2))
    by (rewrite <- Hc5; unfold counts_of; by rewrite Hr6).
  assert (Hmm : sd_machine d5 = m') by (by rewrite Hm5, Hm3).
  split; [|split; [cbn; by rewrite Hmm, Est|split; [exact Hobs|by eexists]]].
  split; cbn; [done|by rewrite Hmm|by rewrite Ho5, Hw3, Hmm|by rewrite Ho5, Hc6|done|].
  intros st [= <-]. cbn. rewrite Hmm. split_and!; [done..|]. apply clamp01_unit.
Qed.

Lemma pollDevice_ok exp acc devID i d :
  device_inv d -> exists d', pollDevice exp acc devID i d = Some d' /\ device_inv d'.
Proof. intros H. destruct (pollDevice_step exp acc devID i d H) as (d' & o & H1 & H2 & _). by exists d'. Qed.

Lemma SetDraining_inv_fields b m m' p c :
  SetDrainingChecked b m = (m', (p, c)) -> lc_inv m ->
  lc_inv m' /\ lm_state m' = lm_state m /\ p = lm_state m /\ lm_draining m' = b /\ (c = negb (eqb (lm_draining m) b)).
Proof.
  intros E Hm. pose proof (lc_inv_draining m b Hm) as Hi. rewrite E in Hi. split; [done|].
  revert E. unfold SetDrainingChecked. destruct (eqb (lm_draining m) b) eqn:Eb; intros [= <- <- <-]; cbn; try done.
  by rewrite <- (eqb_prop _ _ Eb).
Qed.

Lemma device_SetDraining_ok devID b src wall d :
  device_inv d -> exists d' c, device_SetDraining devID b src wall d = Some (d', c) /\ device_inv d' /\
    lm_draining (sd_machine d') = b /\ c = negb (eqb (lm_draining (sd_machine d)) b).
Proof.
  intros [Hh Hm Ho Hb Hl Hs]. unfold device_SetDraining.
  destruct (SetDrainingChecked b (sd_machine d)) as [m' [p c]] eqn:E.
  destruct (SetDraining_inv_fields _ _ _ _ _ E Hm) as (Hm' & Hst & _ & Hdr & ->).
  assert (Hi : device_inv (with_core m' (sd_stab d) d)).
  { split; cbn; try done; [by unfold is_offline; rewrite Hst|by rewrite Hst]. }
  destruct (eqb (lm_draining (sd_machine d)) b); cbn [negb]; [by do 2 eexists|].
  set (d1 := with_core m' (sd_stab d) d) in *.
  match goal with |- context [ add_event ?e d1 ] =>
    destruct (add_event_kept e d1 d1) as (d' & -> & [Kh Kc Ko Km Ks Kl]); [by apply kept_refl; apply Hi|] end.
  rebind. do 2 eexists. split; [reflexivity|]. split; [|by rewrite Km].
  destruct Hi as [_ _ Io Ib _ Is]. split; try done; [by rewrite Km|by rewrite Ko, Km|by rewrite Ko, Kc|by rewrite Ks, Km].
Qed.

(** ** The host *)

Inductive sv_op :=
  | OpPoll (input : string -> PollInput)
  | OpDrain (devID : string) (drain : bool) (source : string) (wall : Z)
  | OpVariance (devID : string) (cov : f64).

Definition sv_apply (exp : f64 -> f64) (op : sv_op) (s : Supervisor) : option Supervisor :=
  match op with
  | OpPoll input => PollOnce exp input s
  | OpDrain devID b src wall => fst <$> Supervisor_SetDraining devID b src wall s
  | OpVariance devID cov => Some (Supervisor_SetThroughputVariance devID cov s)
  end.

Definition sv_run (exp : f64 -> f64) (ops : list sv_op) (s : Supervisor) : option Supervisor :=
  fold_left (fun s op => s ← s; sv_apply exp op s) ops (Some s).

Record sv_inv (s : Supervisor) : Prop := {
  si_devices : map_Forall (fun _ => device_inv) (sv_devices s);
  si_order : forall devID, devID ∈ sv_order s <-> is_Some (sv_devices s !! devID);
}.

(** Positive ring capacities, and a probe ring no longer than the percentile scan allows. *)
Definition caps_ok (s : Supervisor) : Prop :=
  0 < sv_probeRingCap s <= percentile_max /\ 0 < sv_pointRingCap s /\ 0 < sv_eventRingCap s.

Lemma new_device_inv s id : caps_ok s -> exists d, new_device s id = Some d /\ device_inv d /\ sd_collected d = false.
Proof.
  intros (H1 & H2 & H3). unfold new_device.
  destruct (new_hist_wf s H1 H2 H3) as (h & -> & Hh & Hc). rebind. eexists. split; [reflexivity|]. split; [|done].
  split; cbn; try done.
  - by apply hist_wf_rel.
  - apply lc_inv_new.
  - by unfold balanced, counts_of in *; cbn; injection Hc as -> ->.
  - unfold log_ok. cbn. lia.
Qed.

Lemma sv_inv_insert s devID d order :
  sv_inv s -> device_inv d ->
  (forall k, k ∈ order <-> k = devID \/ k ∈ sv_order s) ->
  sv_inv (with_devices (<[devID := d]> (sv_devices s)) order s).
Proof.
  intros [H1 H2] Hd Ho. split; cbn.
  - by apply map_Forall_insert_2.
  - intros k. rewrite Ho, H2, lookup_insert_is_Some. destruct (decide (devID = k)); [by subst; split; [left|left]|].
    split; [intros [->|]; [done|by right]|intros [->|[_ ]]; [by left|by right]].
Qed.

Lemma sv_inv_update s devID d d0 :
  sv_inv s -> sv_devices s !! devID = Some d0 -> device_inv d ->
  sv_inv (with_devices (<[devID := d]> (sv_devices s)) (sv_order s) s).
Proof.
  intros Hs Hl Hd. apply sv_inv_insert; [done..|]. intros k. split; [by right|].
  intros [->|]; [|done]. apply (si_order _ Hs). by eexists.
Qed.

Lemma caps_with_devices m o s : caps_ok (with_devices m o s) <-> caps_ok s.
Proof. done. Qed.

Lemma Init_ok filter ids s : caps_ok s -> sv_inv s -> exists s', Init filter ids s = Some s' /\ sv_inv s'.
Proof.
  revert s. induction ids as [|id ids IH]; intros s Hc Hs; cbn [Init]; [by exists s|].
  destruct (_ && _); [by apply IH|].
  destruct (new_device_inv s id Hc) as (d & -> & Hd & _). rebind. apply IH; [done|].
  apply sv_inv_insert; [done..|]. intros k. rewrite elem_of_app, list_elem_of_singleton. tauto.
Qed.

Lemma poll_devices_ok exp input order s :
  sv_inv s -> exists s', poll_devices exp input order s = Some s' /\ sv_inv s'.
Proof.
  revert s. induction order as [|devID order IH]; intros s Hs; cbn [poll_devices]; [by exists s|].
  destruct (sv_devices s !! devID) as [d|] eqn:Hl; [|by apply IH].
  destruct (pollDevice_ok exp (sv_accessEach s) devID (input devID) d) as (d' & -> & Hd');
    [by apply (si_devices _ Hs devID)|].
  rebind. apply IH. by eapply sv_inv_update.
Qed.

Lemma sv_apply_ok exp op s : sv_inv s -> exists s', sv_apply exp op s = Some s' /\ sv_inv s'.
Proof.
  intros Hs. destruct op as [input|devID b src wall|devID cov]; cbn [sv_apply].
  - by apply poll_devices_ok.
  - unfold Supervisor_SetDraining. destruct (sv_devices s !! devID) as [d|] eqn:Hl; [|by exists s].
    destruct (device_SetDraining_ok devID b src wall d) as (d' & c & -> & Hd' & _); [by apply (si_devices _ Hs devID)|].
    eexists. split; [reflexivity|]. by eapply sv_inv_update.
  - unfold Supervisor_SetThroughputVariance. destruct (sv_devices s !! devID) as [d|] eqn:Hl; [|by exists s].
    eexists. split; [reflexivity|]. eapply sv_inv_update; [done..|].
    destruct (si_devices _ Hs devID d Hl) as [Ih Im Io Ib Il Is]. split; cbn; try done. by apply hist_wf_rel.
Qed.

Lemma sv_run_ok exp ops s : sv_inv s -> exists s', sv_run exp ops s = Some s' /\ sv_inv s'.
Proof.
  unfold sv_run. revert s. induction ops as [|op ops IH]; intros s Hs; cbn [fold_left]; [by exists s|].
  rebind. destruct (sv_apply_ok exp op s Hs) as (s' & -> & Hs'). by apply IH.
Qed.

(** ** Readiness *)

Lemma dedup_reasons_spec seen rs :
  NoDup (dedup_reasons seen rs) /\ forall r, r ∈ dedup_reasons seen rs <-> r ∈ rs /\ r ∉ seen.
Proof.
  revert seen. induction rs as [|x rs IH]; intros seen; cbn [dedup_reasons].
  - split; [constructor|]. intros r. set_solver.
  - case_bool_decide as Hx; [destruct (IH seen) as [H1 H2]|destruct (IH (x :: seen)) as [H1 H2]].
    + split; [done|]. intros r. rewrite H2. set_solver.
    + split; [constructor; [rewrite H2; set_solver|done]|]. intros r. rewrite elem_of_cons, H2.
      destruct (decide (r = x)); set_solver.
Qed.

(** The newest published sample time of a list of devices, zero when there is none. *)
Definition max_time (ts : list Z) (t : Z) : Z := fold_left Z.max ts t.

Lemma max_time_spec ts t x : x < max_time ts t <-> x < t \/ exists u, u ∈ ts /\ x < u.
Proof.
  revert t. induction ts as [|u ts IH]; intros t; cbn.
  - split; [by left|intros [?|(u & Hu & _)]; [done|set_solver]].
  - unfold max_time in IH. rewrite IH, Z.max_lt_iff. split.
    + intros [[?|?]|(v & Hv & ?)]; [by left|right; exists u; split; [left|]; done|right; exists v; split; [by right|done]].
    + intros [?|(v & [->|Hv]%elem_of_cons & ?)]; [by left; left|by left; right|right; by exists v].
Qed.

Lemma newest_sample_spec s ds order acc :
  mapM (fun k => sv_devices s !! k) order = Some ds ->
  newest_sample s order acc =
    Some (fst acc || existsb sd_collected ds, max_time (map last_timestamp ds) (snd acc)).
Proof.
  revert ds acc. induction order as [|k order IH]; intros ds [any t] Hm; cbn [newest_sample].
  - injection Hm as <-. cbn. by rewrite orb_false_r.
  - cbn [mapM] in Hm. destruct (sv_devices s !! k) as [d|]; [|done]. cbn [mbind option_bind] in *.
    destruct (mapM _ order) as [ds'|]; [|done]. injection Hm as <-. rewrite (IH ds') by done. cbn.
    rewrite orb_assoc. do 3 f_equal. unfold time_after.
    destruct (Z.ltb_spec t (last_timestamp d)); lia.
Qed.

(** How long without a published sample the collector counts as running. *)
Definition stall_limit (s : Supervisor) : Z := Z.max (wrap64 (3 * sv_pollInterval s)) (6 * second).

Lemma existsb_exists_Some {A} (f : A -> bool) l : existsb f l = true <-> exists x, x ∈ l /\ f x = true.
Proof. rewrite existsb_exists. setoid_rewrite list_elem_of_In. done. Qed.

Lemma collectorStalled_spec s now ds :
  mapM (fun k => sv_devices s !! k) (sv_order s) = Some ds ->
  exists b, collectorStalled s now = Some b /\
    (b = false <-> (exists d, d ∈ ds /\ sd_collected d = true) /\
      exists d, d ∈ ds /\ 0 < last_timestamp d /\ time_sub now (last_timestamp d) <= stall_limit s).
Proof.
  intros Hm. unfold collectorStalled. rewrite (newest_sample_spec _ _ _ _ Hm). cbn [fst snd mbind option_bind].
  replace (if _ <? 6 * second then 6 * second else _) with (stall_limit s)
    by (unfold stall_limit; destruct (Z.ltb_spec (wrap64 (3 * sv_pollInterval s)) (6 * second)); lia).
  set (nw := max_time _ _). unfold time_is_zero, time_zero in *. cbn [orb].
  assert (Hnw : forall x, x < nw <-> x < 0 \/ exists d, d ∈ ds /\ x < last_timestamp d).
  { intros x. subst nw. rewrite max_time_spec. split.
    - intros [?|(u & (d & -> & Hd)%list_elem_of_fmap & ?)]; [by left|right; by exists d].
    - intros [?|(d & Hd & ?)]; [by left|right; exists (last_timestamp d); split; [by apply list_elem_of_fmap_2|done]]. }
  assert (Hge : forall d, d ∈ ds -> last_timestamp d <= nw).
  { intros d Hd. destruct (Z.le_gt_cases (last_timestamp d) nw); [done|]. exfalso.
    enough (nw < nw) by lia. apply Hnw. right. by exists d. }
  assert (H0 : 0 <= nw) by (enough (-1 < nw) by lia; apply Hnw; left; lia).
  assert (Hex : existsb sd_collected ds = true <-> exists d, d ∈ ds /\ sd_collected d = true)
    by apply existsb_exists_Some.
  destruct (existsb sd_collected ds) eqn:Ec; cbn [negb orb].
  2: { eexists; split; [done|]. split; [done|]. intros [Hc _]. by apply Hex in Hc. }
  destruct (Z.eqb_spec nw 0) as [Hz|Hz].
  { eexists; split; [done|]. split; [done|]. intros [_ (d & Hd & Hp & _)]. apply Hge in Hd. lia. }
  eexists. split; [done|]. rewrite Z.ltb_ge. split.
  - intros Hl. split; [by apply Hex|]. assert (Hlt : nw - 1 < nw) by lia.
    apply Hnw in Hlt as [?|(d & Hd & Hdl)]; [lia|]. exists d. split; [done|]. pose proof (Hge d Hd).
    replace (last_timestamp d) with nw by lia. split; [lia|done].
  - intros [_ (d & Hd & Hp & Hl)]. pose proof (Hge d Hd). unfold time_sub in *. lia.
Qed.

(** ** The properties *)

(** C6: from [Init] with positive ring capacities, any sequence of polls, drain requests and
    variance records runs without a panic, whatever the adapter answers.  Afterwards the devices are
    exactly the ones in the order list; on each of them the offline edge detector agrees with the
    lifecycle machine, disconnects exceed rejoins (in 64-bit arithmetic) by one while it is OFFLINE
    and by nothing otherwise, the recovery latch is set exactly in OFFLINE and RECOVERING, the worker
    log is within its bound, and the published status carries the state of the machine, a score and
    a capacity hint between 0 and 1. *)
Theorem supervisor_invariant vendor inst host boot ver lcfg scfg win pc ptc ec acc t0 filter ids exp ops :
  0 < pc <= percentile_max -> 0 < ptc -> 0 < ec ->
  exists s0 s,
    Init filter ids (NewSupervisor vendor inst host boot ver lcfg scfg win pc ptc ec acc t0) = Some s0 /\
    sv_run exp ops s0 = Some s /\
    (forall devID, devID ∈ sv_order s <-> is_Some (sv_devices s !! devID)) /\
    forall devID d, sv_devices s !! devID = Some d ->
      let m := sd_machine d in
      let rel := dh_rel (sd_hist d) in
      (sd_wasOffline d = true <-> lm_state m = StateOffline) /\
      rel_DisconnectCount rel = wrap64 (rel_RejoinCount rel + if sd_wasOffline d then 1 else 0) /\
      (lm_recoveryLatched m = true <-> lm_state m = StateOffline \/ lm_state m = StateRecovering) /\
      log_ok (sd_workerEvents d) /\
      forall st, sd_lastStatus d = Some st ->
        ds_LifecycleState st = lm_state m /\ in_unit (ss_Score (ds_Stability st)) = true /\
        in_unit (ch_HostCapacityHint (ds_Capacity st)) = true.
Proof.
  intros H1 H2 H3. set (s := NewSupervisor _ _ _ _ _ _ _ _ _ _ _ _ _).
  assert (Hs : sv_inv s).
  { split; cbn; [apply map_Forall_empty|]. intros k. rewrite lookup_empty, is_Some_alt. set_solver. }
  destruct (Init_ok filter ids s) as (s0 & Hi & Hs0); [done..|].
  destruct (sv_run_ok exp ops s0 Hs0) as (s1 & Hr & [Hd Ho]).
  exists s0, s1. split_and!; try done. intros devID d Hl m rel.
  destruct (Hd devID d Hl) as [Ih Im Io Ib Il Is]. split_and!; [|done| |done|done].
  - rewrite Io. apply LifecycleState_eqb_spec.
  - apply (inv_latch _ Im).
Qed.

(** What [/ready/{id}] demands of a device. *)
Definition device_ready (s : Supervisor) (now : Z) (stalled : bool) (d : deviceState) : bool :=
  sd_collected d && last_visible d && last_accessible d && sd_lastProbeOK d &&
  negb (time_is_zero (sd_lastSampleWall d)) && (time_sub now (sd_lastSampleWall d) <=? sv_maxTelemetryAge s) &&
  negb (last_offline d) && negb stalled.

Lemma deviceReadinessLocked_spec s devID now stalled d :
  sv_devices s !! devID = Some d ->
  exists dr, deviceReadinessLocked s devID now stalled = Some dr /\ dr_DeviceID dr = devID /\
    dr_Ready dr = device_ready s now stalled d /\ (dr_Reasons dr = [] <-> dr_Ready dr = true) /\
    (stalled = true -> "COLLECTOR_STALLED"%string ∈ dr_Reasons dr).
Proof.
  intros Hd. unfold deviceReadinessLocked. rewrite Hd. rebind. eexists. split; [reflexivity|].
  cbn [dr_DeviceID dr_Ready dr_Reasons]. split; [done|]. split; [|split].
  - unfold device_ready. rewrite Z.leb_antisym.
    destruct (sd_collected d), (last_visible d), (last_accessible d), (sd_lastProbeOK d),
      (time_is_zero (sd_lastSampleWall d)), (_ <? _), (last_offline d), stalled; done.
  - by rewrite bool_decide_eq_true.
  - intros ->. rewrite !elem_of_app. do 6 right. cbn. by left.
Qed.

Lemma lookup_all_Some (s : Supervisor) order :
  (forall k, k ∈ order -> is_Some (sv_devices s !! k)) ->
  exists ds, mapM (fun k => sv_devices s !! k) order = Some ds.
Proof.
  intros H. apply mapM_is_Some, Forall_forall. done.
Qed.

(** Per-device answers, in the order of the devices. *)
Lemma details_spec s now stalled order ds :
  mapM (fun k => sv_devices s !! k) order = Some ds ->
  exists details, mapM (fun k => deviceReadinessLocked s k now stalled) order = Some details /\
    map dr_DeviceID details = order /\
    map dr_Ready details = map (device_ready s now stalled) ds /\
    Forall (fun dr => (dr_Reasons dr = [] <-> dr_Ready dr = true) /\
                      (stalled = true -> "COLLECTOR_STALLED"%string ∈ dr_Reasons dr)) details.
Proof.
  revert ds. induction order as [|k order IH]; intros ds Hm.
  - injection Hm as <-. exists []. by split_and!.
  - cbn [mapM] in *. destruct (sv_devices s !! k) as [d|] eqn:Hk; [|done]. cbn [mbind option_bind] in Hm.
    destruct (mapM _ order) as [ds'|]; [|done]. injection Hm as <-.
    destruct (IH ds' eq_refl) as (dts & -> & H1 & H2 & H3).
    destruct (deviceReadinessLocked_spec s k now stalled d Hk) as (dr & -> & E1 & E2 & E3 & E4).
    rebind. eexists. split; [reflexivity|]. cbn. rewrite E1, E2, H1, H2. by split_and!; [..|constructor].
Qed.

(** Readiness never panics on a host whose order list names its devices, and says exactly this, on every input:
    a device is ready iff it was polled, is visible and accessible, its last probe succeeded, its
    last successful sample is younger than the limit, it is not OFFLINE and the collector runs; the
    collector runs iff some device was polled and some published sample is no older than
    max(3 polls, 6 s); the control plane is ready iff some device is; the counts are the numbers of
    ready and of all devices; and reasons, without repetition, are given iff it is not ready. *)
Lemma readiness_exact s now :
  (forall devID, devID ∈ sv_order s -> is_Some (sv_devices s !! devID)) ->
  exists ds stalled r,
    mapM (fun k => sv_devices s !! k) (sv_order s) = Some ds /\ Readiness s now = Some r /\
    (stalled = false <-> (exists d, d ∈ ds /\ sd_collected d = true) /\
      exists d, d ∈ ds /\ 0 < last_timestamp d /\ time_sub now (last_timestamp d) <= stall_limit s) /\
    map dr_DeviceID (rr_Details r) = sv_order s /\
    map dr_Ready (rr_Details r) = map (device_ready s now stalled) ds /\
    Forall (fun dr => dr_Reasons dr = [] <-> dr_Ready dr = true) (rr_Details r) /\
    rr_ReadyDeviceCount r = Z.of_nat (countb (device_ready s now stalled) ds) /\
    rr_TotalDeviceCount r = Z.of_nat (length ds) /\
    (rr_ControlPlaneReady r = true <-> exists d, d ∈ ds /\ device_ready s now stalled d = true) /\
    (rr_AllDevicesReady r = true <-> ds <> [] /\ Forall (fun d => device_ready s now stalled d = true) ds) /\
    (rr_Reasons r = [] <-> rr_ControlPlaneReady r = true) /\ NoDup (rr_Reasons r).
Proof.
  intros Hord. destruct (lookup_all_Some s _ Hord) as [ds Hds].
  destruct (collectorStalled_spec s now ds Hds) as (stalled & Hst & Hsp).
  destruct (details_spec s now stalled _ ds Hds) as (dts & Hdts & H1 & H2 & H3).
  assert (Hlen : length (sv_order s) = length ds) by (by eapply length_mapM).
  assert (Hcnt : countb dr_Ready dts = countb (device_ready s now stalled) ds).
  { rewrite countb_map, H2. symmetry. apply countb_map. }
  assert (Hany : (0 <? Z.of_nat (countb dr_Ready dts)) && negb stalled = true <->
    exists d, d ∈ ds /\ device_ready s now stalled d = true).
  { rewrite <- countb_pos, <- Hcnt, andb_true_iff, Z.ltb_lt. split; [lia|]. intros Hp. split; [lia|].
    rewrite Hcnt in Hp. apply countb_pos in Hp as (d & _ & Hr). unfold device_ready in Hr.
    by apply andb_true_iff in Hr as [_ ?]. }
  exists ds, stalled. unfold Readiness. rewrite Hst. rebind. rewrite Hdts. rebind.
  eexists. split; [done|]. split; [reflexivity|].
  cbn [rr_Details rr_ReadyDeviceCount rr_TotalDeviceCount rr_ControlPlaneReady rr_AllDevicesReady rr_Reasons].
  rewrite Hlen, Hcnt in *. split; [done|]. split; [done|]. split; [done|].
  split; [eapply Forall_impl; [exact H3|]; by intros dr [? _]|].
  do 2 (split; [done|]). split; [done|]. split.
  { rewrite andb_true_iff, Z.ltb_lt, Z.eqb_eq. split.
    - intros [Hp He]. split; [by intros ->|]. apply Forall_forall. intros d Hd.
      apply (countb_full _ ds); [lia|done].
    - intros [Hne Hall]. rewrite (countb_all _ _ Hall). destruct ds; [done|]. cbn [length]. lia. }
  destruct ((0 <? _) && negb stalled) eqn:Ecp; cbn [negb]; [split; [done|constructor]|].
  set (seen := when stalled _). destruct (dedup_reasons_spec seen (mjoin (map dr_Reasons dts))) as [Hnd Hin].
  assert (Hall : NoDup (seen ++ dedup_reasons seen (mjoin (map dr_Reasons dts)))).
  { apply NoDup_app. split; [subst seen; destruct stalled; [apply NoDup_singleton|constructor]|]. split; [|done].
    intros r Hr1 Hr2. by apply Hin in Hr2 as [_ ?]. }
  destruct (seen ++ _) as [|r rs]; (split; [done|]); [apply NoDup_singleton|done].
Qed.

(** The demands of readiness_semantics.md on a device, and the ages at which the document's bounds are strict and the
    code's are not. *)
Definition meets_contract (s : Supervisor) (now : Z) (stalled : bool) (d : deviceState) : bool :=
  sd_collected d && last_visible d && last_accessible d && sd_lastProbeOK d &&
  negb (time_is_zero (sd_lastSampleWall d)) && (time_sub now (sd_lastSampleWall d) <? sv_maxTelemetryAge s) &&
  negb (last_offline d) && negb stalled.
Definition off_limits (s : Supervisor) (now : Z) (d : deviceState) : Prop :=
  time_sub now (sd_lastSampleWall d) <> sv_maxTelemetryAge s /\ time_sub now (last_timestamp d) <> 3 * sv_pollInterval s.

Lemma meets_ready s now stalled d : off_limits s now d -> device_ready s now stalled d = meets_contract s now stalled d.
Proof.
  intros [Ha _]. unfold device_ready, meets_contract.
  replace (_ <=? sv_maxTelemetryAge s) with (time_sub now (sd_lastSampleWall d) <? sv_maxTelemetryAge s); [done|].
  destruct (Z.ltb_spec (time_sub now (sd_lastSampleWall d)) (sv_maxTelemetryAge s)),
    (Z.leb_spec (time_sub now (sd_lastSampleWall d)) (sv_maxTelemetryAge s)); lia.
Qed.

(** C31: the contract of readiness, where the documents and the code agree on it: with a poll interval of 2 s (the default)
    or more, once some device was polled, and no sample exactly as old as a limit.  [Readiness] does not panic, and a device
    is ready iff it was polled, is visible and accessible, its last probe succeeded, its last successful sample is
    younger than the limit, it is not OFFLINE and the collector runs; the collector runs iff some published sample is
    younger than three poll intervals; the control plane is ready iff some device is; the counts are the numbers of ready
    and of all devices; and reasons, without repetition, are given iff it is not ready. *)
Theorem readiness_contract s now ds
    (Hds : mapM (fun k => sv_devices s !! k) (sv_order s) = Some ds)
    (Hpoll : 2 * second <= sv_pollInterval s /\ 3 * sv_pollInterval s <= i64_max)
    (Hpolled : exists d, d ∈ ds /\ sd_collected d = true)
    (Hages : Forall (off_limits s now) ds) :
  exists stalled r, Readiness s now = Some r /\
    (stalled = false <-> exists d, d ∈ ds /\ 0 < last_timestamp d /\ time_sub now (last_timestamp d) < 3 * sv_pollInterval s) /\
    map dr_DeviceID (rr_Details r) = sv_order s /\
    map dr_Ready (rr_Details r) = map (meets_contract s now stalled) ds /\
    Forall (fun dr => dr_Reasons dr = [] <-> dr_Ready dr = true) (rr_Details r) /\
    rr_ReadyDeviceCount r = Z.of_nat (countb (meets_contract s now stalled) ds) /\
    rr_TotalDeviceCount r = Z.of_nat (length ds) /\
    (rr_ControlPlaneReady r = true <-> exists d, d ∈ ds /\ meets_contract s now stalled d = true) /\
    (rr_AllDevicesReady r = true <-> ds <> [] /\ Forall (fun d => meets_contract s now stalled d = true) ds) /\
    (rr_Reasons r = [] <-> rr_ControlPlaneReady r = true) /\ NoDup (rr_Reasons r).
Proof.
  destruct (readiness_exact s now) as (ds' & stalled & r & E & Hr & Hst & H1 & H2 & H3 & H4 & H5 & H6 & H7 & H8 & H9).
  { pose proof (mapM_is_Some_1 _ _ (mk_is_Some _ _ Hds)) as Hall. rewrite Forall_forall in Hall. exact Hall. }
  rewrite Hds in E. injection E as <-. exists stalled, r. rewrite Forall_forall in Hages.
  assert (Hmap : map (device_ready s now stalled) ds = map (meets_contract s now stalled) ds)
    by (apply map_ext_in; intros d Hd; apply meets_ready, Hages; by apply list_elem_of_In).
  assert (Hlim : stall_limit s = 3 * sv_pollInterval s).
  { unfold stall_limit. rewrite wrap64_id by (unfold in_i64, i64_min, i64_max, second in *; lia). lia. }
  split; [exact Hr|]. split.
  { rewrite Hst, Hlim. split.
    - intros (_ & d & Hd & Hp & Ha). exists d. split; [done|]. split; [done|]. destruct (Hages d Hd). lia.
    - intros (d & Hd & Hp & Ha). split; [done|]. exists d. split; [done|]. split; [done|lia]. }
  split; [exact H1|]. split; [by rewrite H2|]. split; [exact H3|].
  split; [by rewrite H4, !(countb_map _ (_ s now stalled)), Hmap|].
  split; [exact H5|]. split; [rewrite H6|].
  { split; intros (d & Hd & Hx); (exists d; split; [done|]); [rewrite <- meets_ready|rewrite meets_ready]; auto. }
  split; [rewrite H7; f_equiv; rewrite !Forall_forall|by split].
  split; intros Hx d Hd; [rewrite <- meets_ready|rewrite meets_ready]; auto.
Qed.

(** Where they do not agree: before the first poll the collector counts as stalled, and with a short poll interval it
    counts as running until the newest sample is 6 s old. *)
Lemma stalled_before_collection s now ds :
  mapM (fun k => sv_devices s !! k) (sv_order s) = Some ds -> Forall (fun d => sd_collected d = false) ds ->
  collectorStalled s now = Some true.
Proof.
  intros Hds Hc. destruct (collectorStalled_spec s now ds Hds) as ([|] & -> & H); [done|].
  destruct (proj1 H eq_refl) as [(d & Hd & E) _]. rewrite Forall_forall in Hc. by rewrite Hc in E.
Qed.
Lemma stall_floor s now ds d :
  mapM (fun k => sv_devices s !! k) (sv_order s) = Some ds -> d ∈ ds -> sd_collected d = true ->
  0 < last_timestamp d -> time_sub now (last_timestamp d) <= 6 * second -> collectorStalled s now = Some false.
Proof.
  intros Hds Hd Hc Hp Ha. destruct (collectorStalled_spec s now ds Hds) as (b & -> & H). f_equal. apply H.
  split; [by exists d|]. exists d. split; [done|]. split; [done|]. unfold stall_limit. lia.
Qed.

(** The newest event of the event ring. *)
Definition newest_event (d : deviceState) : option Event := evs ← Events d.(sd_hist); last evs.

Lemma add_event_newest e d : hist_wf (sd_hist d) -> exists d', add_event e d = Some d' /\ newest_event d' = Some e /\
  (exists h, d' = with_hist h d /\ dh_rel h = dh_rel (sd_hist d)).
Proof.
  intros [_ _ [l Hl] _ _]. unfold add_event, AddEvent.
  destruct (ring_push_rep _ _ e Hl) as (r & -> & Hr & Hc). rebind. eexists. split; [reflexivity|]. split.
  - unfold newest_event, Events. cbn [sd_hist with_hist dh_events set_events]. rewrite (ring_items_rep _ _ Hr).
    rebind. unfold ring_view. pose proof (rr_cap _ _ Hr).
    replace (Z.to_nat (r_cap r)) with (S (Z.to_nat (r_cap r) - 1)) by lia. by rewrite lastn_snoc, last_snoc.
  - eexists. split; [reflexivity|done].
Qed.

Lemma iter_starts n h : (0 < n)%nat ->
  dh_rel (Nat.iter n MarkWorkerStart h) =
    rel_counts (rel_SidecarStartCount (dh_rel h)) (wrap64 (rel_WorkerStarts (dh_rel h) + Z.of_nat n))
      (rel_WorkerStops (dh_rel h)) (rel_DisconnectCount (dh_rel h)) (rel_RejoinCount (dh_rel h))
      (rel_LastRecoveryMs (dh_rel h)) (dh_rel h).
Proof.
  induction n as [|n IH]; [lia|intros _]. destruct (decide (n = 0%nat)) as [->|Hn]; [done|].
  cbn [Nat.iter nat_rect]. unfold MarkWorkerStart at 1. cbn [dh_rel set_rel].
  change (nat_rect _ _ _ n) with (Nat.iter n MarkWorkerStart h). rewrite IH by lia. cbn.
  rewrite wrap64_wrap64_add, <- Z.add_assoc. by replace (Z.of_nat n + 1) with (Z.of_nat (S n)) by lia.
Qed.

Lemma iter_stops n h : (0 < n)%nat ->
  dh_rel (Nat.iter n MarkWorkerStop h) =
    rel_counts (rel_SidecarStartCount (dh_rel h)) (rel_WorkerStarts (dh_rel h))
      (wrap64 (rel_WorkerStops (dh_rel h) + Z.of_nat n)) (rel_DisconnectCount (dh_rel h)) (rel_RejoinCount (dh_rel h))
      (rel_LastRecoveryMs (dh_rel h)) (dh_rel h).
Proof.
  induction n as [|n IH]; [lia|intros _]. destruct (decide (n = 0%nat)) as [->|Hn]; [done|].
  cbn [Nat.iter nat_rect]. unfold MarkWorkerStop at 1. cbn [dh_rel set_rel].
  change (nat_rect _ _ _ n) with (Nat.iter n MarkWorkerStop h). rewrite IH by lia. cbn.
  rewrite wrap64_wrap64_add, <- Z.add_assoc. by replace (Z.of_nat n + 1) with (Z.of_nat (S n)) by lia.
Qed.

Lemma mark_wf n h : hist_wf h -> hist_wf (Nat.iter n MarkWorkerStart h) /\ hist_wf (Nat.iter n MarkWorkerStop h).
Proof. intros H. split; (apply iter_mark; [intros ? ?; split; [by apply hist_wf_rel|done]|done]). Qed.

Ltac event_of e d H := destruct (add_event_newest e d H) as (d' & -> & Hnew & (h' & -> & Hrel)).

(** What a change of the compute-process count is taken as evidence of.  The lifecycle machine,
    the stability state and the edge detector are never touched.  Without a reading, without a change
    and on a first reading of zero nothing happens; a first positive reading is an observation that
    counts no start; a rise counts exactly that many starts, a fall exactly that many stops, and the
    event of a fall leaves the cause unknown. *)
Theorem worker_evidence devID h wall mono d :
  let cur := h_ComputeProcs h in
  let prev := last_procs d in
  hist_wf (sd_hist d) -> in_i64 (Value cur - Value prev) -> in_i64 (Value prev - Value cur) ->
  exists d', detectWorkers devID h wall mono d = Some d' /\
    sd_machine d' = sd_machine d /\ sd_stab d' = sd_stab d /\ sd_wasOffline d' = sd_wasOffline d /\
    sd_lastStatus d' = sd_lastStatus d /\ counts_of (sd_hist d') = counts_of (sd_hist d) /\
    let starts x := rel_WorkerStarts (dh_rel (sd_hist x)) in
    let stops x := rel_WorkerStops (dh_rel (sd_hist x)) in
    let kind := ev_Kind <$> newest_event d' in
    if negb (Supported cur) then d' = d
    else if negb (Supported prev) then
      if 0 <? Value cur
      then kind = Some EventWorkerObserved /\ starts d' = starts d /\ stops d' = stops d
      else d' = d
    else if Value prev <? Value cur then
      kind = Some EventWorkerStarted /\
      starts d' = wrap64 (starts d + (Value cur - Value prev)) /\ stops d' = stops d
    else if Value cur <? Value prev then
      kind = Some EventWorkerDisappeared /\ ev_TerminationCause <$> newest_event d' = Some CauseUnknown /\
      starts d' = starts d /\ stops d' = wrap64 (stops d + (Value prev - Value cur))
    else d' = d.
Proof.
  intros cur prev Hh H1 H2. unfold detectWorkers. fold cur prev.
  destruct (negb (Supported cur)) eqn:E1; [by exists d|].
  destruct (negb (Supported prev)) eqn:E2.
  { destruct (0 <? Value cur) eqn:E3; [|by exists d].
    match goal with |- context [ add_event ?e ?x ] => event_of e x Hh end.
    eexists. split; [reflexivity|]. unfold counts_of. cbn [sd_hist with_hist with_workers sd_machine sd_stab
      sd_wasOffline sd_lastStatus]. rewrite Hnew, Hrel. done. }
  destruct (Value prev <? Value cur) eqn:E3.
  { go_bool. rewrite wrap64_id by done. set (n := Z.to_nat _).
    match goal with |- context [ add_event ?e ?x ] => event_of e x (proj1 (mark_wf n _ Hh)) end.
    eexists. split; [reflexivity|]. unfold counts_of. cbn [sd_hist with_hist with_workers sd_machine sd_stab
      sd_wasOffline sd_lastStatus] in *. rewrite Hnew, Hrel, iter_starts by lia. cbn.
    split_and!; try done. subst n. by rewrite Z2Nat.id by lia. }
  destruct (Value cur <? Value prev) eqn:E4; [|by exists d].
  go_bool. rewrite (wrap64_id (Value prev - Value cur)) by done. set (n := Z.to_nat (Value prev - Value cur)).
  match goal with |- context [ add_event ?e ?x ] => event_of e x (proj2 (mark_wf n _ Hh)) end.
  eexists. split; [reflexivity|]. unfold counts_of. cbn [sd_hist with_hist with_workers sd_machine sd_stab
    sd_wasOffline sd_lastStatus] in *. rewrite Hnew, Hrel, iter_stops by lia. cbn.
  split_and!; try done. subst n. by rewrite Z2Nat.id by lia.
Qed.

(** ** A concrete host *)

Definition sample_identity : Identity :=
  {| id_SidecarInstanceID := ""; id_Hostname := ""; id_BackendID := ""; id_Vendor := VendorNVIDIA;
     id_DeviceID := "0"; id_GPUModel := "A100"; id_GPUUUID := "GPU-0"; id_DriverVersion := "550";
     id_RuntimeVersion := "12"; id_BootID := ""; id_SidecarVersion := "" |}.

Definition sample_host : Supervisor :=
  NewSupervisor VendorNVIDIA "i" "host" "boot" "v1" DefaultLifecycleConfig DefaultStabilityConfig
    (f64_of_Z 600) 8 8 8 true (100 * second).

Definition sample_health (visible : bool) (procs mem at_ : Z) : Health :=
  {| h_Timestamp := at_; h_HeartbeatOK := false; h_GPUVisible := visible; h_GPUAccessible := false;
     h_UtilizationGPU := Sup (f64_of_Z 10); h_MemUsedBytes := Sup mem; h_MemFreeBytes := Sup 1000;
     h_MemTotalBytes := Sup 2000; h_TemperatureC := Sup (f64_of_Z 40); h_PowerWatts := Sup (f64_of_Z 100);
     h_PowerLimitWatts := Sup (f64_of_Z 300); h_SMClockMHz := Unsup f64_zero; h_MemClockMHz := Unsup f64_zero;
     h_ComputeProcs := Sup procs; h_EffectiveFreeMemRatio := f64_one; h_ProbeLatencyMs := f64_of_Z 3;
     h_ProbeFailure := {| pf_Class := if visible then FailureNone else FailureHard; pf_Reason := ""; pf_Detail := "" |};
     h_ECCUncorrectable := Sup 0; h_ECCCorrectable := Sup 0; h_XIDErrors := Unsup [];
     h_RASUncorrectable := Unsup 0; h_RASCorrectable := Unsup 0; h_UnsupportedFields := [] |}.

Definition poll_at (t : Z) (visible : bool) (procs : Z) : sv_op :=
  OpPoll (fun _ => {| in_mono := t * second; in_wall := (100 + t) * second;
    in_health := sample_health visible procs 500 ((100 + t) * second); in_access := visible |}).

Definition sample_ops : list sv_op :=
  [poll_at 1 true 2; poll_at 3 false 0; OpDrain "0" true "ops" 0; poll_at 5 true 1; OpVariance "0" f64_zero].

Definition sample_run : option Supervisor :=
  s ← Init [] [sample_identity] sample_host; sv_run (fun _ => f64_one) sample_ops s.

(** The device went OFFLINE once, came back to RECOVERING and lost and regained workers. *)
Lemma sample_run_state :
  (d ← s ← sample_run; sv_devices s !! "0"%string;
   Some (lm_state (sd_machine d), counts_of (sd_hist d), rel_WorkerStarts (dh_rel (sd_hist d)),
         rel_WorkerStops (dh_rel (sd_hist d)), ev_Kind <$> newest_event d)) =
  Some (StateRecovering, (1, 1), 1, 2, Some EventWorkerStarted).
Proof. by vm_compute. Qed.

Lemma supervisor_invariant_witness :
  exists s0 s, Init [] [sample_identity] sample_host = Some s0 /\ sv_run (fun _ => f64_one) sample_ops s0 = Some s /\
    forall d, sv_devices s !! "0"%string = Some d -> sd_wasOffline d = true <-> lm_state (sd_machine d) = StateOffline.
Proof.
  destruct (supervisor_invariant VendorNVIDIA "i" "host" "boot" "v1" DefaultLifecycleConfig
    DefaultStabilityConfig (f64_of_Z 600) 8 8 8 true (100 * second) [] [sample_identity] (fun _ => f64_one)
    sample_ops ltac:(done) ltac:(done) ltac:(done)) as (s0 & s & H1 & H2 & _ & H).
  exists s0, s. split; [exact H1|]. split; [exact H2|]. intros d Hd. exact (proj1 (H "0"%string d Hd)).
Defined.

(** The device of the run, by the lemmas and by evaluation. *)
Lemma sample_run_inv : exists s d, sample_run = Some s /\ sv_order s = ["0"%string] /\
  sv_devices s !! "0"%string = Some d /\ device_inv d /\ last_procs d = Sup 1.
Proof.
  assert (Hs : sv_inv sample_host).
  { split; [apply map_Forall_empty|]. intros k. change (sv_devices sample_host) with (∅ : gmap string deviceState).
    change (sv_order sample_host) with (@nil string). rewrite lookup_empty, is_Some_alt. set_solver. }
  destruct (Init_ok [] [sample_identity] sample_host) as (s0 & Hi & Hs0); [by split_and!|done|].
  destruct (sv_run_ok (fun _ => f64_one) sample_ops s0 Hs0) as (s & Hr & Hinv).
  assert (Hrun : sample_run = Some s) by (unfold sample_run; by rewrite Hi).
  assert (E : (s ← sample_run; d ← sv_devices s !! "0"%string; Some (sv_order s, last_procs d)) =
    Some (["0"%string], Sup 1)) by (by vm_compute).
  rewrite Hrun in E. cbn [mbind option_bind] in E.
  destruct (sv_devices s !! "0"%string) as [d|] eqn:Hd; [|done]. injection E as Ho Hp.
  exists s, d. split; [exact Hrun|]. split; [exact Ho|]. split; [exact Hd|].
  split; [exact (si_devices _ Hinv "0"%string d Hd)|exact Hp].
Qed.

Lemma sample_order s : sv_order s = ["0"%string] -> is_Some (sv_devices s !! "0"%string) ->
  forall devID, devID ∈ sv_order s -> is_Some (sv_devices s !! devID).
Proof. intros -> H k Hk. by apply list_elem_of_singleton in Hk as ->. Qed.

(** A second after the last poll the recovering device is ready; a minute later the host is not. *)
Lemma readiness_contract_witness :
  exists s r1 r2, sample_run = Some s /\ Readiness s (106 * second) = Some r1 /\ rr_Reasons r1 = [] /\
    Readiness s (166 * second) = Some r2 /\ rr_Reasons r2 <> [].
Proof.
  destruct sample_run_inv as (s & d & Hs & Ho & Hd & _).
  assert (Hds : mapM (fun k => sv_devices s !! k) (sv_order s) = Some [d]) by (rewrite Ho; cbn; by rewrite Hd).
  assert (F : (s ← sample_run; d ← sv_devices s !! "0"%string;
      Some (sv_pollInterval s, sv_maxTelemetryAge s, sd_collected d, last_timestamp d, sd_lastSampleWall d)) =
    Some (2 * second, 15 * second, true, 105 * second, 105 * second)) by (by vm_compute).
  assert (G : (s ← sample_run; d ← sv_devices s !! "0"%string;
      Some (meets_contract s (106 * second) false d)) = Some true) by (by vm_compute).
  rewrite Hs in F, G. cbn [mbind option_bind] in F, G. rewrite Hd in F, G. cbn [mbind option_bind] in F, G.
  injection F as Fp Fm Fc Ft Fw. injection G as G.
  assert (Hone : exists d', d' ∈ [d] /\ sd_collected d' = true) by (exists d; split; [by left|done]).
  destruct (readiness_contract s (106 * second) [d] Hds) as (st & r1 & R1 & S1 & _ & _ & _ & _ & _ & C1 & _ & E1 & _);
    [rewrite Fp; split; vm_compute; discriminate|exact Hone|apply Forall_singleton; split; [rewrite Fw, Fm|rewrite Ft, Fp]; vm_compute; discriminate|].
  destruct (readiness_contract s (166 * second) [d] Hds) as (st' & r2 & R2 & S2 & _ & _ & _ & _ & _ & C2 & _ & E2 & _);
    [rewrite Fp; split; vm_compute; discriminate|exact Hone|apply Forall_singleton; split; [rewrite Fw, Fm|rewrite Ft, Fp]; vm_compute; discriminate|].
  exists s, r1, r2. split; [exact Hs|]. split; [exact R1|]. split.
  { apply E1, C1. exists d. split; [by left|]. replace st with false; [exact G|]. symmetry. apply S1.
    exists d. split; [by left|]. rewrite Ft, Fp. split; vm_compute; reflexivity. }
  split; [exact R2|]. intros E. apply E2, C2 in E as (d' & ->%list_elem_of_singleton & Hm).
  replace st' with true in Hm; [unfold meets_contract in Hm; by rewrite andb_false_r in Hm|].
  destruct st'; [done|]. destruct (proj1 S2 eq_refl) as (d' & ->%list_elem_of_singleton & _ & Ha).
  rewrite Ft, Fp in Ha. vm_compute in Ha. discriminate Ha.
Defined.

Lemma worker_evidence_witness :
  exists s d d', sample_run = Some s /\ sv_devices s !! "0"%string = Some d /\
    detectWorkers "0" (sample_health true 4 500 0) 0 0 d = Some d' /\
    rel_WorkerStops (dh_rel (sd_hist d')) = rel_WorkerStops (dh_rel (sd_hist d)).
Proof.
  destruct sample_run_inv as (s & d & Hs & _ & Hd & Hinv & Hp).
  destruct (worker_evidence "0" (sample_health true 4 500 0) 0 0 d (di_hist _ Hinv)) as (d' & H1 & _ & _ & _ & _ & _ & H).
  - rewrite Hp. by apply in_i64b_spec.
  - rewrite Hp. by apply in_i64b_spec.
  - rewrite Hp in H. exists s, d, d'. split; [exact Hs|]. split; [exact Hd|]. split; [exact H1|apply H].
Defined.

Lemma sample_readiness :
  (s ← sample_run; r1 ← Readiness s (106 * second); r2 ← Readiness s (166 * second);
   Some (rr_Ready r1, rr_Reasons r1, rr_Ready r2, rr_Reasons r2)) =
  Some (true, [], false, ["COLLECTOR_STALLED"; "TELEMETRY_STALE"]%string).
Proof. by vm_compute. Qed.
