(* ===== verification/Proxy.v ===== *)
(** * The sidecar proxy ([internal/dataplane/proxy.go])

    Like the router's gateway, a request is a function of what the environment does (the admission
    queue, the model server, the client's connection) and its result is the trace of effects in
    program order, deferred calls included.  The readings of the clocks and the text of errors of the standard
    library are inputs.  [WriteHeader] panics for a status that has not three digits; the deferred calls still run,
    the call to [Done] does not. *)

From Stdlib Require Import Floats.SpecFloat.
From stdpp Require Import base tactics numbers option list strings gmap.
From S2P Require Import Prelude GoFloat GoTime Model AdmissionQueue WorkAccounting RequestIds Unmarshal GoHttp Bodies.
Open Scope go_scope.

Record ProxyConfig := {
  pc_HostID : string;
  pc_BackendID : string;
  pc_DeviceID : string;
  pc_MaxBufferBytes : Z;
  pc_SlowConsumerWarnMs : f64;
  pc_LogContent : bool;
  pc_ExplicitHeaderEnabled : bool;
  pc_MaxPrefixTokens : Z;
}.

Definition DefaultProxyConfig : ProxyConfig :=
  {| pc_HostID := ""; pc_BackendID := ""; pc_DeviceID := ""; pc_MaxBufferBytes := 2 ^ 20;
     pc_SlowConsumerWarnMs := f64_of_Z 250; pc_LogContent := false; pc_ExplicitHeaderEnabled := false;
     pc_MaxPrefixTokens := 2 ^ 20 |}.

(** A local event is sent with the proxy's ids and the wall clock, which the effect leaves out. *)
Record LocalEvent := {
  le_Kind : string;
  le_RequestID : string;
  le_RouteID : string;
  le_Fields : list (string * Evidence);
}.

Inductive PEffect :=
  | PEmit (e : LocalEvent)
  | PHeaderSet (k v : string)
  | PHeaderAdd (k v : string)
  | PWriteHeader (status : Z)
  | PWrite (data : string)
  | PWriteError (code detail reqID : string)
  | PFlush
  | PAdmit (reqID routeID : string)
  | PTransition (to : ReqState) (reason : string)
  | PObserve (keyHash : string) (tokens : Z)
  | PReserve (input matched output : Z) (confidence : f64)
  | PActivate (prefill decode : Z)
  | PRelease (prefill decode : Z)
  | PSend (headers : Headers) (body : string)
  | PCloseBody
  | PCancel
  | PDone (final : ReqState) (reason : string).

(** [sink], [cacheObs] and [work] may be nil. *)
Record Proxy := { px_cfg : ProxyConfig; px_sink : bool; px_cacheObs : bool; px_work : bool }.

Definition NewProxy (cfg : ProxyConfig) (sink : bool) : Proxy :=
  {| px_cfg := cfg; px_sink := sink; px_cacheObs := false; px_work := false |}.
Definition SetCacheObserver (o : bool) (p : Proxy) : Proxy :=
  {| px_cfg := p.(px_cfg); px_sink := p.(px_sink); px_cacheObs := o; px_work := p.(px_work) |}.
Definition SetWorkAccountant (w : bool) (p : Proxy) : Proxy :=
  {| px_cfg := p.(px_cfg); px_sink := p.(px_sink); px_cacheObs := p.(px_cacheObs); px_work := w |}.

Definition emit (p : Proxy) (kind reqID routeID : string) (fields : list (string * Evidence)) : list PEffect :=
  if p.(px_sink) then
    [PEmit {| le_Kind := kind; le_RequestID := reqID; le_RouteID := routeID; le_Fields := fields |}]
  else [].

Definition hopByHop (k : string) : bool :=
  bool_decide (k ∈ (["Connection"; "Keep-Alive"; "Proxy-Authenticate"; "Proxy-Authorization"; "Te";
                    "Trailers"; "Transfer-Encoding"; "Upgrade"] : list string)).

Definition QueueError_string (e : QueueError) : string :=
  match e with
  | ErrQueueFull => "ADMISSION_QUEUE_FULL"
  | ErrBackendOffline => "BACKEND_OFFLINE"
  | ErrBackendDraining => "BACKEND_DRAINING"
  | ErrRuntimeUnhealthy => "RUNTIME_UNHEALTHY"
  | ErrQueueTimeout => "QUEUE_TIMEOUT"
  | ErrInflightFull => "INFLIGHT_LIMIT"
  | ErrCancelled => "CANCELLED"
  end.

Definition rejectionStatus (e : QueueError) : Z :=
  match e with
  | ErrQueueFull | ErrInflightFull => 429
  | ErrBackendOffline | ErrBackendDraining | ErrRuntimeUnhealthy => 503
  | ErrQueueTimeout => 503
  | _ => 503
  end.

Definition writeErr (status : Z) (code reqID detail : string) : list PEffect :=
  [PHeaderSet "Content-Type" "application/json"; PHeaderSet "X-Request-ID" reqID; PWriteHeader status;
   PWriteError code detail reqID].

(** ** The body

    [json.Unmarshal] into three anonymous structs; a text or a type that is wrong counts as nothing said. *)
Definition detectStream (body : string) : bool :=
  match checked (Unmarshal (only "stream" (into_ptr false into_bool)) body None) with Some (Some s) => s | _ => false end.

(** The struct of [Messages] and [Prompt]. *)
Definition prompt_probe : into (slice string * string) :=
  into_struct (fun k => if names "messages" k then Some (at_fst messages)
                        else if names "prompt" k then Some (at_snd into_string) else None).

Definition estimateInputTokens (body : string) : Z :=
  match checked (Unmarshal prompt_probe body (no_slice, ""%string)) with
  | None => 0
  | Some (ms, prompt) => Z.quot (content_length ms (slen prompt)) 4
  end.

Definition expectedOutputTokens (body : string) : Z :=
  match checked (Unmarshal (only "max_tokens" into_int) body 0) with
  | Some n => if 0 <? n then n else 128
  | None => 128
  end.

(** ** The environment *)

(** A read error; [canceled] is [errors.Is(err, context.Canceled)]. *)
Inductive PReadErr := PEOF | PReadFailed (msg : string) (canceled : bool).

(** One turn of the relay: what [ReadBytes] returns, whether the write downstream fails, whether
    the ticket's context is done when the loop looks, and the wall clock and the queue's clock after the read. *)
Record PTurn := {
  pt_line : string;
  pt_err : option PReadErr;
  pt_writeFails : bool;
  pt_ctxDone : bool;
  pt_now : Z;
  pt_mono : Z;
}.

(** The answer of the model server; [pr_body] is what [io.ReadAll] returns up to its first error,
    which the code ignores; the clock before the request and when the answer has come. *)
Record PResponse := {
  pr_status : Z;
  pr_header : list (string * list string);
  pr_body : string;
  pr_turns : list PTurn;
  pr_connStart : Z;
  pr_connAt : Z;
}.

(** [upstreamRequest]: an error and whether the request was built (it is not when the configured URL
    does not parse), or the answer. *)
Definition Upstream : Type := (bool * string + PResponse)%type.

(** The queue's verdicts, the queue's clock at admission and at dispatch, and the answer. *)
Record SidecarEnv := {
  se_admit : option QueueError;
  se_wait : option QueueError;
  se_enqueuedMono : Z;
  se_dispatchMono : Z;
  se_flushable : bool;
  se_up : Upstream;
}.

Inductive PEnding := PReturned | PRelaying | PPanicked.

(** [strings] of the standard library: [bytes.Contains]. *)
Fixpoint contains (s sub : string) : bool :=
  String.prefix sub s || match s with EmptyString => false | String _ s => contains s sub end.

(** ** The relays *)

Section relay.
  Variables (p : Proxy) (reqID routeID : string) (dispatchMono : Z).

Definition send (body : string) : list PEffect := [PSend (upstream_headers reqID routeID) body].

Definition connect_failed (body : string) (built : bool) (err : string) : list PEffect :=
  (if built then send body else []) ++
  emit p "VLLM_REQUEST_FAILED" reqID routeID [("err", EvString err); ("phase", EvString "connect")] ++
  [PDone StateUpstreamFail "vllm_connect_failed"] ++ writeErr 502 "UPSTREAM_FAILED" reqID err.

Definition copy_headers (h : list (string * list string)) : list PEffect :=
  flat_map (fun '(k, vals) => if hopByHop k then [] else map (PHeaderAdd k) vals) h.

Definition relayJSON (body : string) (up : Upstream) : list PEffect * PEnding :=
  let waiting := PTransition StateWaitingFull "await_full" in
  match up with
  | inl (built, err) => (waiting :: connect_failed body built err, PReturned)
  | inr resp =>
      let st := resp.(pr_status) in
      let headed := waiting :: send body ++ emit p "VLLM_CONNECTED" reqID routeID [("connect_ms", EvFloat (dur_ms_float (time_sub resp.(pr_connAt) resp.(pr_connStart))))] ++
        copy_headers resp.(pr_header) ++ [PHeaderSet "X-Request-ID" reqID] in
      if negb (writable st) then (headed ++ [PCloseBody], PPanicked) else
      (headed ++ [PWriteHeader st; PWrite resp.(pr_body)] ++
       emit p "STREAM_COMPLETED" reqID routeID
         [("stream", EvBool false); ("resp_bytes", EvInt (slen resp.(pr_body))); ("status", EvInt st)] ++
       [if (200 <=? st) && (st <? 300) then PDone StateCompleted "json_ok"
        else PDone StateUpstreamFail "vllm_non_2xx"; PCloseBody], PReturned)
  end.

(** The loop of [relayStream].  [first]: a line was relayed; [firstUpstream] and [firstDownstream] are set in the same
    turn, to the same [now].  [None] while it is still reading when the
    given turns end. *)
Fixpoint stream_loop (turns : list PTurn) (first sawDone : bool) (events bytesn : Z) :
    list PEffect * option (ReqState * string) :=
  let ev k f := emit p k reqID routeID f in
  let counts := [("events", EvInt events); ("bytes", EvInt bytesn)] in
  match turns with
  | [] => ([], None)
  | t :: turns =>
      let nonempty := negb (String.eqb t.(pt_line) "") in
      let e1 := if nonempty && negb first then ev "FIRST_VLLM_EVENT"
                  [("vllm_ttft_ms_from_dispatch", EvFloat (dur_ms_float (wrap64 (t.(pt_mono) - dispatchMono))))] else [] in
      if nonempty && t.(pt_writeFails) then
        (e1 ++ [PCancel] ++ ev "UPSTREAM_CANCELLED" [("phase", EvString "downstream_write_fail")] ++
         [PDone StateCancelled "downstream_gone"], Some (StateCancelled, "downstream_gone"))
      else
        let e2 := if nonempty then [PWrite t.(pt_line); PFlush] ++
                    (if negb first then ev "FIRST_RELAY_WRITE"
                       [("relay_delay_ms", EvFloat (dur_ms_float (time_sub t.(pt_now) t.(pt_now))))] else []) else [] in
        let events := if nonempty then wrap64 (events + 1) else events in
        let bytesn := if nonempty then wrap64 (bytesn + slen t.(pt_line)) else bytesn in
        let sawDone := sawDone || (nonempty && contains t.(pt_line) "[DONE]") in
        let first := first || nonempty in
        let counts := [("events", EvInt events); ("bytes", EvInt bytesn)] in
        let finish e final reason := (e1 ++ e2 ++ e ++ [PDone final reason], Some (final, reason)) in
        match t.(pt_err) with
        | Some PEOF =>
            finish (ev "STREAM_COMPLETED" ([("stream", EvBool true)] ++ counts ++ [("saw_done", EvBool sawDone)]))
              StateCompleted "stream_ok"
        | Some (PReadFailed msg canceled) =>
            let cancelled := t.(pt_ctxDone) || canceled in
            if negb first then
              if cancelled then
                finish (ev "UPSTREAM_CANCELLED" [("phase", EvString "pre_first_event")])
                  StateCancelled "cancelled_pre_first_event"
              else
                finish (ev "VLLM_REQUEST_FAILED" [("err", EvString msg); ("phase", EvString "pre_first_event")])
                  StateUpstreamFail "upstream_err_pre_first_event"
            else if cancelled then
              finish (ev "UPSTREAM_CANCELLED" ([("phase", EvString "mid_stream")] ++ counts))
                StateCancelled "client_cancelled_mid_stream"
            else
              finish (ev "PARTIAL_STREAM_FAILED" ([("err", EvString msg)] ++ counts))
                StatePartialStream "upstream_err_mid_stream"
        | None =>
            if t.(pt_ctxDone) then
              finish ([PCancel] ++ ev "UPSTREAM_CANCELLED" [("phase", EvString "mid_stream")])
                StateCancelled "client_cancelled_mid_stream"
            else
              let '(rest, r) := stream_loop turns first sawDone events bytesn in (e1 ++ e2 ++ rest, r)
        end
  end.

Definition relayStream (body : string) (flushable : bool) (up : Upstream) : list PEffect * PEnding :=
  if negb flushable then
    (writeErr 500 "NO_FLUSH" reqID "response writer not flushable" ++ [PDone StateUpstreamFail "no_flusher"],
     PReturned)
  else
    match up with
    | inl (built, err) => (connect_failed body built err, PReturned)
    | inr resp =>
        let connected := send body ++ emit p "VLLM_CONNECTED" reqID routeID [("connect_ms", EvFloat (dur_ms_float (time_sub resp.(pr_connAt) resp.(pr_connStart))))] in
        if negb (resp.(pr_status) =? 200) then
          if negb (writable resp.(pr_status)) then
            (connected ++ [PHeaderSet "Content-Type" "application/json"; PCloseBody], PPanicked)
          else
          (connected ++ [PHeaderSet "Content-Type" "application/json"; PWriteHeader resp.(pr_status);
                         PWrite resp.(pr_body); PDone StateUpstreamFail "vllm_non_200_stream"; PCloseBody],
           PReturned)
        else
          let '(effects, r) := stream_loop resp.(pr_turns) false false 0 0 in
          (connected ++
           [PHeaderSet "Content-Type" "text/event-stream"; PHeaderSet "Cache-Control" "no-cache";
            PHeaderSet "Connection" "keep-alive"; PHeaderSet "X-Request-ID" reqID; PWriteHeader 200;
            PTransition StateStreaming "stream_open"] ++ effects ++
           (match r with Some _ => [PCloseBody] | None => [] end),
           match r with Some _ => PReturned | None => PRelaying end)
    end.
End relay.

(** ** The handler *)

Record SidecarRequest := {
  sr_header : Headers;
  sr_body : string + string;
  sr_now : Z;
  sr_now' : Z;
}.

Section handler.
  Variable sha256 : string -> list Z.

(** Work accounting around the relay: the reservation is released when the handler returns or panics. *)
Definition with_work (p : Proxy) (prefixKeyHash : string) (prefixTokens inputLen output : Z)
    (relay : list PEffect * PEnding) : list PEffect * PEnding :=
  if p.(px_work) then
    let '(matched, conf) := if negb (String.eqb prefixKeyHash "") then (prefixTokens, f64_one) else (0, f64_zero) in
    let '(resPrefill, resDecode) := reservation inputLen matched output conf in
    let '(effects, e) := relay in
    ([PReserve inputLen matched output conf; PActivate resPrefill resDecode] ++ effects ++
     (match e with PRelaying => [] | _ => [PRelease resPrefill resDecode] end), e)
  else relay.

Definition dispatched (p : Proxy) (reqID routeID prefixKeyHash : string) (prefixTokens inputLen : Z)
    (body : string) (env : SidecarEnv) : list PEffect * PEnding :=
  let observed :=
    if p.(px_cacheObs) && negb (String.eqb prefixKeyHash "") then
      let tok := if prefixTokens <=? 0 then inputLen else prefixTokens in
      if 0 <? tok then [PObserve prefixKeyHash tok] else []
    else [] in
  let relay :=
    if detectStream body then relayStream p reqID routeID env.(se_dispatchMono) body env.(se_flushable) env.(se_up)
    else relayJSON p reqID routeID body env.(se_up) in
  let '(effects, e) := with_work p prefixKeyHash prefixTokens inputLen (expectedOutputTokens body) relay in
  (emit p "QUEUE_DEQUEUED" reqID routeID
     [("queue_wait_ms", EvFloat (dur_ms_float (wrap64 (env.(se_dispatchMono) - env.(se_enqueuedMono)))))] ++ observed ++ [PTransition StateDispatching "dispatch"] ++
   emit p "VLLM_DISPATCH_STARTED" reqID routeID [] ++ effects, e).

Definition ChatCompletions (p : Proxy) (r : SidecarRequest) (env : SidecarEnv) : list PEffect * PEnding :=
  let reqID := orGenerate (header_get r.(sr_header) "X-Request-Id") "req" r.(sr_now) in
  let routeID := orGenerate (header_get r.(sr_header) "X-Route-Id") "rt" r.(sr_now') in
  let '((prefixKeyHash, prefixTokens), _) :=
    extractAndStripPrefixHeaders sha256 p.(px_cfg).(pc_ExplicitHeaderEnabled) p.(px_cfg).(pc_MaxPrefixTokens)
      r.(sr_header) in
  match r.(sr_body) with
  | inl err => (writeErr 400 "READ_BODY_FAILED" reqID err, PReturned)
  | inr raw =>
      let body := limit_body raw in
      let inputLen := estimateInputTokens body in
      let received := emit p "LOCAL_REQUEST_RECEIVED" reqID routeID
        ([("stream", EvBool (detectStream body)); ("body_bytes", EvInt (slen body)); ("input_len_est", EvInt inputLen)] ++
         if negb (String.eqb prefixKeyHash "") then
           [("cache_eligible", EvBool true); ("prefix_key_hash", EvString prefixKeyHash);
            ("prefix_tokens", EvInt prefixTokens)] else []) ++ [PAdmit reqID routeID] in
      match env.(se_admit) with
      | Some err =>
          (received ++ emit p "QUEUE_REJECTED" reqID routeID [("reason", EvString (QueueError_string err))] ++
           writeErr (rejectionStatus err) (QueueError_string err) reqID "admission refused", PReturned)
      | None =>
          let entered := received ++ emit p "QUEUE_ENTERED" reqID routeID [] in
          match env.(se_wait) with
          | Some ErrQueueTimeout =>
              (entered ++ emit p "QUEUE_TIMED_OUT" reqID routeID [] ++
               writeErr 503 "QUEUE_TIMEOUT" reqID "queued too long", PReturned)
          | Some ErrCancelled =>
              (entered ++ emit p "UPSTREAM_CANCELLED" reqID routeID [("phase", EvString "in_queue")], PReturned)
          | Some err =>
              (entered ++ writeErr 503 "DISPATCH_FAILED" reqID (QueueError_string err), PReturned)
          | None =>
              let '(effects, e) := dispatched p reqID routeID prefixKeyHash prefixTokens inputLen body env in
              (entered ++ effects, e)
          end
      end
  end.
End handler.
