(* ===== verification/ProxyFacts.v ===== *)
(** * Properties of the sidecar proxy

    What every run of the handler does with the in-flight slot, the token reservation, the upstream
    response and the client's response writer, and how the outcome of a stream is classified. *)

From Stdlib Require Import Floats.SpecFloat.
From stdpp Require Import base tactics numbers option list strings gmap.
From S2P Require Import Prelude GoFloat GoTime Model AdmissionQueue WorkAccounting RequestIds GoHttp Bodies Proxy.
Open Scope go_scope.

(** ** Views of a trace *)

Definition is_done (e : PEffect) : bool := match e with PDone _ _ => true | _ => false end.
Definition is_send (e : PEffect) : bool := match e with PSend _ _ => true | _ => false end.
Definition is_close (e : PEffect) : bool := match e with PCloseBody => true | _ => false end.
Definition is_status (e : PEffect) : bool := match e with PWriteHeader _ => true | _ => false end.

Definition p_writes (t : list PEffect) : list string :=
  omap (fun e => match e with PWrite d => Some d | _ => None end) t.

(** The effects on resources: the queue, the model server, the reservation and the status line. *)
Definition leaf (e : PEffect) : bool :=
  match e with
  | PAdmit _ _ | PDone _ _ | PSend _ _ | PCloseBody | PActivate _ _ | PRelease _ _ | PWriteHeader _ => true
  | _ => false
  end.
Definition leaves (t : list PEffect) : list PEffect := List.filter leaf t.

Lemma leaves_app t u : leaves (t ++ u) = leaves t ++ leaves u.
Proof. apply List.filter_app. Qed.
Lemma leaves_cons e t : leaves (e :: t) = (if leaf e then [e] else []) ++ leaves t.
Proof. unfold leaves. simpl. by destruct (leaf e). Qed.
Lemma leaves_nil : leaves [] = [].
Proof. done. Qed.
Lemma leaves_emit p k a b l : leaves (emit p k a b l) = [].
Proof. unfold emit. by destruct (px_sink p). Qed.
Lemma leaves_copy h : leaves (copy_headers h) = [].
Proof.
  unfold copy_headers. induction h as [|[k vs] h IH]; [done|]. cbn [flat_map]. rewrite leaves_app, IH, app_nil_r.
  destruct (hopByHop k); [done|]. by induction vs.
Qed.
Lemma leaves_if (b : bool) t u : leaves (if b then t else u) = if b then leaves t else leaves u.
Proof. by destruct b. Qed.
Create Rewrite HintDb leaves.
#[export] Hint Rewrite leaves_app leaves_cons leaves_nil leaves_emit leaves_copy leaves_if : leaves.

Ltac leaves_simpl := autorewrite with leaves; cbn [leaf app].

(** The one duration that says nothing: both of its readings are the same. *)
Definition delay_fields (k : string) (f : list (string * Evidence)) : Prop :=
  k = "FIRST_RELAY_WRITE"%string -> f = [("relay_delay_ms"%string, EvFloat f64_zero)].

Lemma no_delay t : dur_ms_float (time_sub t t) = f64_zero.
Proof. unfold time_sub. by rewrite Z.sub_diag. Qed.

Ltac parts := rewrite !Forall_app; split_and!; first [done | match goal with H : forall k f, k <> _ -> _ |- _ => by apply H end | by repeat constructor].

(** What the loop is made of. *)
Lemma stream_loop_Forall (P : PEffect -> Prop) p reqID routeID dm turns first saw ev by_ :
  (forall e, delay_fields e.(le_Kind) e.(le_Fields) -> P (PEmit e)) -> (forall d, P (PWrite d)) -> P PFlush -> P PCancel ->
  (forall s w, P (PDone s w)) -> Forall P (fst (stream_loop p reqID routeID dm turns first saw ev by_)).
Proof.
  intros H1 H2 H3 H4 H5. assert (He : forall k f, delay_fields k f -> Forall P (emit p k reqID routeID f))
    by (intros k f Hf; unfold emit; destruct (px_sink p); repeat constructor; by apply H1).
  assert (Hd : forall k f, k <> "FIRST_RELAY_WRITE"%string -> Forall P (emit p k reqID routeID f))
    by (intros k f Hk; apply He; intros E; by destruct Hk).
  revert first saw ev by_. induction turns as [|t turns IH]; intros first saw ev by_; [constructor|].
  cbn [stream_loop].
  set (e1 := if _ && negb first then _ else _).
  assert (He1 : Forall P e1) by (subst e1; destruct (_ && _); [by apply Hd|constructor]).
  clearbody e1. destruct (_ && pt_writeFails t).
  { cbn [fst]. parts. }
  set (e2 := if negb _ then _ else _).
  assert (He2 : Forall P e2).
  { subst e2. destruct (negb _); [|constructor]. rewrite no_delay.
    destruct (negb first); rewrite ?Forall_app; repeat constructor; try done; by apply He. }
  clearbody e2. destruct (pt_err t) as [[|msg c]|].
  - cbn [fst]. parts.
  - destruct (negb _), (pt_ctxDone t || c); cbn [fst]; rewrite !Forall_app; split_and!; try done; (by apply Hd) || by repeat constructor.
  - destruct (pt_ctxDone t); [cbn [fst]; rewrite !Forall_app; split_and!; try done; (by apply Hd) || by repeat constructor|].
    match goal with |- context [ stream_loop _ _ _ _ turns ?a ?b ?c ?d ] => specialize (IH a b c d) end.
    destruct (stream_loop _ _ _ _ turns _ _ _ _) as [rest r]. cbn [fst] in *. by rewrite !Forall_app.
Qed.

(** FIRST_RELAY_WRITE, meant to measure how long the first event took through the relay, reports 0 in every run. *)
Lemma relay_delay_is_zero p reqID routeID dm turns first saw ev by_ e :
  PEmit e ∈ fst (stream_loop p reqID routeID dm turns first saw ev by_) -> le_Kind e = "FIRST_RELAY_WRITE"%string ->
  le_Fields e = [("relay_delay_ms"%string, EvFloat f64_zero)].
Proof.
  intros Hin Hk. pose proof (stream_loop_Forall (fun x => match x with PEmit e => delay_fields e.(le_Kind) e.(le_Fields) | _ => True end)
    p reqID routeID dm turns first saw ev by_) as H. rewrite Forall_forall in H. by apply (H ltac:(done) ltac:(done) I I ltac:(done) _ Hin).
Qed.

(** The loop is quiet but for the [Done] that ends it. *)
Lemma leaves_stream_loop p reqID routeID dm turns first saw ev by_ :
  let '(t, r) := stream_loop p reqID routeID dm turns first saw ev by_ in
  leaves t = match r with Some (s, why) => [PDone s why] | None => [] end.
Proof.
  revert first saw ev by_. induction turns as [|t turns IH]; intros first saw ev by_; [done|].
  cbn [stream_loop].
  set (e1 := if _ && negb first then _ else _).
  assert (He1 : leaves e1 = []) by (subst e1; leaves_simpl; by destruct (_ && _)).
  clearbody e1. destruct (_ && pt_writeFails t); [leaves_simpl; by rewrite He1|].
  set (e2 := if negb _ then _ else _).
  assert (He2 : leaves e2 = []) by (subst e2; leaves_simpl; by destruct (negb _), (negb first)).
  clearbody e2. destruct (pt_err t) as [[|msg c]|].
  - leaves_simpl. by rewrite He1, He2.
  - destruct (negb _), (pt_ctxDone t || c); leaves_simpl; by rewrite He1, He2.
  - destruct (pt_ctxDone t); [leaves_simpl; by rewrite He1, He2|].
    match goal with |- context [ stream_loop _ _ _ _ turns ?a ?b ?c ?d ] => specialize (IH a b c d) end.
    destruct (stream_loop _ _ _ _ turns _ _ _ _) as [rest r]. leaves_simpl. by rewrite He1, He2.
Qed.

(** The model server answered with a status that [WriteHeader] refuses. *)
Definition unwritable (up : Upstream) : bool :=
  match up with inr resp => negb (writable (pr_status resp)) | inl _ => false end.

(** What a relay does to the resources, given how its loop ended. *)
Definition relay_leaves (reqID routeID body : string) (stream flushable : bool) (up : Upstream)
    (r : option (ReqState * string)) : list PEffect :=
  let sent := PSend (upstream_headers reqID routeID) body in
  if stream && negb flushable then [PWriteHeader 500; PDone StateUpstreamFail "no_flusher"]
  else match up with
  | inl (built, _) => (if built : bool then [sent] else []) ++ [PDone StateUpstreamFail "vllm_connect_failed"; PWriteHeader 502]
  | inr resp =>
      let st := pr_status resp in
      if negb (writable st) then [sent; PCloseBody] else
      [sent; PWriteHeader (if stream && (st =? 200) then 200 else st)] ++
      match r with Some (s, why) => [PDone s why; PCloseBody] | None => [] end
  end.

(** The outcome of a relay that does not panic: only a stream can still be reading. *)
Definition relay_result (p : Proxy) (reqID routeID : string) (dm : Z) (stream : bool) (up : Upstream) :
    option (ReqState * string) :=
  match up with
  | inl _ => Some (StateUpstreamFail, "vllm_connect_failed")
  | inr resp =>
      let st := pr_status resp in
      if stream then
        if st =? 200 then snd (stream_loop p reqID routeID dm (pr_turns resp) false false 0 0)
        else Some (StateUpstreamFail, "vllm_non_200_stream")
      else if (200 <=? st) && (st <? 300) then Some (StateCompleted, "json_ok")
      else Some (StateUpstreamFail, "vllm_non_2xx")
  end.

Definition is_answer (up : Upstream) : bool := match up with inr _ => true | inl _ => false end.

(** Only a stream that is being relayed has no outcome. *)
Lemma relay_result_cases p reqID routeID dm stream up :
  relay_result p reqID routeID dm stream up = None -> stream = true /\ is_answer up = true.
Proof. unfold relay_result. destruct up; [done|]. destruct stream; [done|]. by destruct ((200 <=? pr_status _) && _). Qed.

(** How the call ends. *)
Definition relay_end (stream flushable : bool) (up : Upstream) (r : option (ReqState * string)) : PEnding :=
  if stream && negb flushable then PReturned
  else if unwritable up then PPanicked
  else match r with Some _ => PReturned | None => PRelaying end.

Lemma writable_200 st : writable st = false -> (st =? 200) = false.
Proof. unfold writable. lia. Qed.

Lemma relayJSON_leaves p reqID routeID dm body flushable up :
  let r := relay_result p reqID routeID dm false up in
  leaves (fst (relayJSON p reqID routeID body up)) = relay_leaves reqID routeID body false flushable up r /\
  snd (relayJSON p reqID routeID body up) = relay_end false flushable up r.
Proof.
  unfold relayJSON, relay_leaves, relay_end, relay_result, unwritable, connect_failed, send, writeErr.
  destruct up as [[built err]|resp]; cbn [fst snd andb]; [leaves_simpl; by destruct built|].
  destruct (writable (pr_status resp)); cbn [negb fst snd]; leaves_simpl; [|done]. by destruct ((200 <=? pr_status resp) && _).
Qed.

Lemma relayStream_leaves p reqID routeID dm body flushable up :
  let r := relay_result p reqID routeID dm true up in
  leaves (fst (relayStream p reqID routeID dm body flushable up)) = relay_leaves reqID routeID body true flushable up r /\
  snd (relayStream p reqID routeID dm body flushable up) = relay_end true flushable up r.
Proof.
  unfold relayStream, relay_leaves, relay_end, relay_result, unwritable, connect_failed, send, writeErr.
  destruct flushable; cbn [negb andb fst snd]; [|leaves_simpl; done].
  destruct up as [[built err]|resp]; [cbn [fst snd]; leaves_simpl; by destruct built|].
  destruct (writable (pr_status resp)) eqn:Ew; cbn [negb].
  2: { rewrite (writable_200 _ Ew). cbn [negb fst snd]. leaves_simpl. done. }
  destruct (pr_status resp =? 200) eqn:Est; cbn [negb andb fst snd]; [|leaves_simpl; done].
  pose proof (leaves_stream_loop p reqID routeID dm (pr_turns resp) false false 0 0) as Hl.
  destruct (stream_loop _ _ _ _ _ _ _ _ _) as [t r]. cbn [fst snd]. leaves_simpl. rewrite Hl.
  by destruct r as [[s why]|].
Qed.

(** ** The whole handler *)

(** The request passes admission and dispatch. *)
Definition reaches (r : SidecarRequest) (env : SidecarEnv) : bool :=
  match sr_body r, se_admit env, se_wait env with inr _, None, None => true | _, _, _ => false end.

(** The body could be read. *)
Definition body_read (r : SidecarRequest) : bool := match sr_body r with inr _ => true | inl _ => false end.

(** The request asks for a stream. *)
Definition streams (r : SidecarRequest) : bool :=
  match sr_body r with inr raw => detectStream (limit_body raw) | inl _ => false end.

(** The model server is asked at all. *)
Definition asks (stream : bool) (env : SidecarEnv) : bool := negb stream || se_flushable env.

Definition work_leaves (p : Proxy) (mid : list PEffect) (returned : bool) (a b : Z) : list PEffect :=
  if px_work p then PActivate a b :: mid ++ (if returned then [PRelease a b] else []) else mid.

(** The call is over, and its deferred calls have run. *)
Definition ended (e : PEnding) : bool := match e with PRelaying => false | _ => true end.

Lemma last_app_r {A} (l k : list A) x : last k = Some x -> last (l ++ k) = Some x.
Proof. intros H. by rewrite last_app, H. Qed.

(** A dispatched handler: the relay's effects between the activation and the release. *)
Lemma leaves_dispatched p reqID routeID k n len body env :
  exists a b,
  let stream := detectStream body in
  let r := relay_result p reqID routeID (se_dispatchMono env) stream (se_up env) in
  let '(t, e) := dispatched p reqID routeID k n len body env in
  e = relay_end stream (se_flushable env) (se_up env) r /\
  leaves t = work_leaves p (relay_leaves reqID routeID body stream (se_flushable env) (se_up env) r) (ended e) a b /\
  (px_work p = true -> ended e = true -> last t = Some (PRelease a b)).
Proof.
  unfold dispatched. set (obs := if _ && _ then _ else _).
  assert (Hobs : leaves obs = []).
  { subst obs. destruct (_ && _); [|done]. by destruct (0 <? _). }
  clearbody obs. set (relay := if detectStream body then _ else _).
  set (r := relay_result _ _ _ _ _ _).
  assert (Hrelay : leaves (fst relay) = relay_leaves reqID routeID body (detectStream body) (se_flushable env) (se_up env) r /\
    snd relay = relay_end (detectStream body) (se_flushable env) (se_up env) r)
    by (subst relay r; destruct (detectStream body); [apply relayStream_leaves|apply relayJSON_leaves]).
  destruct relay as [t0 e0]. cbn [fst snd] in Hrelay. destruct Hrelay as [Hl He].
  unfold with_work, work_leaves. destruct (px_work p).
  - destruct (if negb _ then _ else _) as [m c]. destruct (reservation len m _ c) as [a b]. exists a, b.
    split; [exact He|]. leaves_simpl. rewrite Hobs, Hl. cbn [app]. split; [by destruct e0|].
    intros _ Hr. do 2 apply last_app_r. apply (last_app_r [_]), last_app_r, (last_app_r [_; _]), last_app_r. by destruct e0.
  - exists 0, 0. split; [exact He|]. leaves_simpl. by rewrite Hobs, Hl.
Qed.

(** Before the dispatch only admission and a status line happen. *)
Definition early (e : PEffect) : bool := match e with PAdmit _ _ | PWriteHeader _ => true | _ => false end.

Lemma leaves_chat sha256 p r env t e :
  ChatCompletions sha256 p r env = (t, e) ->
  if reaches r env then
    exists reqID routeID body a b,
      let stream := streams r in
      let res := relay_result p reqID routeID (se_dispatchMono env) stream (se_up env) in
      e = relay_end stream (se_flushable env) (se_up env) res /\
      leaves t = PAdmit reqID routeID ::
        work_leaves p (relay_leaves reqID routeID body stream (se_flushable env) (se_up env) res)
          (ended e) a b /\
      (px_work p = true -> ended e = true -> last t = Some (PRelease a b))
  else e = PReturned /\ Forall (fun x => early x = true) (leaves t).
Proof.
  unfold ChatCompletions, reaches, streams. destruct (extractAndStripPrefixHeaders _ _ _ _) as [[k n] h].
  set (reqID := orGenerate _ "req" _). set (routeID := orGenerate _ "rt" _).
  destruct (sr_body r) as [err|raw]; [intros [= <- <-]; split; [done|]; leaves_simpl; repeat constructor|].
  destruct (se_admit env) as [err|].
  { intros [= <- <-]; split; [done|]. unfold writeErr. leaves_simpl; repeat constructor. }
  destruct (se_wait env) as [err|].
  { destruct err; (intros [= <- <-]; split; [done|]; unfold writeErr; leaves_simpl; repeat constructor). }
  set (body := limit_body raw).
  destruct (leaves_dispatched p reqID routeID k n (estimateInputTokens body) body env) as (a & b & H).
  cbv zeta in H. destruct (dispatched _ _ _ _ _ _ _ _) as [t0 e0]. intros [= <- <-].
  destruct H as (He & Hl & Hlast).
  exists reqID, routeID, body, a, b. cbv zeta.
  split; [exact He|]. split; [leaves_simpl; by rewrite Hl|].
  intros Hw Hr. apply last_app_r. by apply Hlast.
Qed.

(** The reservations made active and the ones released. *)
Definition activations (t : list PEffect) : list (Z * Z) :=
  omap (fun e => match e with PActivate a b => Some (a, b) | _ => None end) t.
Definition releases (t : list PEffect) : list (Z * Z) :=
  omap (fun e => match e with PRelease a b => Some (a, b) | _ => None end) t.

Lemma countb_leaves f t : (forall e, f e = true -> leaf e = true) -> countb f t = countb f (leaves t).
Proof.
  intros H. induction t as [|e t IH]; [done|]. rewrite leaves_cons, countb_cons, countb_app, IH. f_equal.
  destruct (f e) eqn:E; [by rewrite (H e E), countb_cons, E|].
  destruct (leaf e); [by rewrite countb_cons, E|done].
Qed.

Lemma views_leaves t : activations t = activations (leaves t) /\ releases t = releases (leaves t).
Proof.
  unfold activations, releases. induction t as [|e t [IH1 IH2]]; [done|].
  rewrite leaves_cons. destruct e; cbn; rewrite ?IH1, ?IH2; done.
Qed.

(** What the relay and its reservation do, counted. *)
Lemma relay_counts reqID routeID body stream flushable up r :
  (r = None -> stream = true /\ is_answer up = true) ->
  let l := relay_leaves reqID routeID body stream flushable up r in
  let e := relay_end stream flushable up r in
  countb is_done l = match e with PReturned => 1%nat | _ => 0%nat end /\
  (countb is_send l <= 1)%nat /\
  countb is_close l = match e with
    | PRelaying => 0%nat
    | _ => if is_answer up && (negb stream || flushable) then 1%nat else 0%nat
    end /\
  activations l = [] /\ releases l = [] /\
  (e = PPanicked <-> negb stream || flushable = true /\ unwritable up = true).
Proof.
  intros Hr. unfold relay_leaves, relay_end, unwritable. destruct (stream && negb flushable) eqn:Es.
  { apply andb_true_iff in Es as [-> Es]. apply negb_true_iff in Es as ->. destruct up; repeat split; (done || lia || naive_solver). }
  replace (negb stream || flushable) with true by (by destruct stream, flushable).
  destruct up as [[built ?]|resp]; cbn [is_answer andb].
  { destruct r as [?|]; [|by destruct (Hr eq_refl)]. destruct built; repeat split; (done || lia || naive_solver). }
  destruct (writable _); cbn [negb]; [|repeat split; (done || lia)].
  destruct r as [[s why]|]; repeat split; (done || lia || naive_solver).
Qed.

Lemma work_counts p l end_ a b : activations l = [] -> releases l = [] ->
  let w := work_leaves p l end_ a b in
  countb is_done w = countb is_done l /\ countb is_send w = countb is_send l /\ countb is_close w = countb is_close l /\
  (end_ = true -> activations w = releases w) /\ (px_work p = true -> activations w = [(a, b)]).
Proof.
  intros Ha Hr. cbv zeta. unfold work_leaves. destruct (px_work p).
  - rewrite !countb_cons, !countb_app. unfold activations, releases in *. cbn [omap list_omap is_done is_send is_close].
    rewrite !omap_app, Ha, Hr. destruct end_; cbn; repeat split; (done || lia).
  - rewrite Ha, Hr. repeat split; done.
Qed.

(** ** The properties *)

(** C7: every way through the sidecar's handler.  A request that is not dispatched returns without
    touching the in-flight slot, the model server or the token reservation.  A dispatched one panics exactly when the
    model server, having been asked, answers with a status outside 100..999.  It calls [Done] exactly once if it
    returns and not before; a call that panics is the one that never calls it, and so keeps its slot.  It asks
    the model server at most once, and on every way out, the panic included, closes the answer it got and releases
    exactly the reservation it activated, as its very last effect. *)
Theorem slot_released_once sha256 p r env :
  let '(t, e) := ChatCompletions sha256 p r env in
  (reaches r env = false -> e = PReturned /\ countb is_done t = 0%nat /\ countb is_send t = 0%nat /\
     countb is_close t = 0%nat /\ activations t = [] /\ releases t = []) /\
  (reaches r env = true ->
     (e = PPanicked <-> asks (streams r) env = true /\ unwritable (se_up env) = true) /\
     countb is_done t = match e with PReturned => 1%nat | _ => 0%nat end /\
     (countb is_send t <= 1)%nat /\
     (e <> PRelaying ->
        activations t = releases t /\
        (px_work p = true -> exists a b, activations t = [(a, b)] /\ last t = Some (PRelease a b)) /\
        countb is_close t = if is_answer (se_up env) && asks (streams r) env then 1%nat else 0%nat)).
Proof.
  destruct (ChatCompletions sha256 p r env) as [t e] eqn:E. pose proof (leaves_chat _ _ _ _ _ _ E) as H.
  rewrite !(countb_leaves _ t) by (by intros []).
  destruct (views_leaves t) as [Ha Hr]. rewrite Ha, Hr. clear Ha Hr.
  destruct (reaches r env); (split; [intros Hreach; try discriminate Hreach|intros Hreach; try discriminate Hreach]).
  - destruct H as (reqID & routeID & body & a & b & H). cbv zeta in H. destruct H as (He & -> & Hlast).
    destruct (relay_counts reqID routeID body (streams r) (se_flushable env) (se_up env) _
      (relay_result_cases p reqID routeID (se_dispatchMono env) (streams r) (se_up env))) as (C1 & C2 & C3 & C4 & C5 & C6).
    rewrite <- He in *. unfold asks.
    destruct (work_counts p (relay_leaves reqID routeID body (streams r) (se_flushable env) (se_up env)
      (relay_result p reqID routeID (se_dispatchMono env) (streams r) (se_up env))) (ended e) a b C4 C5) as (D1 & D2 & D3 & D4 & D5).
    rewrite !countb_cons. cbn [is_done is_send is_close Nat.add]. rewrite D1, D2, D3.
    split; [exact C6|]. split; [exact C1|]. split; [exact C2|]. intros Hn.
    assert (Hend : ended e = true) by (by destruct e). cbn [activations releases omap list_omap].
    split; [by apply D4|]. split; [intros Hw; exists a, b; split; [by apply D5|by apply Hlast]|]. rewrite C3. by destruct e.
  - destruct H as [-> Hall]. split; [done|]. clear E Hreach. induction Hall as [|x l Hx _ IH]; [done|].
    destruct IH as (I1 & I2 & I3 & I4 & I5). by destruct x.
Qed.

(** ** The response writer *)

(** [http.ResponseWriter] as the handler must use it: headers, then one status line, then data.
    [None] is a misuse; the boolean says whether the status line was written. *)
Fixpoint respond (started : bool) (t : list PEffect) : option bool :=
  match t with
  | [] => Some started
  | (PHeaderSet _ _ | PHeaderAdd _ _) :: t => if started then None else respond false t
  | PWriteHeader _ :: t => if started then None else respond true t
  | (PWrite _ | PWriteError _ _ _ | PFlush) :: t => if started then respond true t else None
  | _ :: t => respond started t
  end.

Lemma respond_app s t u : respond s (t ++ u) = (s' ← respond s t; respond s' u).
Proof.
  revert s. induction t as [|e t IH]; intros s; [done|]. destruct e; cbn [app respond]; try apply IH;
    destruct s; try done; apply IH.
Qed.
Lemma respond_cons s e t : respond s (e :: t) = (s' ← respond s [e]; respond s' t).
Proof. apply (respond_app s [e]). Qed.
Lemma respond_emit s p k a b l : respond s (emit p k a b l) = Some s.
Proof. unfold emit. by destruct (px_sink p). Qed.
Lemma respond_copy h : respond false (copy_headers h) = Some false.
Proof.
  unfold copy_headers. induction h as [|[k vs] h IH]; [done|]. cbn [flat_map]. rewrite respond_app.
  destruct (hopByHop k); [done|]. replace (respond false (map (PHeaderAdd k) vs)) with (Some false); [done|].
  by induction vs.
Qed.

Ltac respond_simpl := repeat first
  [ rewrite respond_app | rewrite respond_emit | rewrite respond_copy
  | progress cbn [respond mbind option_bind app] ].

Lemma respond_loop p reqID routeID dm turns first saw ev by_ :
  respond true (fst (stream_loop p reqID routeID dm turns first saw ev by_)) = Some true.
Proof.
  revert first saw ev by_. induction turns as [|t turns IH]; intros first saw ev by_; [done|].
  cbn [stream_loop].
  set (e1 := if _ && negb first then _ else _).
  assert (He1 : respond true e1 = Some true) by (subst e1; destruct (_ && _); [apply respond_emit|done]).
  clearbody e1. destruct (_ && pt_writeFails t); [cbn [fst]; rewrite respond_app, He1; by respond_simpl|].
  set (e2 := if negb _ then _ else _).
  assert (He2 : respond true e2 = Some true).
  { subst e2. destruct (negb _); [|done]. respond_simpl. destruct (negb first); [apply respond_emit|done]. }
  clearbody e2. destruct (pt_err t) as [[|msg c]|].
  - cbn [fst]. rewrite respond_app, He1. cbn [mbind option_bind]. rewrite respond_app, He2. by respond_simpl.
  - destruct (negb _), (pt_ctxDone t || c); cbn [fst]; rewrite respond_app, He1; cbn [mbind option_bind];
      rewrite respond_app, He2; by respond_simpl.
  - destruct (pt_ctxDone t).
    { cbn [fst]. rewrite respond_app, He1. cbn [mbind option_bind]. rewrite respond_app, He2. by respond_simpl. }
    match goal with |- context [ stream_loop _ _ _ _ turns ?a ?b ?c ?d ] => specialize (IH a b c d) end.
    destruct (stream_loop _ _ _ _ turns _ _ _ _) as [rest r]. cbn [fst] in *.
    rewrite respond_app, He1. cbn [mbind option_bind]. by rewrite respond_app, He2.
Qed.

Lemma respond_json p reqID routeID body up :
  respond false (fst (relayJSON p reqID routeID body up)) = Some (negb (unwritable up)).
Proof.
  unfold relayJSON, unwritable, connect_failed, send, writeErr. destruct up as [[built err]|resp].
  - cbn [fst]; destruct built; by respond_simpl.
  - destruct (writable _); cbn [negb fst]; respond_simpl; [|done]. by destruct ((200 <=? pr_status _) && _).
Qed.

Lemma respond_stream p reqID routeID dm body fl up :
  respond false (fst (relayStream p reqID routeID dm body fl up)) = Some (negb (fl && unwritable up)).
Proof.
  unfold relayStream, unwritable, connect_failed, send, writeErr. destruct fl; [|by respond_simpl]. cbn [negb].
  destruct up as [[built err]|resp]; [destruct built; cbn [fst]; by respond_simpl|].
  destruct (writable (pr_status resp)) eqn:Ew; cbn [negb andb].
  2: { rewrite (writable_200 _ Ew). cbn [negb fst]. by respond_simpl. }
  destruct (negb _); [cbn [fst]; by respond_simpl|].
  pose proof (respond_loop p reqID routeID dm (pr_turns resp) false false 0 0) as Hl.
  destruct (stream_loop _ _ _ _ _ _ _ _ _) as [t r]. cbn [fst] in *. respond_simpl. rewrite Hl.
  by destruct r.
Qed.

Lemma respond_dispatched p reqID routeID k n len body env :
  respond false (fst (dispatched p reqID routeID k n len body env)) =
    Some (negb (asks (detectStream body) env && unwritable (se_up env))).
Proof.
  unfold dispatched. set (obs := if _ && _ then _ else _).
  assert (Hobs : respond false obs = Some false).
  { subst obs. destruct (_ && _); [|done]. by destruct (0 <? _). }
  clearbody obs. set (relay := if detectStream body then _ else _).
  set (started := negb _).
  assert (Hr : respond false (fst relay) = Some started)
    by (subst relay started; unfold asks; destruct (detectStream body); [apply respond_stream|apply respond_json]).
  clearbody started.
  destruct relay as [t0 e0]. cbn [fst] in Hr. unfold with_work. destruct (px_work p).
  - destruct (if negb _ then _ else _) as [m c]. destruct (reservation len m _ c) as [a b]. cbn [fst].
    respond_simpl. rewrite Hobs. respond_simpl. rewrite Hr. cbn. by destruct e0.
  - cbn [fst]. respond_simpl. rewrite Hobs. by respond_simpl.
Qed.

Lemma respond_status s t b : respond s t = Some b ->
  (countb is_status t + (if s then 1 else 0) = if b then 1 else 0)%nat.
Proof.
  revert s. induction t as [|e t IH]; intros s; cbn [respond]; [by intros [= ->]|].
  rewrite countb_cons. destruct e; cbn [is_status]; try (intros H; by apply IH);
    destruct s; try done; intros H; apply IH in H; lia.
Qed.

(** The requests that get no status line. *)
Definition silent (r : SidecarRequest) (env : SidecarEnv) : bool :=
  match sr_body r, se_admit env, se_wait env with
  | inr _, None, Some ErrCancelled => true
  | inr _, None, None => asks (streams r) env && unwritable (se_up env)
  | _, _, _ => false
  end.

(** The handler uses the response writer correctly on every way out: headers first, then exactly
    one status line, then data.  It writes no status line in two cases only, a request cancelled
    while it waits in the queue and an answer whose status makes [WriteHeader] panic. *)
Theorem response_wellformed sha256 p r env :
  let '(t, e) := ChatCompletions sha256 p r env in
  exists started, respond false t = Some started /\ (countb is_status t = if started then 1 else 0)%nat /\
    (started = false <-> silent r env = true).
Proof.
  enough (H : let '(t, e) := ChatCompletions sha256 p r env in exists started, respond false t = Some started /\
    (started = false <-> silent r env = true)).
  { destruct (ChatCompletions sha256 p r env) as [t e]. destruct H as (b & H1 & H2). exists b.
    split; [done|]. split; [|done]. apply respond_status in H1. lia. }
  unfold ChatCompletions, silent, streams. destruct (extractAndStripPrefixHeaders _ _ _ _) as [[k n] h].
  destruct (sr_body r) as [err|raw]; [by exists true|].
  destruct (se_admit env) as [err|]; [exists true; split; [by respond_simpl|done]|].
  destruct (se_wait env) as [err|].
  - destruct err; try (exists true; split; [by respond_simpl|done]). exists false. split; [by respond_simpl|done].
  - match goal with |- context [ dispatched ?p ?a ?b ?c ?d ?e ?f ?g ] =>
      pose proof (respond_dispatched p a b c d e f g) as Hd; destruct (dispatched p a b c d e f g) as [t e0] end.
    cbn [fst] in Hd. eexists. split; [by respond_simpl|]. by destruct (asks _ _ && _).
Qed.

(** ** The outcome of a stream *)

Definition filled (t : PTurn) : bool := negb (String.eqb (pt_line t) "").

(** A turn after which the loop does not read again. *)
Definition stops (t : PTurn) : bool :=
  (filled t && pt_writeFails t) || bool_decide (pt_err t <> None) || pt_ctxDone t.

(** The line of a turn that reaches the client, and the lines of several. *)
Definition relayed (t : PTurn) : list string := if filled t && negb (pt_writeFails t) then [pt_line t] else [].
Definition relayed_all (turns : list PTurn) : list string := flat_map relayed turns.

(** What the last turn means; [nothing]: no byte reached the client. *)
Definition classify (t : PTurn) (nothing : bool) : ReqState * string :=
  if filled t && pt_writeFails t then (StateCancelled, "downstream_gone")
  else match pt_err t with
  | Some PEOF => (StateCompleted, "stream_ok")
  | Some (PReadFailed _ canceled) =>
      if pt_ctxDone t || canceled
      then (StateCancelled, if nothing then "cancelled_pre_first_event" else "client_cancelled_mid_stream")
      else if nothing then (StateUpstreamFail, "upstream_err_pre_first_event")
      else (StatePartialStream, "upstream_err_mid_stream")
  | None => (StateCancelled, "client_cancelled_mid_stream")
  end.

Lemma p_writes_app t u : p_writes (t ++ u) = p_writes t ++ p_writes u.
Proof. apply omap_app. Qed.
Lemma p_writes_emit p k a b l : p_writes (emit p k a b l) = [].
Proof. unfold emit. by destruct (px_sink p). Qed.

(** One turn: the lines it relays, and either the end it classifies or the rest of the loop. *)
Lemma stream_turn p reqID routeID dm t turns first saw ev by_ :
  let '(tr, r) := stream_loop p reqID routeID dm (t :: turns) first saw ev by_ in
  let first' := first || negb (bool_decide (relayed t = [])) in
  if stops t then p_writes tr = relayed t /\ r = Some (classify t (negb first'))
  else exists saw' ev' by',
    let '(tr', r') := stream_loop p reqID routeID dm turns first' saw' ev' by' in
    p_writes tr = relayed t ++ p_writes tr' /\ r = r'.
Proof.
  cbn [stream_loop]. unfold stops, relayed, classify. fold (filled t).
  set (e1 := if _ && negb first then _ else _).
  assert (He1 : p_writes e1 = []) by (subst e1; destruct (_ && _); [apply p_writes_emit|done]). clearbody e1.
  destruct (filled t && pt_writeFails t) eqn:Ew; cbn [orb].
  { rewrite !p_writes_app, He1, p_writes_emit. apply andb_true_iff in Ew as [-> ->]. done. }
  set (e2 := if filled t then _ else _).
  assert (He2 : p_writes e2 = if filled t then [pt_line t] else []).
  { subst e2. destruct (filled t); [|done]. cbn. by destruct (negb first); [rewrite p_writes_emit|]. }
  clearbody e2. replace (filled t && negb (pt_writeFails t)) with (filled t)
    by (by destruct (filled t), (pt_writeFails t)).
  assert (Hf : negb (bool_decide ((if filled t then [pt_line t] else []) = [])) = filled t)
    by (destruct (filled t); [by rewrite bool_decide_false|by rewrite bool_decide_true]).
  rewrite Hf. destruct (pt_err t) as [[|msg c]|]; cbn [orb].
  - rewrite !p_writes_app, He1, He2, p_writes_emit. rewrite bool_decide_true by done. cbn. by rewrite app_nil_r.
  - rewrite bool_decide_true by done. cbn [orb].
    destruct (first || filled t), (pt_ctxDone t || c); cbn [negb];
      rewrite !p_writes_app, He1, He2, p_writes_emit; cbn; by rewrite app_nil_r.
  - rewrite bool_decide_false by (by intros []). cbn [orb]. destruct (pt_ctxDone t).
    { rewrite !p_writes_app, He1, He2, p_writes_emit. cbn. by rewrite app_nil_r. }
    match goal with |- context [ stream_loop _ _ _ _ turns ?a ?b ?c ?d ] =>
      destruct (stream_loop p reqID routeID dm turns a b c d) as [tr' r'] eqn:El; exists b, c, d; rewrite El end.
    by rewrite !p_writes_app, He1, He2.
Qed.

Lemma stream_spec p reqID routeID dm turns first saw ev by_ :
  let '(tr, r) := stream_loop p reqID routeID dm turns first saw ev by_ in
  match r with
  | None => Forall (fun t => stops t = false) turns /\ p_writes tr = relayed_all turns
  | Some o => exists pre t post, turns = pre ++ t :: post /\ Forall (fun t => stops t = false) pre /\
      stops t = true /\ p_writes tr = relayed_all (pre ++ [t]) /\
      o = classify t (negb first && bool_decide (p_writes tr = []))
  end.
Proof.
  revert first saw ev by_. induction turns as [|t turns IH]; intros first saw ev by_; [done|].
  pose proof (stream_turn p reqID routeID dm t turns first saw ev by_) as Ht.
  destruct (stream_loop p reqID routeID dm (t :: turns) first saw ev by_) as [tr r]. cbv zeta in Ht.
  destruct (stops t) eqn:Es.
  - destruct Ht as [-> ->]. exists [], t, turns. cbn. rewrite app_nil_r. split_and!; try done.
    by destruct first, (bool_decide (relayed t = [])).
  - destruct Ht as (s' & e' & b' & Ht).
    pose proof (IH (first || negb (bool_decide (relayed t = []))) s' e' b') as IH'.
    destruct (stream_loop p reqID routeID dm turns _ s' e' b') as [tr' r']. destruct Ht as [-> ->].
    destruct r' as [o|].
    + destruct IH' as (pre & u & post & -> & H1 & H2 & H3 & H4). exists (t :: pre), u, post.
      split_and!; [done|by constructor|done|cbn; by rewrite H3|]. rewrite H4. f_equal.
      rewrite negb_orb, negb_involutive, <- andb_assoc. f_equal.
      destruct (relayed t); cbn [app]; [done|].
      rewrite (bool_decide_false (_ :: _ ++ _ = _)) by done. by rewrite bool_decide_false.
    + destruct IH' as [H1 H2]. split; [by constructor|]. cbn. by rewrite H2.
Qed.

(** The relay of a stream stops at the first turn on which a write fails, the reader reports an
    end or an error, or the request is cancelled; up to there it has written exactly the lines read,
    in order; and it reports what that turn means: COMPLETED for a clean end, CANCELLED when the
    client's side is gone, and for an error of the model server PARTIAL_STREAM or UPSTREAM_FAILED
    according to whether a byte was relayed before. *)
Theorem stream_outcome p reqID routeID dm turns :
  let '(tr, r) := stream_loop p reqID routeID dm turns false false 0 0 in
  match r with
  | None => Forall (fun t => stops t = false) turns /\ p_writes tr = relayed_all turns
  | Some o => exists pre t post, turns = pre ++ t :: post /\ Forall (fun t => stops t = false) pre /\
      stops t = true /\ p_writes tr = relayed_all (pre ++ [t]) /\
      o = classify t (bool_decide (p_writes tr = []))
  end.
Proof. exact (stream_spec p reqID routeID dm turns false false 0 0). Qed.
