(* ===== verification/BodyFacts.v ===== *)
(** * Request bodies: what the two hops estimate

    The decoded strings of a text are at most three times as long as the text, so the sums over the contents of
    the messages do not wrap; and the router and the sidecar, which decode the same body into different structs,
    estimate from the same members of it: where they agree and where they do not follows. *)

From Stdlib Require Import Strings.Ascii.
From stdpp Require Import base tactics numbers option list strings gmap.
From S2P Require Import Prelude GoText GoStrconv Json Unmarshal RequestIds Bodies Gateway Proxy.
Open Scope go_scope.

(** ** The size of a value: the length of the strings in it *)

Fixpoint strings_size (v : json) : nat :=
  match v with
  | JStr s => String.length s
  | JArr l | JObj l => list_sum (map (fun '(_, x) => strings_size x) l)
  | _ => 0
  end.
Definition sizes (l : list (string * json)) : nat := list_sum (map (fun '(_, x) => strings_size x) l).

Lemma sizes_cons k x l : sizes ((k, x) :: l) = (strings_size x + sizes l)%nat.
Proof. done. Qed.

Lemma String_length_app s t : String.length (String.append s t) = (String.length s + String.length t)%nat.
Proof. induction s as [|c s IH]; [done|]. rewrite sapp_cons. cbn [String.length]. by rewrite IH. Qed.

Lemma encode_rune_length r : (1 <= String.length (encode_rune r) <= 4)%nat.
Proof. unfold encode_rune. repeat destruct (_ <? _); cbn; lia. Qed.

(** A decoded string and three times what follows it fit three times the text. *)
Lemma read_string_size s copy skip t r : read_string s copy skip = Some (t, r) ->
  (String.length t + 3 * String.length r <= 3 * String.length s)%nat.
Proof.
  remember (String.length s) as n eqn:Hn. revert s copy skip t r Hn.
  induction n as [n IH] using lt_wf_ind. intros s copy skip t r ->.
  assert (Step : forall s' c k pre t r,
    (String.length pre + 3 * String.length s' <= 3 * String.length s)%nat -> (String.length s' < String.length s)%nat ->
    match read_string s' c k with Some (u, r) => Some (String.append pre u, r) | None => None end = Some (t, r) ->
    (String.length t + 3 * String.length r <= 3 * String.length s)%nat).
  { intros s' c' k pre t' r' Hp Hl H. destruct (read_string s' c' k) as [[u q]|] eqn:E; [|done].
    injection H as <- <-. pose proof (IH _ Hl s' c' k u q eq_refl E). rewrite String_length_app. lia. }
  destruct s as [|c s]; [done|]. cbn [read_string]. cbn [String.length] in *.
  pose proof (fun x => proj2 (encode_rune_length x)) as Henc.
  destruct skip as [|k].
  2: { intros H. pose proof (IH (String.length s) ltac:(lia) s 0%nat k t r eq_refl H). lia. }
  destruct copy as [|k]; [|apply Step; cbn; lia].
  destruct (Ascii.eqb c quote_char); [intros [= <- <-]; cbn; lia|].
  destruct (byte_at c <? 32); [done|].
  destruct (Ascii.eqb c "\").
  - destruct s as [|e s]; [done|].
    assert (Esc : match escape_of e with
      | Some d => match read_string s 0 0 with Some (u, r) => Some (String.append (String d "") u, r) | None => None end
      | None => None end = Some (t, r) -> (String.length t + 3 * String.length r <= 3 * S (S (String.length s)))%nat).
    { destruct (escape_of e); [|done]. apply (Step s 0%nat 0%nat); cbn; lia. }
    destruct (Ascii.ascii_dec e "u") as [->|Hne].
    + destruct s as [|a [|b [|d [|f s]]]]; try exact Esc. clear Esc. cbn [String.length] in *.
      destruct (hex4 a b d f) as [n|]; [|done].
      destruct (is_surrogate n); [|apply Step; [specialize (Henc n); lia|lia]].
      destruct (if n <? 56320 then low_half s else None); apply Step; try lia;
        match goal with |- context [ encode_rune ?x ] => specialize (Henc x); lia end.
    + intros H. apply Esc. rewrite <- H. clear -Hne.
      destruct e as [[] [] [] [] [] [] [] []]; try reflexivity; by destruct Hne.
  - destruct (rune_width _); apply Step; cbn; lia.
Qed.

(** A parser whose result has the size [f], within three times the text of [n] bytes that it consumed. *)
Definition fits {A} (f : A -> nat) (n : nat) (p : parsed A) : Prop :=
  match p with Parsed a r => (f a + 3 * String.length r <= 3 * n)%nat | _ => True end.

Lemma fits_pmap {A B} (g : A -> B) f h n m p :
  (n <= m)%nat -> (forall a, h (g a) <= f a)%nat -> fits f n p -> fits h m (pmap g p).
Proof. intros Hn Hg. destruct p as [a r| |]; cbn; [|done..]. specialize (Hg a). lia. Qed.
Lemma fits_pbind {A B} (f : A -> nat) (h : B -> nat) m n (p : parsed A) (q : A -> string -> parsed B) :
  fits f m p -> (forall a r, (f a + 3 * String.length r <= 3 * m)%nat -> fits h n (q a r)) -> fits h n (pbind p q).
Proof. intros Hp Hq. destruct p; [by apply Hq|done|done]. Qed.
Lemma fits_literal {A} lit (a : A) f n c s : f a = 0%nat -> (String.length s <= n)%nat -> fits f n (literal (String c lit) a s).
Proof. intros Ha H. unfold literal. destruct (after _ _) eqn:E; [|done]. apply after_length in E. cbn in *. lia. Qed.
Lemma fits_opened {A B} close (empty : B) wrap (body : string -> parsed A) f h n r :
  h empty = 0%nat -> (forall a, h (wrap a) <= f a)%nat -> (String.length r <= n)%nat ->
  (forall q, fits f (String.length q) (body q)) -> fits h n (opened close empty wrap body r).
Proof.
  intros He Hw Hn Hb. unfold opened. pose proof (skip_space_length r) as Hs. destruct (skip_space r) as [|c q]; [done|].
  cbn [String.length] in Hs. destruct (Ascii.eqb c close); [cbn; lia|]. by eapply fits_pmap; [|done|apply Hb]; cbn; lia.
Qed.
Lemma fits_next {A} close (last more : string -> parsed A) f n r :
  (forall q, (String.length q < String.length r)%nat -> fits f n (last q) /\ fits f n (more q)) -> fits f n (next close last more r).
Proof.
  intros H. unfold next. pose proof (skip_space_length r) as Hs. destruct (skip_space r) as [|c q]; [done|].
  destruct (H q) as [H1 H2]; [cbn in Hs; lia|]. destruct (Ascii.eqb c ","); [done|]. by destruct (Ascii.eqb c close).
Qed.
Lemma fits_key {A} (k : string -> string -> parsed A) f n s :
  (forall name r, (String.length r < String.length s)%nat -> fits f n (k name r)) -> fits f n (key k s).
Proof.
  intros H. unfold key. pose proof (skip_space_length s) as Hs. destruct (skip_space s) as [|c r]; [done|].
  destruct (negb _); [done|]. destruct (read_string r 0 0) as [[name q]|] eqn:E; [|done]. apply read_string_length in E.
  cbn [of_option pbind]. pose proof (skip_space_length q) as Hq. destruct (skip_space q) as [|d w]; [done|].
  destruct (Ascii.eqb d ":"); [|done]. apply H. cbn in *. lia.
Qed.

Lemma parsed_fits fuel depth s :
  fits strings_size (String.length s) (value fuel depth s) /\ fits sizes (String.length s) (elements fuel depth s) /\
  fits sizes (String.length s) (members fuel depth s).
Proof.
  revert depth s. induction fuel as [|fuel IH]; [done|]. intros depth s. split_and!.
  - cbn [value]. pose proof (skip_space_length s) as Hs. destruct (skip_space s) as [|c r]; [done|].
    cbn [String.length] in Hs.
    destruct (Ascii.eqb c quote_char).
    { destruct (read_string r 0 0) as [[t q]|] eqn:E; [|done]. apply read_string_size in E. cbn. lia. }
    destruct (Ascii.eqb c "["); [destruct depth; [done|]; apply (fits_opened _ _ _ _ sizes); (done || lia || intros q; apply IH)|].
    destruct (Ascii.eqb c "{"); [destruct depth; [done|]; apply (fits_opened _ _ _ _ sizes); (done || lia || intros q; apply IH)|].
    repeat match goal with |- context [ if Ascii.eqb c ?x then _ else _ ] =>
      destruct (Ascii.eqb c x); [apply fits_literal; [done|cbn; lia]|] end.
    destruct (read_number (String c r)) as [[t q]|] eqn:E; [|done]. apply read_number_length in E. cbn in *. lia.
  - cbn [elements]. apply (fits_pbind strings_size _ (String.length s)); [apply IH|]. intros v r Hr. apply fits_next.
    intros q Hq. split; [unfold fits; rewrite sizes_cons; cbn; lia|].
    destruct (IH depth q) as (_ & He & _). destruct (elements fuel depth q); [|done..]. cbn [pmap fits] in *. rewrite sizes_cons. lia.
  - cbn [members]. apply fits_key. intros k r Hr.
    apply (fits_pbind strings_size _ (String.length r)); [apply IH|]. intros v q Hq.
    apply fits_next. intros w Hw. split; [unfold fits; rewrite sizes_cons; cbn; lia|].
    destruct (IH depth w) as (_ & _ & Hm). destruct (members fuel depth w); [|done..]. cbn [pmap fits] in *. rewrite sizes_cons. lia.
Qed.

Lemma decoded_size s v : unmarshal s = Some v -> (strings_size v <= 3 * String.length s)%nat.
Proof.
  unfold unmarshal, decode_value. pose proof (proj1 (parsed_fits (2 * String.length s + 2) max_depth s)) as H.
  destruct (value _ _ s) as [w r| |]; [|done..]. destruct (String.eqb _ _); [|done]. intros [= ->]. cbn [fits] in H. lia.
Qed.

(** ** Decoders that store no more than they are given *)

Definition stores {A} (f : A -> nat) (d : into A) : Prop := forall v a, (f (d v a).1 <= f a + strings_size v)%nat.

Lemma stores_string : stores String.length into_string.
Proof. intros v a. destruct v; cbn; lia. Qed.

Lemma stores_struct {A} (f : A -> nat) (field : string -> option (into A)) :
  (forall k d, field k = Some d -> stores f d) -> stores f (into_struct field).
Proof.
  intros Hd v a. destruct v as [| | | | |l]; try (cbn; lia). cbn [into_struct strings_size]. fold (sizes l).
  generalize true as ok. revert a. induction l as [|[k x] l IH]; intros a ok; [cbn; lia|].
  cbn [fold_left]. rewrite sizes_cons. unfold into_member at 2. cbn [fst snd]. destruct (field k) as [d|] eqn:Hf.
  - pose proof (Hd k d Hf x a) as Hx. destruct (d x a) as [b okb]. cbn [fst snd] in *. specialize (IH b (ok && okb)). lia.
  - specialize (IH a ok). lia.
Qed.

Lemma stores_only {A} (f : A -> nat) name (d : into A) : stores f d -> stores f (only name d).
Proof. intros H. apply stores_struct. intros k e. by destruct (names name k); intros [= <-]. Qed.

Definition cells_size {A} (f : A -> nat) (cells : list A) : nat := list_sum (map f cells).

Lemma stores_slice {A} (f : A -> nat) zero (d : string -> into A) :
  f zero = 0%nat -> (forall text, stores f (d text)) -> stores (fun s => cells_size f s.(sl_cells)) (into_slice zero d).
Proof.
  intros Hz Hd v a. destruct v as [| | | |[|e l]|]; try (cbn; lia).
  change (strings_size (JArr (e :: l))) with (sizes (e :: l)). cbn [into_slice]. generalize (sl_cells a) as cells.
  generalize (e :: l) as k. clear e l a. induction k as [|[text x] k IH]; intros cells; [apply Nat.le_add_r|].
  cbn [into_cells]. specialize (Hd text x (default zero (head cells))). specialize (IH (tail cells)).
  destruct (d text x _) as [c ok], (into_cells zero d k (tail cells)) as [cs oks]. cbn [fst snd sl_cells] in *.
  rewrite sizes_cons. unfold cells_size in *. cbn [map list_sum foldr]. change (foldr Nat.add 0%nat) with list_sum.
  destruct cells as [|c0 cells]; cbn in *; lia.
Qed.

(** ** The sums over the contents *)

Definition total_length (contents : list string) : Z := foldr (fun m n => slen m + n) 0 contents.

Lemma total_length_cons m contents : total_length (m :: contents) = slen m + total_length contents.
Proof. done. Qed.

Lemma total_length_nonneg contents : 0 <= total_length contents.
Proof. induction contents as [|m contents IH]; [done|]. rewrite total_length_cons. unfold slen. lia. Qed.

Lemma total_length_shown (ms : slice string) : total_length (shown ms) <= Z.of_nat (cells_size String.length ms.(sl_cells)).
Proof.
  unfold shown, cells_size. generalize (sl_len ms) as n. induction (sl_cells ms) as [|m cells IH]; intros n; [by rewrite take_nil|].
  destruct n as [|n]; [cbn; lia|]. cbn [take map]. rewrite total_length_cons. specialize (IH n). unfold slen.
  change (list_sum (String.length m :: map String.length cells)) with (String.length m + list_sum (map String.length cells))%nat. lia.
Qed.

Lemma content_length_sum ms first : 0 <= first -> first + total_length (shown ms) < 2 ^ 63 ->
  content_length ms first = first + total_length (shown ms).
Proof.
  unfold content_length. revert first. induction (shown ms) as [|m contents IH]; intros first H0 H; [cbn; lia|].
  cbn [fold_left]. rewrite total_length_cons in *. pose proof (total_length_nonneg contents). assert (0 <= slen m) by (unfold slen; lia).
  rewrite wrap64_id by (unfold in_i64, i64_min, i64_max; lia). rewrite IH; lia.
Qed.

(** ** What the two hops decode *)

Lemma stores_messages : stores (fun s => cells_size String.length s.(sl_cells)) messages.
Proof. apply stores_slice; [done|]. intros _. apply stores_only, stores_string. Qed.

Lemma stores_prompt : stores (fun p => (cells_size String.length p.1.(sl_cells) + String.length p.2)%nat) prompt_probe.
Proof.
  apply stores_struct. intros k d. destruct (names "messages" k); [intros [= <-]|destruct (names "prompt" k); intros [= <-]].
  - intros v [ms p]. unfold at_fst. pose proof (stores_messages v ms) as H. cbn [fst snd] in *.
    destruct (messages v ms) as [ms' ok]. cbn [fst snd] in *. lia.
  - intros v [ms p]. unfold at_snd. pose proof (stores_string v p) as H. cbn [fst snd] in *.
    destruct (into_string v p) as [p' ok]. cbn [fst snd] in *. lia.
Qed.

(** Decoding the messages and the prompt alone and together. *)
Lemma names_disjoint k : names "messages" k = true -> names "prompt" k = false.
Proof.
  unfold names, equal_fold. intros H%String.eqb_eq. apply not_true_is_false. intros H'%String.eqb_eq.
  rewrite H in H'. by vm_compute in H'.
Qed.

Lemma members_agree (l : list (string * json)) ms p ok1 ok2 :
  let r1 := fold_left (into_member (fun k => if names "messages" k then Some messages else None)) l (ms, ok1) in
  let r2 := fold_left (into_member (fun k => if names "prompt" k then Some into_string else None)) l (p, ok2) in
  fold_left (into_member (fun k => if names "messages" k then Some (at_fst messages)
                                   else if names "prompt" k then Some (at_snd into_string) else None)) l ((ms, p), ok1 && ok2) =
    ((r1.1, r2.1), r1.2 && r2.2).
Proof.
  cbv zeta. set (f1 := fun k => if names "messages" k then Some messages else None).
  set (f2 := fun k => if names "prompt" k then Some into_string else None). set (f3 := fun k => _).
  revert ms p ok1 ok2. induction l as [|[k x] l IH]; intros ms p ok1 ok2; [done|]. cbn [fold_left].
  assert (Hstep : exists ms' p' ok1' ok2', into_member f1 (ms, ok1) (k, x) = (ms', ok1') /\
    into_member f2 (p, ok2) (k, x) = (p', ok2') /\ into_member f3 ((ms, p), ok1 && ok2) (k, x) = ((ms', p'), ok1' && ok2')).
  { unfold into_member, f1, f2, f3. cbn [fst snd]. destruct (names "messages" k) eqn:Em; [|destruct (names "prompt" k)].
    - rewrite (names_disjoint k Em). unfold at_fst. cbn [fst snd]. destruct (messages x ms) as [ms' ok].
      exists ms', p, (ok1 && ok), ok2. split_and!; [done..|]. by destruct ok1, ok2, ok.
    - unfold at_snd. cbn [fst snd]. destruct (into_string x p) as [p' ok]. exists ms, p', ok1, (ok2 && ok).
      split_and!; [done..|]. by rewrite andb_assoc.
    - by exists ms, p, ok1, ok2. }
  destruct Hstep as (ms' & p' & ok1' & ok2' & -> & -> & ->). apply IH.
Qed.

Lemma probes_agree body :
  let r1 := Unmarshal (only "messages" messages) body no_slice in
  let r2 := Unmarshal (only "prompt" into_string) body ""%string in
  Unmarshal prompt_probe body (no_slice, ""%string) = ((r1.1, r2.1), r1.2 && r2.2).
Proof.
  unfold Unmarshal, prompt_probe, only. destruct (unmarshal body) as [v|]; [|done]. destruct v as [| | | | |l]; try done.
  cbn [into_struct]. apply (members_agree l no_slice ""%string true true).
Qed.

Lemma probe_bound {A} (f : A -> nat) (d : into A) body a : stores f d -> f a = 0%nat ->
  (f (Unmarshal d body a).1 <= 3 * String.length body)%nat.
Proof.
  intros Hd Ha. unfold Unmarshal. destruct (unmarshal body) as [v|] eqn:E; [|cbn; lia]. apply decoded_size in E.
  specialize (Hd v a). lia.
Qed.

(** A decoded integer is an [int]. *)
Lemma only_int_range name body n ok : Unmarshal (only name into_int) body 0 = (n, ok) -> n <= i64_max.
Proof.
  intros H. change n with ((n, ok).1). rewrite <- H. clear H. unfold Unmarshal.
  destruct (unmarshal body) as [v|]; [|done]. apply (into_struct_ind (fun n => n <= i64_max)); [done|].
  intros l k x d b _ _ Hd Hb. destruct (names name k); [|done]. injection Hd as <-. destruct x as [| |t| | |]; try done.
  cbn [into_int]. destruct (atoi t) as [m|] eqn:E; [|done]. unfold atoi in E.
  destruct (match t with EmptyString => _ | _ => _ end) as [neg ds]. destruct ds; [done|].
  destruct (digits_val _ 0); [|done]. cbn [mbind option_bind] in E. destruct (in_i64b _) eqn:Hi; [|done]. injection E as <-.
  apply in_i64b_spec in Hi. apply Hi.
Qed.

(** What a body says in three of its members, each decoded by itself; [None] when the text or the member is malformed. *)
Definition said_contents (body : string) : option (list string) :=
  shown <$> checked (Unmarshal (only "messages" messages) body no_slice).
Definition said_prompt (body : string) : option string := checked (Unmarshal (only "prompt" into_string) body ""%string).
Definition said_tokens (body : string) : option Z := checked (Unmarshal (only "max_tokens" into_int) body 0).

Lemma expected_said body :
  Proxy.expectedOutputTokens body = match said_tokens body with Some n => if 0 <? n then n else 128 | None => 128 end.
Proof. done. Qed.

Lemma expected_range body : 1 <= Proxy.expectedOutputTokens body <= i64_max.
Proof.
  rewrite expected_said. unfold said_tokens, checked. destruct (Unmarshal _ _ _) as [n ok] eqn:E. cbn [fst snd].
  destruct ok; [|unfold i64_max; lia]. destruct (Z.ltb_spec 0 n); [|unfold i64_max; lia]. split; [lia|].
  apply (only_int_range "max_tokens" body n true E).
Qed.

Lemma extract_said body n : said_tokens body = Some n -> Gateway.extractMaxTokens body = n.
Proof.
  unfold said_tokens, Gateway.extractMaxTokens, checked. destruct (Unmarshal _ _ _) as [m ok]. cbn [fst snd].
  destruct ok; [by intros [= ->]|done].
Qed.

(** C16: what each hop estimates from a body within the readers' limit, exactly, in terms of its members [messages],
    [prompt] and [max_tokens].  The router counts a quarter of the bytes of the contents, 0 when they are malformed; the
    sidecar adds the prompt, and counts 0 when either is malformed; neither sum wraps and both estimates are at most
    three quarters of the body's length (a byte that is not UTF-8 decodes to three).  The sidecar reserves
    [max_tokens] output tokens when that is well formed and positive and 128 otherwise, always 1 to 2^63 - 1.
    So the hops agree on the input when the body has no prompt (the chat completions API has none), and on the output
    when [max_tokens] is well formed and positive; elsewhere they need not. *)
Theorem hop_estimates body (Hlen : slen body <= 2 ^ 24) :
  let router_in := Gateway.estimateTokens body in
  let sidecar_in := Proxy.estimateInputTokens body in
  let router_out := Gateway.extractMaxTokens body in
  let sidecar_out := Proxy.expectedOutputTokens body in
  router_in = match said_contents body with Some cs => total_length cs / 4 | None => 0 end /\
  sidecar_in = match said_contents body, said_prompt body with Some cs, Some p => (total_length cs + slen p) / 4 | _, _ => 0 end /\
  0 <= router_in <= 3 * slen body / 4 /\ 0 <= sidecar_in <= 3 * slen body / 4 /\
  sidecar_out = match said_tokens body with Some n => if 0 <? n then n else 128 | None => 128 end /\
  1 <= sidecar_out <= i64_max /\
  (said_prompt body = Some ""%string -> sidecar_in = router_in) /\
  (forall n, said_tokens body = Some n -> router_out = n /\ (0 < n -> sidecar_out = router_out)).
Proof.
  pose proof (probe_bound _ _ body no_slice (stores_only _ "messages" _ stores_messages) eq_refl) as Hr.
  pose proof (probe_bound _ _ body (no_slice, ""%string) stores_prompt eq_refl) as Hs.
  cbv zeta. unfold Gateway.estimateTokens, Proxy.estimateInputTokens, said_contents, said_prompt, checked in *.
  rewrite probes_agree in *.
  destruct (Unmarshal (only "messages" messages) body no_slice) as [ms ok1].
  destruct (Unmarshal (only "prompt" into_string) body ""%string) as [p ok2]. cbn [fst snd] in *.
  assert (Hb : 0 <= slen body) by (unfold slen; lia). assert (Hp : 0 <= slen p) by (unfold slen; lia).
  pose proof (total_length_nonneg (shown ms)). pose proof (total_length_shown ms).
  assert (E1 : Z.quot (content_length ms 0) 4 = total_length (shown ms) / 4).
  { rewrite content_length_sum by (unfold slen in *; lia). by rewrite Z.quot_div_nonneg by lia. }
  assert (E2 : Z.quot (content_length ms (slen p)) 4 = (total_length (shown ms) + slen p) / 4).
  { rewrite content_length_sum by (unfold slen in *; lia). rewrite Z.quot_div_nonneg by lia. f_equal. lia. }
  assert (0 <= 3 * slen body / 4) by (apply Z.div_pos; lia).
  assert (B1 : 0 <= total_length (shown ms) / 4 <= 3 * slen body / 4)
    by (split; [apply Z.div_pos; lia|apply Z.div_le_mono; unfold slen in *; lia]).
  assert (B2 : 0 <= (total_length (shown ms) + slen p) / 4 <= 3 * slen body / 4)
    by (split; [apply Z.div_pos; lia|apply Z.div_le_mono; unfold slen in *; lia]).
  split; [destruct ok1; [exact E1|done]|]. split; [destruct ok1, ok2; cbn [andb fmap option_fmap option_map]; (exact E2 || done)|].
  split; [destruct ok1; [by rewrite E1|lia]|]. split; [destruct (ok1 && ok2); [by rewrite E2|lia]|].
  split; [by rewrite expected_said|]. split; [apply expected_range|]. split.
  - intros Hpr. destruct ok2; [|done]. injection Hpr as ->. destruct ok1; [|done]. cbn [andb]. by rewrite E1, E2, Z.add_0_r.
  - intros n Hn. split; [by apply extract_said|]. intros Hpos. rewrite expected_said, Hn, (extract_said body n Hn).
    destruct (Z.ltb_spec 0 n); lia.
Qed.

(** ** Concrete bodies *)

(** A prompt counts only at the sidecar, a list of content parts makes both estimates 0, and an error behind the
    number leaves it to the router but not to the sidecar. *)
Definition demo_prompt : string := ("{" +:+ dquoted "prompt" +:+ ":" +:+ dquoted "0123456789abcdef" +:+ "}")%stdpp.
Definition demo_parts : string :=
  ("{" +:+ dquoted "messages" +:+ ":[{" +:+ dquoted "content" +:+ ":[{" +:+ dquoted "text" +:+ ":" +:+ dquoted "0123456789" +:+ "}]}]}")%stdpp.
Definition demo_number : string :=
  ("{" +:+ dquoted "max_tokens" +:+ ":64," +:+ dquoted "max_tokens" +:+ ":1.5}")%stdpp.

Example demo_estimates :
  map (fun b => (Gateway.estimateTokens b, Proxy.estimateInputTokens b)) [demo_prompt; demo_parts] = [(0, 4); (0, 0)] /\
  (Gateway.extractMaxTokens demo_number, Proxy.expectedOutputTokens demo_number) = (64, 128).
Proof. by vm_compute. Qed.

(** A chat completion on which the hops agree. *)
Definition demo_chat : string :=
  ("{" +:+ dquoted "messages" +:+ ":[{" +:+ dquoted "content" +:+ ":" +:+ dquoted "0123456789abcdef" +:+ "}]," +:+
   dquoted "max_tokens" +:+ ":64}")%stdpp.

Lemma hop_estimates_witness :
  Proxy.estimateInputTokens demo_prompt = 4 /\
  Proxy.estimateInputTokens demo_chat = Gateway.estimateTokens demo_chat /\ Gateway.estimateTokens demo_chat = 4 /\
  Proxy.expectedOutputTokens demo_chat = Gateway.extractMaxTokens demo_chat.
Proof.
  assert (Hp : slen demo_prompt <= 2 ^ 24) by (by vm_compute). assert (Hc : slen demo_chat <= 2 ^ 24) by (by vm_compute).
  destruct (hop_estimates demo_prompt Hp) as (_ & E & _).
  destruct (hop_estimates demo_chat Hc) as (E1 & _ & _ & _ & _ & _ & E2 & E3).
  split; [rewrite E; by vm_compute|]. split; [apply E2; by vm_compute|]. split; [rewrite E1; by vm_compute|].
  destruct (E3 64) as [_ E4]; [by vm_compute|]. by apply E4.
Defined.
