(* ===== verification/EndToEnd.v ===== *)
(** * Router and sidecar composed

    The router's HTTP client talks to the sidecar's handler: what the handler wrote on its response
    writer is the answer the router relays.  [net/http] ends the body of a handler that returns
    regularly, so the router's reader sees the bytes written and then the end of the body. *)

From Stdlib Require Import Floats.SpecFloat.
From stdpp Require Import base tactics numbers option list strings gmap.
From S2P Require Import Prelude Json GoFloat GoTime GoHttp Model AdmissionQueue WorkAccounting Proxy ProxyFacts Ordering Routing GoStrconv RequestIds Bodies.
From S2P Require Import Gateway GatewayFacts.

(** ** Bytes and lines *)

Fixpoint cat (l : list string) : string :=
  match l with [] => "" | s :: l => (s +:+ cat l)%stdpp end.

Lemma cat_app l k : cat (l ++ k) = (cat l +:+ cat k)%stdpp.
Proof. induction l as [|s l IH]; [done|]. cbn [app cat]. by rewrite IH, sapp_assoc. Qed.

Definition newline : Ascii.ascii := Ascii.ascii_of_nat 10.

(** What [ReadBytes('\n')] returns on a body: the lines that end in a newline, and the rest. *)
Fixpoint read_lines (s : string) : list string * string :=
  match s with
  | EmptyString => ([], "")
  | String c s =>
      let '(ls, rest) := read_lines s in
      if Ascii.eqb c newline then (String c "" :: ls, rest)
      else match ls with
      | [] => ([], String c rest)
      | l :: ls => (String c l :: ls, rest)
      end
  end.

Lemma read_lines_cat s : let '(ls, rest) := read_lines s in (cat ls +:+ rest)%stdpp = s.
Proof.
  induction s as [|c s IH]; [done|]. cbn [read_lines]. destruct (read_lines s) as [ls rest].
  destruct (Ascii.eqb c newline); [exact (f_equal (String c) IH)|].
  destruct ls as [|l ls]; exact (f_equal (String c) IH).
Qed.

(** The turns of the router's relay for a client that stays and takes every byte; [clock] is read twice in each. *)
Definition steady (clock : Z * Z) (line : string) (err : option ReadErr) : Turn :=
  {| tn_line := line; tn_err := err; tn_writeFails := false; tn_ctxDone := false; tn_readAt := clock.1; tn_endAt := clock.2 |}.
Definition steady_turns (clock : nat -> Z * Z) (ls : list string) (rest : string) : list Turn :=
  imap (fun i l => steady (clock i) l None) ls ++ [steady (clock (length ls)) rest (Some EOF)].
Definition turns_of (clock : nat -> Z * Z) (body : string) : list Turn :=
  let '(ls, rest) := read_lines body in steady_turns clock ls rest.

(** ** The answer *)

Section answer.
  Context {url_parser : UrlParse}.
  (** The bytes of an error body ([json.Encoder]). *)
  Variable render : string -> string -> string -> string.

(** The data and the status lines a trace writes. *)
Definition items (t : list PEffect) : list string :=
  omap (fun e => match e with PWrite d => Some d | PWriteError c d r => Some (render c d r) | _ => None end) t.
Definition codes (t : list PEffect) : list Z := omap (fun e => match e with PWriteHeader s => Some s | _ => None end) t.

(** [net/http] answers 200 when the handler wrote no status. *)
Definition status_of (t : list PEffect) : Z := default 200 (head (codes t)).
Definition body_of (t : list PEffect) : string := cat (items t).

Definition answers (t : list PEffect) (resp : Response) : Prop :=
  rp_status resp = status_of t /\ rp_body resp = body_of t /\ exists clock, rp_turns resp = turns_of clock (body_of t).

(** ** The relay of a complete body *)

(** The kinds of events of a trace. *)
Definition kinds (t : list Effect) : list string := omap (fun e => match e with Emit k _ _ _ _ => Some k | _ => None end) t.

Lemma kinds_app t u : kinds (t ++ u) = kinds t ++ kinds u.
Proof. apply omap_app. Qed.
Lemma kinds_emit g k a b c l : kinds (Gateway.emit g k a b c l) = if gw_emitter g then [k] else [].
Proof. unfold Gateway.emit. by destruct (gw_emitter g). Qed.
Lemma writes_emit g k a b c l : writes (Gateway.emit g k a b c l) = [].
Proof. unfold Gateway.emit. by destruct (gw_emitter g). Qed.

Lemma relay_steady g reqID routeID id start clock ls rest first ev by_ :
  exists t, relay_loop g reqID routeID id start (steady_turns clock ls rest) first ev by_ =
      (t, Some ("", true)) /\
    cat (writes t) = (cat ls +:+ rest)%stdpp /\
    (gw_emitter g = true -> exists pre, kinds t = pre ++ ["REQUEST_COMPLETED"%string] /\
       Forall (fun k => k = "FIRST_CLIENT_BYTE"%string) pre).
Proof.
  revert clock first ev by_. induction ls as [|l ls IH]; intros clock first ev by_.
  - unfold steady_turns. cbn [imap app length]. unfold relay_loop, steady. cbn [tn_line tn_err tn_writeFails tn_ctxDone].
    rewrite andb_false_r. eexists. split; [reflexivity|]. split.
    + rewrite !(proj1 (proj2 (views_app _ _))), writes_emit, app_nil_r.
      destruct (String.eqb_spec rest "") as [->|Hne]; cbn [negb andb]; [done|].
      destruct first; cbn [negb andb]; rewrite ?writes_emit; apply sapp_nil_r.
    + intros Hg. rewrite !kinds_app, !kinds_emit, Hg, app_assoc. eexists. split; [reflexivity|].
      destruct (negb (String.eqb rest "")), first; cbn; rewrite ?kinds_emit, ?Hg; repeat constructor.
  - change (steady_turns clock (l :: ls) rest) with (steady (clock 0%nat) l None :: steady_turns (clock ∘ S) ls rest).
    specialize (IH (clock ∘ S)). generalize dependent (steady_turns (clock ∘ S) ls rest). intros tl IH. cbn [relay_loop].
    unfold steady. cbn [tn_line tn_err tn_writeFails tn_ctxDone].
    rewrite andb_false_r.
    match goal with |- context [ relay_loop _ _ _ _ _ _ ?a ?b ?c ] =>
      destruct (IH a b c) as (t & -> & Hw & Hk) end.
    eexists. split; [reflexivity|]. split.
    + rewrite !(proj1 (proj2 (views_app _ _))), !cat_app, Hw. cbn [cat]. rewrite <- sapp_assoc.
      destruct (String.eqb_spec l "") as [->|Hne]; cbn [negb andb]; [done|].
      destruct first; cbn [negb andb]; rewrite ?writes_emit;
        try change (writes []) with (@nil string); change (writes [Write l; Flush]) with [l];
        cbn [cat]; rewrite (sapp_nil_r l); done.
    + intros Hg. destruct (Hk Hg) as (pre & Hpre & Hall). rewrite !kinds_app, Hpre, !app_assoc.
      eexists. split; [reflexivity|]. apply Forall_app. split; [|done].
      destruct (negb (String.eqb l "")), first; cbn; rewrite ?kinds_emit, ?Hg; repeat constructor.
Qed.

(** ** What the sidecar's trace amounts to *)

Lemma items_app t u : items (t ++ u) = items t ++ items u.
Proof. apply omap_app. Qed.
Lemma codes_app t u : codes (t ++ u) = codes t ++ codes u.
Proof. apply omap_app. Qed.
Lemma views_emit p k a b l : items (Proxy.emit p k a b l) = [] /\ codes (Proxy.emit p k a b l) = [].
Proof. unfold Proxy.emit. by destruct (px_sink p). Qed.

(** A trace without a status line or data. *)
Definition mute (t : list PEffect) : Prop := items t = [] /\ codes t = [].

Lemma mute_app t u : mute t -> mute u -> mute (t ++ u).
Proof. unfold mute. rewrite items_app, codes_app. by intros [-> ->] [-> ->]. Qed.
Lemma mute_emit p k a b l : mute (Proxy.emit p k a b l).
Proof. apply views_emit. Qed.
Lemma mute_cons e t : mute [e] -> mute t -> mute (e :: t).
Proof. apply (mute_app [e]). Qed.
Lemma mute_if (b : bool) t u : mute t -> mute u -> mute (if b then t else u).
Proof. by destruct b. Qed.

Lemma loop_views p reqID routeID dm turns first saw ev by_ :
  let t := fst (stream_loop p reqID routeID dm turns first saw ev by_) in items t = p_writes t /\ codes t = [].
Proof.
  assert (H : Forall (fun e => match e with PWriteHeader _ | PWriteError _ _ _ => False | _ => True end)
    (fst (stream_loop p reqID routeID dm turns first saw ev by_))) by (by apply stream_loop_Forall).
  cbv zeta. induction H as [|e t He _ [IH1 IH2]]; [done|]. unfold items, codes, p_writes in *.
  destruct e; try done; cbn; by rewrite ?IH1, ?IH2.
Qed.

(** [loop] within a trace, preceded by the status lines [cs] and no data and followed by neither. *)
Definition around (cs : list Z) (loop t : list PEffect) : Prop :=
  exists a c, t = a ++ loop ++ c /\ items a = [] /\ codes a = cs /\ mute c.

Lemma around_l cs loop u t : mute u -> around cs loop t -> around cs loop (u ++ t).
Proof.
  intros [H1 H2] (a & c & -> & Ha & Hc & Hm). exists (u ++ a), c.
  split; [by rewrite app_assoc|]. by rewrite items_app, codes_app, H1, H2.
Qed.
Lemma around_r cs loop u t : mute u -> around cs loop t -> around cs loop (t ++ u).
Proof.
  intros Hu (a & c & -> & Ha & Hc & Hm). exists a, (c ++ u).
  split; [by rewrite <- !app_assoc|]. split_and!; [done..|by apply mute_app].
Qed.

Lemma around_stream p reqID routeID dm body resp : pr_status resp = 200 ->
  around [200] (fst (stream_loop p reqID routeID dm (pr_turns resp) false false 0 0))
    (fst (relayStream p reqID routeID dm body true (inr resp))).
Proof.
  intros Hs. unfold relayStream. rewrite Hs. cbn [negb Z.eqb Pos.eqb].
  destruct (stream_loop p reqID routeID dm (pr_turns resp) false false 0 0) as [loop o]. cbn [fst].
  rewrite <- app_assoc. apply (around_l _ _ [_]); [done|]. apply around_l; [apply mute_emit|].
  eexists _, _. split; [reflexivity|]. by destruct o.
Qed.

Lemma around_work p k n len out cs loop tr e :
  around cs loop tr -> around cs loop (fst (with_work p k n len out (tr, e))).
Proof.
  intros H. unfold with_work. destruct (px_work p); [|done].
  destruct (if negb _ then _ else _) as [m c]. destruct (reservation len m out c) as [a b]. cbn [fst].
  apply around_l; [done|]. apply around_r; [by destruct e|done].
Qed.

(** The trace of a dispatched stream around its relay loop. *)
Lemma chat_stream sha256 p r env resp :
  reaches r env = true -> streams r = true -> se_flushable env = true -> se_up env = inr resp ->
  pr_status resp = 200 ->
  exists reqID routeID,
    around [200] (fst (stream_loop p reqID routeID (se_dispatchMono env) (pr_turns resp) false false 0 0))
      (fst (Proxy.ChatCompletions sha256 p r env)).
Proof.
  intros Hre Hst Hfl Hup Hs. unfold Proxy.ChatCompletions. unfold reaches, streams in *.
  destruct (extractAndStripPrefixHeaders _ _ _ _) as [[k n] h].
  destruct (sr_body r) as [|raw]; [done|]. destruct (se_admit env); [done|]. destruct (se_wait env); [done|].
  set (reqID := orGenerate _ "req" _). set (routeID := orGenerate _ "rt" _).
  exists reqID, routeID. unfold dispatched. rewrite Hst, Hfl, Hup.
  set (obs := if _ && _ then _ else _).
  assert (Ho : mute obs) by (subst obs; repeat apply mute_if; done). clearbody obs.
  pose proof (around_stream p reqID routeID (se_dispatchMono env) (limit_body raw) resp Hs) as Ha.
  destruct (relayStream p reqID routeID (se_dispatchMono env) (limit_body raw) true (inr resp)) as [tr e].
  apply (around_work p k n (estimateInputTokens (limit_body raw)) (expectedOutputTokens (limit_body raw)) _ _ _ e) in Ha.
  destruct (with_work _ _ _ _ _ _) as [tr' e']. cbn [fst] in *.
  apply around_l; [apply mute_app; [apply mute_app; [apply mute_emit|done]|apply mute_emit]|].
  apply around_l; [apply mute_emit|]. apply around_l; [done|]. apply (around_l _ _ [_]); [done|].
  apply around_l; [apply mute_emit|done].
Qed.

Lemma around_elem cs loop t e : around cs loop t -> e ∈ loop -> e ∈ t.
Proof. intros (a & c & -> & _) He. rewrite !elem_of_app. tauto. Qed.

(** What the router makes of such a trace: a complete answer, whatever ended the loop. *)
Lemma forward_stream sha256 p r env resp answer g client b body reqID routeID start :
  url_parses (chat_url b) = true -> reaches r env = true -> streams r = true -> se_flushable env = true -> se_up env = inr resp ->
  pr_status resp = 200 ->
  answers (fst (Proxy.ChatCompletions sha256 p r env)) answer ->
  exists reqID' routeID' t,
    let loop := fst (stream_loop p reqID' routeID' (se_dispatchMono env) (pr_turns resp) false false 0 0) in
    forward g client b body reqID routeID true true start (inr answer) = (t, FwReturned "" true) /\
    cat (writes t) = cat (p_writes loop) /\
    (forall e, e ∈ loop -> e ∈ fst (Proxy.ChatCompletions sha256 p r env)) /\
    (gw_emitter g = true -> exists pre, kinds t = pre ++ ["REQUEST_COMPLETED"%string] /\
       Forall (fun k => k = "FIRST_CLIENT_BYTE"%string) pre).
Proof.
  intros Hu Hre Hst Hfl Hup Hs (A1 & A2 & (clock & A3)).
  destruct (chat_stream sha256 p r env resp Hre Hst Hfl Hup Hs) as (q & q' & Har).
  pose proof (fun e => around_elem _ _ _ e Har) as Hin. destruct Har as (a & c & E & Ha & Hc & [Hm1 Hm2]).
  exists q, q'. destruct (loop_views p q q' (se_dispatchMono env) (pr_turns resp) false false 0 0) as [L1 L2].
  set (loop := fst (stream_loop _ _ _ _ _ _ _ _ _)) in *.
  assert (Hbody : body_of (fst (Proxy.ChatCompletions sha256 p r env)) = cat (p_writes loop)).
  { unfold body_of. by rewrite E, !items_app, Ha, Hm1, L1, app_nil_r. }
  assert (Hstatus : status_of (fst (Proxy.ChatCompletions sha256 p r env)) = 200).
  { unfold status_of. by rewrite E, !codes_app, Hc. }
  unfold forward. rewrite Hu, A1, Hstatus, A3, Hbody. cbn [Z.eqb Pos.eqb orb negb].
  unfold turns_of. pose proof (read_lines_cat (cat (p_writes loop))) as Hcat.
  destruct (read_lines _) as [ls rest].
  destruct (relay_steady g reqID routeID (id_of b) start clock ls rest false 0 0) as (t & -> & Hw & Hk).
  eexists. split; [reflexivity|]. split.
  - rewrite !(proj1 (proj2 (views_app _ _))). cbn [app]. unfold writes in *. cbn. by rewrite Hw.
  - split; [exact Hin|]. intros Hg. destruct (Hk Hg) as (pre & Hp & Hall). exists pre. split; [|done].
    rewrite !kinds_app. unfold kinds in *. cbn. exact Hp.
Qed.

(** The request the sidecar receives from the router's client: the headers and the body of the [Send]. *)
Definition arrives (client : Headers) (b : BackendState) (body reqID routeID : string) (now now' : Z) : SidecarRequest :=
  {| sr_header := forward_headers reqID routeID (id_of b) client; sr_body := inr body; sr_now := now; sr_now' := now' |}.

Lemma arrives_reaches client b body reqID routeID now now' env :
  se_admit env = None -> se_wait env = None -> reaches (arrives client b body reqID routeID now now') env = true.
Proof. intros H1 H2. unfold reaches, arrives. cbn [sr_body]. by rewrite H1, H2. Qed.

Lemma limit_body_id body : slen body <= 2 ^ 24 -> limit_body body = body.
Proof. intros H. unfold limit_body. by rewrite (proj2 (Z.leb_le _ _)). Qed.

(** The router's and the sidecar's probes are the same function. *)
Lemma arrives_streams client b body reqID routeID now now' :
  slen body <= 2 ^ 24 -> Gateway.detectStream body = true -> streams (arrives client b body reqID routeID now now') = true.
Proof. intros Hl H. unfold streams, arrives. cbn [sr_body]. by rewrite limit_body_id. Qed.

Lemma first_stop_unique (pre pre' post post' : list PTurn) t t' :
  pre ++ t :: post = pre' ++ t' :: post' ->
  Forall (fun t => stops t = false) pre -> stops t = true ->
  Forall (fun t => stops t = false) pre' -> stops t' = true -> pre = pre' /\ t = t'.
Proof.
  revert pre'. induction pre as [|u pre IH]; intros [|u' pre'] He H1 H2 H3 H4; cbn in *; simplify_eq.
  - done.
  - apply Forall_cons in H3 as [H3 _]. congruence.
  - apply Forall_cons in H1 as [H1 _]. congruence.
  - apply Forall_cons in H1 as [_ H1]. apply Forall_cons in H3 as [_ H3].
    match goal with H : pre ++ _ = _ |- _ => destruct (IH pre' H H1 H2 H3 H4) as [-> ->] end. done.
Qed.

(** The lines read before the end are relayed unchanged. *)
Lemma relayed_cat turns : Forall (fun t => filled t && pt_writeFails t = false) turns ->
  cat (relayed_all turns) = cat (map pt_line turns).
Proof.
  induction 1 as [|t turns Ht _ IH]; [done|]. cbn [relayed_all flat_map map cat].
  change (flat_map relayed turns) with (relayed_all turns). rewrite cat_app, IH. f_equal.
  unfold relayed, filled in *. destruct (String.eqb_spec (pt_line t) "") as [->|]; cbn [negb andb] in *; [done|].
  rewrite Ht. apply sapp_nil_r.
Qed.

(** The loop on turns whose first stop is known. *)
Lemma loop_ends p reqID routeID dm pre t post :
  Forall (fun t => stops t = false) pre -> stops t = true -> filled t && pt_writeFails t = false ->
  let loop := fst (stream_loop p reqID routeID dm (pre ++ t :: post) false false 0 0) in
  cat (p_writes loop) = cat (map pt_line (pre ++ [t])) /\
  let '(s, why) := classify t (bool_decide (p_writes loop = [])) in PDone s why ∈ loop.
Proof.
  intros Hpre Ht Hw. pose proof (stream_spec p reqID routeID dm (pre ++ t :: post) false false 0 0) as Hs.
  pose proof (leaves_stream_loop p reqID routeID dm (pre ++ t :: post) false false 0 0) as Hl.
  destruct (stream_loop p reqID routeID dm (pre ++ t :: post) false false 0 0) as [loop r]. cbn [fst].
  destruct r as [o|].
  2: { destruct Hs as [Hs _]. rewrite Forall_app, Forall_cons in Hs. destruct Hs as (_ & Hs & _). congruence. }
  destruct Hs as (pre' & t' & post' & He & H1 & H2 & H3 & H4).
  destruct (first_stop_unique _ _ _ _ _ _ He Hpre Ht H1 H2) as [<- <-]. split.
  - rewrite H3. apply relayed_cat. rewrite Forall_app. split; [|by repeat constructor].
    eapply Forall_impl; [exact Hpre|]. intros x Hx. unfold stops in Hx. apply orb_false_iff in Hx as [Hx _].
    by apply orb_false_iff in Hx as [Hx _].
  - cbn [negb andb] in H4. rewrite <- H4. destruct o as [s why].
    assert (Hin : PDone s why ∈ leaves loop) by (rewrite Hl; by left).
    by apply list_elem_of_In, List.filter_In in Hin as [Hin%list_elem_of_In _].
Qed.

End answer.

(** ** The properties *)

Section properties.
  Context {url_parser : UrlParse}.
  Variable render : string -> string -> string -> string.
  Variable sha256 : string -> list Z.

(** C22: what the router retries on, and that a refusal of the sidecar is part of it.  An attempt ends with nothing
    sent to the client and a retry reason exactly when there was no answer, the answer had status 429 or 503 (whether
    the sidecar refused or relayed that status from its model server), or the stream could not be relayed or broke
    before its first byte while the client was there.  A request the sidecar refuses at admission, or whose wait in its
    queue fails while the client is there, is answered with 429 or 503: so the attempt sends the request, writes nothing
    to the client, and ends with the retry reason of that status. *)
Theorem rejection_rerouted p r env err answer g client b body reqID routeID stream flushable start
    (Hsent : url_parses (chat_url b) = true) (Hbody : body_read r = true)
    (Hrefused : se_admit env = Some err \/ se_admit env = None /\ se_wait env = Some err /\ err <> ErrCancelled)
    (Hans : answers render (fst (Proxy.ChatCompletions sha256 p r env)) answer) :
  (forall up, (exists reason, snd (forward g client b body reqID routeID stream flushable start up) = FwReturned reason false) <->
     retried stream flushable up = true) /\
  exists status, (status = 429 \/ status = 503) /\
    forward g client b body reqID routeID stream flushable start (inr answer) =
      ([Send (chat_url b) (forward_headers reqID routeID (id_of b) client) body (id_of b)],
       FwReturned ("sidecar_reject_" +:+ itoa status)%stdpp false).
Proof.
  split; [intros up; by apply retried_iff|].
  destruct Hans as (A1 & _ & _). exists (rp_status answer).
  assert (Hst : rp_status answer = 429 \/ rp_status answer = 503).
  { rewrite A1. unfold status_of. clear A1. unfold Proxy.ChatCompletions, body_read in *.
    destruct (extractAndStripPrefixHeaders _ _ _ _) as [[k n] h]. destruct (sr_body r); [done|].
    destruct Hrefused as [->|(-> & -> & Hne)].
    - unfold Proxy.emit, writeErr. destruct err, (px_sink p); ((by left) || by right).
    - right. unfold Proxy.emit, writeErr. destruct err; try done; by destruct (px_sink p). }
  split; [done|]. unfold forward. rewrite Hsent. by destruct Hst as [-> | ->].
Qed.

(** C23: a body that asks for a stream, sent by the router to a sidecar that admits it, and answered by the
    model server with a stream that ends cleanly: both hops read the same wish out of the body, the stream
    reaches the client byte for byte through both relays, is recorded as COMPLETED by the sidecar and as
    REQUEST_COMPLETED by the router. *)
Theorem stream_end_to_end p env resp pre t post answer g client b body reqID routeID start now now'
    (r := arrives client b body reqID routeID now now') (Hsent : url_parses (chat_url b) = true)
    (Hadmit : se_admit env = None) (Hwait : se_wait env = None) (Hlen : slen body <= 2 ^ 24)
    (Hstream : Gateway.detectStream body = true) (Hfl : se_flushable env = true)
    (Hup : se_up env = inr resp) (Hst : pr_status resp = 200) (Hturns : pr_turns resp = pre ++ t :: post)
    (Hpre : Forall (fun t => stops t = false) pre) (Hw : filled t && pt_writeFails t = false)
    (Heof : pt_err t = Some PEOF)
    (Hans : answers render (fst (Proxy.ChatCompletions sha256 p r env)) answer) :
  PDone StateCompleted "stream_ok" ∈ fst (Proxy.ChatCompletions sha256 p r env) /\
  exists tr, forward g client b body reqID routeID (Gateway.detectStream body) true start (inr answer) = (tr, FwReturned "" true) /\
    cat (writes tr) = cat (map pt_line (pre ++ [t])) /\
    (gw_emitter g = true -> last (kinds tr) = Some "REQUEST_COMPLETED"%string).
Proof.
  rewrite Hstream.
  destruct (forward_stream render sha256 p r env resp answer g client b body reqID routeID start Hsent (arrives_reaches _ _ _ _ _ _ _ _ Hadmit Hwait)
    (arrives_streams _ _ _ _ _ _ _ Hlen Hstream) Hfl Hup Hst Hans)
    as (q & q' & tr & Hf & Hwr & Hin & Hk).
  rewrite Hturns in Hwr, Hin. assert (Hstop : stops t = true) by (unfold stops; by rewrite Heof, orb_true_r).
  destruct (loop_ends p q q' (se_dispatchMono env) pre t post Hpre Hstop Hw) as [Hc Hd]. unfold classify in Hd. rewrite Hw, Heof in Hd.
  split; [by apply Hin|]. exists tr. split; [done|]. split; [by rewrite Hwr|].
  intros Hg. destruct (Hk Hg) as (ks & -> & _). by rewrite last_snoc.
Qed.

(** A stream that breaks at the model server looks complete to the router.  The sidecar records
    UPSTREAM_FAILED or PARTIAL_STREAM, but it has sent status 200 and ends its answer regularly: the
    router neither retries, even when no byte was relayed, nor records a partial failure; it reports
    REQUEST_COMPLETED, and the client gets the truncated stream as a whole one. *)
Theorem truncation_unseen p env resp pre t post msg answer g client b body reqID routeID start now now'
    (r := arrives client b body reqID routeID now now') (Hsent : url_parses (chat_url b) = true)
    (Hadmit : se_admit env = None) (Hwait : se_wait env = None) (Hlen : slen body <= 2 ^ 24)
    (Hstream : Gateway.detectStream body = true) (Hfl : se_flushable env = true)
    (Hup : se_up env = inr resp) (Hst : pr_status resp = 200) (Hturns : pr_turns resp = pre ++ t :: post)
    (Hpre : Forall (fun t => stops t = false) pre) (Hw : filled t && pt_writeFails t = false)
    (Herr : pt_err t = Some (PReadFailed msg false)) (Hctx : pt_ctxDone t = false)
    (Hans : answers render (fst (Proxy.ChatCompletions sha256 p r env)) answer) :
  (PDone StateUpstreamFail "upstream_err_pre_first_event" ∈ fst (Proxy.ChatCompletions sha256 p r env) \/
   PDone StatePartialStream "upstream_err_mid_stream" ∈ fst (Proxy.ChatCompletions sha256 p r env)) /\
  exists tr, forward g client b body reqID routeID (Gateway.detectStream body) true start (inr answer) = (tr, FwReturned "" true) /\
    cat (writes tr) = cat (map pt_line (pre ++ [t])) /\
    (gw_emitter g = true -> last (kinds tr) = Some "REQUEST_COMPLETED"%string /\
       "PARTIAL_STREAM_FAILED"%string ∉ kinds tr).
Proof.
  rewrite Hstream.
  destruct (forward_stream render sha256 p r env resp answer g client b body reqID routeID start Hsent (arrives_reaches _ _ _ _ _ _ _ _ Hadmit Hwait)
    (arrives_streams _ _ _ _ _ _ _ Hlen Hstream) Hfl Hup Hst Hans)
    as (q & q' & tr & Hf & Hwr & Hin & Hk).
  rewrite Hturns in Hwr, Hin. assert (Hstop : stops t = true) by (unfold stops; by rewrite Herr, orb_true_r).
  destruct (loop_ends p q q' (se_dispatchMono env) pre t post Hpre Hstop Hw) as [Hc Hd]. unfold classify in Hd. rewrite Hw, Herr, Hctx in Hd.
  cbn [orb] in Hd. split; [destruct (bool_decide _); [left|right]; by apply Hin|].
  exists tr. split; [done|]. split; [by rewrite Hwr|].
  intros Hg. destruct (Hk Hg) as (ks & -> & Hall). split; [by rewrite last_snoc|].
  rewrite elem_of_app, list_elem_of_singleton. intros [Hel|[=]]. rewrite Forall_forall in Hall.
  by apply Hall in Hel.
Qed.
End properties.

(** ** Concrete runs *)

#[local] Existing Instance control_free.

Definition demo_proxy : Proxy := {| px_cfg := DefaultProxyConfig; px_sink := true; px_cacheObs := true; px_work := true |}.
Definition demo_backend : BackendState := sample_backend "a" 3 (f64_of_Z 2) "READY".
Definition demo_body : string :=
  ("{" +:+ dquoted "stream" +:+ ":true," +:+ dquoted "prompt" +:+ ":" +:+ dquoted "hello world" +:+ "," +:+
   dquoted "max_tokens" +:+ ":16}")%stdpp.
Definition demo_request : SidecarRequest :=
  arrives ∅ demo_backend demo_body "r" "r.a0" 1 2.
Definition demo_turn (line : string) (err : option PReadErr) : PTurn :=
  {| pt_line := line; pt_err := err; pt_writeFails := false; pt_ctxDone := false; pt_now := 5 * millisecond; pt_mono := 4 * millisecond |}.
Definition demo_env (turns : list PTurn) : SidecarEnv :=
  {| se_admit := None; se_wait := None; se_enqueuedMono := 1; se_dispatchMono := 2; se_flushable := true;
     se_up := inr {| pr_status := 200; pr_header := []; pr_body := ""; pr_turns := turns; pr_connStart := 3; pr_connAt := 4 |} |}.
Definition demo_refused : SidecarEnv :=
  {| se_admit := Some ErrQueueFull; se_wait := None; se_enqueuedMono := 1; se_dispatchMono := 2; se_flushable := true; se_up := inl (false, ""%string) |}.
Definition demo_render (code detail reqID : string) : string := code.
Definition demo_answer (env : SidecarEnv) : Response :=
  let t := fst (Proxy.ChatCompletions (fun _ => []) demo_proxy demo_request env) in
  {| rp_status := status_of t; rp_header := []; rp_body := body_of demo_render t;
     rp_turns := turns_of (fun i => (Z.of_nat i, 9)) (body_of demo_render t); rp_firstAt := 0; rp_doneAt := 0 |}.

Lemma demo_answers env :
  answers demo_render (fst (Proxy.ChatCompletions (fun _ => []) demo_proxy demo_request env)) (demo_answer env).
Proof. split_and!; [done..|by eexists]. Qed.

Definition demo_line : string := ("data: one" +:+ String newline "")%stdpp.
Definition demo_clean : list PTurn := [demo_turn demo_line None; demo_turn "data: [DONE]" (Some PEOF)].
Definition demo_broken : list PTurn := [demo_turn demo_line None; demo_turn "data: tw" (Some (PReadFailed "reset" false))].

Lemma rejection_rerouted_witness :
  exists status, (status = 429 \/ status = 503) /\
    snd (forward (NewGateway true 1) ∅ demo_backend demo_body "r" "r.a0" true true 0 (inr (demo_answer demo_refused))) =
      FwReturned ("sidecar_reject_" +:+ itoa status)%stdpp false.
Proof.
  destruct (rejection_rerouted demo_render (fun _ => []) demo_proxy demo_request demo_refused ErrQueueFull
    (demo_answer demo_refused) (NewGateway true 1) ∅ demo_backend demo_body "r" "r.a0" true true 0 eq_refl eq_refl (or_introl eq_refl)
    (demo_answers _)) as (_ & st & Hst & ->).
  by exists st.
Defined.

Lemma stream_end_to_end_witness :
  exists tr, forward (NewGateway true 1) ∅ demo_backend demo_body "r" "r.a0" true true 0 (inr (demo_answer (demo_env demo_clean))) =
      (tr, FwReturned "" true) /\
    cat (writes tr) = cat [demo_line; "data: [DONE]"%string].
Proof.
  destruct (stream_end_to_end demo_render (fun _ => []) demo_proxy (demo_env demo_clean) _
    [demo_turn demo_line None] (demo_turn "data: [DONE]" (Some PEOF)) [] (demo_answer (demo_env demo_clean))
    (NewGateway true 1) ∅ demo_backend demo_body "r" "r.a0" 0 1 2 eq_refl eq_refl eq_refl ltac:(by vm_compute) eq_refl eq_refl eq_refl eq_refl eq_refl
    ltac:(repeat constructor) eq_refl eq_refl (demo_answers _)) as (_ & tr & H1 & H2 & _).
  exists tr. split; [exact H1|exact H2].
Defined.

Lemma truncation_unseen_witness :
  exists tr, forward (NewGateway true 1) ∅ demo_backend demo_body "r" "r.a0" true true 0 (inr (demo_answer (demo_env demo_broken))) =
      (tr, FwReturned "" true) /\
    cat (writes tr) = cat [demo_line; "data: tw"%string] /\ "PARTIAL_STREAM_FAILED"%string ∉ kinds tr.
Proof.
  destruct (truncation_unseen demo_render (fun _ => []) demo_proxy (demo_env demo_broken) _
    [demo_turn demo_line None] (demo_turn "data: tw" (Some (PReadFailed "reset" false))) [] "reset"
    (demo_answer (demo_env demo_broken))
    (NewGateway true 1) ∅ demo_backend demo_body "r" "r.a0" 0 1 2 eq_refl eq_refl eq_refl ltac:(by vm_compute) eq_refl eq_refl eq_refl eq_refl eq_refl
    ltac:(repeat constructor) eq_refl eq_refl eq_refl (demo_answers _)) as (_ & tr & H1 & H2 & H3).
  exists tr. split; [exact H1|]. split; [exact H2|]. exact (proj2 (H3 eq_refl)).
Defined.
