(* ===== verification/PromText.v ===== *)
(** * The Prometheus text parser ([internal/runtime/vllm/prometheus_parser.go])

    Lines, labels, sums and the median of a histogram, from the text of a scrape; and the inverse of
    the parser, a printer of samples. *)

From Stdlib Require Import Floats.SpecFloat Strings.Ascii.
From stdpp Require Import base tactics numbers option list strings gmap sorting.
From S2P Require Import Prelude Ordering GoFloat GoText GoStrconv.

Record promSample := { ps_Name : string; ps_Labels : gmap string string; ps_Value : f64 }.

Definition quote : ascii := ascii_of_nat 34.

(** ** Labels

    The loop state: the two builders, [inVal], [inQuote] and the map. *)
Definition flush (key val : string) (m : gmap string string) : gmap string string :=
  let k := TrimSpace key in if negb (String.eqb k "") then <[k := val]> m else m.

Definition push (s : string) (c : ascii) : string := (s +:+ String c "")%stdpp.

Fixpoint labels_from (s key val : string) (inVal inQuote : bool) (m : gmap string string) : gmap string string :=
  match s with
  | EmptyString => flush key val m
  | String c s =>
      if Ascii.eqb c quote then labels_from s key val inVal (negb inQuote) m
      else if Ascii.eqb c "=" && negb inQuote && negb inVal then labels_from s key val true inQuote m
      else if Ascii.eqb c "," && negb inQuote then labels_from s "" "" false inQuote (flush key val m)
      else if inVal then labels_from s key (push val c) inVal inQuote m
      else labels_from s (push key c) val inVal inQuote m
  end.
Definition parseLabels (s : string) : gmap string string := labels_from s "" "" false false ∅.

(** ** Lines *)

Definition name_end (c : ascii) : bool := Ascii.eqb c "{" || Ascii.eqb c " ".

Definition parse_value (name : string) (labels : gmap string string) (rest : string) : option promSample :=
  match Fields rest with
  | [] => None
  | f :: _ =>
      v ← ParseFloat f; Some {| ps_Name := name; ps_Labels := labels; ps_Value := v |}
  end.

Definition parseLine (line : string) : option promSample :=
  let '(name, rest) := default (line, ""%string) (cut_at name_end line) in
  let name := TrimSpace name in
  if String.eqb name "" then None
  else
    let rest := TrimSpace rest in
    match rest with
    | String "{" _ =>
        match cut_at (fun c => Ascii.eqb c "}") rest with
        | Some (String _ inside, String _ after) => parse_value name (parseLabels inside) (TrimSpace after)
        | _ => None
        end
    | _ => parse_value name ∅ rest
    end.

(** The scanner's buffer. *)
Definition max_line : Z := 4 * 1024 * 1024.

Definition parse_raw (raw : string) : option promSample :=
  let line := TrimSpace raw in
  if String.eqb line "" || HasPrefix line "#" then None else parseLine line.

Definition parsePrometheus (text : string) : list promSample := omap parse_raw (scan_lines max_line text).

(** ** Queries *)

Definition sumByName (samples : list promSample) (name : string) : f64 * bool :=
  fold_left (fun '(sum, found) s =>
    if String.eqb s.(ps_Name) name then (f64_add sum s.(ps_Value), true) else (sum, found))
    samples (f64_zero, false).

Definition firstByName (samples : list promSample) (name : string) : f64 * bool :=
  match List.find (fun s => String.eqb s.(ps_Name) name) samples with
  | Some s => (s.(ps_Value), true)
  | None => (f64_zero, false)
  end.

(** ** Histograms *)

Record bucket := { bk_le : f64; bk_count : f64 }.

Definition inf_le : f64 := f64_of_Z (10 ^ 18).

Definition bucket_of (name : string) (s : promSample) : option bucket :=
  if negb (String.eqb s.(ps_Name) (name +:+ "_bucket")%stdpp) then None
  else
    leStr ← s.(ps_Labels) !! "le"%string;
    le ← (if String.eqb leStr "+Inf" then Some inf_le else ParseFloat leStr);
    Some {| bk_le := le; bk_count := s.(ps_Value) |}.

(** The inner loop of the sort: the head swaps with every smaller element it meets. *)
Fixpoint sort_pass (x : bucket) (l : list bucket) : bucket * list bucket :=
  match l with
  | [] => (x, [])
  | y :: l =>
      if f64_ltb y.(bk_le) x.(bk_le)
      then let '(m, r) := sort_pass y l in (m, x :: r)
      else let '(m, r) := sort_pass x l in (m, y :: r)
  end.

(** The outer loop; [n] is the length of the list. *)
Fixpoint exchange_sort (n : nat) (l : list bucket) : list bucket :=
  match n, l with
  | S n, x :: l => let '(m, r) := sort_pass x l in m :: exchange_sort n r
  | _, _ => l
  end.

Definition max_count (l : list bucket) : f64 :=
  fold_left (fun t b => if f64_ltb t b.(bk_count) then b.(bk_count) else t) l f64_zero.

Definition last_le (l : list bucket) : f64 := match last l with Some b => b.(bk_le) | None => f64_zero end.

Definition histogramQuantile (samples : list promSample) (name : string) (q : f64) : f64 * bool :=
  let buckets := omap (bucket_of name) samples in
  match buckets with
  | [] => (f64_zero, false)
  | _ =>
      let total := max_count buckets in
      if f64_eqb total f64_zero then (f64_zero, false)
      else
        let buckets := exchange_sort (length buckets) buckets in
        let target := f64_mul q total in
        match List.find (fun b => f64_leb target b.(bk_count)) buckets with
        | Some b => if f64_leb inf_le b.(bk_le) then (last_le buckets, true) else (b.(bk_le), true)
        | None => (last_le buckets, true)
        end
  end.
(** ** Facts about the sort *)

Definition le_ltb (a b : bucket) : bool := f64_ltb a.(bk_le) b.(bk_le).
Definition le_number (b : bucket) : Prop := not_nan b.(bk_le).

Lemma sort_pass_perm x l : let '(m, r) := sort_pass x l in m :: r ≡ₚ x :: l.
Proof.
  revert x. induction l as [|y l IH]; intros x; [exact (Permutation_refl [x])|]. cbn [sort_pass].
  destruct (f64_ltb _ _).
  - specialize (IH y). destruct (sort_pass y l) as [m r]. by rewrite Permutation_swap, IH.
  - specialize (IH x). destruct (sort_pass x l) as [m r]. rewrite Permutation_swap, IH. apply Permutation_swap.
Qed.

Lemma sort_pass_min x l : le_number x -> Forall le_number l ->
  let '(m, r) := sort_pass x l in le_number m /\ Forall le_number r /\
    f64_leb (bk_le m) (bk_le x) = true /\ Forall (fun b => f64_leb (bk_le m) (bk_le b) = true) r.
Proof.
  revert x. induction l as [|y l IH]; intros x Hx Hl; cbn [sort_pass].
  { split_and!; [done|constructor|by apply f64_leb_refl|constructor]. }
  apply Forall_cons in Hl as [Hy Hl]. destruct (f64_ltb (bk_le y) (bk_le x)) eqn:E.
  - specialize (IH y Hy Hl). destruct (sort_pass y l) as [m r]. destruct IH as (H1 & H2 & H3 & H4).
    assert (f64_leb (bk_le m) (bk_le x) = true) by (eapply f64_leb_trans; [exact H3|by apply f64_ltb_leb]).
    split_and!; [done|by constructor|done|by constructor].
  - specialize (IH x Hx Hl). destruct (sort_pass x l) as [m r]. destruct IH as (H1 & H2 & H3 & H4).
    assert (f64_leb (bk_le x) (bk_le y) = true) by (by rewrite f64_leb_ltb, E by done).
    split_and!; [done|by constructor|done|]. constructor; [|done]. by eapply f64_leb_trans.
Qed.

Lemma exchange_sort_perm n l : exchange_sort n l ≡ₚ l.
Proof.
  revert l. induction n as [|n IH]; intros [|x l]; try done. cbn [exchange_sort].
  pose proof (sort_pass_perm x l) as H. destruct (sort_pass x l) as [m r]. by rewrite IH.
Qed.

Lemma exchange_sort_sorted n l : (length l <= n)%nat -> Forall le_number l ->
  StronglySorted (fun a b => f64_leb (bk_le a) (bk_le b) = true) (exchange_sort n l).
Proof.
  revert l. induction n as [|n IH]; intros [|x l] Hn Hl; cbn [length] in Hn; try constructor; try lia.
  cbn [exchange_sort]. apply Forall_cons in Hl as [Hx Hl].
  pose proof (sort_pass_min x l Hx Hl) as H. pose proof (sort_pass_perm x l) as Hp.
  destruct (sort_pass x l) as [m r]. destruct H as (H1 & H2 & H3 & H4).
  apply Permutation_length in Hp. cbn [length] in Hp.
  constructor; [apply IH; [lia|done]|]. by rewrite exchange_sort_perm.
Qed.

(** In a sorted list the first element that passes a test is the least that does. *)
Lemma find_least (p : bucket -> bool) l b :
  StronglySorted (fun a b => f64_leb (bk_le a) (bk_le b) = true) l -> Forall le_number l ->
  List.find p l = Some b ->
  b ∈ l /\ p b = true /\ forall c, c ∈ l -> p c = true -> f64_leb (bk_le b) (bk_le c) = true.
Proof.
  induction 1 as [|x l Hs IH Hx]; intros Hn Hf; [done|]. cbn in Hf. apply Forall_cons in Hn as [Hnx Hn].
  destruct (p x) eqn:Ep.
  - injection Hf as <-. split; [by left|]. split; [done|]. intros c [->|Hc]%elem_of_cons _; [by apply f64_leb_refl|].
    rewrite Forall_forall in Hx. by apply Hx.
  - destruct (IH Hn Hf) as (H1 & H2 & H3). split; [by right|]. split; [done|].
    intros c [->|Hc]%elem_of_cons Hp; [congruence|by apply H3].
Qed.

(** The last element of a sorted list is the greatest. *)
Lemma last_greatest l x :
  StronglySorted (fun a b => f64_leb (bk_le a) (bk_le b) = true) l -> Forall le_number l ->
  last l = Some x -> x ∈ l /\ forall c, c ∈ l -> f64_leb (bk_le c) (bk_le x) = true.
Proof.
  induction 1 as [|y l Hs IH Hy]; intros Hn Hl; [done|]. apply Forall_cons in Hn as [Hny Hn].
  destruct l as [|z l].
  - injection Hl as <-. split; [by left|]. intros c [->|Hc]%elem_of_cons; [by apply f64_leb_refl|].
    by apply not_elem_of_nil in Hc.
  - destruct (IH Hn Hl) as [H1 H2]. split; [by right|]. intros c [->|Hc]%elem_of_cons; [|by apply H2].
    rewrite Forall_forall in Hy. by apply Hy.
Qed.

(** A quantile of a histogram whose bounds are numbers up to +Inf (read as 1e18).  It is reported
    unless there is no bucket or no observation; it is then, in value, the least bound among the
    buckets whose count reaches [q * total], and the greatest bound when none does. *)
Lemma quantile_exact samples name q
    (Hle : Forall (fun b => le_number b /\ f64_leb (bk_le b) inf_le = true) (omap (bucket_of name) samples)) :
  let buckets := omap (bucket_of name) samples in
  let '(v, ok) := histogramQuantile samples name q in
  let reaches b := f64_leb (f64_mul q (max_count buckets)) (bk_count b) in
  (ok = true <-> buckets <> [] /\ f64_eqb (max_count buckets) f64_zero = false) /\
  (ok = true ->
    (exists b, b ∈ buckets /\ f64_eqb (bk_le b) v = true /\
       (reaches b = true \/ forall c, c ∈ buckets -> reaches c = false /\ f64_leb (bk_le c) v = true)) /\
    forall c, c ∈ buckets -> reaches c = true -> f64_leb v (bk_le c) = true).
Proof.
  cbv zeta. set (buckets := omap _ samples) in *. unfold histogramQuantile. fold buckets.
  destruct buckets as [|b0 bs] eqn:Eb; [split; [split; [done|by intros [? _]]|done]|]. rewrite <- Eb in *.
  assert (Hne : buckets <> []) by (by rewrite Eb). clear b0 bs Eb.
  destruct (f64_eqb (max_count buckets) f64_zero) eqn:Et; [split; [split; [done|by intros [_ ?]]|done]|].
  assert (Hnum : Forall le_number buckets) by (eapply Forall_impl; [exact Hle|]; by intros b [? _]).
  pose proof (exchange_sort_perm (length buckets) buckets) as Hp.
  pose proof (exchange_sort_sorted (length buckets) buckets ltac:(lia) Hnum) as Hs.
  set (sorted := exchange_sort _ _) in *. rewrite <- Hp in Hnum, Hle. clearbody sorted buckets.
  assert (Hiff : true = true <-> buckets <> [] /\ false = false) by exact (conj (fun _ => conj Hne eq_refl) (fun _ => eq_refl)).
  assert (Hin : forall b, b ∈ buckets <-> b ∈ sorted) by (intros b; by rewrite Hp).
  assert (Hlast : exists x, last sorted = Some x).
  { destruct (last sorted) eqn:E; [by eexists|]. apply last_None in E. rewrite E in Hp.
    by apply Permutation_nil in Hp. }
  destruct Hlast as [x Hx]. destruct (last_greatest _ _ Hs Hnum Hx) as [Hxin Hxmax].
  assert (Hlastv : last_le sorted = bk_le x) by (unfold last_le; by rewrite Hx).
  destruct (List.find _ sorted) as [b|] eqn:Ef.
  - destruct (find_least _ _ _ Hs Hnum Ef) as (Hb & Hr & Hmin).
    destruct (f64_leb inf_le (bk_le b)) eqn:Einf; (split; [exact Hiff|]); intros _.
    + rewrite Hlastv.
      assert (Hbx : f64_leb (bk_le x) (bk_le b) = true).
      { rewrite Forall_forall in Hle. destruct (Hle x Hxin) as [_ Hxi]. by eapply f64_leb_trans. }
      split.
      * exists b. split; [by apply Hin|]. split; [apply f64_leb_antisym; [by apply Hxmax|done]|by left].
      * intros c Hc Hrc. eapply f64_leb_trans; [exact Hbx|]. apply Hmin; [by apply Hin|done].
    + split.
      * exists b. split; [by apply Hin|]. rewrite Forall_forall in Hnum. split; [by apply f64_eqb_refl, Hnum|by left].
      * intros c Hc. apply Hmin. by apply Hin.
  - split; [exact Hiff|]. intros _. rewrite Hlastv.
    assert (Hnone : forall c, c ∈ buckets -> f64_leb (f64_mul q (max_count buckets)) (bk_count c) = false).
    { intros c Hc. apply (List.find_none _ _ Ef). by apply list_elem_of_In, Hin. }
    split; [|intros c Hc Hr; by rewrite Hnone in Hr].
    exists x. split; [by apply Hin|]. rewrite Forall_forall in Hnum. split; [by apply f64_eqb_refl, Hnum|].
    right. intros c Hc. split; [by apply Hnone|apply Hxmax; by apply Hin].
Qed.

(** The bucket is not the last one, +Inf. *)
Definition finite_bucket (b : bucket) : bool := negb (f64_leb inf_le (bk_le b)).

(** C34: a quantile of a histogram whose bounds are numbers up to +Inf (read as 1e18).  It is reported
    unless there is no bucket or no observation; and when it lies in a finite bucket, that is when the count of some
    finite bucket reaches [q * total], it is, in value, the least bound among the buckets whose count does, a finite
    one.  (A quantile that lies in the +Inf bucket is not covered: there the code does not do what its comment says.) *)
Theorem quantile_spec samples name q
    (Hle : Forall (fun b => le_number b /\ f64_leb (bk_le b) inf_le = true) (omap (bucket_of name) samples)) :
  let buckets := omap (bucket_of name) samples in
  let '(v, ok) := histogramQuantile samples name q in
  let reaches b := f64_leb (f64_mul q (max_count buckets)) (bk_count b) in
  (ok = true <-> buckets <> [] /\ f64_eqb (max_count buckets) f64_zero = false) /\
  (ok = true -> (exists b, b ∈ buckets /\ finite_bucket b = true /\ reaches b = true) ->
    (exists b, b ∈ buckets /\ f64_eqb (bk_le b) v = true /\ reaches b = true) /\ f64_leb inf_le v = false /\
    forall c, c ∈ buckets -> reaches c = true -> f64_leb v (bk_le c) = true).
Proof.
  pose proof (quantile_exact samples name q Hle) as H. cbv zeta in *.
  destruct (histogramQuantile samples name q) as [v ok]. destruct H as [Hok H]. split; [exact Hok|].
  intros Ho (f & Hf & Hfin & Hrf). destruct (H Ho) as [(b & Hb & Hv & Hcase) Hmin]. split; [|split].
  - exists b. split; [exact Hb|]. split; [exact Hv|]. destruct Hcase as [Hr|Hnone]; [exact Hr|].
    destruct (Hnone f Hf) as [Hn _]. congruence.
  - apply not_true_is_false. intros Hi. apply negb_true_iff in Hfin.
    pose proof (f64_leb_trans _ _ _ Hi (Hmin f Hf Hrf)). congruence.
  - exact Hmin.
Qed.

(** ** Rendered text

    A printed sample: its name, its labels in order, its value, all as text. *)
Record printed := { pt_name : string; pt_labels : list (string * string); pt_value : string }.

Definition render_label (kv : string * string) : string :=
  (fst kv +:+ "=" +:+ String quote (snd kv +:+ String quote ""))%stdpp.

Fixpoint render_labels (l : list (string * string)) : string :=
  match l with
  | [] => ""
  | [kv] => render_label kv
  | kv :: l => (render_label kv +:+ "," +:+ render_labels l)%stdpp
  end.

Definition render (p : printed) : string :=
  (pt_name p +:+ (match pt_labels p with [] => "" | l => "{" +:+ render_labels l +:+ "}" end) +:+ " " +:+
   pt_value p)%stdpp.

(** Printable ASCII and the space. *)
Definition text_byte (c : ascii) : bool := plain_byte c || Ascii.eqb c " ".

Definition name_byte (c : ascii) : bool := plain_byte c && negb (Ascii.eqb c "{").
Definition key_byte (c : ascii) : bool :=
  plain_byte c && negb (Ascii.eqb c quote) && negb (Ascii.eqb c "=") && negb (Ascii.eqb c ",") &&
  negb (Ascii.eqb c "}").
Definition value_byte (c : ascii) : bool :=
  text_byte c && negb (Ascii.eqb c quote) && negb (Ascii.eqb c "}").

Definition good_label (kv : string * string) : bool :=
  all_bytes key_byte (fst kv) && negb (String.eqb (fst kv) "") && all_bytes value_byte (snd kv).

Definition good (p : printed) : bool :=
  all_bytes name_byte (pt_name p) && negb (String.eqb (pt_name p) "") && negb (HasPrefix (pt_name p) "#") &&
  forallb good_label (pt_labels p) && all_bytes name_byte (pt_value p) && negb (String.eqb (pt_value p) "") &&
  (slength (render p) <? max_line).

(** The labels as a map: a repeated key keeps its last value. *)
Definition label_map (l : list (string * string)) : gmap string string :=
  fold_left (fun m '(k, v) => <[k := v]> m) l ∅.

(** *** Reading labels back *)

Lemma labels_value v key val rest m : all_bytes value_byte v = true ->
  labels_from (v +:+ rest)%stdpp key val true true m = labels_from rest key (val +:+ v)%stdpp true true m.
Proof.
  revert val. induction v as [|c v IH]; intros val.
  { intros _. by rewrite sapp_nil_r. }
  cbn [all_bytes]. intros [Hc Hv]%andb_true_iff. rewrite sapp_cons. cbn [labels_from].
  unfold value_byte in Hc. apply andb_true_iff in Hc as [[_ Hq%negb_true_iff]%andb_true_iff _].
  rewrite Hq. cbn [negb andb]. rewrite !andb_false_r. cbn [andb]. rewrite IH by done. unfold push.
  by rewrite <- sapp_assoc.
Qed.

Lemma labels_key k key val rest m : all_bytes key_byte k = true ->
  labels_from (k +:+ rest)%stdpp key val false false m = labels_from rest (key +:+ k)%stdpp val false false m.
Proof.
  revert key. induction k as [|c k IH]; intros key.
  { intros _. by rewrite sapp_nil_r. }
  cbn [all_bytes]. intros [Hc Hk]%andb_true_iff. rewrite sapp_cons. cbn [labels_from].
  unfold key_byte in Hc. apply andb_true_iff in Hc as [[[[_ H1]%andb_true_iff H2]%andb_true_iff H3]%andb_true_iff _].
  apply negb_true_iff in H1, H2, H3. rewrite H1, H2, H3. cbn [negb andb]. rewrite IH by done. unfold push.
  by rewrite <- sapp_assoc.
Qed.

Lemma key_plain k : all_bytes key_byte k = true -> plain k = true.
Proof. apply all_bytes_impl. intros c. unfold key_byte. rewrite !andb_true_iff. tauto. Qed.

Lemma labels_one kv rest m : good_label kv = true ->
  labels_from (render_label kv +:+ rest)%stdpp "" "" false false m =
    match rest with
    | EmptyString => <[fst kv := snd kv]> m
    | String c rest' => labels_from rest (fst kv) (snd kv) true false m
    end.
Proof.
  destruct kv as [k v]. unfold good_label, render_label. cbn [fst snd].
  intros [[Hk Hne%negb_true_iff]%andb_true_iff Hv]%andb_true_iff. rewrite <- !sapp_assoc.
  rewrite labels_key by done. change (String.append "" k) with k.
  change (String.append "=" ?x) with (String "=" x). rewrite !sapp_cons. cbn [labels_from].
  change (Ascii.eqb "=" quote) with false. change (Ascii.eqb "=" "=") with true. cbn [negb andb].
  change (Ascii.eqb quote quote) with true. rewrite <- sapp_assoc, labels_value by done.
  rewrite sapp_cons. cbn [labels_from]. change (Ascii.eqb quote quote) with true. cbn [negb].
  change (String.append "" v) with v. destruct rest as [|c rest]; [|done].
  change (labels_from _ k v true false m) with (flush k v m). unfold flush. rewrite TrimSpace_plain by (by apply key_plain). by rewrite Hne.
Qed.

Lemma parseLabels_rendered l : forallb good_label l = true -> l <> [] ->
  parseLabels (render_labels l) = label_map l.
Proof.
  unfold parseLabels, label_map. generalize (∅ : gmap string string).
  induction l as [|kv l IH]; [done|]. intros m. cbn [forallb]. intros [Hkv Hl]%andb_true_iff _.
  destruct l as [|kv' l].
  - cbn [render_labels fold_left]. rewrite <- (sapp_nil_r (render_label kv)), labels_one by done.
    by destruct kv.
  - change (render_labels (kv :: kv' :: l)) with (String.append (render_label kv) (String "," (render_labels (kv' :: l)))).
    rewrite labels_one by done. cbn [labels_from]. change (Ascii.eqb "," quote) with false.
    change (Ascii.eqb "," "=") with false. change (Ascii.eqb "," ",") with true. cbn [negb andb].
    rewrite IH by done. cbn [fold_left]. destruct kv as [k v]. unfold flush.
    unfold good_label in Hkv. cbn [fst snd] in *. apply andb_true_iff in Hkv as [[Hk Hne%negb_true_iff]%andb_true_iff _].
    rewrite TrimSpace_plain by (by apply key_plain). by rewrite Hne.
Qed.

(** *** Reading a line back *)

Lemma cut_at_app p s c rest : all_bytes (fun c => negb (p c)) s = true -> p c = true ->
  cut_at p (s +:+ String c rest)%stdpp = Some (s, String c rest).
Proof.
  induction s as [|d s IH]; cbn [all_bytes]; intros Hs Hc.
  - change (String.append "" (String c rest)) with (String c rest). cbn [cut_at]. by rewrite Hc.
  - apply andb_true_iff in Hs as [Hd%negb_true_iff Hs]. rewrite sapp_cons. cbn [cut_at]. rewrite Hd.
    by rewrite IH.
Qed.

Lemma text_space_width c s : text_byte c = true -> (space_width (String c s) <= 1)%nat.
Proof.
  unfold text_byte. intros [H|H%Ascii.eqb_eq]%orb_true_iff; [rewrite plain_width by done; lia|].
  subst. by change (space_width (String " " s)) with 1%nat.
Qed.

(** Text followed by a plain byte somewhere is not all space. *)
Lemma all_space_text s c t : all_bytes text_byte s = true -> plain_byte c = true ->
  all_space (s +:+ String c t)%stdpp = false.
Proof.
  unfold all_space. induction s as [|d s IH]; cbn [all_bytes]; intros Hs Hc.
  - by apply all_space_plain.
  - apply andb_true_iff in Hs as [Hd Hs]. rewrite sapp_cons. cbn [trim_left].
    pose proof (text_space_width d (s +:+ String c t)%stdpp Hd) as Hw.
    destruct (space_width _) as [|[|n]]; [done|by apply IH|lia].
Qed.

Lemma trim_right_text s t : all_bytes text_byte s = true -> plain t = true -> t <> ""%string ->
  trim_right (s +:+ t)%stdpp = (s +:+ t)%stdpp.
Proof.
  intros Hs Ht Hne. destruct t as [|c t]; [done|]. assert (Hc : plain_byte c = true).
  { unfold plain in Ht. cbn [all_bytes] in Ht. by apply andb_true_iff in Ht as [? _]. }
  induction s as [|d s IH]; [by apply trim_right_plain|].
  cbn [all_bytes] in Hs. apply andb_true_iff in Hs as [Hd Hs]. rewrite sapp_cons. cbn [trim_right].
  rewrite <- sapp_cons, all_space_text; [by rewrite IH|cbn [all_bytes]; by rewrite Hd|done].
Qed.

Lemma TrimSpace_text c s t : plain_byte c = true -> all_bytes text_byte s = true -> plain t = true -> t <> ""%string ->
  TrimSpace (String c s +:+ t)%stdpp = (String c s +:+ t)%stdpp.
Proof.
  intros Hc Hs Ht Hne. unfold TrimSpace. rewrite sapp_cons at 1. cbn [trim_left]. rewrite plain_width by done.
  rewrite <- sapp_cons. apply trim_right_text; [|done..]. cbn [all_bytes]. unfold text_byte at 1. by rewrite Hc.
Qed.

Lemma TrimSpace_led s : plain s = true -> TrimSpace (String " " s) = s.
Proof.
  intros H. unfold TrimSpace. change (trim_left (String " " s) 0) with (trim_left s 0).
  by rewrite trim_left_plain, trim_right_plain.
Qed.

(** *** A whole line *)

Lemma good_inv p : good p = true ->
  all_bytes name_byte (pt_name p) = true /\ (exists c s, pt_name p = String c s /\ plain_byte c = true /\ c <> "#"%char) /\
  forallb good_label (pt_labels p) = true /\ all_bytes name_byte (pt_value p) = true /\ pt_value p <> ""%string /\
  slength (render p) < max_line.
Proof.
  unfold good. rewrite !andb_true_iff, !negb_true_iff, Z.ltb_lt.
  intros ((((((H1 & H2) & H3) & H4) & H5) & H6) & H7). split_and!; try done.
  - destruct (pt_name p) as [|c s]; [done|]. exists c, s. split; [done|]. cbn [all_bytes] in H1.
    apply andb_true_iff in H1 as [Hc _]. unfold name_byte in Hc. apply andb_true_iff in Hc as [Hc _].
    split; [done|]. intros ->. unfold HasPrefix in H3. simpl in H3. by destruct s.
  - intros E. by rewrite E in H6.
Qed.

Lemma labels_text l : forallb good_label l = true ->
  all_bytes (fun c => text_byte c && negb (Ascii.eqb c "}")) (render_labels l) = true.
Proof.
  assert (Hone : forall kv, good_label kv = true ->
    all_bytes (fun c => text_byte c && negb (Ascii.eqb c "}")) (render_label kv) = true).
  { intros [k v]. unfold good_label, render_label. cbn [fst snd]. rewrite !andb_true_iff. intros ((Hk & _) & Hv).
    rewrite !all_bytes_app. change (all_bytes ?f (String quote ?s)) with (f quote && all_bytes f s).
    rewrite all_bytes_app. rewrite !andb_true_iff. split_and!; try done.
    - eapply all_bytes_impl; [|exact Hk]. intros c. unfold key_byte, text_byte. rewrite !andb_true_iff, orb_true_iff. tauto.
    - eapply all_bytes_impl; [|exact Hv]. intros c. unfold value_byte. rewrite !andb_true_iff. tauto. }
  induction l as [|kv l IH]; [done|]. cbn [forallb]. intros [Hkv Hl]%andb_true_iff.
  destruct l as [|kv' l]; [by apply Hone|].
  change (render_labels (kv :: kv' :: l)) with
    (String.append (render_label kv) (String.append "," (render_labels (kv' :: l)))).
  rewrite !all_bytes_app, Hone by done. by rewrite IH.
Qed.

Lemma plain_text s : plain s = true -> all_bytes text_byte s = true.
Proof. apply all_bytes_impl. intros c H. unfold text_byte. by rewrite H. Qed.

Lemma name_text s : all_bytes name_byte s = true -> plain s = true /\ all_bytes (fun c => negb (name_end c)) s = true.
Proof.
  intros H. split; (eapply all_bytes_impl; [|exact H]); intros c; unfold name_byte, name_end;
    rewrite andb_true_iff; [tauto|]. intros [Hp Hb]. rewrite negb_orb, Hb. cbn [andb].
  destruct (Ascii.eqb_spec c " "); [by subst|done].
Qed.

Lemma prefix_head c d s : c <> d -> String.prefix (String d "") (String c s) = false.
Proof.
  intros H. change (String.prefix (String d "") (String c s)) with
    (if Ascii.ascii_dec d c then String.prefix "" s else false). destruct (Ascii.ascii_dec d c); [congruence|done].
Qed.

Lemma parse_value_plain name m s v : plain s = true -> s <> ""%string -> ParseFloat s = Some v ->
  parse_value name m s = Some {| ps_Name := name; ps_Labels := m; ps_Value := v |}.
Proof. intros H Hne Hv. unfold parse_value. rewrite Fields_plain by done. by rewrite Hv. Qed.

Lemma parseLine_rendered p v : good p = true -> ParseFloat (pt_value p) = Some v ->
  parseLine (render p) =
    Some {| ps_Name := pt_name p; ps_Labels := label_map (pt_labels p); ps_Value := v |}.
Proof.
  intros Hg Hv. destruct (good_inv p Hg) as (Hn & (c & s & En & Hc & Hh) & Hl & Hp & Hne & _).
  destruct (name_text _ Hn) as [Hnp Hne'].
  assert (Hcut : forall d rest, name_end d = true -> cut_at name_end (pt_name p +:+ String d rest)%stdpp =
    Some (pt_name p, String d rest)) by (intros; by apply cut_at_app).
  destruct (name_text _ Hp) as [Hpp _].
  unfold parseLine, render. destruct (pt_labels p) as [|kv l] eqn:El.
  - change (String.append "" ?x) with x. change (String.append " " ?x) with (String " " x).
    rewrite Hcut by done. cbn [from_option id]. rewrite TrimSpace_plain by done.
    rewrite TrimSpace_led by done. rewrite En. cbn [String.eqb]. rewrite <- En.
    assert (Hb : forall T (x : string -> T) (y : T), match pt_value p with String "{" z => x z | _ => y end = y).
    { intros T x y. destruct (pt_value p) as [|d w]; [done|]. cbn [all_bytes] in Hp.
      apply andb_true_iff in Hp as [Hd _]. unfold name_byte in Hd. apply andb_true_iff in Hd as [_ Hd].
      destruct (Ascii.eqb_spec d "{"); [done|]. by repeat case_match; simplify_eq. }
    rewrite Hb. change (label_map []) with (∅ : gmap string string). by apply parse_value_plain.
  - rewrite <- El in *. set (inner := render_labels (pt_labels p)).
    assert (Hi : all_bytes (fun c => text_byte c && negb (Ascii.eqb c "}")) inner = true) by (by apply labels_text).
    replace (("{" +:+ inner +:+ "}") +:+ " " +:+ pt_value p)%stdpp
      with (String "{" (inner +:+ String "}" (String " " (pt_value p))))%stdpp
      by (by rewrite <- !sapp_assoc).
    rewrite Hcut by done. cbn [from_option id]. rewrite TrimSpace_plain by done.
    rewrite En. cbn [String.eqb]. rewrite <- En.
    replace (TrimSpace _) with (String "{" (inner +:+ String "}" (String " " (pt_value p))))%stdpp.
    2: { change (String "}" (String " " ?x)) with (String.append (String "}" (String " " "")) x).
      rewrite sapp_assoc. change (String "{" ((inner +:+ ?y) +:+ ?x)%stdpp) with (String "{" (inner +:+ y) +:+ x)%stdpp.
      symmetry. apply TrimSpace_text; try done. rewrite all_bytes_app. apply andb_true_iff. split; [|done].
      eapply all_bytes_impl; [|exact Hi]. intros d [? _]%andb_true_iff. done. }
    assert (Hend : cut_at (fun c => Ascii.eqb c "}") (String "{" (inner +:+ String "}" (String " " (pt_value p)))%stdpp) =
      Some (String "{" inner, String "}" (String " " (pt_value p)))).
    { rewrite <- sapp_cons. apply cut_at_app; [|done]. cbn [all_bytes]. apply andb_true_iff. split; [done|].
      eapply all_bytes_impl; [|exact Hi]. intros d [_ ?]%andb_true_iff. done. }
    rewrite Hend, TrimSpace_led by done. subst inner. rewrite parseLabels_rendered by (done || by rewrite El).
    by apply parse_value_plain.
Qed.

Lemma render_text p : good p = true -> all_bytes text_byte (render p) = true.
Proof.
  intros Hg. destruct (good_inv p Hg) as (Hn & _ & Hl & Hp & _). destruct (name_text _ Hn) as [Hn' _].
  destruct (name_text _ Hp) as [Hp' _]. unfold render. rewrite !all_bytes_app, !andb_true_iff.
  split; [by apply plain_text|]. split; [|split; [done|by apply plain_text]].
  destruct (pt_labels p) as [|kv l]; [done|]. rewrite !all_bytes_app, !andb_true_iff. split; [done|]. split; [|done].
  eapply all_bytes_impl; [|by apply labels_text]. intros c [? _]%andb_true_iff. done.
Qed.

Lemma parse_raw_rendered p v : good p = true -> ParseFloat (pt_value p) = Some v ->
  parse_raw (render p) =
    Some {| ps_Name := pt_name p; ps_Labels := label_map (pt_labels p); ps_Value := v |}.
Proof.
  intros Hg Hv. destruct (good_inv p Hg) as (Hn & (c & s & En & Hc & Hh) & Hl & Hp & Hne & _).
  destruct (name_text _ Hp) as [Hpp _]. pose proof (render_text p Hg) as Ht.
  assert (Htrim : TrimSpace (render p) = render p).
  { set (mid := match pt_labels p with [] => "" | l => ("{" +:+ render_labels l +:+ "}")%stdpp end).
    assert (E : render p = (String c (s +:+ mid +:+ " ") +:+ pt_value p)%stdpp).
    { unfold render. fold mid. rewrite En, !sapp_cons, <- !sapp_assoc. done. }
    rewrite E in *. rewrite all_bytes_app in Ht. apply andb_true_iff in Ht as [Ht _].
    cbn [all_bytes] in Ht. apply andb_true_iff in Ht as [_ Ht]. by apply TrimSpace_text. }
  unfold parse_raw. rewrite Htrim.
  assert (He : String.eqb (render p) "" = false) by (unfold render; by rewrite En).
  assert (Hhash : HasPrefix (render p) "#" = false).
  { unfold render, HasPrefix. rewrite En, sapp_cons. by apply prefix_head. }
  rewrite He, Hhash. by apply parseLine_rendered.
Qed.
(** *** The whole text *)

Lemma text_no_lf s : all_bytes text_byte s = true -> all_bytes (fun c => negb (Ascii.eqb c lf)) s = true.
Proof.
  apply all_bytes_impl. intros c H. destruct (Ascii.eqb_spec c lf) as [->|]; [done|done].
Qed.

Lemma drop_cr_text s : all_bytes text_byte s = true -> drop_cr s = s.
Proof.
  induction s as [|c s IH]; [done|]. cbn [all_bytes]. intros [Hc Hs]%andb_true_iff. cbn [drop_cr].
  destruct s as [|d s]; [|by rewrite IH]. destruct (Ascii.eqb_spec c cr) as [->|]; [done|done].
Qed.

(** One rendered sample per line. *)
Fixpoint render_all (l : list printed) : string :=
  match l with [] => "" | p :: l => (render p +:+ String lf (render_all l))%stdpp end.

(** C35: the parser reads back what was printed: any list of samples with names, labels and values of
    printable text (label values may hold spaces, commas and equal signs, but no quote and no closing
    brace), whose value texts [ParseFloat] reads, comes back sample by sample, with the labels as the
    map they denote. *)
Theorem parse_render (ps : list (printed * f64))
    (Hgood : Forall (fun '(p, v) => good p = true /\ ParseFloat (pt_value p) = Some v) ps) :
  parsePrometheus (render_all (map fst ps)) =
    map (fun '(p, v) => {| ps_Name := pt_name p; ps_Labels := label_map (pt_labels p); ps_Value := v |}) ps.
Proof.
  unfold parsePrometheus, scan_lines. induction Hgood as [|[p v] ps [Hg Hv] _ IH]; [done|].
  cbn [map fst render_all]. pose proof (render_text p Hg) as Ht.
  rewrite split_on_app by (by apply text_no_lf). cbn [scan_segments].
  destruct (good_inv p Hg) as (_ & _ & _ & _ & _ & Hlen). rewrite (proj2 (Z.leb_gt _ _) Hlen).
  rewrite drop_cr_text by done.
  assert (Hcons : exists s ss, split_on lf (render_all (map fst ps)) = s :: ss).
  { destruct (render_all _) as [|c t]; [by do 2 eexists|]. cbn [split_on].
    destruct (Ascii.eqb c lf); [by do 2 eexists|]. destruct (split_on lf t); by do 2 eexists. }
  destruct Hcons as (s & ss & E). rewrite E in *. cbn [omap list_omap].
  rewrite (parse_raw_rendered p v) by done. f_equal. exact IH.
Qed.

(** ** Concrete text *)

Definition sample_printed : list (printed * f64) :=
  [({| pt_name := "vllm:ttft_bucket"; pt_labels := [("le", "0.1"); ("model", "a, b=c")]; pt_value := "1" |}, f64_one);
   ({| pt_name := "vllm:ttft_bucket"; pt_labels := [("le", "+Inf"); ("model", "a, b=c")]; pt_value := "10" |}, f64_of_Z 10);
   ({| pt_name := "up"; pt_labels := []; pt_value := "1" |}, f64_one)]%string.

Lemma parse_render_witness :
  parsePrometheus (render_all (map fst sample_printed)) =
    map (fun '(p, v) => {| ps_Name := pt_name p; ps_Labels := label_map (pt_labels p); ps_Value := v |}) sample_printed.
Proof. apply parse_render. repeat constructor; by vm_compute. Defined.

Definition sample_samples : list promSample := parsePrometheus (render_all (map fst sample_printed)).

(** The median lies in the +Inf bucket and is reported as its bound, 1e18. *)
Lemma overflow_bucket : histogramQuantile sample_samples "vllm:ttft" (f64_lit 1 2) = (inf_le, true).
Proof. by vm_compute. Qed.

Lemma sample_bounds : forallb (fun b => negb (f64_is_nan (bk_le b)) && f64_leb (bk_le b) inf_le)
  (omap (bucket_of "vllm:ttft") sample_samples) = true.
Proof. by vm_compute. Qed.

(** The tenth of ten observations lies in the finite bucket of 0.1. *)
Lemma quantile_spec_witness :
  let '(v, ok) := histogramQuantile sample_samples "vllm:ttft" (f64_lit 1 10) in
  ok = true /\ f64_leb inf_le v = false /\ f64_leb v (f64_lit 1 10) = true.
Proof.
  pose proof (quantile_spec sample_samples "vllm:ttft" (f64_lit 1 10)) as H. cbv zeta in H.
  set (buckets := omap (bucket_of "vllm:ttft") sample_samples) in *.
  assert (Hex : (fun b => (bk_le b, finite_bucket b, f64_leb (f64_mul (f64_lit 1 10) (max_count buckets)) (bk_count b)))
    <$> head buckets = Some (f64_lit 1 10, true, true)) by (vm_compute; reflexivity).
  assert (Htot : f64_eqb (max_count buckets) f64_zero = false) by (vm_compute; reflexivity).
  apply fmap_Some in Hex as (b & Hb & E). symmetry in E. apply pair_equal_spec in E as [[Hbl Hfin]%pair_equal_spec Hr].
  assert (Hin : b ∈ buckets) by by apply head_Some_elem_of.
  destruct (histogramQuantile sample_samples "vllm:ttft" (f64_lit 1 10)) as [v ok]. destruct H as [Hok H].
  { apply Forall_forall. intros c Hc. pose proof sample_bounds as Hs. rewrite forallb_forall in Hs.
    apply list_elem_of_In in Hc. specialize (Hs c Hc). apply andb_true_iff in Hs as [H1 H2].
    split; [exact (proj1 (negb_true_iff _) H1)|exact H2]. }
  assert (Ho : ok = true) by (apply Hok; split; [intros E; by rewrite E in Hin; apply elem_of_nil in Hin|exact Htot]).
  destruct (H Ho (ex_intro _ b (conj Hin (conj Hfin Hr)))) as (_ & Hfinv & Hmin). split; [exact Ho|]. split; [exact Hfinv|].
  rewrite <- Hbl. exact (Hmin b Hin Hr).
Defined.
