(* ===== verification/Vllm.v ===== *)
(** * The vLLM runtime adapter ([internal/runtime/model.go], [internal/runtime/vllm])

    The normalized runtime metrics, their extraction from the text a scrape returns, and the adapter's
    state under scrapes, health checks and reads.  The HTTP answers and the clock are inputs. *)

From Stdlib Require Import Floats.SpecFloat.
From stdpp Require Import base tactics numbers option list strings gmap.
From S2P Require Import Prelude GoFloat GoTime GoText GoStrconv GoHttp Model PromText.
Open Scope go_scope.

Record RuntimeMetrics := {
  rm_Timestamp : Z;
  rm_Healthy : bool;
  rm_ScrapeOK : bool;
  rm_ScrapeAgeMs : f64;
  rm_ScrapeLatencyMs : f64;
  rm_RequestsRunning : Field f64;
  rm_RequestsWaiting : Field f64;
  rm_KVCacheUtil : Field f64;
  rm_ActiveSequences : Field f64;
  rm_PromptThroughput : Field f64;
  rm_GenThroughput : Field f64;
  rm_RequestLatencyP50 : Field f64;
  rm_QueueLatencyP50 : Field f64;
  rm_TTFTP50 : Field f64;
  rm_TPOTP50 : Field f64;
  rm_PreemptionsTotal : Field f64;
  rm_PrefixCacheHits : Field f64;
  rm_PrefixCacheQueries : Field f64;
  rm_RequestsSuccess : Field f64;
  rm_RequestsFailed : Field f64;
  rm_ModelName : string;
  rm_RuntimeVersion : string;
  rm_RawMetricSources : gmap string string;
  rm_UnsupportedFields : list string;
}.

Definition no_value : Field f64 := Unsup f64_zero.

(** A snapshot without metrics: the zero value of the struct, with the fields a scrape fills first. *)
Definition bare_metrics (timestamp : Z) (ok : bool) (latency : f64) (model version : string)
    (unsupported : list string) : RuntimeMetrics :=
  {| rm_Timestamp := timestamp; rm_Healthy := false; rm_ScrapeOK := ok; rm_ScrapeAgeMs := f64_zero;
     rm_ScrapeLatencyMs := latency; rm_RequestsRunning := no_value; rm_RequestsWaiting := no_value;
     rm_KVCacheUtil := no_value; rm_ActiveSequences := no_value; rm_PromptThroughput := no_value;
     rm_GenThroughput := no_value; rm_RequestLatencyP50 := no_value; rm_QueueLatencyP50 := no_value;
     rm_TTFTP50 := no_value; rm_TPOTP50 := no_value; rm_PreemptionsTotal := no_value;
     rm_PrefixCacheHits := no_value; rm_PrefixCacheQueries := no_value; rm_RequestsSuccess := no_value;
     rm_RequestsFailed := no_value; rm_ModelName := model; rm_RuntimeVersion := version;
     rm_RawMetricSources := ∅; rm_UnsupportedFields := unsupported |}.

(** ** The mapping *)

(** [setGauge], [setSum] and [setHistP50]: the first name the query answers, with its value. *)
Fixpoint first_answer (query : string -> f64 * bool) (names : list string) : option (string * f64) :=
  match names with
  | [] => None
  | n :: names => let '(v, ok) := query n in if ok then Some (n, v) else first_answer query names
  end.

Definition field_of (a : option (string * f64)) : Field f64 :=
  match a with Some (_, v) => Sup v | None => no_value end.

(** [src[key] = source] when the field is supported. *)
Definition record_source (key source : string) (a : option (string * f64)) (src : gmap string string) : gmap string string :=
  match a with Some _ => <[key := source]> src | None => src end.
Definition record_hist (a : option (string * f64)) (src : gmap string string) : gmap string string :=
  match a with Some (n, _) => <[n := (n +:+ "_bucket")%stdpp]> src | None => src end.

(** The fields the adapter declares when they are missing. *)
Definition audited (m : RuntimeMetrics) : list (string * Field f64) :=
  [("requests_running", m.(rm_RequestsRunning)); ("requests_waiting", m.(rm_RequestsWaiting));
   ("kv_cache_utilization", m.(rm_KVCacheUtil)); ("prompt_tokens_per_s", m.(rm_PromptThroughput));
   ("generation_tokens_per_s", m.(rm_GenThroughput)); ("ttft_p50_s", m.(rm_TTFTP50));
   ("tpot_p50_s", m.(rm_TPOTP50)); ("request_latency_p50_s", m.(rm_RequestLatencyP50));
   ("queue_latency_p50_s", m.(rm_QueueLatencyP50)); ("preemptions_total", m.(rm_PreemptionsTotal));
   ("prefix_cache_hits_total", m.(rm_PrefixCacheHits)); ("requests_success_total", m.(rm_RequestsSuccess));
   ("requests_failed_total", m.(rm_RequestsFailed))].

Definition with_unsupported (l : list string) (m : RuntimeMetrics) : RuntimeMetrics :=
  {| rm_Timestamp := m.(rm_Timestamp); rm_Healthy := m.(rm_Healthy); rm_ScrapeOK := m.(rm_ScrapeOK);
     rm_ScrapeAgeMs := m.(rm_ScrapeAgeMs); rm_ScrapeLatencyMs := m.(rm_ScrapeLatencyMs);
     rm_RequestsRunning := m.(rm_RequestsRunning); rm_RequestsWaiting := m.(rm_RequestsWaiting);
     rm_KVCacheUtil := m.(rm_KVCacheUtil); rm_ActiveSequences := m.(rm_ActiveSequences);
     rm_PromptThroughput := m.(rm_PromptThroughput); rm_GenThroughput := m.(rm_GenThroughput);
     rm_RequestLatencyP50 := m.(rm_RequestLatencyP50); rm_QueueLatencyP50 := m.(rm_QueueLatencyP50);
     rm_TTFTP50 := m.(rm_TTFTP50); rm_TPOTP50 := m.(rm_TPOTP50);
     rm_PreemptionsTotal := m.(rm_PreemptionsTotal); rm_PrefixCacheHits := m.(rm_PrefixCacheHits);
     rm_PrefixCacheQueries := m.(rm_PrefixCacheQueries); rm_RequestsSuccess := m.(rm_RequestsSuccess);
     rm_RequestsFailed := m.(rm_RequestsFailed); rm_ModelName := m.(rm_ModelName);
     rm_RuntimeVersion := m.(rm_RuntimeVersion); rm_RawMetricSources := m.(rm_RawMetricSources);
     rm_UnsupportedFields := l |}.

Definition mapVLLMMetrics (body : string) (m : RuntimeMetrics) : RuntimeMetrics :=
  let samples := parsePrometheus body in
  let gauge := first_answer (firstByName samples) in
  let sum := first_answer (sumByName samples) in
  let hist := first_answer (fun n => histogramQuantile samples n (f64_lit 5 10)) in
  let running := gauge ["vllm:num_requests_running"%string] in
  let waiting := gauge ["vllm:num_requests_waiting"%string] in
  let kv := gauge ["vllm:kv_cache_usage_perc"; "vllm:gpu_cache_usage_perc"]%string in
  let prompt := sum ["vllm:prompt_tokens_total"%string] in
  let gen := sum ["vllm:generation_tokens_total"%string] in
  let ttft := hist ["vllm:time_to_first_token_seconds"%string] in
  let tpot := hist ["vllm:inter_token_latency_seconds"; "vllm:request_time_per_output_token_seconds";
                    "vllm:time_per_output_token_seconds"]%string in
  let e2e := hist ["vllm:e2e_request_latency_seconds"%string] in
  let queue := hist ["vllm:request_queue_time_seconds"%string] in
  let preempt := sum ["vllm:num_preemptions_total"%string] in
  let hits := sum ["vllm:prefix_cache_hits_total"%string] in
  let queries := sum ["vllm:prefix_cache_queries_total"%string] in
  let success := sum ["vllm:request_success_total"%string] in
  let failure := sum ["vllm:request_failure_total"%string] in
  let src := m.(rm_RawMetricSources)
    |> record_source "requests_running" "vllm:num_requests_running" running
    |> record_source "requests_waiting" "vllm:num_requests_waiting" waiting
    |> record_source "kv_cache_utilization" "vllm:kv_cache_usage_perc" kv
    |> record_source "active_sequences" "derived:vllm:num_requests_running" running
    |> record_source "prompt_tokens_per_s" "vllm:prompt_tokens_total(counter)" prompt
    |> record_source "generation_tokens_per_s" "vllm:generation_tokens_total(counter)" gen
    |> record_hist ttft |> record_hist tpot |> record_hist e2e |> record_hist queue
    |> record_source "preemptions_total" "vllm:num_preemptions_total" preempt in
  let m :=
    {| rm_Timestamp := m.(rm_Timestamp); rm_Healthy := m.(rm_Healthy); rm_ScrapeOK := m.(rm_ScrapeOK);
       rm_ScrapeAgeMs := f64_zero; rm_ScrapeLatencyMs := m.(rm_ScrapeLatencyMs);
       rm_RequestsRunning := field_of running; rm_RequestsWaiting := field_of waiting;
       rm_KVCacheUtil := field_of kv; rm_ActiveSequences := field_of running;
       rm_PromptThroughput := field_of prompt; rm_GenThroughput := field_of gen;
       rm_RequestLatencyP50 := field_of e2e; rm_QueueLatencyP50 := field_of queue;
       rm_TTFTP50 := field_of ttft; rm_TPOTP50 := field_of tpot;
       rm_PreemptionsTotal := field_of preempt; rm_PrefixCacheHits := field_of hits;
       rm_PrefixCacheQueries := field_of queries; rm_RequestsSuccess := field_of success;
       rm_RequestsFailed := field_of failure; rm_ModelName := m.(rm_ModelName);
       rm_RuntimeVersion := m.(rm_RuntimeVersion); rm_RawMetricSources := src; rm_UnsupportedFields := [] |} in
  with_unsupported (map fst (List.filter (fun p => negb (Supported (snd p))) (audited m))) m.

(** ** The adapter *)

Record VllmConfig := {
  vc_BaseURL : string;
  vc_HealthPath : string;
  vc_MetricsPath : string;
  vc_ChatCompletionsPath : string;
  vc_RequestTimeout : Z;
  vc_ConnectTimeout : Z;
  vc_MetricsTimeout : Z;
  vc_MetricsRefresh : Z;
  vc_HealthRefresh : Z;
}.

Definition DefaultVllmConfig : VllmConfig :=
  {| vc_BaseURL := "http://127.0.0.1:8000"; vc_HealthPath := "/health"; vc_MetricsPath := "/metrics";
     vc_ChatCompletionsPath := "/v1/chat/completions"; vc_RequestTimeout := 600 * second;
     vc_ConnectTimeout := 2 * second; vc_MetricsTimeout := 500 * millisecond; vc_MetricsRefresh := 1 * second;
     vc_HealthRefresh := 2 * second |}.

Definition ChatCompletionsURL (c : VllmConfig) : string := (c.(vc_BaseURL) +:+ c.(vc_ChatCompletionsPath))%stdpp.

Record Adapter := {
  va_cfg : VllmConfig;
  va_snap : RuntimeMetrics;
  va_healthy : bool;
  va_modelName : option string;
  va_version : string;
}.

Definition New (cfg : VllmConfig) (now : Z) : Adapter :=
  {| va_cfg := cfg; va_snap := bare_metrics now false f64_zero "" "" []; va_healthy := false; va_modelName := None; va_version := "" |}.

(** The answer of a GET: an error, or a status with its text and body (as far as it was read). *)
Definition Answer : Type := (string + Z * string * string)%type.

Definition with_snap (m : RuntimeMetrics) (a : Adapter) : Adapter :=
  {| va_cfg := a.(va_cfg); va_snap := m; va_healthy := a.(va_healthy); va_modelName := a.(va_modelName); va_version := a.(va_version) |}.

(** The snapshot of a scrape; [now] is the clock after the answer, [latency] the time it took. *)
Definition scraped (r : Answer) (now latency : Z) (a : Adapter) : RuntimeMetrics :=
  let bare := bare_metrics now in
  let model := default ""%string a.(va_modelName) in
  let lat := dur_ms_float latency in
  match r with
  | inl err => bare false lat model a.(va_version) [("scrape:error:" +:+ err)%stdpp]
  | inr (code, status, body) =>
      if negb (code =? 200)
      then bare false lat model a.(va_version) [("scrape:status:" +:+ status)%stdpp]
      else mapVLLMMetrics body (bare true lat model a.(va_version) [])
  end.

Definition metrics_url (c : VllmConfig) : string := (c.(vc_BaseURL) +:+ c.(vc_MetricsPath))%stdpp.
Definition health_url (c : VllmConfig) : string := (c.(vc_BaseURL) +:+ c.(vc_HealthPath))%stdpp.

(** [None] is the panic of [client.Do] on a nil request; the loops that call these do not recover it. *)
Definition scrape `{!UrlParse} (r : Answer) (now latency : Z) (a : Adapter) : option Adapter :=
  with_request (metrics_url a.(va_cfg)) (with_snap (scraped r now latency a) a).

Definition checkHealth `{!UrlParse} (r : Answer) (a : Adapter) : option Adapter :=
  with_request (health_url a.(va_cfg))
    {| va_cfg := a.(va_cfg); va_snap := a.(va_snap);
       va_healthy := match r with inl _ => false | inr (code, _, _) => code =? 200 end;
       va_modelName := a.(va_modelName); va_version := a.(va_version) |}.

Definition SetModelName (n : string) (a : Adapter) : Adapter :=
  {| va_cfg := a.(va_cfg); va_snap := a.(va_snap); va_healthy := a.(va_healthy); va_modelName := Some n; va_version := a.(va_version) |}.
Definition SetVersion (v : string) (a : Adapter) : Adapter :=
  {| va_cfg := a.(va_cfg); va_snap := a.(va_snap); va_healthy := a.(va_healthy); va_modelName := a.(va_modelName); va_version := v |}.

Definition with_age (age : f64) (healthy : bool) (m : RuntimeMetrics) : RuntimeMetrics :=
  {| rm_Timestamp := m.(rm_Timestamp); rm_Healthy := healthy; rm_ScrapeOK := m.(rm_ScrapeOK);
     rm_ScrapeAgeMs := age; rm_ScrapeLatencyMs := m.(rm_ScrapeLatencyMs);
     rm_RequestsRunning := m.(rm_RequestsRunning); rm_RequestsWaiting := m.(rm_RequestsWaiting);
     rm_KVCacheUtil := m.(rm_KVCacheUtil); rm_ActiveSequences := m.(rm_ActiveSequences);
     rm_PromptThroughput := m.(rm_PromptThroughput); rm_GenThroughput := m.(rm_GenThroughput);
     rm_RequestLatencyP50 := m.(rm_RequestLatencyP50); rm_QueueLatencyP50 := m.(rm_QueueLatencyP50);
     rm_TTFTP50 := m.(rm_TTFTP50); rm_TPOTP50 := m.(rm_TPOTP50);
     rm_PreemptionsTotal := m.(rm_PreemptionsTotal); rm_PrefixCacheHits := m.(rm_PrefixCacheHits);
     rm_PrefixCacheQueries := m.(rm_PrefixCacheQueries); rm_RequestsSuccess := m.(rm_RequestsSuccess);
     rm_RequestsFailed := m.(rm_RequestsFailed); rm_ModelName := m.(rm_ModelName);
     rm_RuntimeVersion := m.(rm_RuntimeVersion); rm_RawMetricSources := m.(rm_RawMetricSources);
     rm_UnsupportedFields := m.(rm_UnsupportedFields) |}.

Definition AdapterSnapshot (now : Z) (a : Adapter) : RuntimeMetrics :=
  with_age (dur_ms_float (time_sub now a.(va_snap).(rm_Timestamp))) a.(va_healthy) a.(va_snap).

(** ** Facts *)

Lemma first_answer_Some query names n v :
  first_answer query names = Some (n, v) -> n ∈ names /\ query n = (v, true).
Proof.
  induction names as [|x names IH]; [done|]. cbn [first_answer]. destruct (query x) as [w ok] eqn:E. destruct ok.
  - intros [= <- <-]. split; [by left|done].
  - intros H. destruct (IH H). split; [by right|done].
Qed.

Lemma first_answer_None query names :
  first_answer query names = None <-> forall n, n ∈ names -> snd (query n) = false.
Proof.
  induction names as [|x names IH]; cbn [first_answer].
  - split; [intros _ n Hn; by apply not_elem_of_nil in Hn|done].
  - destruct (query x) as [w ok] eqn:E. destruct ok.
    + split; [done|]. intros H. specialize (H x ltac:(by left)). by rewrite E in H.
    + rewrite IH. split; intros H n Hn; [apply elem_of_cons in Hn as [->|Hn]; [by rewrite E|by apply H]|].
      apply H. by right.
Qed.

Lemma field_of_supported a : Supported (field_of a) = bool_decide (is_Some a).
Proof. destruct a as [[n v]|]; [by rewrite bool_decide_true|rewrite bool_decide_false; [done|by intros [? ?]]]. Qed.

Lemma find_name (samples : list promSample) name :
  (exists s, List.find (fun s => String.eqb (ps_Name s) name) samples = Some s /\ ps_Name s = name) \/
  (List.find (fun s => String.eqb (ps_Name s) name) samples = None /\ forall s, s ∈ samples -> ps_Name s <> name).
Proof.
  destruct (List.find _ samples) as [s|] eqn:E.
  - left. apply List.find_some in E as [_ E%String.eqb_eq]. by exists s.
  - right. split; [done|]. intros s Hs. apply list_elem_of_In in Hs. apply (List.find_none _ _ E) in Hs.
    by apply String.eqb_neq in Hs.
Qed.

Lemma firstByName_ok samples name : snd (firstByName samples name) = true <-> exists s, s ∈ samples /\ ps_Name s = name.
Proof.
  unfold firstByName. destruct (find_name samples name) as [(s & Hf & Hn)|[Hf Hn]]; rewrite Hf; cbn.
  - apply List.find_some in Hf as [Hin _]. apply list_elem_of_In in Hin. split; [by exists s|done].
  - split; [done|]. intros (s & Hs & Hn'). by apply Hn in Hs.
Qed.

(** The sum of the values of a name, in order. *)
Definition values (samples : list promSample) (name : string) : list f64 :=
  map ps_Value (List.filter (fun s => String.eqb (ps_Name s) name) samples).

Lemma sumByName_spec samples name :
  sumByName samples name = (fold_left f64_add (values samples name) f64_zero, negb (bool_decide (values samples name = []))).
Proof.
  unfold sumByName, values.
  enough (H : forall sum found,
    fold_left (fun '(sum, found) s => if String.eqb (ps_Name s) name then (f64_add sum (ps_Value s), true) else (sum, found))
      samples (sum, found) =
    (fold_left f64_add (map ps_Value (List.filter (fun s => String.eqb (ps_Name s) name) samples)) sum,
     found || negb (bool_decide (map ps_Value (List.filter (fun s => String.eqb (ps_Name s) name) samples) = [])))) by apply H.
  induction samples as [|s samples IH]; intros sum found; [by rewrite orb_false_r|].
  cbn [fold_left List.filter]. destruct (String.eqb (ps_Name s) name); [|apply IH].
  rewrite IH. cbn [map fold_left]. rewrite (bool_decide_false (_ :: _ = [])) by done. by rewrite orb_true_r.
Qed.

Lemma sumByName_ok samples name : snd (sumByName samples name) = true <-> exists s, s ∈ samples /\ ps_Name s = name.
Proof.
  rewrite sumByName_spec. cbn [snd]. rewrite negb_true_iff, bool_decide_eq_false. unfold values. split.
  - intros H. destruct (List.filter _ samples) as [|s l] eqn:E; [done|].
    assert (Hs : List.In s (List.filter (fun s => String.eqb (ps_Name s) name) samples)) by (rewrite E; by left).
    apply List.filter_In in Hs as [Hs Hn%String.eqb_eq]. exists s. split; [by apply list_elem_of_In|done].
  - intros (s & Hs & Hn) E. apply map_eq_nil in E.
    assert (Hin : List.In s (List.filter (fun s => String.eqb (ps_Name s) name) samples))
      by (apply List.filter_In; split; [by apply list_elem_of_In|by apply String.eqb_eq]).
    by rewrite E in Hin.
Qed.

(** A query that answers exactly for the names that occur. *)
Lemma answered (query : string -> f64 * bool) (samples : list promSample) names :
  (forall n, snd (query n) = true <-> exists s, s ∈ samples /\ ps_Name s = n) ->
  Supported (field_of (first_answer query names)) = true <-> exists s, s ∈ samples /\ ps_Name s ∈ names.
Proof.
  intros Hq. rewrite field_of_supported, bool_decide_eq_true. split.
  - intros [[n v] H]. apply first_answer_Some in H as [Hn Hv].
    destruct (proj1 (Hq n)) as (s & Hs & <-); [by rewrite Hv|]. by exists s.
  - intros (s & Hs & Hn). destruct (first_answer query names) as [a|] eqn:E; [by exists a|].
    rewrite first_answer_None in E. specialize (E _ Hn).
    assert (snd (query (ps_Name s)) = true) by (apply Hq; by exists s). congruence.
Qed.

(** The fields read from gauges and counters, with the names they may come from. *)
Definition named_fields (m : RuntimeMetrics) : list (Field f64 * list string) :=
  [(rm_RequestsRunning m, ["vllm:num_requests_running"]); (rm_RequestsWaiting m, ["vllm:num_requests_waiting"]);
   (rm_KVCacheUtil m, ["vllm:kv_cache_usage_perc"; "vllm:gpu_cache_usage_perc"]);
   (rm_PromptThroughput m, ["vllm:prompt_tokens_total"]); (rm_GenThroughput m, ["vllm:generation_tokens_total"]);
   (rm_PreemptionsTotal m, ["vllm:num_preemptions_total"]); (rm_PrefixCacheHits m, ["vllm:prefix_cache_hits_total"]);
   (rm_PrefixCacheQueries m, ["vllm:prefix_cache_queries_total"]);
   (rm_RequestsSuccess m, ["vllm:request_success_total"]); (rm_RequestsFailed m, ["vllm:request_failure_total"])]%string.

(** The fields read from histograms, likewise. *)
Definition histogram_fields (m : RuntimeMetrics) : list (Field f64 * list string) :=
  [(rm_TTFTP50 m, ["vllm:time_to_first_token_seconds"]);
   (rm_TPOTP50 m, ["vllm:inter_token_latency_seconds"; "vllm:request_time_per_output_token_seconds";
                   "vllm:time_per_output_token_seconds"]);
   (rm_RequestLatencyP50 m, ["vllm:e2e_request_latency_seconds"]);
   (rm_QueueLatencyP50 m, ["vllm:request_queue_time_seconds"])]%string.

(** The mapping never makes a metric up.  A field read from a gauge or counter is supported exactly
    when the scraped text has a sample of one of its names, and one read from a histogram only with a
    median of one of its names; an unsupported field has the value zero; and the declared unsupported
    fields are exactly the unsupported ones among the audited. *)
Theorem metrics_honest body m0 :
  let samples := parsePrometheus body in
  let m := mapVLLMMetrics body m0 in
  Forall (fun '(f, names) => Supported f = true <-> exists s, s ∈ samples /\ ps_Name s ∈ names) (named_fields m) /\
  Forall (fun '(f, names) => Supported f = true -> exists n, n ∈ names /\
    histogramQuantile samples n (f64_lit 5 10) = (Value f, true)) (histogram_fields m) /\
  Forall (fun '(f, names) => Supported f = false -> f = no_value) (named_fields m ++ histogram_fields m) /\
  forall name, name ∈ rm_UnsupportedFields m <-> exists f, (name, f) ∈ audited m /\ Supported f = false.
Proof.
  cbv zeta. set (samples := parsePrometheus body).
  assert (Hz : forall a, Supported (field_of a) = false -> field_of a = no_value) by (by intros [[? ?]|]).
  assert (Hh : forall names, Supported (field_of (first_answer
      (fun n => histogramQuantile samples n (f64_lit 5 10)) names)) = true ->
    exists n, n ∈ names /\ histogramQuantile samples n (f64_lit 5 10) =
      (Value (field_of (first_answer (fun n => histogramQuantile samples n (f64_lit 5 10)) names)), true)).
  { intros names. destruct (first_answer _ names) as [[n v]|] eqn:E; [|done]. intros _.
    apply first_answer_Some in E as [Hn Hv]. by exists n. }
  split; [|split; [|split]].
  - repeat apply Forall_cons_2; try apply Forall_nil_2;
      (apply answered; intros; first [apply firstByName_ok | apply sumByName_ok]).
  - repeat apply Forall_cons_2; try apply Forall_nil_2; apply Hh.
  - repeat apply Forall_cons_2; try apply Forall_nil_2; apply Hz.
  - intros name. unfold mapVLLMMetrics. cbn [rm_UnsupportedFields with_unsupported].
    match goal with |- context [ with_unsupported _ ?x ] => set (m := x) end.
    change (audited (with_unsupported ?l m)) with (audited m). rewrite list_elem_of_In, in_map_iff. split.
    + intros ([n f] & <- & [Hin Hs%negb_true_iff]%List.filter_In). exists f. split; [by apply list_elem_of_In|done].
    + intros (f & Hin & Hs). exists (name, f). split; [done|]. apply List.filter_In.
      split; [by apply list_elem_of_In|]. cbn [snd]. by rewrite Hs.
Qed.

(** ** The adapter over time *)

Inductive adapter_op :=
  | OpScrape (r : Answer) (now latency : Z)
  | OpHealth (r : Answer)
  | OpModel (n : string)
  | OpVersion (v : string).

Definition adapter_apply `{!UrlParse} (op : adapter_op) (a : Adapter) : option Adapter :=
  match op with
  | OpScrape r now latency => scrape r now latency a
  | OpHealth r => checkHealth r a
  | OpModel n => Some (SetModelName n a)
  | OpVersion v => Some (SetVersion v a)
  end.

Definition adapter_run `{!UrlParse} (ops : list adapter_op) (a : Adapter) : option Adapter :=
  fold_left (fun a op => a ≫= adapter_apply op) ops (Some a).

(** The last scrape and the last health answer of a run. *)
Definition last_scrape (ops : list adapter_op) : option (Answer * Z) :=
  last (omap (fun op => match op with OpScrape r now _ => Some (r, now) | _ => None end) ops).
Definition last_health (ops : list adapter_op) : option Answer :=
  last (omap (fun op => match op with OpHealth r => Some r | _ => None end) ops).

Definition is_200 (r : Answer) : bool := match r with inl _ => false | inr (code, _, _) => code =? 200 end.

(** What a snapshot says of the last scrape. *)
Definition reflects (r : option (Answer * Z)) (m : RuntimeMetrics) : Prop :=
  match r with
  | None => rm_ScrapeOK m = false /\ Forall (fun '(_, f) => f = no_value) (audited m)
  | Some (r, now) =>
      rm_Timestamp m = now /\ rm_ScrapeOK m = is_200 r /\
      match r with
      | inr (code, _, body) =>
          if code =? 200
          then exists m0, audited m = audited (mapVLLMMetrics body m0) /\
                 rm_UnsupportedFields m = rm_UnsupportedFields (mapVLLMMetrics body m0)
          else Forall (fun '(_, f) => f = no_value) (audited m) /\ length (rm_UnsupportedFields m) = 1%nat
      | inl err => Forall (fun '(_, f) => f = no_value) (audited m) /\
          rm_UnsupportedFields m = [("scrape:error:" +:+ err)%stdpp]
      end
  end.

Lemma last_omap_snoc {A B} (f : A -> option B) l x :
  last (omap f (l ++ [x])) = match f x with Some y => Some y | None => last (omap f l) end.
Proof. rewrite omap_app. cbn. destruct (f x); [by rewrite last_snoc|by rewrite app_nil_r]. Qed.

Lemma bare_unsupported now ok lat mn v l : Forall (fun '(_, f) => f = no_value) (audited (bare_metrics now ok lat mn v l)).
Proof. by repeat constructor. Qed.

(** After any sequence of scrapes, health checks and provenance updates the snapshot reflects the
    last scrape alone and the last health check alone: a failed scrape or a status other than 200
    leaves no metric of an earlier one, and a successful one shows the metrics of its own text.  The only panic is that
    of an address that does not parse. *)
Theorem snapshot_is_last_scrape `{!UrlParse} cfg t0 ops now :
  match adapter_run ops (New cfg t0) with
  | Some a => let m := AdapterSnapshot now a in reflects (last_scrape ops) m /\
      rm_Healthy m = match last_health ops with Some r => is_200 r | None => false end
  | None => url_parses (metrics_url cfg) = false \/ url_parses (health_url cfg) = false
  end.
Proof.
  enough (E : match adapter_run ops (New cfg t0) with
    | Some a => va_cfg a = cfg /\ let m := AdapterSnapshot now a in reflects (last_scrape ops) m /\
        rm_Healthy m = match last_health ops with Some r => is_200 r | None => false end
    | None => url_parses (metrics_url cfg) = false \/ url_parses (health_url cfg) = false end) by (by destruct (adapter_run _ _); [apply E|]).
  cbv zeta. induction ops as [|op ops IH] using rev_ind.
  { split; [done|]. split; [|done]. split; [done|]. apply (bare_unsupported t0 false f64_zero "" "" []). }
  unfold adapter_run, last_scrape, last_health in *. rewrite fold_left_app, !last_omap_snoc. cbn [fold_left].
  destruct (fold_left _ ops _) as [a|]; cbn [mbind option_bind]; [|done]. destruct IH as (Hc & IH1 & IH2).
  destruct op as [r at_ lat|r|n|v]; cbn [adapter_apply]; try (by split); unfold scrape, checkHealth, with_request; rewrite Hc;
    destruct (url_parses _) eqn:Hu; try (by left); try (by right); (split; [done|]).
  - split; [|by rewrite <- IH2].
    unfold scraped. destruct r as [err|[[code status] body]]; cbn [reflects is_200].
    + split; [done|]. split; [done|]. split; [|done]. repeat constructor.
    + destruct (code =? 200); cbn [negb].
      * split; [done|]. split; [done|]. set (m1 := bare_metrics at_ true _ _ _ []).
        exists m1. generalize (mapVLLMMetrics body m1). intros M. by split.
      * split; [done|]. split; [done|]. split; [|done]. repeat constructor.
  - by split.
Qed.

(** The provenance of the cache utilization names a metric that is not in the text. *)
Lemma kv_provenance :
  let m := mapVLLMMetrics "vllm:gpu_cache_usage_perc 1" (bare_metrics 0 true f64_zero "" "" []) in
  rm_KVCacheUtil m = Sup f64_one /\ rm_RawMetricSources m !! "kv_cache_utilization"%string = Some "vllm:kv_cache_usage_perc"%string.
Proof. by vm_compute. Qed.
