(* ===== verification/Emitter.v ===== *)
(** * The trajectory emitter ([internal/trajectory/emitter.go])

    The emitter is a bounded channel between the request path ([Emit]) and one goroutine ([loop]) that
    ships batches.  Both are interleaved: a step is one channel operation, one shipment or one timer.
    What the collector answers and how many bytes a write of the fallback file takes are inputs; the collector's address
    may fail to parse, which is a panic of the goroutine. *)

From Stdlib Require Import Floats.SpecFloat.
From stdpp Require Import base tactics numbers option list strings.
From S2P Require Import Prelude GoFloat GoTime GoHttp Model.
Open Scope go_scope.

Record EmitterConfig := {
  ec_Enabled : bool;
  ec_CollectorURL : string;
  ec_BatchSize : Z;
  ec_FlushInterval : Z;
  ec_QueueCapacity : Z;
  ec_RequestTimeout : Z;
  ec_LocalFallbackPath : string;
  ec_Source : string;
}.

Definition DefaultEmitterConfig : EmitterConfig :=
  {| ec_Enabled := true; ec_CollectorURL := "http://127.0.0.1:9100/v1/events"; ec_BatchSize := 128;
     ec_FlushInterval := 500 * millisecond; ec_QueueCapacity := 10000;
     ec_RequestTimeout := 500 * millisecond; ec_LocalFallbackPath := ""; ec_Source := "" |}.

Record TEvent := {
  tv_Kind : string;
  tv_Source : string;
  tv_RequestID : string;
  tv_RouteID : string;
  tv_BackendID : string;
  tv_HostID : string;
  tv_DeviceID : string;
  tv_Wall : Z;
  tv_Fields : list (string * Evidence);
}.

Definition terminalKinds (k : string) : bool :=
  bool_decide (k ∈ (["REQUEST_COMPLETED"; "PARTIAL_STREAM_FAILED"; "ROUTE_ATTEMPT_FAILED"; "CLIENT_CANCELLED";
                    "STREAM_COMPLETED"; "QUEUE_REJECTED"; "QUEUE_TIMED_OUT"; "VLLM_REQUEST_FAILED";
                    "UPSTREAM_CANCELLED"] : list string)).

(** Where the goroutine is: not started, in its outer [select], in the drain after [stop], returned; or it panicked,
    which ends the process. *)
Inductive loop_pc := LoopIdle | LoopRunning | LoopDraining | LoopExited | LoopCrashed.

(** [em_waiting]: the calls of [Emit] inside the bounded retry of a terminal event. *)
Record Emitter := {
  em_cfg : EmitterConfig;
  em_ch : list TEvent;
  em_waiting : list TEvent;
  em_batch : list TEvent;
  em_stop : bool;
  em_pc : loop_pc;
  em_dropped : Z;
  em_sent : Z;
  em_failed : Z;
  em_fallback : Z;
  em_fbOpen : bool;
  em_fbBytes : Z;
}.

(** [opened]: whether the fallback file could be opened. *)
Definition New (cfg : EmitterConfig) (opened : bool) : Emitter :=
  let cfg :=
    {| ec_Enabled := cfg.(ec_Enabled); ec_CollectorURL := cfg.(ec_CollectorURL);
       ec_BatchSize := if cfg.(ec_BatchSize) <=? 0 then 128 else cfg.(ec_BatchSize);
       ec_FlushInterval := cfg.(ec_FlushInterval);
       ec_QueueCapacity := if cfg.(ec_QueueCapacity) <=? 0 then 10000 else cfg.(ec_QueueCapacity);
       ec_RequestTimeout := cfg.(ec_RequestTimeout);
       ec_LocalFallbackPath := cfg.(ec_LocalFallbackPath); ec_Source := cfg.(ec_Source) |} in
  {| em_cfg := cfg; em_ch := []; em_waiting := []; em_batch := []; em_stop := false; em_pc := LoopIdle;
     em_dropped := 0; em_sent := 0; em_failed := 0; em_fallback := 0;
     em_fbOpen := negb (String.eqb cfg.(ec_LocalFallbackPath) "") && opened; em_fbBytes := 0 |}.

Definition set_queues (ch waiting batch : list TEvent) (e : Emitter) : Emitter :=
  {| em_cfg := e.(em_cfg); em_ch := ch; em_waiting := waiting; em_batch := batch; em_stop := e.(em_stop);
     em_pc := e.(em_pc); em_dropped := e.(em_dropped); em_sent := e.(em_sent); em_failed := e.(em_failed);
     em_fallback := e.(em_fallback); em_fbOpen := e.(em_fbOpen); em_fbBytes := e.(em_fbBytes) |}.
Definition set_loop (stop : bool) (pc : loop_pc) (e : Emitter) : Emitter :=
  {| em_cfg := e.(em_cfg); em_ch := e.(em_ch); em_waiting := e.(em_waiting); em_batch := e.(em_batch);
     em_stop := stop; em_pc := pc; em_dropped := e.(em_dropped); em_sent := e.(em_sent);
     em_failed := e.(em_failed); em_fallback := e.(em_fallback); em_fbOpen := e.(em_fbOpen);
     em_fbBytes := e.(em_fbBytes) |}.
Definition set_counts (dropped sent failed fallback fbBytes : Z) (e : Emitter) : Emitter :=
  {| em_cfg := e.(em_cfg); em_ch := e.(em_ch); em_waiting := e.(em_waiting); em_batch := e.(em_batch);
     em_stop := e.(em_stop); em_pc := e.(em_pc); em_dropped := dropped; em_sent := sent; em_failed := failed;
     em_fallback := fallback; em_fbOpen := e.(em_fbOpen); em_fbBytes := fbBytes |}.

(** [Start] and the first lines of [loop]: the ticker wants a positive interval. *)
Definition Start (e : Emitter) : Emitter :=
  if negb e.(em_cfg).(ec_Enabled) then e
  else set_loop e.(em_stop) (if e.(em_cfg).(ec_FlushInterval) <=? 0 then LoopCrashed else LoopRunning) e.

(** ** [Emit] *)

(** The event as it enters the queue. *)
Definition stamp (cfg : EmitterConfig) (now : Z) (ev : TEvent) : TEvent :=
  {| tv_Kind := ev.(tv_Kind); tv_Source := if String.eqb ev.(tv_Source) "" then cfg.(ec_Source) else ev.(tv_Source);
     tv_RequestID := ev.(tv_RequestID); tv_RouteID := ev.(tv_RouteID); tv_BackendID := ev.(tv_BackendID);
     tv_HostID := ev.(tv_HostID); tv_DeviceID := ev.(tv_DeviceID);
     tv_Wall := if time_is_zero ev.(tv_Wall) then now else ev.(tv_Wall); tv_Fields := ev.(tv_Fields) |}.

Definition has_room (e : Emitter) : bool := Z.of_nat (length e.(em_ch)) <? e.(em_cfg).(ec_QueueCapacity).

Definition send (ev : TEvent) (e : Emitter) : Emitter := set_queues (e.(em_ch) ++ [ev]) e.(em_waiting) e.(em_batch) e.
Definition drop_event (e : Emitter) : Emitter :=
  set_counts (uwrap64 (e.(em_dropped) + 1)) e.(em_sent) e.(em_failed) e.(em_fallback) e.(em_fbBytes) e.

(** What [Emit] does at once: send, start waiting (a terminal event on a full queue), or drop. *)
Inductive emit_outcome := Sent | Waits | Dropped.

Definition Emit (now : Z) (ev : TEvent) (e : Emitter) : Emitter * option (TEvent * emit_outcome) :=
  if negb e.(em_cfg).(ec_Enabled) then (e, None)
  else
    let ev := stamp e.(em_cfg) now ev in
    if has_room e then (send ev e, Some (ev, Sent))
    else if terminalKinds ev.(tv_Kind)
    then (set_queues e.(em_ch) (e.(em_waiting) ++ [ev]) e.(em_batch) e, Some (ev, Waits))
    else (drop_event e, Some (ev, Dropped)).

(** ** Shipping *)

(** [json.Marshal] refuses NaN and the infinities, and nothing else an event holds (the years of the
    clock have four digits). *)
Definition marshals (ev : TEvent) : bool :=
  forallb (fun '(_, v) => match v with EvFloat x => f64_is_finite x | _ => true end) ev.(tv_Fields).

(** What becomes of a batch: [json.Marshal] refused it; the collector accepted it, [again] at the second attempt; or it
    failed twice. *)
Inductive shipment := ShipLost | ShipSent (again : bool) | ShipFailed.

(** The times the batch was posted. *)
Definition posts (s : shipment) : nat :=
  match s with ShipLost => 0 | ShipSent again => if again then 2 else 1 | ShipFailed => 2 end.

Definition maxFallback : Z := 64 * 1024 * 1024.

(** [writeFallback]; [written ev] is the number of bytes the write of its line took. *)
Definition writeFallback (written : TEvent -> Z) (batch : list TEvent) (e : Emitter) : Emitter :=
  if negb e.(em_fbOpen) then e
  else if maxFallback <? e.(em_fbBytes) then e
  else fold_left (fun e ev => set_counts e.(em_dropped) e.(em_sent) e.(em_failed) (uwrap64 (e.(em_fallback) + 1))
                                (wrap64 (e.(em_fbBytes) + written ev)) e) batch e.

Section shipping.
  Context {url_parser : UrlParse}.

(** [ship]: [answers] are the two attempts, [true] for a status in [200,300).  [None]: the first use of a nil request. *)
Definition ship (answers : bool * bool) (written : TEvent -> Z) (batch : list TEvent) (e : Emitter) :
    option (Emitter * shipment) :=
  if negb (forallb marshals batch) then Some (e, ShipLost)
  else
    with_request e.(em_cfg).(ec_CollectorURL)
      (let n := Z.of_nat (length batch) in
       if fst answers || snd answers
       then (set_counts e.(em_dropped) (uwrap64 (e.(em_sent) + n)) e.(em_failed) e.(em_fallback) e.(em_fbBytes) e,
             ShipSent (negb (fst answers)))
       else
         (e |> set_counts e.(em_dropped) e.(em_sent) (uwrap64 (e.(em_failed) + n)) e.(em_fallback) e.(em_fbBytes)
            |> writeFallback written batch, ShipFailed)).

(** The closure [flush] of the loop: nothing to do, the batch it shipped, or a panic. *)
Inductive flushed := FlNone | FlShipped (batch : list TEvent) (s : shipment) | FlPanicked.

Definition flush (answers : bool * bool) (written : TEvent -> Z) (e : Emitter) : Emitter * flushed :=
  match e.(em_batch) with
  | [] => (e, FlNone)
  | batch =>
      match ship answers written batch e with
      | Some (e, s) => (set_queues e.(em_ch) e.(em_waiting) [] e, FlShipped batch s)
      | None => (set_loop e.(em_stop) LoopCrashed e, FlPanicked)
      end
  end.

(** [case ev := <-e.ch]: append to the batch and flush a full one. *)
Definition receive (answers : bool * bool) (written : TEvent -> Z) (ev : TEvent) (ch : list TEvent) (e : Emitter) :
    Emitter * flushed :=
  let e := set_queues ch e.(em_waiting) (e.(em_batch) ++ [ev]) e in
  if e.(em_cfg).(ec_BatchSize) <=? Z.of_nat (length e.(em_batch)) then flush answers written e else (e, FlNone).

(** The last turn of the drain: flush and return. *)
Definition finish (answers : bool * bool) (written : TEvent -> Z) (e : Emitter) : Emitter * flushed :=
  let '(e, o) := flush answers written e in
  (match o with FlPanicked => e | _ => set_loop true LoopExited e end, o).

(** ** The interleaving

    Every step says what it did: an event entered [Emit] and how it fared, a waiting event was sent
    or dropped, the goroutine took a turn and shipped a batch or not.  A crashed goroutine ends the process: no step
    follows. *)
Inductive elabel :=
  | LEmit (ev : TEvent) (o : emit_outcome)
  | LSend (ev : TEvent)
  | LDrop (ev : TEvent)
  | LTurn (o : flushed)
  | LSilent.

Definition alive (e : Emitter) : bool := match e.(em_pc) with LoopCrashed => false | _ => true end.

Inductive estep : Emitter -> elabel -> Emitter -> Prop :=
  | step_start e : e.(em_pc) = LoopIdle -> estep e LSilent (Start e)
  | step_emit now ev e e' o ev' : alive e = true ->
      Emit now ev e = (e', Some (ev', o)) -> estep e (LEmit ev' o) e'
  | step_emit_disabled now ev e e' : alive e = true ->
      Emit now ev e = (e', None) -> estep e LSilent e'
  (** a waiting call gets room *)
  | step_wait_sent e w1 ev w2 : alive e = true ->
      em_waiting e = w1 ++ ev :: w2 -> has_room e = true ->
      estep e (LSend ev) (send ev (set_queues e.(em_ch) (w1 ++ w2) e.(em_batch) e))
  (** or its two milliseconds are over *)
  | step_wait_dropped e w1 ev w2 : alive e = true ->
      em_waiting e = w1 ++ ev :: w2 ->
      estep e (LDrop ev) (drop_event (set_queues e.(em_ch) (w1 ++ w2) e.(em_batch) e))
  (** [Stop] closes the channel [stop] *)
  | step_stop e : alive e = true ->
      e.(em_cfg).(ec_Enabled) = true -> em_stop e = false -> estep e LSilent (set_loop true e.(em_pc) e)
  (** the goroutine: receive, tick, notice [stop], drain, return *)
  | step_receive e ev ch answers written e' o :
      e.(em_pc) = LoopRunning \/ e.(em_pc) = LoopDraining -> e.(em_ch) = ev :: ch ->
      receive answers written ev ch e = (e', o) -> estep e (LTurn o) e'
  | step_tick e answers written e' o :
      e.(em_pc) = LoopRunning -> flush answers written e = (e', o) -> estep e (LTurn o) e'
  | step_see_stop e :
      e.(em_pc) = LoopRunning -> e.(em_stop) = true -> estep e LSilent (set_loop true LoopDraining e)
  | step_exit e answers written e' o :
      e.(em_pc) = LoopDraining -> e.(em_ch) = [] ->
      finish answers written e = (e', o) -> estep e (LTurn o) e'.

Inductive esteps : Emitter -> list elabel -> Emitter -> Prop :=
  | esteps_refl e : esteps e [] e
  | esteps_step e1 ls e2 l e3 : esteps e1 ls e2 -> estep e2 l e3 -> esteps e1 (ls ++ [l]) e3.

(** One turn of the inner loop after [stop]. *)
Definition drain_turn (answers : bool * bool) (written : TEvent -> Z) (e : Emitter) : Emitter * flushed :=
  match e.(em_ch) with
  | ev :: ch => receive answers written ev ch e
  | [] => finish answers written e
  end.
End shipping.

Record Stats := {
  es_Sent : Z;
  es_Dropped : Z;
  es_Failed : Z;
  es_Fallback : Z;
  es_QueueLen : Z;
  es_QueueCap : Z;
}.
Definition Stats_of (e : Emitter) : Stats :=
  {| es_Sent := e.(em_sent); es_Dropped := e.(em_dropped); es_Failed := e.(em_failed);
     es_Fallback := e.(em_fallback); es_QueueLen := Z.of_nat (length e.(em_ch));
     es_QueueCap := e.(em_cfg).(ec_QueueCapacity) |}.
