(* ===== verification/EmitterFacts.v ===== *)
(** * Properties of the trajectory emitter

    What is true after every interleaving of [Emit] calls, waiting calls, the shipping goroutine and
    [Stop]: where every event is, in order, and what the counters say of it; the bounds of the queues; and that the
    drain after [Stop] ends. *)

From Stdlib Require Import Floats.SpecFloat.
From stdpp Require Import base tactics numbers option list strings.
From S2P Require Import Prelude GoFloat GoTime GoHttp Model Emitter.
Open Scope go_scope.

(** ** Views of a run *)

Definition emitted (ls : list elabel) : list TEvent :=
  omap (fun l => match l with LEmit ev _ => Some ev | _ => None end) ls.
Definition enqueued (ls : list elabel) : list TEvent :=
  omap (fun l => match l with LEmit ev Sent | LSend ev => Some ev | _ => None end) ls.
Definition lost (ls : list elabel) : list TEvent :=
  omap (fun l => match l with LEmit ev Dropped | LDrop ev => Some ev | _ => None end) ls.
Definition batches (ls : list elabel) : list (list TEvent * shipment) :=
  omap (fun l => match l with LTurn (FlShipped b s) => Some (b, s) | _ => None end) ls.
(** The turns of the goroutine. *)
Definition turns (ls : list elabel) : nat := length (List.filter (fun l => match l with LTurn _ => true | _ => false end) ls).

(** The events of batches whose outcome satisfies [p]. *)
Definition is_sent (s : shipment) : bool := match s with ShipSent _ => true | _ => false end.
Definition is_failed (s : shipment) : bool := match s with ShipFailed => true | _ => false end.
Definition is_refused (s : shipment) : bool := match s with ShipLost => true | _ => false end.
Definition with_fate (p : shipment -> bool) (bs : list (list TEvent * shipment)) : list TEvent :=
  concat (map fst (List.filter (fun b => p b.2) bs)).

Lemma with_fate_snoc p bs b s : with_fate p (bs ++ [(b, s)]) = with_fate p bs ++ (if p s then b else []).
Proof.
  unfold with_fate. rewrite List.filter_app. cbn. rewrite map_app, concat_app.
  destruct (p s); cbn; by rewrite ?app_nil_r.
Qed.

Lemma emitted_snoc ls l : emitted (ls ++ [l]) = emitted ls ++ emitted [l].
Proof. apply omap_app. Qed.
Lemma enqueued_snoc ls l : enqueued (ls ++ [l]) = enqueued ls ++ enqueued [l].
Proof. apply omap_app. Qed.
Lemma lost_snoc ls l : lost (ls ++ [l]) = lost ls ++ lost [l].
Proof. apply omap_app. Qed.
Lemma batches_snoc ls l : batches (ls ++ [l]) = batches ls ++ batches [l].
Proof. apply omap_app. Qed.
Lemma turns_snoc ls l : turns (ls ++ [l]) = (turns ls + turns [l])%nat.
Proof. unfold turns. by rewrite List.filter_app, length_app. Qed.
Create Rewrite HintDb etrace.
#[export] Hint Rewrite emitted_snoc enqueued_snoc lost_snoc batches_snoc map_app concat_app app_nil_r : etrace.

(** ** The invariant *)

(** Where the events are, from a state on in which [b] and [ch] were the open batch and the queue. *)
Definition conserved (b ch : list TEvent) (ls : list elabel) (e : Emitter) : Prop :=
  b ++ ch ++ enqueued ls = concat (map fst (batches ls)) ++ e.(em_batch) ++ e.(em_ch).

Definition accounted (ls : list elabel) (e : Emitter) : Prop :=
  emitted ls ≡ₚ enqueued ls ++ e.(em_waiting) ++ lost ls.

Definition count {A} (l : list A) : Z := uwrap64 (Z.of_nat (length l)).

Definition counted (ls : list elabel) (e : Emitter) : Prop :=
  e.(em_dropped) = count (lost ls) /\ e.(em_sent) = count (with_fate is_sent (batches ls)) /\
  e.(em_failed) = count (with_fate is_failed (batches ls)).

Definition bounded (ls : list elabel) (e : Emitter) : Prop :=
  0 < e.(em_cfg).(ec_BatchSize) /\
  Z.of_nat (length e.(em_ch)) <= e.(em_cfg).(ec_QueueCapacity) /\
  (alive e = true -> Z.of_nat (length e.(em_batch)) < e.(em_cfg).(ec_BatchSize)) /\
  Forall (fun ev => terminalKinds ev.(tv_Kind) = true) e.(em_waiting) /\
  Forall (fun b => 0 < Z.of_nat (length b.1) <= e.(em_cfg).(ec_BatchSize)) (batches ls).

(** A batch is refused exactly when one of its events does not marshal. *)
Definition fate (b : list TEvent * shipment) : Prop := is_refused b.2 = negb (forallb marshals b.1).

(** [uwrap64] of a running sum. *)
Lemma uwrap64_add a b : uwrap64 (uwrap64 a + b) = uwrap64 (a + b).
Proof. unfold uwrap64. by rewrite Zplus_mod_idemp_l. Qed.

Lemma count_app {A} (l k : list A) : uwrap64 (count l + Z.of_nat (length k)) = count (l ++ k).
Proof. unfold count. by rewrite uwrap64_add, length_app, Nat2Z.inj_add. Qed.

(** ** What a shipment changes *)

Lemma writeFallback_frame written batch e : let e' := writeFallback written batch e in
  e'.(em_cfg) = e.(em_cfg) /\ e'.(em_ch) = e.(em_ch) /\ e'.(em_waiting) = e.(em_waiting) /\
  e'.(em_pc) = e.(em_pc) /\ e'.(em_dropped) = e.(em_dropped) /\ e'.(em_sent) = e.(em_sent) /\
  e'.(em_failed) = e.(em_failed).
Proof.
  cbv zeta. unfold writeFallback. destruct (negb _); [done|]. destruct (_ <? _); [done|].
  revert e. induction batch as [|ev batch IH]; intros e; [done|]. cbn [fold_left].
  exact (IH (set_counts _ _ _ _ _ e)).
Qed.

(** The counters after batch [b] had outcome [s]. *)
Definition counts_as (e e' : Emitter) (b : list TEvent) (s : shipment) : Prop :=
  let n := Z.of_nat (length b) in
  e'.(em_dropped) = e.(em_dropped) /\
  e'.(em_sent) = (if is_sent s then uwrap64 (e.(em_sent) + n) else e.(em_sent)) /\
  e'.(em_failed) = (if is_failed s then uwrap64 (e.(em_failed) + n) else e.(em_failed)).

Definition same_queues (e e' : Emitter) : Prop :=
  e'.(em_cfg) = e.(em_cfg) /\ e'.(em_ch) = e.(em_ch) /\ e'.(em_waiting) = e.(em_waiting).

(** Why the goroutine panics. *)
Definition crash_cause `{!UrlParse} (cfg : EmitterConfig) : Prop :=
  url_parses cfg.(ec_CollectorURL) = false \/ cfg.(ec_FlushInterval) <= 0.

Section run.
  Context {url_parser : UrlParse}.

Lemma ship_spec answers written b e :
  match ship answers written b e with
  | Some (e', s) => counts_as e e' b s /\ same_queues e e' /\ e'.(em_pc) = e.(em_pc) /\ fate (b, s)
  | None => url_parses e.(em_cfg).(ec_CollectorURL) = false
  end.
Proof.
  unfold ship, fate, with_request. destruct (negb (forallb marshals b)) eqn:Em; [by repeat split; cbn; rewrite ?Em|].
  destruct (url_parses _); [|done]. destruct (fst answers || snd answers); [by repeat split; cbn; rewrite ?Em|].
  destruct (writeFallback_frame written b
    (set_counts e.(em_dropped) e.(em_sent) (uwrap64 (e.(em_failed) + Z.of_nat (length b)))
       e.(em_fallback) e.(em_fbBytes) e)) as (H1&H2&H3&H4&H5&H6&H7).
  unfold counts_as, same_queues. cbv zeta. cbn [fst snd]. rewrite H1, H2, H3, H4, H5, H6, H7, Em. done.
Qed.

Definition flush_effect (e e' : Emitter) (o : flushed) : Prop :=
  same_queues e e' /\
  match o with
  | FlNone => e.(em_batch) = [] /\ e' = e
  | FlShipped b s => b = e.(em_batch) /\ b <> [] /\ e'.(em_batch) = [] /\ counts_as e e' b s /\ e'.(em_pc) = e.(em_pc) /\ fate (b, s)
  | FlPanicked => e' = set_loop e.(em_stop) LoopCrashed e /\ url_parses e.(em_cfg).(ec_CollectorURL) = false
  end.

Lemma flush_spec answers written e e' o : flush answers written e = (e', o) -> flush_effect e e' o.
Proof.
  unfold flush, flush_effect. destruct e.(em_batch) as [|ev b] eqn:Eb; [by intros [= <- <-]|].
  pose proof (ship_spec answers written (ev :: b) e) as Hs. destruct (ship _ _ _ _) as [[e1 s]|].
  - intros [= <- <-]. destruct Hs as (H1 & H2 & H3 & H4). done.
  - by intros [= <- <-].
Qed.

(** ** Preservation *)

Definition emitter_inv (b ch : list TEvent) (ls : list elabel) (e : Emitter) : Prop :=
  conserved b ch ls e /\ Forall fate (batches ls).

(** A turn that has moved the queue to [ch'] and the batch to [b']. *)
Lemma inv_flush answers written b ch ls e e' o :
  emitter_inv b ch ls e -> flush answers written e = (e', o) -> emitter_inv b ch (ls ++ [LTurn o]) e'.
Proof.
  intros [Hc Hf] ((_ & F2 & _) & F)%flush_spec. unfold emitter_inv, conserved in *.
  autorewrite with etrace. destruct o as [|x s|]; cbn; rewrite ?app_nil_r, F2.
  - by destruct F as [_ ->].
  - destruct F as (-> & _ & -> & _ & _ & F). rewrite Hc, <- app_assoc. split; [done|]. apply Forall_app. by split; [|constructor].
  - by destruct F as [-> _].
Qed.

Lemma inv_finish answers written b ch ls e e' o :
  emitter_inv b ch ls e -> finish answers written e = (e', o) -> emitter_inv b ch (ls ++ [LTurn o]) e'.
Proof.
  unfold finish. intros Hi. destruct (flush answers written e) as [e1 o1] eqn:E. intros [= <- <-].
  pose proof (inv_flush _ _ _ _ _ _ _ _ Hi E) as H1. by destruct o1.
Qed.

Lemma inv_receive answers written b ch ls ev rest e e' o :
  emitter_inv b ch ls e -> e.(em_ch) = ev :: rest -> receive answers written ev rest e = (e', o) ->
  emitter_inv b ch (ls ++ [LTurn o]) e'.
Proof.
  intros [Hc Hf] Hch. unfold receive. set (e1 := set_queues rest _ _ e).
  assert (H1 : emitter_inv b ch ls e1) by (split; [|done]; unfold conserved; rewrite Hc, Hch; cbn; by rewrite <- app_assoc).
  destruct (_ <=? _); [by apply inv_flush|]. intros [= <- <-]. unfold emitter_inv, conserved in *. by autorewrite with etrace.
Qed.

Lemma inv_step b ch ls e l e' : emitter_inv b ch ls e -> estep e l e' -> emitter_inv b ch (ls ++ [l]) e'.
Proof.
  intros Hi Hs. pose proof Hi as [Hc Hf].
  destruct Hs as [e H|now ev e e' o ev' _ H|now ev e e' _ H|e w1 ev w2 _ H1 H2|e w1 ev w2 _ H|e _ _ _
    |e ev rest answers written e' o _ H1 H2|e answers written e' o _ H|e _ _|e answers written e' o _ H1 H2];
    try (by eapply inv_flush); try (by eapply inv_receive); try (by eapply inv_finish);
    unfold emitter_inv, conserved in *; autorewrite with etrace; cbn; rewrite ?app_nil_r; try done.
  - unfold Start. destruct (negb _); done.
  - unfold Emit in H. destruct (negb _); [done|]. cbv zeta in H.
    destruct (has_room e); [|destruct (terminalKinds _)]; injection H as <- <- <-; cbn; rewrite ?app_nil_r; [|done..].
    split; [|done]. rewrite !app_assoc in *. by rewrite Hc.
  - unfold Emit in H. destruct (negb _); [by injection H as <-|]. destruct (has_room e); [done|]. cbv zeta in H. by destruct (terminalKinds _).
  - split; [|done]. rewrite !app_assoc in *. by rewrite Hc.
Qed.

Lemma inv_steps e ls e' : esteps e ls e' -> emitter_inv e.(em_batch) e.(em_ch) ls e'.
Proof.
  intros H. induction H as [e|e1 ls e2 l e3 H IH Hs]; [|by eapply inv_step].
  split; [|constructor]. unfold conserved. cbn. by rewrite app_nil_r.
Qed.

(** The same for the counters, the bounds and the crash. *)
Record counts_inv (ls : list elabel) (e : Emitter) : Prop := {
  ci_accounted : accounted ls e;
  ci_counted : counted ls e;
  ci_bounded : bounded ls e;
  ci_crash : alive e = false -> crash_cause e.(em_cfg);
}.

Lemma alive_false e : alive e = false <-> e.(em_pc) = LoopCrashed.
Proof. unfold alive. by destruct (em_pc e). Qed.

Lemma counted_turn ls e e' o : counted ls e -> flush_effect e e' o -> counted (ls ++ [LTurn o]) e'.
Proof.
  intros (K1 & K2 & K3) [_ F]. unfold counted. autorewrite with etrace. destruct o as [|b s|]; cbn; rewrite ?app_nil_r.
  - by destruct F as [_ ->].
  - destruct F as (_ & _ & _ & (G1 & G2 & G3) & _). rewrite G1, G2, G3, K1, K2, K3, !with_fate_snoc.
    destruct s; cbn; rewrite ?count_app, ?app_nil_r; done.
  - by destruct F as [-> _].
Qed.

(** The bound on the batch is met again by the flush of a full one. *)
Lemma counts_flush answers written ls e e' o :
  counts_inv ls (set_queues e.(em_ch) e.(em_waiting) [] e) -> alive e = true ->
  Z.of_nat (length e.(em_batch)) <= e.(em_cfg).(ec_BatchSize) ->
  flush answers written e = (e', o) -> counts_inv (ls ++ [LTurn o]) e'.
Proof.
  intros [HA HC (B1 & B2 & B3 & B4 & B5) HK] Hal Hb Hf%flush_spec. cbn in *.
  pose proof (counted_turn ls e e' o HC Hf) as HC'. destruct Hf as ((F1 & F2 & F3) & F).
  split; [|done| |].
  - unfold accounted in *. autorewrite with etrace. rewrite F3. cbn. by rewrite ?app_nil_r.
  - unfold bounded. autorewrite with etrace. rewrite F1, F2, F3. destruct o as [|b s|]; cbn; rewrite ?app_nil_r.
    + destruct F as [Fb ->]. rewrite Fb. repeat split; [done..|]. done.
    + destruct F as (-> & Hne & -> & _). repeat split; [done..|]. apply Forall_app. split; [done|]. constructor; [cbn|constructor].
      destruct (em_batch e); [done|]. cbn in *. lia.
    + by destruct F as [-> _].
  - intros Ha. destruct o as [|b s|].
    + destruct F as [_ ->]. congruence.
    + destruct F as (_ & _ & _ & _ & Hpc & _). unfold alive in *. rewrite Hpc in Ha. congruence.
    + destruct F as [-> Hu]. by left.
Qed.

Lemma counts_open ls e : counts_inv ls e -> counts_inv ls (set_queues e.(em_ch) e.(em_waiting) [] e).
Proof. intros [HA HC (B1 & B2 & B3 & B4 & B5) HK]. split; [done|done| |done]. repeat split; try done. Qed.

Lemma has_room_lt e : has_room e = true -> Z.of_nat (length e.(em_ch)) < e.(em_cfg).(ec_QueueCapacity).
Proof. unfold has_room. apply Z.ltb_lt. Qed.

(** [Emit] at once, and a waiting call. *)
Lemma counts_emit now ls ev e e' ev' o :
  counts_inv ls e -> Emit now ev e = (e', Some (ev', o)) -> counts_inv (ls ++ [LEmit ev' o]) e'.
Proof.
  intros [HA (K1 & K2 & K3) (B1 & B2 & B3 & B4 & B5) HK]. unfold Emit. destruct (negb _); [done|]. cbv zeta.
  destruct (has_room e) eqn:Er; [apply has_room_lt in Er|destruct (terminalKinds _) eqn:Et]; intros [= <- <- <-];
    (split; unfold accounted, counted, bounded in *; autorewrite with etrace; cbn; rewrite ?app_nil_r; [|split_and!|split_and!|]; try done).
  - rewrite HA, <- !app_assoc. solve_Permutation.
  - rewrite length_app. cbn [length]. lia.
  - rewrite HA, <- !app_assoc. solve_Permutation.
  - apply Forall_app. by split; [|repeat constructor].
  - rewrite HA, <- !app_assoc. solve_Permutation.
  - rewrite K1. apply (count_app (lost ls) [_]).
Qed.

Lemma counts_wait_sent ls ev w1 w2 e :
  counts_inv ls e -> em_waiting e = w1 ++ ev :: w2 -> has_room e = true ->
  counts_inv (ls ++ [LSend ev]) (send ev (set_queues e.(em_ch) (w1 ++ w2) e.(em_batch) e)).
Proof.
  intros [HA (K1 & K2 & K3) (B1 & B2 & B3 & B4 & B5) HK] Hw Er%has_room_lt. rewrite Hw in *.
  apply Forall_app in B4 as [B41 [_ B42]%Forall_cons].
  split; unfold accounted, counted, bounded in *; autorewrite with etrace; cbn; rewrite ?app_nil_r; [|split_and!|split_and!|]; try done.
  - rewrite HA, Hw, <- !app_assoc. solve_Permutation.
  - rewrite length_app. cbn [length]. lia.
  - by apply Forall_app.
Qed.

Lemma counts_wait_dropped ls ev w1 w2 e :
  counts_inv ls e -> em_waiting e = w1 ++ ev :: w2 ->
  counts_inv (ls ++ [LDrop ev]) (drop_event (set_queues e.(em_ch) (w1 ++ w2) e.(em_batch) e)).
Proof.
  intros [HA (K1 & K2 & K3) (B1 & B2 & B3 & B4 & B5) HK] Hw. rewrite Hw in *.
  apply Forall_app in B4 as [B41 [_ B42]%Forall_cons].
  split; unfold accounted, counted, bounded in *; autorewrite with etrace; cbn; rewrite ?app_nil_r; [|split_and!|split_and!|]; try done.
  - rewrite HA, Hw, <- !app_assoc. solve_Permutation.
  - rewrite K1. apply (count_app (lost ls) [_]).
  - by apply Forall_app.
Qed.

Lemma counts_silent ls e : counts_inv ls e -> counts_inv (ls ++ [LSilent]) e.
Proof.
  intros [HA HC HB HK]. split; unfold accounted, counted, bounded in *; autorewrite with etrace; cbn; by rewrite ?app_nil_r.
Qed.

(** The goroutine moves on without touching the rest. *)
Lemma counts_loop ls stop pc e : counts_inv ls e -> alive e = true -> pc <> LoopCrashed \/ crash_cause e.(em_cfg) ->
  counts_inv ls (set_loop stop pc e).
Proof.
  intros [HA HC (B1 & B2 & B3 & B4 & B5) HK] Hal Hpc. split; [done|done| |].
  - repeat split; try done. intros _. by apply B3.
  - intros Ha%alive_false. cbn in *. by destruct Hpc.
Qed.

Lemma counts_receive answers written ls ev ch e e' o :
  counts_inv ls e -> alive e = true -> e.(em_ch) = ev :: ch -> receive answers written ev ch e = (e', o) ->
  counts_inv (ls ++ [LTurn o]) e'.
Proof.
  intros [HA HC (B1 & B2 & B3 & B4 & B5) HK] Hal Hch. unfold receive. set (e1 := set_queues ch _ _ e). specialize (B3 Hal).
  assert (L : Z.of_nat (length e1.(em_batch)) <= e1.(em_cfg).(ec_BatchSize)).
  { cbn. rewrite length_app. cbn [length]. lia. }
  assert (H1 : counts_inv ls (set_queues e1.(em_ch) e1.(em_waiting) [] e1)).
  { split; [done|done| |done]. repeat split; try done. cbn in *. rewrite Hch in B2. cbn [length] in B2. lia. }
  cbv zeta. change (em_cfg (set_queues _ _ _ e)) with e1.(em_cfg). destruct (Z.leb_spec (ec_BatchSize (em_cfg e1)) (Z.of_nat (length (em_batch e1)))) as [E|E].
  - by apply counts_flush.
  - intros [= <- <-]. destruct H1 as [HA1 HC1 (D1 & D2 & D3 & D4 & D5) HK1].
    split; unfold accounted, counted, bounded in *; autorewrite with etrace; cbn in *; by rewrite ?app_nil_r.
Qed.

Lemma counts_step ls e l e' : counts_inv ls e -> estep e l e' -> counts_inv (ls ++ [l]) e'.
Proof.
  intros I Hs. destruct Hs as [e H|now ev e e' o ev' _ H|now ev e e' _ H|e w1 ev w2 _ H1 H2|e w1 ev w2 _ H|e Ha _ _
    |e ev ch answers written e' o Hpc H1 H2|e answers written e' o Hpc H|e Hpc _|e answers written e' o Hpc H1 H2].
  - apply counts_silent. unfold Start. destruct (negb _); [done|].
    apply counts_loop; [done|unfold alive; by rewrite H|]. destruct (Z.leb_spec (ec_FlushInterval (em_cfg e)) 0); [by right; right|by left].
  - by eapply counts_emit.
  - unfold Emit in H. destruct (negb _); [injection H as <-; by apply counts_silent|].
    destruct (has_room e); [done|]. cbv zeta in H. by destruct (terminalKinds _).
  - by apply counts_wait_sent.
  - by apply counts_wait_dropped.
  - apply counts_silent, counts_loop; [done|done|left]. intros Hc. unfold alive in Ha. by rewrite Hc in Ha.
  - eapply counts_receive; [done| |done..]. unfold alive. by destruct Hpc as [-> | ->].
  - assert (Ha : alive e = true) by (unfold alive; by rewrite Hpc).
    eapply counts_flush; [by apply counts_open|done| |done]. by apply Z.lt_le_incl, (ci_bounded _ _ I).
  - apply counts_silent, counts_loop; [done|unfold alive; by rewrite Hpc|by left].
  - assert (Ha : alive e = true) by (unfold alive; by rewrite Hpc).
    unfold finish in H2. destruct (flush answers written e) as [e1 o1] eqn:E. injection H2 as <- <-.
    assert (H2 : counts_inv (ls ++ [LTurn o1]) e1).
    { eapply counts_flush; [by apply counts_open|done| |done]. by apply Z.lt_le_incl, (ci_bounded _ _ I). }
    destruct o1; [| |done]; (apply counts_loop; [done| |by left]); apply flush_spec in E as [_ E].
    + by destruct E as [_ ->].
    + destruct E as (_ & _ & _ & _ & Hp & _). unfold alive. by rewrite Hp, Hpc.
Qed.

Lemma counts_new cfg opened : counts_inv [] (New cfg opened).
Proof.
  assert (0 < (if cfg.(ec_BatchSize) <=? 0 then 128 else cfg.(ec_BatchSize))) by (destruct (_ <=? _) eqn:E; go_auto).
  assert (0 < (if cfg.(ec_QueueCapacity) <=? 0 then 10000 else cfg.(ec_QueueCapacity)))
    by (destruct (ec_QueueCapacity cfg <=? 0) eqn:E; go_auto).
  split; [constructor|by repeat split| |done]. repeat split; cbn; try done. lia.
Qed.

Lemma counts_steps cfg opened ls e : esteps (New cfg opened) ls e -> counts_inv ls e.
Proof.
  intros H. remember (New cfg opened) as e0 eqn:E0. induction H as [e1|e1 ls e2 l e3 H IH Hs]; subst.
  - apply counts_new.
  - by eapply counts_step; [apply IH|].
Qed.

(** ** What a run guarantees *)

(** C33: where every event is, after every interleaving of emitting, waiting, shipping and stopping.  The events that
    entered the queue are the events of the batches handed to [ship], then the open batch, then the queue, in that
    order: none is skipped, taken twice or reordered.  An event handed to [Emit] entered the queue, still waits, or
    was dropped, which [dropped] counts.  Of a batch handed to [ship], [json.Marshal] refused it (exactly when one of
    its events does not marshal: its events are gone and in no counter), or it was posted once or twice and counted by
    [sent] or, after two failures, by [failed]; a batch posted twice may have reached the collector twice.  The
    counters are modulo 2^64.  The goroutine panics only when the collector's address does not parse or the flush
    interval is not positive. *)
Theorem emitter_conserves cfg opened ls e :
  esteps (New cfg opened) ls e ->
  enqueued ls = concat (map fst (batches ls)) ++ e.(em_batch) ++ e.(em_ch) /\
  emitted ls ≡ₚ enqueued ls ++ e.(em_waiting) ++ lost ls /\
  Forall (fun '(b, s) => match s with ShipLost => forallb marshals b = false | _ => forallb marshals b = true end) (batches ls) /\
  e.(em_dropped) = count (lost ls) /\
  e.(em_sent) = count (with_fate is_sent (batches ls)) /\
  e.(em_failed) = count (with_fate is_failed (batches ls)) /\
  (alive e = false -> crash_cause e.(em_cfg)).
Proof.
  intros Hs. destruct (inv_steps _ _ _ Hs) as [Hc Hf], (counts_steps _ _ _ _ Hs) as [HA (K1 & K2 & K3) _ HK].
  split; [exact Hc|]. split; [done|]. split; [|done]. eapply Forall_impl; [exact Hf|]. intros [b s] Hb. unfold fate in Hb. cbn in Hb.
  by destruct s, (forallb marshals b).
Qed.

(** In every reachable state the queue holds at most its capacity, the open batch is smaller than the batch
    size, only terminal events wait, and every batch shipped so far was non-empty and at most the batch size. *)
Theorem emitter_bounded cfg opened ls e :
  esteps (New cfg opened) ls e ->
  Z.of_nat (length e.(em_ch)) <= e.(em_cfg).(ec_QueueCapacity) /\
  (alive e = true -> Z.of_nat (length e.(em_batch)) < e.(em_cfg).(ec_BatchSize)) /\
  Forall (fun ev => terminalKinds ev.(tv_Kind) = true) e.(em_waiting) /\
  Forall (fun b => 0 < Z.of_nat (length b.1) <= e.(em_cfg).(ec_BatchSize)) (batches ls).
Proof. intros [_ _ (_&B2&B3&B4&B5) _]%counts_steps. done. Qed.

(** ** The drain *)

(** The turns left once [stop] was seen. *)
Definition turns_left (e : Emitter) : nat := match e.(em_pc) with LoopDraining => S (length e.(em_ch)) | _ => 0 end.

(** What holds from the start of the drain on; [before] entered the queue until the goroutine returned. *)
Definition drain_inv (ls : list elabel) (e : Emitter) : Prop :=
  match e.(em_pc) with
  | LoopDraining => True
  | LoopExited => e.(em_batch) = [] /\ exists before, enqueued ls = before ++ e.(em_ch)
  | LoopCrashed => url_parses e.(em_cfg).(ec_CollectorURL) = false
  | LoopIdle | LoopRunning => False
  end.

Lemma flush_drain answers written e e' o : flush answers written e = (e', o) -> e.(em_pc) = LoopDraining ->
  e'.(em_ch) = e.(em_ch) /\
  match o with
  | FlPanicked => e'.(em_pc) = LoopCrashed /\ url_parses e'.(em_cfg).(ec_CollectorURL) = false
  | _ => e'.(em_pc) = LoopDraining /\ e'.(em_batch) = []
  end.
Proof.
  intros ((_ & Hch & _) & F)%flush_spec Hpc. split; [done|]. destruct o as [|x s|].
  - by destruct F as [Hb ->].
  - destruct F as (_ & _ & Hb & _ & Hp & _). by rewrite Hp.
  - by destruct F as [-> Hu].
Qed.

Lemma drain_step ls e l e' : drain_inv ls e -> estep e l e' ->
  drain_inv (ls ++ [l]) e' /\ (turns [l] + turns_left e' <= turns_left e + length (enqueued [l]))%nat.
Proof.
  intros Hi Hs. unfold drain_inv, turns_left in *.
  destruct Hs as [e H|now ev e e' o ev' _ H|now ev e e' _ H|e w1 ev w2 _ H1 H2|e w1 ev w2 _ H|e _ _ _
    |e ev rest answers written e' o Hpc H1 H2|e answers written e' o H _|e H _|e answers written e' o Hpc H1 H2].
  - by rewrite H in Hi.
  - unfold Emit in H. destruct (negb _); [done|]. cbv zeta in H.
    destruct (has_room e); [|destruct (terminalKinds _)]; injection H as <- <- <-; cbn; rewrite enqueued_snoc; cbn;
      (split; [|destruct (em_pc e); rewrite ?length_app; cbn; lia]); destruct (em_pc e); try done;
      destruct Hi as [Hb [bf Hbf]]; (split; [done|]); exists bf; rewrite Hbf, <- app_assoc, ?app_nil_r; done.
  - unfold Emit in H. destruct (negb _); [injection H as <-|destruct (has_room e); [done|]; cbv zeta in H; by destruct (terminalKinds _)].
    rewrite enqueued_snoc, app_nil_r. cbn. split; [done|lia].
  - rewrite enqueued_snoc. cbn. split; [|destruct (em_pc e); rewrite ?length_app; cbn; lia]. destruct (em_pc e); try done.
    destruct Hi as [Hb [bf Hbf]]. split; [done|]. exists bf. by rewrite Hbf, <- app_assoc.
  - rewrite enqueued_snoc, app_nil_r. cbn. split; [done|lia].
  - rewrite enqueued_snoc, app_nil_r. cbn. split; [done|lia].
  - destruct Hpc as [Hpc|Hpc]; rewrite Hpc in *; [done|]. rewrite H1. unfold receive in H2. cbv zeta in H2.
    destruct (_ <=? _); [|injection H2 as <- <-; cbn; rewrite Hpc; split; [done|lia]].
    apply flush_drain in H2 as [Hch H2]; [|done]. cbn in Hch |- *. destruct o; destruct H2 as [-> Hu]; rewrite ?Hch; (split; [done|lia]).
  - by rewrite H in Hi.
  - by rewrite H in Hi.
  - rewrite Hpc, H1. cbn [length]. unfold finish in H2. destruct (flush answers written e) as [e1 o1] eqn:E.
    apply flush_drain in E as [Hch E]; [|done]. rewrite H1 in Hch. injection H2 as <- <-.
    destruct o1; destruct E as [Hp Hu]; cbn; rewrite ?Hp, ?Hch; (split; [|lia]); try done; (split; [done|]);
      exists (enqueued ls); rewrite enqueued_snoc; done.
Qed.

Lemma drain_steps e ls e' : e.(em_pc) = LoopDraining -> esteps e ls e' ->
  drain_inv ls e' /\ (turns ls + turns_left e' <= turns_left e + length (enqueued ls))%nat.
Proof.
  intros Hpc H. induction H as [e|e1 ls e2 l e3 H IH Hs].
  - split; [unfold drain_inv; by rewrite Hpc|cbn; lia].
  - destruct (IH Hpc) as [Hi Hn], (drain_step _ _ _ _ (proj1 (IH Hpc)) Hs) as [Hi' Hn']. split; [done|].
    rewrite turns_snoc, enqueued_snoc, length_app. lia.
Qed.

(** A turn of the drain can always be taken: it never waits. *)
Lemma drain_ready answers written e : e.(em_pc) = LoopDraining ->
  estep e (LTurn (drain_turn answers written e).2) (drain_turn answers written e).1.
Proof.
  intros Hpc. unfold drain_turn. destruct (em_ch e) as [|ev ch] eqn:Hch.
  - destruct (finish answers written e) as [e' o] eqn:E. by eapply step_exit.
  - destruct (receive answers written ev ch e) as [e' o] eqn:E. eapply step_receive; [by right|done|done].
Qed.

(** C36: the drain after [Stop], with [Emit] going on beside it.  Once the goroutine has seen [stop] it takes, in
    whatever interleaving, at most one turn for every event that was queued or enters the queue meanwhile, and one more;
    until it has returned a next turn is always possible, whatever the collector answers.  When it has returned, its
    batch is empty and what it has handed to [ship] since is exactly the open batch, the queue and the events that
    entered before it returned, in order (acknowledged, failed or refused by [json.Marshal]: see the counters); only
    events that entered the queue after that are left in it.  It panics only when the collector's address does not
    parse. *)
Theorem stop_drains e ls e' :
  e.(em_pc) = LoopDraining -> esteps e ls e' ->
  (turns ls <= length e.(em_ch) + length (enqueued ls) + 1)%nat /\
  match e'.(em_pc) with
  | LoopDraining => forall answers written, estep e' (LTurn (drain_turn answers written e').2) (drain_turn answers written e').1
  | LoopExited => e'.(em_batch) = [] /\ exists before, enqueued ls = before ++ e'.(em_ch) /\
      concat (map fst (batches ls)) = e.(em_batch) ++ e.(em_ch) ++ before
  | LoopCrashed => url_parses e'.(em_cfg).(ec_CollectorURL) = false
  | LoopIdle | LoopRunning => False
  end.
Proof.
  intros Hpc Hs. destruct (drain_steps e ls e' Hpc Hs) as [Hi Hn], (inv_steps _ _ _ Hs) as [Hc _].
  split; [unfold turns_left in *; rewrite Hpc in Hn; lia|]. unfold drain_inv in Hi. destruct (em_pc e') eqn:E; try done.
  - intros answers written. by apply drain_ready.
  - destruct Hi as [Hb [before Hbf]]. split; [done|]. exists before. split; [done|]. unfold conserved in Hc.
    rewrite Hb, Hbf in Hc. cbn [app] in Hc. rewrite !app_assoc in Hc. apply app_inv_tail in Hc. by rewrite <- Hc, <- app_assoc.
Qed.
End run.

(** ** The fallback file *)

Lemma writeFallback_bytes written batch e L :
  e.(em_fbBytes) <= maxFallback -> 0 <= e.(em_fbBytes) -> (forall ev, 0 <= written ev <= L) ->
  maxFallback + Z.of_nat (length batch) * L < i64_max ->
  e.(em_fbBytes) <= (writeFallback written batch e).(em_fbBytes) <= e.(em_fbBytes) + Z.of_nat (length batch) * L.
Proof.
  intros H1 H2 HL. unfold writeFallback. destruct (negb _); [intros; pose proof (HL (Build_TEvent "" "" "" "" "" "" "" 0 [])); nia|].
  rewrite (proj2 (Z.ltb_ge _ _)) by done. revert H1 H2. generalize maxFallback as M. intros M. revert M e.
  induction batch as [|ev batch IH]; intros M e H1 H2 Hb; cbn [fold_left length] in *; [lia|].
  pose proof (HL ev). rewrite Nat2Z.inj_succ in *.
  specialize (IH (M + L) (set_counts e.(em_dropped) e.(em_sent) e.(em_failed) (uwrap64 (e.(em_fallback) + 1))
               (wrap64 (e.(em_fbBytes) + written ev)) e)). cbn in IH.
  rewrite wrap64_id in IH by (unfold in_i64, i64_min, i64_max in *; nia). cbn in *. rewrite wrap64_id by (unfold in_i64, i64_min, i64_max in *; nia). nia.
Qed.

(** The fallback file grows, over a whole run that starts at most at the bound, by batches until its counted
    size exceeds 64 MiB, and not once more: with events of at most [L] bytes it never exceeds the bound by more
    than one batch. *)
Theorem fallback_bounded written batches L n e :
  0 <= e.(em_fbBytes) <= maxFallback + n * L -> (forall ev, 0 <= written ev <= L) ->
  Forall (fun b => Z.of_nat (length b) <= n) batches -> maxFallback + n * L < i64_max ->
  0 <= (fold_left (fun e b => writeFallback written b e) batches e).(em_fbBytes) <= maxFallback + n * L.
Proof.
  intros He HL Hb Hn. revert e He. induction Hb as [|b bs Hb _ IH]; intros e He; [done|]. cbn [fold_left].
  apply IH. destruct (Z_lt_le_dec maxFallback e.(em_fbBytes)) as [H|H].
  - unfold writeFallback. destruct (negb _); [done|]. by rewrite (proj2 (Z.ltb_lt _ _)).
  - pose proof (writeFallback_bytes written b e L H (proj1 He) HL). pose proof (HL (Build_TEvent "" "" "" "" "" "" "" 0 [])). nia.
Qed.

(** A batch one event of which cannot be marshalled is gone: no counter changes and nothing is written. *)
Lemma unmarshalable_lost `{!UrlParse} answers written batch e :
  forallb marshals batch = false -> ship answers written batch e = Some (e, ShipLost).
Proof. intros Hm. unfold ship. by rewrite Hm. Qed.

(** ** A run: a full queue drops one event, a terminal event waits, [Stop] drains *)

#[local] Existing Instance control_free.

Definition small_config : EmitterConfig :=
  {| ec_Enabled := true; ec_CollectorURL := "http://c/"; ec_BatchSize := 2; ec_FlushInterval := 500 * millisecond;
     ec_QueueCapacity := 1; ec_RequestTimeout := 500 * millisecond; ec_LocalFallbackPath := ""; ec_Source := "router" |}.
Definition event_of (kind : string) : TEvent :=
  {| tv_Kind := kind; tv_Source := ""; tv_RequestID := "r"; tv_RouteID := ""; tv_BackendID := ""; tv_HostID := "";
     tv_DeviceID := ""; tv_Wall := 7; tv_Fields := [] |}.

Definition started : Emitter := Start (New small_config false).
Definition after_emits : Emitter :=
  let e := (Emit 1 (event_of "REQUEST_STARTED") started).1 in
  let e := (Emit 2 (event_of "ROUTE_SELECTED") e).1 in
  (Emit 3 (event_of "REQUEST_COMPLETED") e).1.
Definition emit_labels : list elabel :=
  [LEmit (stamp small_config 1 (event_of "REQUEST_STARTED")) Sent;
   LEmit (stamp small_config 2 (event_of "ROUTE_SELECTED")) Dropped;
   LEmit (stamp small_config 3 (event_of "REQUEST_COMPLETED")) Waits].

Lemma after_emits_run : esteps (New small_config false) (LSilent :: emit_labels) after_emits.
Proof.
  pose (e1 := (Emit 1 (event_of "REQUEST_STARTED") started).1). pose (e2 := (Emit 2 (event_of "ROUTE_SELECTED") e1).1).
  assert (H0 : estep (New small_config false) LSilent started) by exact (step_start (New small_config false) eq_refl).
  assert (H1 : estep started (LEmit (stamp small_config 1 (event_of "REQUEST_STARTED")) Sent) e1)
    by exact (step_emit 1 (event_of "REQUEST_STARTED") started e1 _ _ eq_refl eq_refl).
  assert (H2 : estep e1 (LEmit (stamp small_config 2 (event_of "ROUTE_SELECTED")) Dropped) e2)
    by exact (step_emit 2 (event_of "ROUTE_SELECTED") e1 e2 _ _ eq_refl eq_refl).
  assert (H3 : estep e2 (LEmit (stamp small_config 3 (event_of "REQUEST_COMPLETED")) Waits) after_emits)
    by exact (step_emit 3 (event_of "REQUEST_COMPLETED") e2 after_emits _ _ eq_refl eq_refl).
  exact (esteps_step _ [_; _; _] e2 _ _ (esteps_step _ [_; _] e1 _ _ (esteps_step _ [_] started _ _
    (esteps_step _ [] _ _ _ (esteps_refl _) H0) H1) H2) H3).
Qed.

Lemma emitter_conserves_witness :
  exists ls e, enqueued ls = concat (map fst (batches ls)) ++ e.(em_batch) ++ e.(em_ch) /\
    length e.(em_ch) = 1%nat /\ length e.(em_waiting) = 1%nat /\ length (lost ls) = 1%nat.
Proof.
  exists (LSilent :: emit_labels), after_emits.
  split; [exact (proj1 (emitter_conserves small_config false _ _ after_emits_run))|by vm_compute].
Defined.

Lemma emitter_bounded_witness :
  Z.of_nat (length after_emits.(em_ch)) <= after_emits.(em_cfg).(ec_QueueCapacity) /\ has_room after_emits = false.
Proof.
  split; [exact (proj1 (emitter_bounded small_config false _ _ after_emits_run))|by vm_compute].
Defined.

(** [stop] is seen; the queued event is received, and the waiting call gets room before the next turn. *)
Definition drain_start : Emitter := set_loop true LoopDraining after_emits.
Definition accepted (_ : TEvent) : Z := 0.
Definition drain_first : Emitter := (drain_turn (true, true) accepted drain_start).1.
Definition drain_entered : Emitter :=
  send (stamp small_config 3 (event_of "REQUEST_COMPLETED")) (set_queues drain_first.(em_ch) [] drain_first.(em_batch) drain_first).
Definition drain_second : Emitter := (drain_turn (true, true) accepted drain_entered).1.
Definition drain_last : Emitter := (drain_turn (true, true) accepted drain_second).1.

Lemma stop_drains_witness :
  exists ls, esteps drain_start ls drain_last /\ turns ls = 3%nat /\ drain_last.(em_batch) = [] /\
    concat (map fst (batches ls)) = [stamp small_config 1 (event_of "REQUEST_STARTED"); stamp small_config 3 (event_of "REQUEST_COMPLETED")].
Proof.
  set (ls := [LTurn (drain_turn (true, true) accepted drain_start).2; LSend (stamp small_config 3 (event_of "REQUEST_COMPLETED"));
              LTurn (drain_turn (true, true) accepted drain_entered).2; LTurn (drain_turn (true, true) accepted drain_second).2]).
  assert (Hr : esteps drain_start ls drain_last).
  { pose proof (drain_ready (true, true) accepted drain_start eq_refl) as H1.
    pose proof (step_wait_sent drain_first [] (stamp small_config 3 (event_of "REQUEST_COMPLETED")) [] eq_refl eq_refl eq_refl) as H2.
    pose proof (drain_ready (true, true) accepted drain_entered eq_refl) as H3.
    pose proof (drain_ready (true, true) accepted drain_second eq_refl) as H4.
    exact (esteps_step _ [_; _; _] _ _ _ (esteps_step _ [_; _] _ _ _ (esteps_step _ [_] _ _ _
      (esteps_step _ [] _ _ _ (esteps_refl _) H1) H2) H3) H4). }
  exists ls. split; [exact Hr|]. split; [by vm_compute|].
  destruct (stop_drains drain_start ls drain_last eq_refl Hr) as [_ H]. change (em_pc drain_last) with LoopExited in H.
  destruct H as (Hb & before & He & Hc). split; [exact Hb|]. rewrite Hc.
  change (em_ch drain_last) with (@nil TEvent) in He. rewrite app_nil_r in He. rewrite <- He. by vm_compute.
Defined.
