(* ===== verification/Exec.v ===== *)
(** * Running vendor tools ([internal/exec/exec.go])

    The capped capture of a child's output and the result of a run.  What the child writes, how it
    ended and whether the deadline passed are inputs. *)

From stdpp Require Import base tactics numbers option list strings.
From S2P Require Import Prelude GoText GoTime.
Open Scope go_scope.

Record Result := {
  r_Stdout : string;
  r_Stderr : string;
  r_ExitCode : Z;
  r_Err : option string;
  r_Duration : Z;
  r_TimedOut : bool;
  r_Truncated : bool;
}.

Definition maxOutput : Z := 2 ^ 20.

Record boundedBuffer := { bb_buf : string; bb_limit : Z; bb_truncated : bool }.

Definition stake (n : Z) (s : string) : string := String.substring 0 (Z.to_nat n) s.

(** The buffer afterwards and the count reported. *)
Definition Write (b : boundedBuffer) (p : string) : boundedBuffer * Z :=
  if b.(bb_limit) <=? slength b.(bb_buf)
  then ({| bb_buf := b.(bb_buf); bb_limit := b.(bb_limit); bb_truncated := true |}, slength p)
  else
    let remaining := b.(bb_limit) - slength b.(bb_buf) in
    if remaining <? slength p
    then ({| bb_buf := (b.(bb_buf) +:+ stake remaining p)%stdpp; bb_limit := b.(bb_limit); bb_truncated := true |}, slength p)
    else ({| bb_buf := (b.(bb_buf) +:+ p)%stdpp; bb_limit := b.(bb_limit); bb_truncated := b.(bb_truncated) |}, slength p).

Definition new_buffer : boundedBuffer := {| bb_buf := ""; bb_limit := maxOutput; bb_truncated := false |}.
Definition write_all (b : boundedBuffer) (chunks : list string) : boundedBuffer :=
  fold_left (fun b p => fst (Write b p)) chunks b.

(** How [cmd.Run] ended: no error, an [ExitError], another error (the tool could not be started). *)
Inductive run_end := RunOk | RunExit (code : Z) (text : string) | RunFailed (text : string).

Definition Run (out err : list string) (ended : run_end) (deadline : bool) (dur : Z) : Result :=
  let out := write_all new_buffer out in
  let errb := write_all new_buffer err in
  let result code e timedOut :=
    {| r_Stdout := out.(bb_buf); r_Stderr := errb.(bb_buf); r_ExitCode := code; r_Err := e; r_Duration := dur;
       r_TimedOut := timedOut; r_Truncated := out.(bb_truncated) || errb.(bb_truncated) |} in
  if deadline then result (-1) (Some "context deadline exceeded"%string) true
  else match ended with
  | RunOk => result 0 None false
  | RunExit code text => result code (Some text) false
  | RunFailed text => result (-1) (Some text) false
  end.

(** The same under the caller's context: [deadline] says whether the deadline ended it. *)
Definition RunCtx (out err : list string) (ended : run_end) (deadline : bool) (dur : Z) : Result :=
  Run out err ended deadline dur.

(** [exec.LookPath]: the path, if the tool is found. *)
Definition LookPath (found : option string) : string * bool :=
  match found with Some p => (p, true) | None => (""%string, false) end.

(** ** Facts *)

Fixpoint concat_all (chunks : list string) : string :=
  match chunks with [] => ""%string | c :: cs => (c +:+ concat_all cs)%stdpp end.

Lemma slength_app s t : slength (s +:+ t)%stdpp = slength s + slength t.
Proof.
  unfold slength. induction s as [|c s IH]; [done|].
  change ((String c s +:+ t)%stdpp) with (String c (s +:+ t)%stdpp). cbn [String.length]. lia.
Qed.

Lemma stake_all n s : slength s <= n -> stake n s = s.
Proof.
  unfold slength, stake. revert n. induction s as [|c s IH]; intros n H; [by destruct (Z.to_nat n)|].
  cbn [String.length] in H. destruct (Z.to_nat n) as [|k] eqn:E; [lia|]. cbn [String.substring]. f_equal.
  rewrite <- (IH (Z.of_nat k)) at 2; [|lia]. by rewrite Nat2Z.id.
Qed.

Lemma stake_app_ge n s t : slength s <= n -> stake n (s +:+ t)%stdpp = (s +:+ stake (n - slength s) t)%stdpp.
Proof.
  revert n. induction s as [|c s IH]; intros n H.
  - change (slength "") with 0. by rewrite Z.sub_0_r.
  - change ((String c s +:+ t)%stdpp) with (String c (s +:+ t)%stdpp).
    change ((String c s +:+ stake (n - slength (String c s)) t)%stdpp) with (String c (s +:+ stake (n - slength (String c s)) t)%stdpp).
    unfold slength in H. cbn [String.length] in H. unfold stake at 1.
    destruct (Z.to_nat n) as [|k] eqn:E; [lia|]. cbn [String.substring]. f_equal.
    specialize (IH (Z.of_nat k)). unfold stake at 1 in IH. rewrite Nat2Z.id in IH. rewrite IH by (unfold slength in *; lia).
    do 2 f_equal. unfold slength. cbn [String.length]. lia.
Qed.

Lemma stake_app_le n s t : n <= slength s -> stake n (s +:+ t)%stdpp = stake n s.
Proof.
  unfold slength, stake. revert n. induction s as [|c s IH]; intros n H.
  - cbn in H. replace (Z.to_nat n) with 0%nat by lia. change (("" +:+ t)%stdpp) with t. by destruct t.
  - change ((String c s +:+ t)%stdpp) with (String c (s +:+ t)%stdpp).
    destruct (Z.to_nat n) as [|k] eqn:E; [done|]. cbn [String.substring]. f_equal.
    specialize (IH (Z.of_nat k)). rewrite Nat2Z.id in IH. apply IH. cbn [String.length] in H. lia.
Qed.

Lemma slength_stake n s : 0 <= n <= slength s -> slength (stake n s) = n.
Proof.
  unfold slength, stake. revert n. induction s as [|c s IH]; intros n H; [cbn in H; by replace n with 0 by lia|].
  destruct (Z.to_nat n) as [|k] eqn:E; [cbn; lia|]. cbn [String.substring String.length] in *.
  specialize (IH (Z.of_nat k) ltac:(lia)). rewrite Nat2Z.id in IH. lia.
Qed.

(** What the buffer holds of the text written so far. *)
Definition captures (b : boundedBuffer) (text : string) : Prop :=
  b.(bb_buf) = stake b.(bb_limit) text /\ b.(bb_truncated) = (b.(bb_limit) <? slength text).

Lemma captures_write b text p :
  0 <= b.(bb_limit) -> p <> ""%string -> captures b text ->
  captures (fst (Write b p)) (text +:+ p)%stdpp /\ snd (Write b p) = slength p /\
  bb_limit (fst (Write b p)) = b.(bb_limit).
Proof.
  intros Hlim Hne [Hb Ht]. unfold Write. assert (Hp : 0 < slength p) by (destruct p; [done|unfold slength; cbn; lia]).
  destruct (Z.le_gt_cases (bb_limit b) (slength text)) as [Hge|Hlt].
  - assert (Hl : slength b.(bb_buf) = b.(bb_limit)) by (rewrite Hb; apply slength_stake; lia).
    rewrite (proj2 (Z.leb_le _ _)) by lia. split; [|done].
    unfold captures. cbn. rewrite stake_app_le, slength_app, (proj2 (Z.ltb_lt _ _)) by lia. done.
  - assert (Hl : b.(bb_buf) = text) by (rewrite Hb; apply stake_all; lia). rewrite Hl.
    rewrite (proj2 (Z.leb_gt _ _)) by lia. unfold captures.
    destruct (Z.ltb_spec (bb_limit b - slength text) (slength p)) as [Hs|Hs]; cbn;
      rewrite stake_app_ge, slength_app by lia; (split; [|done]).
    + by rewrite (proj2 (Z.ltb_lt _ _)) by lia.
    + rewrite stake_all, Ht, !(proj2 (Z.ltb_ge _ _)) by lia. done.
Qed.

Lemma captures_all chunks b text :
  0 <= b.(bb_limit) -> Forall (fun p => p <> ""%string) chunks -> captures b text ->
  captures (write_all b chunks) (text +:+ concat_all chunks)%stdpp /\ bb_limit (write_all b chunks) = b.(bb_limit).
Proof.
  intros Hl Hf. revert b text Hl. induction Hf as [|p ps Hp _ IH]; intros b text Hl Hc.
  - cbn [concat_all]. by rewrite sapp_nil_r.
  - cbn [concat_all]. destruct (captures_write b text p Hl Hp Hc) as (H1 & _ & H2).
    destruct (IH (fst (Write b p)) (text +:+ p)%stdpp ltac:(lia) H1) as [H3 H4].
    change (write_all b (p :: ps)) with (write_all (fst (Write b p)) ps). rewrite H4, H2. split; [|done].
    unfold captures in *. rewrite sapp_assoc. exact H3.
Qed.

(** Whatever a tool prints, in whatever pieces, the captured output is exactly its first MiB on each stream, and
    the result is marked truncated exactly when one of the streams was longer; and a run has an error text exactly
    when its exit code is not 0, a deadline always giving the code -1 and the timeout mark (for tools whose
    [ExitError] has a non-zero code, as it does). *)
Theorem run_bounded out err ended deadline dur
    (Hout : Forall (fun p => p <> ""%string) out) (Herr : Forall (fun p => p <> ""%string) err)
    (Hend : forall code text, ended = RunExit code text -> code <> 0) :
  let r := Run out err ended deadline dur in
  r.(r_Stdout) = stake maxOutput (concat_all out) /\ r.(r_Stderr) = stake maxOutput (concat_all err) /\
  slength r.(r_Stdout) <= maxOutput /\ slength r.(r_Stderr) <= maxOutput /\
  (r.(r_Truncated) = true <-> maxOutput < slength (concat_all out) \/ maxOutput < slength (concat_all err)) /\
  (r.(r_Err) = None <-> r.(r_ExitCode) = 0) /\ (r.(r_TimedOut) = true <-> deadline = true) /\
  (deadline = true -> r.(r_ExitCode) = -1).
Proof.
  assert (Hb : captures new_buffer "") by done. assert (Hm : 0 <= bb_limit new_buffer) by done.
  destruct (captures_all out new_buffer "" Hm Hout Hb) as [[O1 O2] O3].
  destruct (captures_all err new_buffer "" Hm Herr Hb) as [[E1 E2] E3].
  rewrite O3 in O1, O2. rewrite E3 in E1, E2. cbn [new_buffer bb_limit] in *.
  assert (Hlen : forall s, slength (stake maxOutput s) <= maxOutput).
  { intros s. destruct (Z.le_gt_cases (slength s) maxOutput); [by rewrite stake_all|].
    rewrite slength_stake; [done|]. unfold maxOutput in *. lia. }
  cbv zeta. assert (G : forall code e timedOut, let r :=
    {| r_Stdout := bb_buf (write_all new_buffer out); r_Stderr := bb_buf (write_all new_buffer err);
       r_ExitCode := code; r_Err := e; r_Duration := dur; r_TimedOut := timedOut;
       r_Truncated := bb_truncated (write_all new_buffer out) || bb_truncated (write_all new_buffer err) |} in
    r_Stdout r = stake maxOutput (concat_all out) /\ r_Stderr r = stake maxOutput (concat_all err) /\
    slength (r_Stdout r) <= maxOutput /\ slength (r_Stderr r) <= maxOutput /\
    (r_Truncated r = true <-> maxOutput < slength (concat_all out) \/ maxOutput < slength (concat_all err))).
  { intros code e timedOut. cbv zeta. cbn [r_Stdout r_Stderr r_Truncated]. rewrite O1, E1, O2, E2.
    rewrite orb_true_iff, !Z.ltb_lt. split_and!; try apply Hlen; done. }
  unfold Run. destruct deadline; [|destruct ended as [|code text|text]];
    destruct (G 0 None false) as (G1 & G2 & G3 & G4 & G5); cbn [r_Stdout r_Stderr r_Truncated] in *;
    cbn [r_Stdout r_Stderr r_Truncated r_Err r_ExitCode r_TimedOut]; (split_and!; [exact G1|exact G2|exact G3|exact G4|exact G5|..]);
    try (by split); try done.
  specialize (Hend code text eq_refl). by split.
Qed.

Lemma run_bounded_witness :
  Run ["ab"; "c"]%string ["GPU is lost."]%string (RunExit 15 "exit status 15") false second =
  {| r_Stdout := "abc"; r_Stderr := "GPU is lost."; r_ExitCode := 15; r_Err := Some "exit status 15"%string;
     r_Duration := second; r_TimedOut := false; r_Truncated := false |} /\
  slength "abc" <= maxOutput.
Proof.
  pose proof (run_bounded ["ab"; "c"]%string ["GPU is lost."]%string (RunExit 15 "exit status 15") false second
    ltac:(by repeat constructor) ltac:(by repeat constructor) ltac:(by intros ? ? [= <- _]))
    as (_ & _ & H & _).
  split; [by vm_compute|exact H].
Defined.
