(* ===== verification/Adapters.v ===== *)
(** * The adapter interface, the generic adapter and fault injection
    ([internal/adapters/adapter.go], [generic.go], [faultinject.go])

    What an adapter answers to the supervisor is a function of what the world answers to it: the results
    of the vendor tools, the control file, the clock.  [AdapterOps] is the interface of the source;
    [AdapterLaws] is what the supervisor may rely on. *)

From Stdlib Require Import Floats.SpecFloat Strings.Ascii.
From stdpp Require Import base tactics numbers option list strings.
From S2P Require Import Prelude GoFloat GoTime GoText GoStrconv Model Lifecycle Json Exec.
Open Scope go_scope.

(** ** Samples *)

(** [core.Health{Timestamp: now}] *)
Definition zero_health (now : Z) : Health :=
  {| h_Timestamp := now; h_HeartbeatOK := false; h_GPUVisible := false; h_GPUAccessible := false;
     h_UtilizationGPU := Unsup f64_zero; h_MemUsedBytes := Unsup 0; h_MemFreeBytes := Unsup 0;
     h_MemTotalBytes := Unsup 0; h_TemperatureC := Unsup f64_zero; h_PowerWatts := Unsup f64_zero;
     h_PowerLimitWatts := Unsup f64_zero; h_SMClockMHz := Unsup f64_zero; h_MemClockMHz := Unsup f64_zero;
     h_ComputeProcs := Unsup 0; h_EffectiveFreeMemRatio := f64_zero; h_ProbeLatencyMs := f64_zero;
     h_ProbeFailure := noProbeFailure; h_ECCUncorrectable := Unsup 0; h_ECCCorrectable := Unsup 0;
     h_XIDErrors := Unsup []; h_RASUncorrectable := Unsup 0; h_RASCorrectable := Unsup 0;
     h_UnsupportedFields := [] |}.

Definition markUnsupportedAll (h : Health) : Health :=
  {| h_Timestamp := h.(h_Timestamp); h_HeartbeatOK := h.(h_HeartbeatOK); h_GPUVisible := h.(h_GPUVisible);
     h_GPUAccessible := h.(h_GPUAccessible); h_UtilizationGPU := Unsup f64_zero; h_MemUsedBytes := Unsup 0;
     h_MemFreeBytes := Unsup 0; h_MemTotalBytes := Unsup 0; h_TemperatureC := Unsup f64_zero;
     h_PowerWatts := Unsup f64_zero; h_PowerLimitWatts := Unsup f64_zero; h_SMClockMHz := Unsup f64_zero;
     h_MemClockMHz := Unsup f64_zero; h_ComputeProcs := Unsup 0;
     h_EffectiveFreeMemRatio := h.(h_EffectiveFreeMemRatio); h_ProbeLatencyMs := h.(h_ProbeLatencyMs);
     h_ProbeFailure := h.(h_ProbeFailure); h_ECCUncorrectable := Unsup 0; h_ECCCorrectable := Unsup 0;
     h_XIDErrors := Unsup []; h_RASUncorrectable := Unsup 0; h_RASCorrectable := Unsup 0;
     h_UnsupportedFields := h.(h_UnsupportedFields) |}.

(** A sample that failed: latency, the declared field, the failure. *)
Definition with_failure (latency : f64) (field : string) (f : ProbeFailure) (h : Health) : Health :=
  {| h_Timestamp := h.(h_Timestamp); h_HeartbeatOK := h.(h_HeartbeatOK); h_GPUVisible := false;
     h_GPUAccessible := h.(h_GPUAccessible); h_UtilizationGPU := h.(h_UtilizationGPU);
     h_MemUsedBytes := h.(h_MemUsedBytes); h_MemFreeBytes := h.(h_MemFreeBytes); h_MemTotalBytes := h.(h_MemTotalBytes);
     h_TemperatureC := h.(h_TemperatureC); h_PowerWatts := h.(h_PowerWatts); h_PowerLimitWatts := h.(h_PowerLimitWatts);
     h_SMClockMHz := h.(h_SMClockMHz); h_MemClockMHz := h.(h_MemClockMHz); h_ComputeProcs := h.(h_ComputeProcs);
     h_EffectiveFreeMemRatio := h.(h_EffectiveFreeMemRatio); h_ProbeLatencyMs := latency; h_ProbeFailure := f;
     h_ECCUncorrectable := h.(h_ECCUncorrectable); h_ECCCorrectable := h.(h_ECCCorrectable);
     h_XIDErrors := h.(h_XIDErrors); h_RASUncorrectable := h.(h_RASUncorrectable);
     h_RASCorrectable := h.(h_RASCorrectable); h_UnsupportedFields := h.(h_UnsupportedFields) ++ [field] |}.

Definition failed_sample (now : Z) (latency : f64) (field : string) (f : ProbeFailure) : Health :=
  markUnsupportedAll (with_failure latency field f (zero_health now)).

(** [fmt.Sprintf("sample:exit=%d timedout=%v", ...)] *)
Definition exit_field (r : Result) : string :=
  ("sample:exit=" +:+ itoa r.(r_ExitCode) +:+ " timedout=" +:+ FormatBool r.(r_TimedOut))%stdpp.

(** [r.Err != nil || r.ExitCode != 0] *)
Definition failed (r : Result) : bool :=
  match r.(r_Err) with Some _ => true | None => negb (r.(r_ExitCode) =? 0) end.

(** The classification both vendors share: a timeout is soft, a marker in the lower-cased error output
    is hard, anything else is soft. *)
Definition classify_tool_failure (tool : string) (markers : list string) (timedOut : bool) (stderr : string) :
    ProbeFailure :=
  if timedOut
  then {| pf_Class := FailureSoft; pf_Reason := ReasonProbeTimeout; pf_Detail := (tool +:+ " timed out")%stdpp |}
  else if existsb (Contains (ToLower stderr)) markers
  then {| pf_Class := FailureHard; pf_Reason := ReasonDeviceDisappeared; pf_Detail := TrimSpace stderr |}
  else {| pf_Class := FailureSoft; pf_Reason := ReasonProbeFailure; pf_Detail := TrimSpace stderr |}.

(** ** The interface *)

Class AdapterOps (A : Type) := {
  ad_Answers : Type;
  ad_Vendor : A -> Vendor;
  ad_Available : A -> bool;
  ad_Sample : A -> ad_Answers -> string -> Health * string;
  ad_AccessProbe : A -> ad_Answers -> string -> bool;
}.

(** Every vendor field of a sample. *)
Definition all_unsupported (h : Health) : Prop :=
  h.(h_UtilizationGPU) = Unsup f64_zero /\ h.(h_MemUsedBytes) = Unsup 0 /\ h.(h_MemFreeBytes) = Unsup 0 /\
  h.(h_MemTotalBytes) = Unsup 0 /\ h.(h_TemperatureC) = Unsup f64_zero /\ h.(h_PowerWatts) = Unsup f64_zero /\
  h.(h_PowerLimitWatts) = Unsup f64_zero /\ h.(h_SMClockMHz) = Unsup f64_zero /\
  h.(h_MemClockMHz) = Unsup f64_zero /\ h.(h_ComputeProcs) = Unsup 0 /\ h.(h_ECCUncorrectable) = Unsup 0 /\
  h.(h_ECCCorrectable) = Unsup 0 /\ h.(h_XIDErrors) = Unsup [] /\ h.(h_RASUncorrectable) = Unsup 0 /\
  h.(h_RASCorrectable) = Unsup 0 /\ h.(h_EffectiveFreeMemRatio) = f64_zero.

Definition clean {T} (zero : T) (f : Field T) : Prop := Supported f = false -> Value f = zero.
Definition u64_field (f : Field Z) : Prop := clean 0 f /\ in_u64 (Value f).

(** A sample is honest: a value that is not supported is zero, counters fit their type, a visible device
    has no failure, and a device that is not visible has no values and says why. *)
Record honest (h : Health) : Prop := {
  hon_util : clean f64_zero h.(h_UtilizationGPU);
  hon_temp : clean f64_zero h.(h_TemperatureC);
  hon_power : clean f64_zero h.(h_PowerWatts) /\ clean f64_zero h.(h_PowerLimitWatts);
  hon_clocks : clean f64_zero h.(h_SMClockMHz) /\ clean f64_zero h.(h_MemClockMHz);
  hon_mem : u64_field h.(h_MemUsedBytes) /\ u64_field h.(h_MemFreeBytes) /\ u64_field h.(h_MemTotalBytes);
  hon_procs : clean 0 h.(h_ComputeProcs) /\ 0 <= Value h.(h_ComputeProcs);
  hon_errors : u64_field h.(h_ECCUncorrectable) /\ u64_field h.(h_ECCCorrectable) /\
    u64_field h.(h_RASUncorrectable) /\ u64_field h.(h_RASCorrectable);
  hon_visible : h.(h_GPUVisible) = true -> h.(h_ProbeFailure).(pf_Class) = FailureNone;
  hon_invisible : h.(h_GPUVisible) = false -> all_unsupported h /\ h.(h_UnsupportedFields) <> [];
}.

Class AdapterLaws A `{AdapterOps A} : Prop :=
  sample_honest : forall a w dev, honest (fst (ad_Sample a w dev)).

(** ** Generic *)

Inductive Generic := NewGeneric.

Definition generic_Sample (now : Z) (deviceID : string) : Health * string :=
  (markUnsupportedAll (with_failure f64_zero "all:no-vendor-tool" noProbeFailure (zero_health now)),
   ("generic adapter: no vendor GPU tooling on device " +:+ deviceID)%stdpp).

Definition generic_Discover : list Identity :=
  [{| id_SidecarInstanceID := ""; id_Hostname := ""; id_BackendID := ""; id_Vendor := VendorUnknown;
      id_DeviceID := "0"; id_GPUModel := "none"; id_GPUUUID := "generic-0"; id_DriverVersion := "";
      id_RuntimeVersion := ""; id_BootID := ""; id_SidecarVersion := "" |}].

#[export] Instance generic_ops : AdapterOps Generic := {|
  ad_Answers := Z;
  ad_Vendor _ := VendorUnknown;
  ad_Available _ := true;
  ad_Sample _ now dev := generic_Sample now dev;
  ad_AccessProbe _ _ _ := false |}.

(** ** Fault injection *)

(** The text helpers: the file's own [splitLines], [fields] and [atoiSafe]. *)
Fixpoint splitLines_from (s cur : string) : list string :=
  match s with
  | EmptyString => if String.eqb cur "" then [] else [cur]
  | String c s => if Ascii.eqb c lf then cur :: splitLines_from s "" else splitLines_from s (cur +:+ String c "")%stdpp
  end.
Definition splitLines (s : string) : list string := splitLines_from (to_valid s 0) "".

Fixpoint fields_of (s cur : string) : list string :=
  let flush := if String.eqb cur "" then [] else [cur] in
  match s with
  | EmptyString => flush
  | String c s =>
      if Ascii.eqb c " " || Ascii.eqb c (ascii_of_nat 9) then flush ++ fields_of s ""
      else fields_of s (cur +:+ String c "")%stdpp
  end.
Definition fields (s : string) : list string := fields_of s "".

Fixpoint atoi_from (s : string) (n : Z) : Z :=
  match s with
  | String c s => if is_digit c then atoi_from s (wrap64 (wrap64 (n * 10) + (byte_at c - 48))) else n
  | EmptyString => n
  end.
Definition atoiSafe (s : string) : Z := atoi_from s 0.

(** What the control file asks for: [""], ["soft"] or ["hard"], and a delay. *)
Inductive fault_mode := ModeNone | ModeSoft | ModeHard.

Fixpoint fault_of (lines : list string) (deviceID : string) : fault_mode * Z :=
  match lines with
  | [] => (ModeNone, 0)
  | line :: lines =>
      match fields line with
      | w :: d :: rest =>
          if negb (String.eqb d deviceID) then fault_of lines deviceID
          else if String.eqb w "fail" || String.eqb w "failsoft" then (ModeSoft, 0)
          else if String.eqb w "failhard" then (ModeHard, 0)
          else if String.eqb w "delay" then
            match rest with
            | ms :: _ => (ModeNone, wrap64 (atoiSafe ms * millisecond))
            | [] => fault_of lines deviceID
            end
          else fault_of lines deviceID
      | _ => fault_of lines deviceID
      end
  end.

(** [refresh]; [None] is a file that cannot be read. *)
Definition refresh (file : option string) (deviceID : string) : fault_mode * Z :=
  match file with Some s => fault_of (splitLines s) deviceID | None => (ModeNone, 0) end.

(** The fields [failing], [delayMs] and [device] are never read or written. *)
Record FaultInject (A : Type) := mkFaultInject { fi_inner : A; fi_file : string }.
Arguments mkFaultInject {A}. Arguments fi_inner {A}. Arguments fi_file {A}.

(** [WrapFaultInject]: [env] is GPU_SIDECAR_FAULT_FILE; [inl] is the adapter itself. *)
Definition WrapFaultInject {A} (inner : A) (env : string) : A + FaultInject A :=
  if String.eqb env "" then inl inner else inr (mkFaultInject inner env).

Definition soft_fault (now : Z) : Health * string :=
  (failed_sample now f64_zero "fault-injected:soft-probe-failure"
     {| pf_Class := FailureSoft; pf_Reason := ReasonProbeFailure; pf_Detail := "fault-injected soft failure (experiment)" |},
   "FAULT_INJECTED soft probe failure (experiment)"%string).
Definition hard_fault (now : Z) : Health * string :=
  (failed_sample now f64_zero "fault-injected:hard-device-gone"
     {| pf_Class := FailureHard; pf_Reason := ReasonDeviceDisappeared; pf_Detail := "fault-injected hard failure (experiment)" |},
   "FAULT_INJECTED hard device-gone (experiment)"%string).

(** The clock after the delay, the control file and what the world answers to the wrapped adapter. *)
Record FaultAnswers (W : Type) := { fa_now : Z; fa_file : option string; fa_inner : W }.
Arguments fa_now {W}. Arguments fa_file {W}. Arguments fa_inner {W}.

#[export] Instance fault_ops A `{AdapterOps A} : AdapterOps (FaultInject A) := {|
  ad_Answers := FaultAnswers (ad_Answers (A := A));
  ad_Vendor a := ad_Vendor a.(fi_inner);
  ad_Available a := ad_Available a.(fi_inner);
  ad_Sample a w dev :=
    match fst (refresh w.(fa_file) dev) with
    | ModeSoft => soft_fault w.(fa_now)
    | ModeHard => hard_fault w.(fa_now)
    | ModeNone => ad_Sample a.(fi_inner) w.(fa_inner) dev
    end;
  ad_AccessProbe a w dev :=
    match fst (refresh w.(fa_file) dev) with
    | ModeSoft | ModeHard => false
    | ModeNone => ad_AccessProbe a.(fi_inner) w.(fa_inner) dev
    end |}.
