(* ===== verification/Nvidia.v ===== *)
(** * The NVIDIA adapter ([internal/adapters/nvidia.go])

    Identity and health from the text of [nvidia-smi] and [dmesg].  The results of the tools and the
    clock are inputs. *)

From Stdlib Require Import Floats.SpecFloat Strings.Ascii.
From stdpp Require Import base tactics numbers option list strings.
From S2P Require Import Prelude GoFloat GoTime GoText GoStrconv Model Lifecycle Json Exec Adapters.
Open Scope go_scope.

(** The regular expression [xidRe] is [match_xid]. *)
Record NVIDIA := { nv_smiPath : string; nv_hasSMI : bool; nv_driver : string; nv_cuda : string }.

(** [found]: the path of nvidia-smi, if it is on PATH. *)
Definition NewNVIDIA (found : option string) : NVIDIA :=
  let '(p, ok) := LookPath found in {| nv_smiPath := p; nv_hasSMI := ok; nv_driver := ""; nv_cuda := "" |}.

(** ** Text *)

Definition splitCSV (s : string) : list string := map TrimSpace (split_on "," s).

Definition firstLine (s : string) : string :=
  let s := TrimSpace s in
  match cut_at (fun c => Ascii.eqb c lf) s with Some (l, _) => TrimSpace l | None => s end.

Definition parseF (s : string) : option f64 :=
  let s := TrimSpace s in
  if String.eqb s "" || HasPrefix s "[" || equal_fold s "N/A" then None else ParseFloat s.

Definition supF (s : string) : Field f64 := match parseF s with Some v => Sup v | None => Unsup f64_zero end.

(** The field and the declared name when it is not reported. *)
Definition supU (s name : string) : Field Z * list string :=
  match parseF s with
  | Some v => if f64_leb f64_zero v then (Sup (f64_to_u64 v), []) else (Unsup 0, [(name +:+ ":not-reported")%stdpp])
  | None => (Unsup 0, [(name +:+ ":not-reported")%stdpp])
  end.

Definition mibToBytes (v : option f64) : Field Z :=
  match v with
  | Some v => Sup (f64_to_u64 (f64_mul (f64_mul v (f64_of_Z 1024)) (f64_of_Z 1024)))
  | None => Unsup 0
  end.

(** ** Versions and discovery *)

Definition with_driver (d : string) (n : NVIDIA) : NVIDIA :=
  {| nv_smiPath := n.(nv_smiPath); nv_hasSMI := n.(nv_hasSMI); nv_driver := d; nv_cuda := n.(nv_cuda) |}.
Definition with_cuda (c : string) (n : NVIDIA) : NVIDIA :=
  {| nv_smiPath := n.(nv_smiPath); nv_hasSMI := n.(nv_hasSMI); nv_driver := n.(nv_driver); nv_cuda := c |}.

Definition DriverVersion (r : Result) (n : NVIDIA) : NVIDIA :=
  if negb (String.eqb n.(nv_driver) "") || negb n.(nv_hasSMI) then n
  else if r.(r_ExitCode) =? 0 then with_driver (firstLine r.(r_Stdout)) n else n.

(** The version in the first line of the banner that names it. *)
Fixpoint cuda_of (lines : list string) : option string :=
  match lines with
  | [] => None
  | line :: lines =>
      match after_first "CUDA Version:" line with
      | Some r => Some (TrimSpace (trim_right_of (fun c => Ascii.eqb c "|" || Ascii.eqb c " ") r))
      | None => cuda_of lines
      end
  end.
Definition RuntimeVersion (banner : Result) (n : NVIDIA) : NVIDIA :=
  if negb (String.eqb n.(nv_cuda) "") then n
  else match cuda_of (split_on lf banner.(r_Stdout)) with Some v => with_cuda v n | None => n end.

Definition nv_identity (f : list string) (runtime : string) : Identity :=
  {| id_SidecarInstanceID := ""; id_Hostname := ""; id_BackendID := ""; id_Vendor := VendorNVIDIA;
     id_DeviceID := nth 0 f ""%string; id_GPUModel := nth 2 f ""%string; id_GPUUUID := nth 1 f ""%string;
     id_DriverVersion := nth 3 f ""%string; id_RuntimeVersion := runtime; id_BootID := ""; id_SidecarVersion := "" |}.

(** The rows of the query; [banners]: the results the calls of [RuntimeVersion] get, one per row. *)
Fixpoint discover_rows (lines : list string) (banners : nat -> Result) (n : NVIDIA) : NVIDIA * list Identity :=
  match lines with
  | [] => (n, [])
  | line :: lines =>
      let f := splitCSV line in
      if (length f <? 4)%nat then discover_rows lines banners n
      else
        let n := RuntimeVersion (banners 0%nat) n in
        let '(n', ids) := discover_rows lines (fun k => banners (S k)) n in
        (n', nv_identity f n.(nv_cuda) :: ids)
  end.

(** The scanner's default line limit. *)
Definition max_token : Z := 64 * 1024.

(** [inl] is an error. *)
Definition Discover (r : Result) (banners : nat -> Result) (n : NVIDIA) : NVIDIA * (string + list Identity) :=
  if negb n.(nv_hasSMI) then (n, inl "nvidia-smi unavailable"%string)
  else match r.(r_Err) with
  | Some e => (n, inl ("nvidia-smi discover: " +:+ e)%stdpp)
  | None => let '(n, ids) := discover_rows (scan_lines max_token r.(r_Stdout)) banners n in (n, inr ids)
  end.

(** ** Health *)

Definition nv_markers : list string :=
  ["no devices were found"; "invalid device"; "unable to determine the device handle";
   "no devices found"; "device not found"; "gpu is lost"; "unknown device"].
Definition classifyNVFailure (timedOut : bool) (stderr : string) : ProbeFailure :=
  classify_tool_failure "nvidia-smi" nv_markers timedOut stderr.

Definition computeProcs (r : Result) : Field Z :=
  if failed r then Unsup 0
  else Sup (Z.of_nat (countb (fun line => negb (String.eqb (TrimSpace line) "")) (split_on lf r.(r_Stdout)))).

(** [NVRM: Xid \(PCI:[^)]*\): (\d+)] at the head of [s]: the number and the length of the match. *)
Definition match_xid (s : string) : option (string * nat) :=
  r ← after "NVRM: Xid (PCI:" s;
  '(_, r) ← cut_at (fun c => Ascii.eqb c ")") r;
  r ← after "): " r;
  let '(d, r) := take_digits r in
  if String.eqb d "" then None else Some (d, String.length s - String.length r)%nat.

(** All matches from the left, none overlapping another; [skip] bytes belong to the last match. *)
Fixpoint find_xids (s : string) (skip : nat) : list string :=
  match s with
  | EmptyString => []
  | String _ s' =>
      match skip with
      | S k => find_xids s' k
      | O => match match_xid s with
             | Some (d, w) => d :: find_xids s' (w - 1)
             | None => find_xids s' 0
             end
      end
  end.
Definition xidErrors (r : Result) : Field (list Z) :=
  if failed r then Unsup [] else Sup (omap atoi (find_xids r.(r_Stdout) 0)).

(** What the world answers to one sample: the clock, the time the query took, the query, the compute
    processes, the kernel log; and to the access probe. *)
Record NvAnswers := {
  na_now : Z;
  na_latency : Z;
  na_query : Result;
  na_apps : Result;
  na_dmesg : Result;
  na_access : Result;
}.

(** A complete row. *)
Definition nv_health (w : NvAnswers) (f : list string) : Health :=
  let free := mibToBytes (parseF (nth 5 f ""%string)) in
  let total := mibToBytes (parseF (nth 6 f ""%string)) in
  let '(ecc_u, miss_u) := supU (nth 13 f ""%string) "ecc_uncorrectable" in
  let '(ecc_c, miss_c) := supU (nth 14 f ""%string) "ecc_correctable" in
  {| h_Timestamp := w.(na_now); h_HeartbeatOK := false; h_GPUVisible := true; h_GPUAccessible := false;
     h_UtilizationGPU := supF (nth 7 f ""%string); h_MemUsedBytes := mibToBytes (parseF (nth 4 f ""%string));
     h_MemFreeBytes := free; h_MemTotalBytes := total;
     h_TemperatureC := supF (nth 8 f ""%string); h_PowerWatts := supF (nth 9 f ""%string);
     h_PowerLimitWatts := supF (nth 10 f ""%string); h_SMClockMHz := supF (nth 11 f ""%string);
     h_MemClockMHz := supF (nth 12 f ""%string); h_ComputeProcs := computeProcs w.(na_apps);
     h_EffectiveFreeMemRatio :=
       if total.(Supported) && (0 <? total.(Value)) then f64_div (f64_of_Z free.(Value)) (f64_of_Z total.(Value))
       else f64_zero;
     h_ProbeLatencyMs := dur_ms_float w.(na_latency); h_ProbeFailure := noProbeFailure;
     h_ECCUncorrectable := ecc_u; h_ECCCorrectable := ecc_c; h_XIDErrors := xidErrors w.(na_dmesg);
     h_RASUncorrectable := Unsup 0; h_RASCorrectable := Unsup 0;
     h_UnsupportedFields := miss_u ++ miss_c ++ ["amd_ras:nvidia-vendor"%string] |}.

Definition nv_Sample (n : NVIDIA) (w : NvAnswers) : Health * string :=
  if negb n.(nv_hasSMI) then
    (failed_sample w.(na_now) f64_zero "all:nvidia-smi-missing"
       {| pf_Class := FailureHard; pf_Reason := ReasonAdapterInitFailed; pf_Detail := "nvidia-smi not on PATH" |}, ""%string)
  else
    let r := w.(na_query) in
    let latency := dur_ms_float w.(na_latency) in
    let raw := r.(r_Stdout) in
    if failed r then
      (failed_sample w.(na_now) latency (exit_field r) (classifyNVFailure r.(r_TimedOut) r.(r_Stderr)),
       (raw +:+ String lf ("STDERR:" +:+ r.(r_Stderr)))%stdpp)
    else
      let f := splitCSV (firstLine raw) in
      if (length f <? 15)%nat then
        (failed_sample w.(na_now) latency "sample:short-output"
           {| pf_Class := FailureSoft; pf_Reason := ReasonProbeFailure; pf_Detail := "short/malformed nvidia-smi output" |}, raw)
      else (nv_health w f, raw).

Definition nv_AccessProbe (w : NvAnswers) : bool :=
  let r := w.(na_access) in
  (r.(r_ExitCode) =? 0) && (match r.(r_Err) with None => true | Some _ => false end) &&
  negb (String.eqb (TrimSpace r.(r_Stdout)) "").

#[export] Instance nvidia_ops : AdapterOps NVIDIA := {|
  ad_Answers := NvAnswers;
  ad_Vendor _ := VendorNVIDIA;
  ad_Available n := n.(nv_hasSMI);
  ad_Sample n w _ := nv_Sample n w;
  ad_AccessProbe _ w _ := nv_AccessProbe w |}.
