(* ===== verification/Amd.v ===== *)
(** * The AMD adapter ([internal/adapters/amd.go])

    Identity and health from the JSON and the tables of [rocm-smi].  The results of the tool, the clock
    and the order in which Go ranges over a map are inputs. *)

From Stdlib Require Import Floats.SpecFloat Strings.Ascii.
From stdpp Require Import base tactics numbers option list strings gmap.
From S2P Require Import Prelude GoFloat GoTime GoText GoStrconv Model Lifecycle Json Exec Adapters.
Open Scope go_scope.

(** The field [model] is never read or written, and the regular expression is [find_clk]. *)
Record AMD := { am_rocmPath : string; am_hasROCm : bool; am_driver : string; am_rocmVer : string }.

Definition NewAMD (found : option string) : AMD :=
  let '(p, ok) := LookPath found in {| am_rocmPath := p; am_hasROCm := ok; am_driver := ""; am_rocmVer := "" |}.

Abbreviation Tables := (gmap string (gmap string string)).

(** [m[k]] of a map of strings. *)
Definition get (m : gmap string string) (k : string) : string := default ""%string (m !! k).

Definition cardKey (deviceID : string) : string := ("card" +:+ deviceID)%stdpp.

(** ** Versions and discovery *)

Definition DriverVersion (r : Result) (a : AMD) : AMD :=
  if negb (String.eqb a.(am_driver) "") || negb a.(am_hasROCm) then a
  else match unmarshal_maps r.(r_Stdout) with
  | Some m =>
      match m !! "system"%string with
      | Some sys => {| am_rocmPath := a.(am_rocmPath); am_hasROCm := a.(am_hasROCm);
                       am_driver := get sys "Driver version"; am_rocmVer := a.(am_rocmVer) |}
      | None => a
      end
  | None => a
  end.

(** The first line that names a version. *)
Definition version_line (line : string) : bool :=
  Contains (ToLower line) "rocm-smi version" || Contains line "ROCM".
Definition RuntimeVersion (r : Result) (a : AMD) : AMD :=
  if negb (String.eqb a.(am_rocmVer) "") then a
  else
    let v := match List.find version_line (split_on lf r.(r_Stdout)) with Some l => TrimSpace l | None => ""%string end in
    {| am_rocmPath := a.(am_rocmPath); am_hasROCm := a.(am_hasROCm); am_driver := a.(am_driver);
       am_rocmVer := if String.eqb v "" then "rocm(unknown)" else v |}.

Fixpoint firstNonEmpty (ss : list string) : string :=
  match ss with
  | [] => ""
  | s :: ss => if negb (String.eqb (TrimSpace s) "") then s else firstNonEmpty ss
  end.

Definition am_identity (dev drv runtime : string) (v : gmap string string) : Identity :=
  let uuid := get v "Unique ID" in
  {| id_SidecarInstanceID := ""; id_Hostname := ""; id_BackendID := ""; id_Vendor := VendorAMD; id_DeviceID := dev;
     id_GPUModel := firstNonEmpty [get v "Card Series"; get v "Card Model"; get v "GFX Version"; "AMD Instinct"%string];
     id_GPUUUID := if String.eqb uuid "" then get v "Serial Number" else uuid;
     id_DriverVersion := drv; id_RuntimeVersion := runtime; id_BootID := ""; id_SidecarVersion := "" |}.

(** The cards, in the order [rows] the map is ranged over. *)
Fixpoint discover_cards (rows : list (string * gmap string string)) (drv : string) (r : Result) (a : AMD) :
    AMD * list Identity :=
  match rows with
  | [] => (a, [])
  | (k, v) :: rows =>
      match after "card" k with
      | None => discover_cards rows drv r a
      | Some dev =>
          let a := RuntimeVersion r a in
          let '(a', ids) := discover_cards rows drv r a in
          (a', am_identity dev drv a.(am_rocmVer) v :: ids)
      end
  end.

(** [query], [driver] and [version]: the results of the three commands; [order] enumerates the map.  Of the
    error of the decoder only the fact is kept, not its text. *)
Definition Discover (query driver version : Result) (order : Tables -> list (string * gmap string string)) (a : AMD) :
    AMD * (string + list Identity) :=
  if negb a.(am_hasROCm) then (a, inl "rocm-smi unavailable"%string)
  else match query.(r_Err) with
  | Some e => (a, inl ("rocm-smi discover: " +:+ e)%stdpp)
  | None =>
      match unmarshal_maps query.(r_Stdout) with
      | None => (a, inl "rocm-smi json"%string)
      | Some m =>
          let a := DriverVersion driver a in
          let '(a, ids) := discover_cards (order m) a.(am_driver) version a in (a, inr ids)
      end
  end.

(** ** Fields *)

Definition amdF (card : gmap string string) (key : string) : Field f64 :=
  match card !! key with
  | Some v => match ParseFloat (TrimSpace v) with Some f => Sup f | None => Unsup f64_zero end
  | None => Unsup f64_zero
  end.

Definition amdU (card : gmap string string) (key : string) : Field Z :=
  match card !! key with
  | None => Unsup 0
  | Some v =>
      match ParseUint (TrimSpace v) with
      | Some u => Sup u
      | None =>
          match ParseFloat (TrimSpace v) with
          | Some f => if f64_leb f64_zero f then Sup (f64_to_u64 f) else Unsup 0
          | None => Unsup 0
          end
      end
  end.

(** [\((\d+)Mhz\)]: the digits of the leftmost match. *)
Definition match_clk (s : string) : option string :=
  match s with
  | String "(" r =>
      let '(d, r) := take_digits r in
      if String.eqb d "" then None else match after "Mhz)" r with Some _ => Some d | None => None end
  | _ => None
  end.
Fixpoint find_clk (s : string) : option string :=
  match match_clk s with
  | Some d => Some d
  | None => match s with EmptyString => None | String _ s => find_clk s end
  end.
Definition clkMHz (card : gmap string string) (key : string) : Field f64 :=
  match card !! key with
  | None => Unsup f64_zero
  | Some v =>
      match find_clk v with
      | None => Unsup f64_zero
      | Some d => match ParseFloat d with Some f => Sup f | None => Unsup f64_zero end
      end
  end.

(** ** RAS counters *)

Definition ras_status (s : string) : bool := String.eqb s "ENABLED" || String.eqb s "DISABLED".

(** The last two columns of a row, where they are counters. *)
Definition ras_row (line : string) : option Z * option Z :=
  let f := Fields line in
  if (4 <=? length f)%nat && ras_status (nth 1 f ""%string)
  then (ParseUint (nth (length f - 2) f ""%string), ParseUint (nth (length f - 1) f ""%string))
  else (None, None).

Definition add_counter (acc : Z) (c : option Z) : Z := match c with Some c => uwrap64 (acc + c) | None => acc end.
Definition is_Some_b {A} (o : option A) : bool := match o with Some _ => true | None => false end.

(** [(unc, cor, any)] *)
Fixpoint ras_sum (rows : list (option Z * option Z)) (unc cor : Z) (any : bool) : Z * Z * bool :=
  match rows with
  | [] => (unc, cor, any)
  | (c, u) :: rows => ras_sum rows (add_counter unc u) (add_counter cor c) (any || is_Some_b c || is_Some_b u)
  end.
Definition rasCounters (r : Result) : Z * Z * bool :=
  if failed r then (0, 0, false) else ras_sum (map ras_row (split_on lf r.(r_Stdout))) 0 0 false.

(** ** Compute processes *)

Definition on_device (deviceID : string) (kv : string * string) : bool :=
  HasPrefix (fst kv) "PID" &&
  match split_on "," (snd kv) with
  | _ :: g :: _ => let gpus := TrimSpace g in String.eqb gpus deviceID || Contains gpus deviceID
  | _ => false
  end.
Definition computeProcs (r : Result) (deviceID : string) : Field Z :=
  if failed r then Unsup 0
  else match unmarshal_maps r.(r_Stdout) with
  | None => Unsup 0
  | Some m =>
      match m !! "system"%string with
      | None => Sup 0
      | Some sys => Sup (Z.of_nat (countb (on_device deviceID) (map_to_list sys)))
      end
  end.

(** ** Health *)

Definition amd_markers : list string :=
  ["no gpus"; "device not found"; "invalid device"; "no such device"; "not detected"].
Definition classifyAMDFailure (timedOut : bool) (stderr : string) : ProbeFailure :=
  classify_tool_failure "rocm-smi" amd_markers timedOut stderr.

Record AmdAnswers := {
  aa_now : Z;
  aa_latency : Z;
  aa_query : Result;
  aa_ras : Result;
  aa_pids : Result;
  aa_access : Result;
}.

(** Free memory and its share of the total. *)
Definition amd_free (total used : Field Z) : Field Z * f64 :=
  if total.(Supported) && used.(Supported) then
    let free := if used.(Value) <? total.(Value) then total.(Value) - used.(Value) else 0 in
    (Sup free, if 0 <? total.(Value) then f64_div (f64_of_Z free) (f64_of_Z total.(Value)) else f64_zero)
  else (Unsup 0, f64_zero).

Definition amd_health (w : AmdAnswers) (deviceID : string) (card : gmap string string) : Health :=
  let total := amdU card "VRAM Total Memory (B)" in
  let used := amdU card "VRAM Total Used Memory (B)" in
  let '(free, ratio) := amd_free total used in
  let '(unc, cor, rok) := rasCounters w.(aa_ras) in
  {| h_Timestamp := w.(aa_now); h_HeartbeatOK := false; h_GPUVisible := true; h_GPUAccessible := false;
     h_UtilizationGPU := amdF card "GPU use (%)"; h_MemUsedBytes := used; h_MemFreeBytes := free;
     h_MemTotalBytes := total; h_TemperatureC := amdF card "Temperature (Sensor junction) (C)";
     h_PowerWatts := amdF card "Current Socket Graphics Package Power (W)"; h_PowerLimitWatts := Unsup f64_zero;
     h_SMClockMHz := clkMHz card "sclk clock speed:"; h_MemClockMHz := clkMHz card "mclk clock speed:";
     h_ComputeProcs := computeProcs w.(aa_pids) deviceID; h_EffectiveFreeMemRatio := ratio;
     h_ProbeLatencyMs := dur_ms_float w.(aa_latency); h_ProbeFailure := noProbeFailure;
     h_ECCUncorrectable := Unsup 0; h_ECCCorrectable := Unsup 0; h_XIDErrors := Unsup [];
     h_RASUncorrectable := if rok : bool then Sup unc else Unsup 0;
     h_RASCorrectable := if rok then Sup cor else Unsup 0;
     h_UnsupportedFields :=
       ["power_limit:rocm-smi-not-queried"; "nvidia_xid:amd-vendor"; "nvidia_ecc:amd-uses-ras"]%string ++
       (if rok then [] else ["amd_ras:unreadable"%string]) |}.

Definition amd_Sample (a : AMD) (w : AmdAnswers) (deviceID : string) : Health * string :=
  if negb a.(am_hasROCm) then
    (failed_sample w.(aa_now) f64_zero "all:rocm-smi-missing"
       {| pf_Class := FailureHard; pf_Reason := ReasonAdapterInitFailed; pf_Detail := "rocm-smi not on PATH" |}, ""%string)
  else
    let r := w.(aa_query) in
    let latency := dur_ms_float w.(aa_latency) in
    let raw := r.(r_Stdout) in
    if failed r then
      (failed_sample w.(aa_now) latency (exit_field r) (classifyAMDFailure r.(r_TimedOut) r.(r_Stderr)),
       (raw +:+ String lf ("STDERR:" +:+ r.(r_Stderr)))%stdpp)
    else match unmarshal_maps raw with
    | None =>
        (failed_sample w.(aa_now) latency "sample:json-parse-fail"
           {| pf_Class := FailureSoft; pf_Reason := ReasonProbeFailure; pf_Detail := "rocm-smi json parse failed" |}, raw)
    | Some m =>
        match m !! cardKey deviceID with
        | None =>
            (failed_sample w.(aa_now) latency "sample:card-not-in-output"
               {| pf_Class := FailureHard; pf_Reason := ReasonDeviceDisappeared;
                  pf_Detail := "card not present in rocm-smi output" |}, raw)
        | Some card => (amd_health w deviceID card, raw)
        end
    end.

Definition amd_AccessProbe (w : AmdAnswers) (deviceID : string) : bool :=
  let r := w.(aa_access) in
  if failed r then false
  else match unmarshal_maps r.(r_Stdout) with
  | None => false
  | Some m => is_Some_b (m !! cardKey deviceID)
  end.

#[export] Instance amd_ops : AdapterOps AMD := {|
  ad_Answers := AmdAnswers;
  ad_Vendor _ := VendorAMD;
  ad_Available a := a.(am_hasROCm);
  ad_Sample a w dev := amd_Sample a w dev;
  ad_AccessProbe _ w dev := amd_AccessProbe w dev |}.
