(* ===== verification/Detect.v ===== *)
(** * Choosing the adapter ([internal/adapters/detect.go], the vendor flag of [cmd/sidecar/main.go]) *)

From Stdlib Require Import Floats.SpecFloat.
From stdpp Require Import base tactics numbers option list strings gmap.
From S2P Require Import Prelude GoFloat Model Exec Adapters Nvidia Amd.

Inductive VendorAdapter := UseNvidia (n : NVIDIA) | UseAmd (a : AMD) | UseGeneric (g : Generic).

(** [Detect]: the adapter and its description; [smi] and [rocm] are the tools found on PATH. *)
Definition Detect (smi rocm : option string) : VendorAdapter * string :=
  let n := NewNVIDIA smi in
  if ad_Available n then (UseNvidia n, "nvidia (nvidia-smi)"%string)
  else
    let a := NewAMD rocm in
    if ad_Available a then (UseAmd a, "amd (rocm-smi)"%string)
    else (UseGeneric NewGeneric, "generic (no vendor tool)"%string).

(** The flag [-vendor]. *)
Definition choose_adapter (vendor : string) (smi rocm : option string) : VendorAdapter * string :=
  if String.eqb vendor "nvidia" then (UseNvidia (NewNVIDIA smi), "nvidia (forced)"%string)
  else if String.eqb vendor "amd" then (UseAmd (NewAMD rocm), "amd (forced)"%string)
  else if String.eqb vendor "generic" then (UseGeneric NewGeneric, "generic (forced)"%string)
  else Detect smi rocm.

(** What the world answers, whichever adapter asks. *)
Record Answers := { an_nvidia : NvAnswers; an_amd : AmdAnswers; an_now : Z }.

#[export] Instance vendor_ops : AdapterOps VendorAdapter := {|
  ad_Answers := Answers;
  ad_Vendor v := match v with UseNvidia n => ad_Vendor n | UseAmd a => ad_Vendor a | UseGeneric g => ad_Vendor g end;
  ad_Available v := match v with UseNvidia n => ad_Available n | UseAmd a => ad_Available a | UseGeneric g => ad_Available g end;
  ad_Sample v w dev :=
    match v with
    | UseNvidia n => ad_Sample n w.(an_nvidia) dev
    | UseAmd a => ad_Sample a w.(an_amd) dev
    | UseGeneric g => ad_Sample g w.(an_now) dev
    end;
  ad_AccessProbe v w dev :=
    match v with
    | UseNvidia n => ad_AccessProbe n w.(an_nvidia) dev
    | UseAmd a => ad_AccessProbe a w.(an_amd) dev
    | UseGeneric g => ad_AccessProbe g w.(an_now) dev
    end |}.

(** The adapter of the daemon: chosen, then possibly wrapped; [env] is GPU_SIDECAR_FAULT_FILE. *)
Definition daemon_adapter (vendor env : string) (smi rocm : option string) :
    VendorAdapter + FaultInject VendorAdapter :=
  WrapFaultInject (fst (choose_adapter vendor smi rocm)) env.

#[export] Instance wrapped_ops A `{AdapterOps A} : AdapterOps (A + FaultInject A) := {|
  ad_Answers := FaultAnswers (ad_Answers (A := A));
  ad_Vendor v := match v with inl a => ad_Vendor a | inr f => ad_Vendor (A := FaultInject A) f end;
  ad_Available v := match v with inl a => ad_Available a | inr f => ad_Available (A := FaultInject A) f end;
  ad_Sample v w dev := match v with inl a => ad_Sample a w.(fa_inner) dev | inr f => ad_Sample (A := FaultInject A) f w dev end;
  ad_AccessProbe v w dev := match v with inl a => ad_AccessProbe a w.(fa_inner) dev | inr f => ad_AccessProbe (A := FaultInject A) f w dev end |}.
