(* ===== verification/AdapterFacts.v ===== *)
(** * Properties of the vendor adapters

    The laws every adapter satisfies, what counts as evidence that a device is gone, and what a poll of
    the supervisor makes of a sample. *)

From Stdlib Require Import Floats.SpecFloat Strings.Ascii.
From stdpp Require Import base tactics numbers option list strings gmap.
From S2P Require Import Prelude GoFloat GoTime GoText GoStrconv Model Lifecycle LifecycleFacts Json Exec Adapters.
From S2P Require Import Nvidia Amd Detect Stability Supervisor SupervisorFacts History HistoryFacts.
Open Scope go_scope.

(** ** Ranges *)

Lemma f64_to_u64_range x : in_u64 (f64_to_u64 x).
Proof.
  unfold f64_to_u64. destruct (f64_trunc x) as [z|]; [|done].
  destruct (_ && _); [apply uwrap64_range|done].
Qed.

Lemma ParseUint_range s u : ParseUint s = Some u -> u < u64_mod.
Proof.
  unfold ParseUint. destruct s; [done|]. destruct (digits_val _ _) as [n|]; [|done]. cbn.
  destruct (Z.ltb_spec n u64_mod); [|done]. by intros [= <-].
Qed.

Lemma digits_val_nonneg s acc n : 0 <= acc -> digits_val s acc = Some n -> 0 <= n.
Proof.
  revert acc. induction s as [|c s IH]; intros acc Ha; [by intros [= <-]|]. cbn [digits_val].
  destruct (_ && _) eqn:E; [|done]. go_bool. apply IH. lia.
Qed.

Lemma ParseUint_u64 s u : ParseUint s = Some u -> in_u64 u.
Proof.
  intros H. pose proof (ParseUint_range s u H). split; [|done]. unfold ParseUint in H. destruct s as [|c s]; [done|].
  destruct (digits_val _ 0) as [n|] eqn:E; [|done]. cbn in H. destruct (n <? u64_mod); [|done]. injection H as <-.
  by apply (digits_val_nonneg (String c s) 0).
Qed.

Lemma u64_unsup : u64_field (Unsup 0).
Proof. done. Qed.
Lemma u64_sup z : in_u64 z -> u64_field (Sup z).
Proof. by split. Qed.
Lemma clean_sup {T} (zero v : T) : clean zero (Sup v).
Proof. done. Qed.
Lemma clean_unsup {T} (zero : T) : clean zero (Unsup zero).
Proof. done. Qed.
Create HintDb adapters.
#[export] Hint Resolve f64_to_u64_range u64_unsup u64_sup clean_sup clean_unsup ParseUint_u64 uwrap64_range : adapters.

(** ** Fields *)

Lemma supF_clean s : clean f64_zero (supF s).
Proof. unfold supF. destruct (parseF s); auto with adapters. Qed.
Lemma mib_field v : u64_field (mibToBytes v).
Proof. destruct v; cbn; auto with adapters. Qed.
Lemma supU_field s name : u64_field (fst (supU s name)).
Proof. unfold supU. destruct (parseF s) as [v|]; [destruct (f64_leb _ v)|]; cbn; auto with adapters. Qed.
Lemma amdF_clean card k : clean f64_zero (amdF card k).
Proof. unfold amdF. destruct (card !! k); [destruct (ParseFloat _)|]; auto with adapters. Qed.
Lemma clk_clean card k : clean f64_zero (clkMHz card k).
Proof.
  unfold clkMHz. destruct (card !! k); [|auto with adapters]. destruct (find_clk _); [|auto with adapters].
  destruct (ParseFloat _); auto with adapters.
Qed.
Lemma amdU_field card k : u64_field (amdU card k).
Proof.
  unfold amdU. destruct (card !! k) as [v|]; [|auto with adapters].
  destruct (ParseUint (TrimSpace v)) eqn:E; [eauto with adapters|].
  destruct (ParseFloat _); [|auto with adapters]. destruct (f64_leb _ _); auto with adapters.
Qed.
Lemma amd_free_field t u : u64_field t -> u64_field u -> u64_field (fst (amd_free t u)).
Proof.
  intros [_ [Ht1 Ht2]] [_ [Hu1 Hu2]]. unfold amd_free. destruct (_ && _); [|done]. cbn. apply u64_sup.
  destruct (Z.ltb_spec (Value u) (Value t)); unfold in_u64; lia.
Qed.
Lemma nv_procs_field r : clean 0 (Nvidia.computeProcs r) /\ 0 <= Value (Nvidia.computeProcs r).
Proof. unfold Nvidia.computeProcs. destruct (failed r); [done|]. split; [done|cbn; lia]. Qed.
Lemma amd_procs_field r dev : clean 0 (computeProcs r dev) /\ 0 <= Value (computeProcs r dev).
Proof.
  unfold computeProcs. destruct (failed r); [done|]. destruct (unmarshal_maps _) as [m|]; [|done].
  destruct (m !! _); [|done]. split; [done|cbn; lia].
Qed.

Lemma add_counter_range acc c : in_u64 acc -> in_u64 (add_counter acc c).
Proof. destruct c; cbn; auto with adapters. Qed.
Lemma ras_sum_range rows unc cor any : in_u64 unc -> in_u64 cor ->
  let '(u, c, _) := ras_sum rows unc cor any in in_u64 u /\ in_u64 c.
Proof.
  revert unc cor any. induction rows as [|[c u] rows IH]; intros unc cor any Hu Hc; [done|].
  cbn [ras_sum]. apply IH; by apply add_counter_range.
Qed.
Lemma ras_range r : let '(u, c, _) := rasCounters r in in_u64 u /\ in_u64 c.
Proof. unfold rasCounters. destruct (failed r); [done|]. by apply ras_sum_range. Qed.

(** ** The laws *)

Lemma failed_honest now lat field f : honest (failed_sample now lat field f).
Proof. by constructor. Qed.

Lemma nv_health_honest w f : honest (nv_health w f).
Proof.
  unfold nv_health. pose proof (supU_field (nth 13 f ""%string) "ecc_uncorrectable") as Hu.
  pose proof (supU_field (nth 14 f ""%string) "ecc_correctable") as Hc.
  destruct (supU (nth 13 f _) _) as [eu mu], (supU (nth 14 f _) _) as [ec mc].
  constructor; cbn; auto using supF_clean, mib_field, nv_procs_field with adapters. done.
Qed.

Lemma amd_health_honest w dev card : honest (amd_health w dev card).
Proof.
  unfold amd_health. pose proof (amdU_field card "VRAM Total Memory (B)") as Ht.
  pose proof (amdU_field card "VRAM Total Used Memory (B)") as Hu.
  pose proof (amd_free_field _ _ Ht Hu) as Hf. destruct (amd_free _ _) as [free ratio].
  pose proof (ras_range w.(aa_ras)) as Hr. destruct (rasCounters _) as [[unc cor] rok]. destruct Hr as [Hr1 Hr2].
  constructor; cbn [h_UtilizationGPU h_TemperatureC h_PowerWatts h_PowerLimitWatts h_SMClockMHz h_MemClockMHz
    h_MemUsedBytes h_MemFreeBytes h_MemTotalBytes h_ComputeProcs h_ECCUncorrectable h_ECCCorrectable
    h_RASUncorrectable h_RASCorrectable h_GPUVisible h_ProbeFailure];
    auto using amdF_clean, clk_clean, amd_procs_field with adapters; [|done].
  destruct rok; auto with adapters.
Qed.

#[export] Instance generic_laws : AdapterLaws Generic.
Proof. intros a w dev. by constructor. Qed.

#[export] Instance nvidia_laws : AdapterLaws NVIDIA.
Proof.
  intros n w dev. cbn. unfold nv_Sample. destruct (negb _); [apply failed_honest|].
  destruct (failed _); [apply failed_honest|]. destruct (_ <? _)%nat; [apply failed_honest|apply nv_health_honest].
Qed.

#[export] Instance amd_laws : AdapterLaws AMD.
Proof.
  intros a w dev. cbn. unfold amd_Sample. destruct (negb _); [apply failed_honest|].
  destruct (failed _); [apply failed_honest|]. destruct (unmarshal_maps _) as [m|]; [|apply failed_honest].
  destruct (m !! _); [apply amd_health_honest|apply failed_honest].
Qed.

#[export] Instance vendor_laws : AdapterLaws VendorAdapter.
Proof. intros [n|a|g] w dev; [exact (nvidia_laws n w.(an_nvidia) dev)|exact (amd_laws a w.(an_amd) dev)|exact (generic_laws g w.(an_now) dev)]. Qed.

#[export] Instance fault_laws A `{AdapterLaws A} : AdapterLaws (FaultInject A).
Proof. intros a w dev. cbn. destruct (fst (refresh _ _)); [exact (sample_honest _ _ _)|apply failed_honest..]. Qed.

#[export] Instance wrapped_laws A `{AdapterLaws A} : AdapterLaws (A + FaultInject A).
Proof. intros [a|f] w dev; [exact (sample_honest a _ dev)|exact (fault_laws A f w dev)]. Qed.

(** ** Evidence

    When a sample says that the device is gone, in terms of what the tools answered; and what a device
    that is not visible for another reason can rely on. *)

Class AdapterEvidence A `{AdapterOps A} := {
  ad_gone : A -> ad_Answers -> string -> Prop;
  gone_iff a w dev : (fst (ad_Sample a w dev)).(h_ProbeFailure).(pf_Class) = FailureHard <-> ad_gone a w dev;
  no_ghost a w dev : (fst (ad_Sample a w dev)).(h_GPUVisible) = false ->
    (fst (ad_Sample a w dev)).(h_ProbeFailure).(pf_Class) = FailureNone -> ad_AccessProbe a w dev = false;
}.

(** The tool ended with an error, not by the deadline, and its error output names a missing device. *)
Definition says_gone (markers : list string) (r : Result) : Prop :=
  failed r = true /\ r.(r_TimedOut) = false /\ exists m, m ∈ markers /\ Contains (ToLower r.(r_Stderr)) m = true.

Lemma classify_hard tool markers r :
  pf_Class (classify_tool_failure tool markers r.(r_TimedOut) r.(r_Stderr)) = FailureHard <->
  r.(r_TimedOut) = false /\ exists m, m ∈ markers /\ Contains (ToLower r.(r_Stderr)) m = true.
Proof.
  unfold classify_tool_failure. destruct (r_TimedOut r); [split; [done|by intros [? _]]|].
  destruct (existsb _ markers) eqn:E.
  - apply existsb_exists in E as (m & Hm & Hc). split; [|done]. intros _. split; [done|]. exists m.
    by rewrite list_elem_of_In.
  - split; [done|]. intros (_ & m & Hm & Hc). rewrite (proj2 (existsb_exists _ _)) in E; [done|].
    exists m. by rewrite <- list_elem_of_In.
Qed.

Lemma classify_some tool markers t e : pf_Class (classify_tool_failure tool markers t e) <> FailureNone.
Proof. unfold classify_tool_failure. destruct t; [done|]. by destruct (existsb _ _). Qed.

#[export] Program Instance nvidia_evidence : AdapterEvidence NVIDIA := {
  ad_gone n w _ := n.(nv_hasSMI) = false \/ says_gone nv_markers w.(na_query);
}.
Next Obligation.
  intros n w dev. cbn. unfold nv_Sample, classifyNVFailure, says_gone. destruct (nv_hasSMI n); cbn [negb]; [|by split; [left|]].
  destruct (failed _) eqn:Ef.
  - cbn. rewrite classify_hard. split; [by right|]. by intros [|(_ & ?)].
  - destruct (_ <? _)%nat; cbn; [|unfold nv_health; destruct (supU _ _), (supU _ _); cbn]; split; try done;
      by intros [|(? & _)].
Qed.
Next Obligation.
  intros n w dev. cbn. unfold nv_Sample. destruct (nv_hasSMI n); cbn [negb]; [|done].
  destruct (failed _); [cbn; intros _ H; by apply classify_some in H|].
  destruct (_ <? _)%nat; [done|]. unfold nv_health. by destruct (supU _ _), (supU _ _).
Qed.

#[export] Program Instance amd_evidence : AdapterEvidence AMD := {
  ad_gone a w dev := a.(am_hasROCm) = false \/ says_gone amd_markers w.(aa_query) \/
    failed w.(aa_query) = false /\
      exists m, unmarshal_maps w.(aa_query).(r_Stdout) = Some m /\ m !! cardKey dev = None;
}.
Next Obligation.
  intros a w dev. cbn. unfold amd_Sample, classifyAMDFailure, says_gone. destruct (am_hasROCm a); cbn [negb]; [|by split; [left|]].
  destruct (failed _) eqn:Ef; cbn.
  - rewrite classify_hard. split; [by right; left|]. by intros [|[(_ & ?)|(? & _)]].
  - destruct (unmarshal_maps _) as [m|] eqn:Em; [|cbn; split; [done|]; by intros [|[(? & _)|(_ & m & ? & _)]]].
    destruct (m !! cardKey dev) as [card|] eqn:Ec; cbn.
    + unfold amd_health. destruct (amd_free _ _), (rasCounters _) as [[? ?] ?]. cbn. split; [done|].
      intros [|[(? & _)|(_ & m' & [= <-] & Hn)]]; congruence.
    + split; [|done]. intros _. right. right. split; [done|]. by exists m.
Qed.
Next Obligation.
  intros a w dev. cbn. unfold amd_Sample. destruct (am_hasROCm a); cbn [negb]; [|done].
  destruct (failed _); cbn; [intros _ H; by apply classify_some in H|].
  destruct (unmarshal_maps _) as [m|]; [|done]. destruct (m !! _); [|done].
  cbn. unfold amd_health. by destruct (amd_free _ _), (rasCounters _) as [[? ?] ?].
Qed.

Lemma nv_classified n w :
  h_GPUVisible (fst (nv_Sample n w)) = true \/ pf_Class (h_ProbeFailure (fst (nv_Sample n w))) <> FailureNone.
Proof.
  unfold nv_Sample. destruct (negb _); [by right|].
  destruct (failed _); [right; apply classify_some|].
  destruct (_ <? _)%nat; [by right|left]. unfold nv_health. by destruct (supU _ _), (supU _ _).
Qed.

Lemma amd_classified a w dev :
  h_GPUVisible (fst (amd_Sample a w dev)) = true \/ pf_Class (h_ProbeFailure (fst (amd_Sample a w dev))) <> FailureNone.
Proof.
  unfold amd_Sample. destruct (negb _); [by right|].
  destruct (failed _); [right; apply classify_some|].
  destruct (unmarshal_maps _) as [m|]; [|by right]. destruct (m !! _); [left|by right].
  cbn. unfold amd_health. by destruct (amd_free _ _), (rasCounters _) as [[? ?] ?].
Qed.

#[export] Program Instance generic_evidence : AdapterEvidence Generic := { ad_gone _ _ _ := False }.
Next Obligation. done. Qed.
Next Obligation. done. Qed.

Definition vendor_gone (v : VendorAdapter) (w : Answers) (dev : string) : Prop :=
  match v with
  | UseNvidia n => ad_gone n w.(an_nvidia) dev
  | UseAmd a => ad_gone a w.(an_amd) dev
  | UseGeneric g => ad_gone g w.(an_now) dev
  end.

#[export] Instance vendor_evidence : AdapterEvidence VendorAdapter.
Proof.
  refine (Build_AdapterEvidence VendorAdapter _ vendor_gone _ _).
  - intros [n|a|g] w dev; [exact (gone_iff n w.(an_nvidia) dev)|exact (gone_iff a w.(an_amd) dev)|exact (gone_iff g w.(an_now) dev)].
  - intros [n|a|g] w dev; [exact (no_ghost n w.(an_nvidia) dev)|exact (no_ghost a w.(an_amd) dev)|exact (no_ghost g w.(an_now) dev)].
Defined.

Section wrapped.
  Context {A : Type} `{AdapterEvidence A}.

Definition fault_gone (f : FaultInject A) (w : FaultAnswers ad_Answers) (dev : string) : Prop :=
  match fst (refresh w.(fa_file) dev) with
  | ModeHard => True
  | ModeSoft => False
  | ModeNone => ad_gone f.(fi_inner) w.(fa_inner) dev
  end.

#[export] Instance fault_evidence : AdapterEvidence (FaultInject A).
Proof.
  refine (Build_AdapterEvidence (FaultInject A) _ fault_gone _ _).
  - intros f w dev. unfold fault_gone. cbn. destruct (fst (refresh _ _)); [exact (gone_iff _ _ dev)|done..].
  - intros f w dev. cbn. destruct (fst (refresh _ _)); [exact (no_ghost _ _ dev)|done..].
Defined.

Definition wrapped_gone (v : A + FaultInject A) (w : FaultAnswers ad_Answers) (dev : string) : Prop :=
  match v with inl a => ad_gone a w.(fa_inner) dev | inr f => fault_gone f w dev end.

#[export] Instance wrapped_evidence : AdapterEvidence (A + FaultInject A).
Proof.
  refine (Build_AdapterEvidence (A + FaultInject A) _ wrapped_gone _ _).
  - intros [a|f] w dev; [exact (gone_iff a w.(fa_inner) dev)|exact (gone_iff (A := FaultInject A) f w dev)].
  - intros [a|f] w dev; [exact (no_ghost a w.(fa_inner) dev)|exact (no_ghost (A := FaultInject A) f w dev)].
Defined.
End wrapped.

(** ** What a poll makes of a sample *)

Section client.
  Context {A : Type} `{AdapterLaws A} `{!AdapterEvidence A}.

(** The poll was fed by the adapter; the sample and the probe of one poll see the same answers, so the control
    file of the fault injection does not change between them. *)
Definition fed (a : A) (w : ad_Answers) (dev : string) (i : PollInput) : Prop :=
  i.(in_health) = fst (ad_Sample a w dev) /\ i.(in_access) = ad_AccessProbe a w dev.

(** The device answered: it is visible and, when it is probed, reachable. *)
Definition answered (a : A) (w : ad_Answers) (dev : string) (acc : bool) : bool :=
  let h := fst (ad_Sample a w dev) in
  h.(h_GPUVisible) && (if acc then ad_AccessProbe a w dev else h.(h_GPUVisible)).

Lemma observed_evidence a w dev acc i o :
  fed a w dev i -> observed acc i o ->
  (obs_hard o = true <-> ad_gone a w dev) /\
  (obs_hard o = false -> obs_soft o = negb (answered a w dev acc)).
Proof.
  intros [Eh Ea] (Hc & Hv & Hacc & Hok). unfold answered. rewrite Eh, Ea in *. rewrite <- (gone_iff a w dev).
  pose proof (sample_honest a w dev) as [_ _ _ _ _ _ _ Hvis _]. pose proof (no_ghost a w dev) as Hng.
  set (h := fst (ad_Sample a w dev)) in *. clearbody h.
  set (access := if acc then ad_AccessProbe a w dev else h_GPUVisible h) in *.
  assert (Hf : h_GPUVisible h = false -> pf_Class (h_ProbeFailure h) = FailureNone -> access = false)
    by (subst access; destruct acc; [exact Hng|done]).
  clearbody access. unfold obs_soft, obs_hard. rewrite Hv, Hacc, Hok. unfold classify_failure in Hc.
  cbn [h_ProbeFailure set_access] in Hc.
  destruct (pf_Class (h_ProbeFailure h)) eqn:Ec.
  - destruct (h_GPUVisible h) eqn:Ev; cbn [negb andb].
    + assert (o_HardOfflineEvidence o = false) as -> by (destruct access; injection Hc as E1 E2 E3; done).
      assert (o_SoftFailure o = negb access) as -> by (destruct access; injection Hc as E1 E2 E3; done).
      cbn. split; [done|]. intros _. by destruct access.
    + rewrite (Hf eq_refl eq_refl) in *. cbn in Hc. injection Hc as <- <- _. by repeat split.
  - injection Hc as <- <- _. cbn. split; [by split|done].
  - injection Hc as <- <- _. cbn. rewrite andb_false_r. split; [by split|]. intros _. cbn.
    destruct (h_GPUVisible h) eqn:Ev; [by specialize (Hvis eq_refl)|done].
Qed.

Lemma gone_goes_offline exp acc dev i d a w :
  device_inv d -> fed a w dev i -> ad_gone a w dev ->
  exists d', pollDevice exp acc dev i d = Some d' /\ device_inv d' /\ is_Some (sd_lastStatus d') /\
    lm_state (sd_machine d') = StateOffline.
Proof.
  intros Hd Hfed Hg. destruct (pollDevice_step exp acc dev i d Hd) as (d' & o & Hp & Hd' & Hm & Ho & Hst).
  destruct (observed_evidence a w dev acc i o Hfed Ho) as [Hhard _]. exists d'. do 3 (split; [done|]).
  rewrite Hm. by apply Step_hard, Hhard.
Qed.

Lemma evidence_decides_at exp acc dev i d a w :
  device_inv d -> fed a w dev i -> lm_state (sd_machine d) <> StateOffline ->
  exists d', pollDevice exp acc dev i d = Some d' /\
    (ad_gone a w dev -> lm_state (sd_machine d') = StateOffline) /\
    (~ ad_gone a w dev -> lm_state (sd_machine d') = StateOffline <->
       answered a w dev acc = false /\
       OfflineFailures (lm_cfg (sd_machine d)) <= wrap64 (lm_softFailures (sd_machine d) + 1)).
Proof.
  intros Hd Hfed Hs. destruct (pollDevice_step exp acc dev i d Hd) as (d' & o & Hp & Hd' & Hm & Ho & Hst).
  destruct (observed_evidence a w dev acc i o Hfed Ho) as [Hhard Hsoft]. exists d'. split; [done|].
  rewrite Hm. split.
  - intros Hg. apply Hhard in Hg. by apply Step_hard.
  - intros Hg. assert (Hn : obs_hard o = false) by (apply not_true_is_false; by rewrite Hhard).
    rewrite Step_not_hard_offline, Hsoft by done. rewrite negb_true_iff. done.
Qed.
End client.

(** ** The daemon *)

(** C13: whatever the vendor tools print, whichever adapter the daemon chose and whatever the fault file says,
    a sample is well formed: an unsupported value is zero, every counter fits 64 bits, a visible device
    carries no failure, and a device that is not visible carries no value at all and declares why. *)
Theorem daemon_samples_honest vendor env smi rocm w dev :
  honest (fst (ad_Sample (daemon_adapter vendor env smi rocm) w dev)).
Proof. apply sample_honest. Qed.

(** The daemon found a vendor tool to ask; without one it runs the generic adapter, whose samples say neither that
    the device is visible nor why it is not. *)
Definition tooled (v : VendorAdapter) : bool := match v with UseGeneric _ => false | _ => true end.

(** A sample of a vendor tool that does not say the device is gone. *)
Lemma tooled_classified vendor env smi rocm w dev :
  let a := daemon_adapter vendor env smi rocm in
  tooled (fst (choose_adapter vendor smi rocm)) = true -> ~ ad_gone a w dev ->
  h_GPUVisible (fst (ad_Sample a w dev)) = true \/ pf_Class (h_ProbeFailure (fst (ad_Sample a w dev))) = FailureSoft.
Proof.
  intros a Ht Hg. rewrite <- (gone_iff a w dev) in Hg.
  enough (Hc : h_GPUVisible (fst (ad_Sample a w dev)) = true \/ pf_Class (h_ProbeFailure (fst (ad_Sample a w dev))) <> FailureNone).
  { destruct Hc as [Hc|Hc]; [by left|right]. by destruct (pf_Class _). }
  clear Hg. subst a. unfold daemon_adapter, WrapFaultInject. destruct (fst (choose_adapter vendor smi rocm)) as [n|a|g]; [| |done]; clear.
  all: destruct (String.eqb _ _); [|cbn; destruct (fst (refresh _ _)); [|by right..]].
  1,2: apply nv_classified.
  all: apply amd_classified.
Qed.

(** C8: from the tools to the lifecycle state, on a host with a vendor tool.  A poll of a device that is not OFFLINE
    takes it OFFLINE at once when the sample says that the device is gone: the tool failed before its
    deadline with an error text that names a missing device, or the tool that was asked for is missing, or
    rocm-smi's JSON lacks the card, or a hard fault is injected.  Otherwise the device is visible or its failure is
    classified as soft, and the poll takes it OFFLINE exactly when the device did not answer and this is
    the [OfflineFailures]-th soft failure in a row; a timeout or an unreadable output is only that. *)
Theorem evidence_decides exp acc dev i d vendor env smi rocm w :
  let a := daemon_adapter vendor env smi rocm in
  tooled (fst (choose_adapter vendor smi rocm)) = true ->
  device_inv d -> fed a w dev i -> lm_state (sd_machine d) <> StateOffline ->
  exists d', pollDevice exp acc dev i d = Some d' /\
    (ad_gone a w dev -> lm_state (sd_machine d') = StateOffline) /\
    (~ ad_gone a w dev ->
       (i.(in_health).(h_GPUVisible) = true \/ i.(in_health).(h_ProbeFailure).(pf_Class) = FailureSoft) /\
       (lm_state (sd_machine d') = StateOffline <->
          answered a w dev acc = false /\
          OfflineFailures (lm_cfg (sd_machine d)) <= wrap64 (lm_softFailures (sd_machine d) + 1))).
Proof.
  intros a Ht Hd Hfed Hs. destruct (evidence_decides_at exp acc dev i d a w Hd Hfed Hs) as (d' & Hp & Hg & Hn).
  exists d'. split; [exact Hp|]. split; [exact Hg|]. intros Hng. split; [|by apply Hn].
  rewrite (proj1 Hfed). by apply tooled_classified.
Qed.

(** The generic adapter's sample is not visible and not classified; the documents count that as hard evidence, the
    supervisor as one soft failure. *)
Lemma unclassified_is_soft exp acc dev i d w :
  let a := daemon_adapter "" "" None None in
  device_inv d -> fed a w dev i -> lm_state (sd_machine d) <> StateOffline ->
  (i.(in_health).(h_GPUVisible), i.(in_health).(h_ProbeFailure).(pf_Class)) = (false, FailureNone) /\
  exists d', pollDevice exp acc dev i d = Some d' /\
    (lm_state (sd_machine d') = StateOffline <->
       OfflineFailures (lm_cfg (sd_machine d)) <= wrap64 (lm_softFailures (sd_machine d) + 1)).
Proof.
  intros a Hd Hfed Hs. destruct (evidence_decides_at exp acc dev i d a w Hd Hfed Hs) as (d' & Hp & _ & Hn).
  split; [by rewrite (proj1 Hfed)|]. exists d'. split; [exact Hp|]. rewrite Hn by (by intros ?). split; [by intros [_ ?]|done].
Qed.

(** ** Examples *)

Definition ran (stdout stderr : string) (code : Z) (timedOut : bool) : Result :=
  {| r_Stdout := stdout; r_Stderr := stderr; r_ExitCode := code;
     r_Err := if (code =? 0) then None else Some "exit status"%string; r_Duration := 0; r_TimedOut := timedOut;
     r_Truncated := false |}.
Definition silent : Result := ran "" "" 1 false.

(** nvidia-smi hangs; the world of an NVIDIA host without a fault file. *)
Definition hanging (query : Result) : FaultAnswers Answers :=
  {| fa_now := 0; fa_file := None;
     fa_inner := {| an_nvidia := {| na_now := 0; na_latency := 8 * second; na_query := query; na_apps := silent;
                                    na_dmesg := silent; na_access := silent |};
                    an_amd := {| aa_now := 0; aa_latency := 0; aa_query := silent; aa_ras := silent; aa_pids := silent;
                                 aa_access := silent |};
                    an_now := 0 |} |}.

Lemma fresh_device : exists d, new_device sample_host sample_identity = Some d /\ device_inv d /\
  (lm_state (sd_machine d), OfflineFailures (lm_cfg (sd_machine d)), lm_softFailures (sd_machine d)) = (StateUnknown, 3, 0).
Proof.
  assert (Hcaps : caps_ok sample_host) by (repeat split; vm_compute; done).
  destruct (new_device_inv sample_host sample_identity Hcaps) as (d & E & Hd & _).
  exists d. split; [done|]. split; [done|].
  assert (F : (fun d => (lm_state (sd_machine d), OfflineFailures (lm_cfg (sd_machine d)), lm_softFailures (sd_machine d)))
                <$> new_device sample_host sample_identity = Some (StateUnknown, 3, 0)) by (by vm_compute).
  rewrite E in F. injection F as F1 F2 F3. by rewrite F1, F2, F3.
Qed.

(** One timeout of nvidia-smi does not take a fresh device OFFLINE; the error text "GPU is lost" does. *)
Lemma evidence_decides_witness :
  let a := daemon_adapter "nvidia" "" (Some "/usr/bin/nvidia-smi"%string) None in
  let input w : PollInput := {| in_mono := second; in_wall := second; in_health := fst (ad_Sample a w "0"); in_access := ad_AccessProbe a w "0" |} in
  exists d d1 d2, new_device sample_host sample_identity = Some d /\
    pollDevice (fun _ => f64_one) true "0" (input (hanging (ran "" "" (-1) true))) d = Some d1 /\
    lm_state (sd_machine d1) <> StateOffline /\
    pollDevice (fun _ => f64_one) true "0" (input (hanging (ran "" "GPU is lost." 15 false))) d = Some d2 /\
    lm_state (sd_machine d2) = StateOffline.
Proof.
  intros a input. destruct fresh_device as (d & E & Hd & [= Hs Ho Hf]).
  assert (Hne : lm_state (sd_machine d) <> StateOffline) by (by rewrite Hs).
  destruct (evidence_decides (fun _ => f64_one) true "0" (input (hanging (ran "" "" (-1) true))) d "nvidia" ""
    (Some "/usr/bin/nvidia-smi"%string) None (hanging (ran "" "" (-1) true)) eq_refl Hd ltac:(by split) Hne) as (d1 & H1 & _ & H1').
  destruct (evidence_decides (fun _ => f64_one) true "0" (input (hanging (ran "" "GPU is lost." 15 false))) d "nvidia" ""
    (Some "/usr/bin/nvidia-smi"%string) None (hanging (ran "" "GPU is lost." 15 false)) eq_refl Hd ltac:(by split) Hne)
    as (d2 & H2 & H2' & _).
  exists d, d1, d2. split; [exact E|]. split; [exact H1|]. split.
  - rewrite (proj2 (H1' ltac:(by intros [|(_ & ? & _)]))), Ho, Hf. intros [_ Hle]. by apply Hle.
  - split; [exact H2|]. apply H2'. right. split; [done|]. split; [done|]. exists "gpu is lost"%string.
    split; [apply list_elem_of_In; cbn; tauto|by vm_compute].
Defined.

(** The processes of device 10 are counted for device 1 too. *)
Lemma shared_digit :
  let pids := String.append "{" (String.append (dquoted "system") (String.append ":{"
                (String.append (dquoted "PID7") (String.append ":" (String.append (dquoted "vllm, 10, 0, 0, 0") "}}"))))) in
  computeProcs (ran pids "" 0 false) "1" = Sup 1.
Proof. by vm_compute. Qed.

(** The kernel log of two Xids, and the clock of a card. *)
Example xids_example : xidErrors (ran "x NVRM: Xid (PCI:0000:3b:00): 79, pid=1
NVRM: Xid (PCI:0000:3b:00): , NVRM: Xid (PCI:1): 48" "" 0 false) = Sup [79; 48].
Proof. by vm_compute. Qed.
Example clk_example : find_clk "sclk (x) (2100Mhz) (1Mhz)" = Some "2100"%string.
Proof. by vm_compute. Qed.
Example fault_example : refresh (Some "delay 1
fail 0
delay 1 250x
"%string) "1" = (ModeNone, 250 * millisecond).
Proof. by vm_compute. Qed.
