(* ===== verification/AdminApi.v ===== *)
(** * The sidecar's HTTP interface ([internal/api/server.go])

    The handlers as functions of the request, the clock and the supervisor.  A body is the data that is
    encoded (when it holds a float that is not finite, which JSON cannot express, the client gets the status
    with an empty body); the text of an error message, the number format of an exposition line and the
    redirects of the mux are not modelled.
    What the data plane, when attached, answers and publishes is an input. *)

From Stdlib Require Import Floats.SpecFloat Strings.Ascii.
From stdpp Require Import base tactics numbers option list strings gmap.
From S2P Require Import Prelude Ordering GoFloat GoTime GoText GoStrconv Json Model Lifecycle History Supervisor.
From S2P Require Import CacheIndex AdmissionQueue WorkAccounting Vllm.
Open Scope go_scope.

(** ** Requests and responses *)

(** [ar_query] and [ar_form]: [URL.Query().Get] and [FormValue]. *)
Record ApiRequest := {
  ar_method : string;
  ar_path : string;
  ar_contentType : string;
  ar_query : string -> string;
  ar_form : string -> string;
  ar_body : string;
  ar_remote : string;
}.

(** [/v1/queue]: the queue alone, or with the work accounting. *)
Definition QueueBody : Type := QueueSnapshot * option WorkSnapshot.

(** One line of [/metrics]. *)
Inductive metric_value := MFloat (x : f64) | MInt (z : Z).
Inductive metric_line :=
  | MHelp (name typ : string)
  | MSample (name : string) (labels : list (string * string)) (v : metric_value).

Inductive Body :=
  | BError (msg : string) (device : string)
  | BAlive (version : string) (now : Z)
  | BReadiness (r : ReadinessResult)
  | BDevice (r : DeviceReadiness)
  | BStatus (s : HostStatus)
  | BHistory (count : Z) (points : list HistoryPoint)
  | BEvents (count : Z) (events : list Event)
  | BDrained (device : string) (on changed : bool)
  | BDisabled (what : string)
  | BRuntime (m : RuntimeMetrics)
  | BQueue (q : QueueBody)
  | BCache (s : CacheSnapshot) (dir : gmap string Z)
  | BMetrics (lines : list metric_line)
  | BIndex (version : string).

(** The status, the [Allow] header, and the body; [RForward]: the request is the proxy's. *)
Inductive ApiResponse :=
  | RReply (code : Z) (allow : string) (body : Body)
  | RForward.

Record Server := {
  as_version : string;
  as_chat : bool;
  as_runtime : option RuntimeMetrics;
  as_queue : option QueueBody;
  as_cache : option (CacheSnapshot * gmap string Z);
}.

Definition New (version : string) : Server :=
  {| as_version := version; as_chat := false; as_runtime := None; as_queue := None; as_cache := None |}.
Definition AttachDataPlane (runtime : RuntimeMetrics) (queue : QueueBody) (s : Server) : Server :=
  {| as_version := s.(as_version); as_chat := true; as_runtime := Some runtime; as_queue := Some queue;
     as_cache := s.(as_cache) |}.
Definition AttachCacheObserver (snap : CacheSnapshot * gmap string Z) (s : Server) : Server :=
  {| as_version := s.(as_version); as_chat := s.(as_chat); as_runtime := s.(as_runtime); as_queue := s.(as_queue);
     as_cache := Some snap |}.

(** ** Handlers that only read *)

Definition chat (s : Server) (r : ApiRequest) : ApiResponse :=
  if negb s.(as_chat) then RReply 501 "" (BError "data plane not enabled on this sidecar (telemetry-only)" "")
  else if negb (String.eqb r.(ar_method) "POST") then RReply 405 "POST" (BError "use POST" "")
  else RForward.

Definition runtime (s : Server) : ApiResponse :=
  RReply 200 "" match s.(as_runtime) with Some m => BRuntime m | None => BDisabled "runtime" end.
Definition queue (s : Server) : ApiResponse :=
  RReply 200 "" match s.(as_queue) with Some q => BQueue q | None => BDisabled "queue" end.
Definition cache (s : Server) : ApiResponse :=
  RReply 200 "" match s.(as_cache) with Some (c, dir) => BCache c dir | None => BDisabled "cache" end.
Definition healthz (s : Server) (now : Z) : ApiResponse := RReply 200 "" (BAlive s.(as_version) now).

(** [None] is a panic of the supervisor. *)
Definition readyz (r : ApiRequest) (now : Z) (sup : Supervisor) : option ApiResponse :=
  let dev := r.(ar_query) "device"%string in
  if negb (String.eqb dev "") then
    o ← device_readiness sup dev now;
    Some match o with
         | None => RReply 404 "" (BError "unmanaged device" dev)
         | Some dr => RReply (if dr.(dr_Ready) then 200 else 503) "" (BDevice dr)
         end
  else
    res ← Readiness sup now;
    Some (RReply (if res.(rr_ControlPlaneReady) then 200 else 503) "" (BReadiness res)).

Definition status (now : Z) (sup : Supervisor) : option ApiResponse :=
  hs ← HostStatus_of now sup; Some (RReply 200 "" (BStatus hs)).

Definition history (r : ApiRequest) (sup : Supervisor) : option ApiResponse :=
  pts ← Supervisor_History sup;
  let dev := r.(ar_query) "device"%string in
  let pts := if negb (String.eqb dev "") then List.filter (fun p => String.eqb p.(hp_DeviceID) dev) pts else pts in
  Some (RReply 200 "" (BHistory (Z.of_nat (length pts)) pts)).

Section events.
  Context `{!SliceSort}.

Definition events (sup : Supervisor) : option ApiResponse :=
  evs ← Supervisor_Events sup;
  let evs := slice_sort Event (fun a b => time_before a.(ev_Timestamp) b.(ev_Timestamp)) evs in
  Some (RReply 200 "" (BEvents (Z.of_nat (length evs)) evs)).
End events.

(** ** [/v1/drain] *)

(** [struct{Device *string; On *bool}]: field names match up to case, the last occurrence counts, a value of
    the wrong type is an error, unknown names are skipped.  [None] is the error. *)
Definition drain_member (acc : option (option string * option bool)) (kv : string * json) :
    option (option string * option bool) :=
  '(dev, on) ← acc;
  let '(k, v) := kv in
  if equal_fold k "device" then
    match v with JStr s => Some (Some s, on) | JNull => Some (None, on) | _ => None end
  else if equal_fold k "on" then
    match v with JBool b => Some (dev, Some b) | JNull => Some (dev, None) | _ => None end
  else Some (dev, on).

Definition decode_drain (body : string) : option (option string * option bool) :=
  match decode_value body with
  | Parsed (JObj l) _ => fold_left drain_member l (Some (None, None))
  | Parsed JNull _ => Some (None, None)
  | _ => None
  end.

(** What the request asks for: the device and the text of [on], or the error reported. *)
Definition drain_request (r : ApiRequest) : string * string + string :=
  if HasPrefix r.(ar_contentType) "application/json" then
    match decode_drain r.(ar_body) with
    | None => inr "invalid JSON body"%string
    | Some (Some dev, Some on) => inl (dev, FormatBool on)
    | Some _ => inr "fields 'device' and 'on' are required"%string
    end
  else inl (r.(ar_form) "device"%string, r.(ar_form) "on"%string).

Definition drain (r : ApiRequest) (wall : Z) (sup : Supervisor) : option (Supervisor * ApiResponse) :=
  let refuse code msg dev := Some (sup, RReply code "" (BError msg dev)) in
  if negb (String.eqb r.(ar_method) "POST") && negb (String.eqb r.(ar_method) "PUT")
  then Some (sup, RReply 405 "POST, PUT" (BError "drain is state-changing; use POST or PUT" ""))
  else match drain_request r with
  | inr msg => refuse 400 msg ""%string
  | inl (dev, onStr) =>
      if String.eqb dev "" then refuse 400 "field 'device' is required"%string ""%string
      else match ParseBool onStr with
      | None => refuse 400 "field 'on' must be a boolean"%string ""%string
      | Some on =>
          '(sup', (found, changed)) ← Supervisor_SetDraining dev on r.(ar_remote) wall sup;
          if negb (found : bool) then Some (sup', RReply 404 "" (BError "unknown device" dev))
          else Some (sup', RReply 200 "" (BDrained dev on changed))
      end
  end.

(** ** [/metrics] *)

Definition Vendor_string (v : Vendor) : string :=
  match v with VendorNVIDIA => "nvidia" | VendorAMD => "amd" | VendorUnknown => "unknown" end.

Definition all_states : list LifecycleState :=
  [StateUnknown; StateReady; StateBusy; StateDegraded; StateDraining; StateOffline; StateRecovering].

(** The zero value of what has not been polled. *)
Definition id_of (d : option DeviceStatus) : string * string :=
  match d with Some d => (d.(ds_Identity).(id_DeviceID), d.(ds_Identity).(id_BackendID)) | None => (""%string, ""%string) end.
Definition from {A} (zero : A) (f : DeviceStatus -> A) (d : option DeviceStatus) : A :=
  match d with Some d => f d | None => zero end.
Definition in_state (d : option DeviceStatus) (s : LifecycleState) : bool :=
  match d with Some d => LifecycleState_eqb d.(ds_LifecycleState) s | None => false end.

(** A sample of a field that is supported. *)
Definition when_supported {T} (name : string) (labels : list (string * string)) (v : T -> metric_value) (f : Field T) :
    list metric_line :=
  if f.(Supported) then [MSample name labels (v f.(Value))] else [].

Definition device_metrics (hs : HostStatus) (d : option DeviceStatus) : list metric_line :=
  let '(dev, backend) := id_of d in
  let host := [("host"%string, hs.(hs_Hostname)); ("vendor"%string, Vendor_string hs.(hs_Vendor)); ("device"%string, dev)] in
  let l := host ++ [("backend"%string, backend)] in
  let float name f := MSample name l (MFloat (from f64_zero f d)) in
  let int name f := MSample name l (MInt (from 0 f d)) in
  let supp {T} name (v : T -> metric_value) zero f := when_supported name l v (from (Unsup zero) f d) in
  [float "gpu_stability_score" (fun d => d.(ds_Stability).(ss_Score));
   float "gpu_host_capacity_hint" (fun d => d.(ds_Capacity).(ch_HostCapacityHint))]%string ++
  map (fun st => MSample "gpu_lifecycle_state" (host ++ [("state"%string, LifecycleState_string st)])
                   (MInt (if in_state d st then 1 else 0))) all_states ++
  supp "gpu_utilization_pct"%string MFloat f64_zero (fun d => d.(ds_Health).(h_UtilizationGPU)) ++
  supp "gpu_mem_used_bytes"%string MInt 0 (fun d => d.(ds_Health).(h_MemUsedBytes)) ++
  supp "gpu_mem_free_bytes"%string MInt 0 (fun d => d.(ds_Health).(h_MemFreeBytes)) ++
  supp "gpu_temperature_celsius"%string MFloat f64_zero (fun d => d.(ds_Health).(h_TemperatureC)) ++
  supp "gpu_power_watts"%string MFloat f64_zero (fun d => d.(ds_Health).(h_PowerWatts)) ++
  [float "gpu_probe_latency_ms" (fun d => d.(ds_Health).(h_ProbeLatencyMs));
   int "gpu_consecutive_probe_failures" (fun d => d.(ds_Reliability).(rel_ConsecutiveFailures));
   float "gpu_recent_availability" (fun d => d.(ds_Reliability).(rel_RecentAvailability));
   int "gpu_disconnect_count" (fun d => d.(ds_Reliability).(rel_DisconnectCount));
   int "gpu_rejoin_count" (fun d => d.(ds_Reliability).(rel_RejoinCount));
   int "gpu_worker_starts_total" (fun d => d.(ds_Reliability).(rel_WorkerStarts));
   int "gpu_worker_stops_total" (fun d => d.(ds_Reliability).(rel_WorkerStops))]%string ++
  let ecc := from (Unsup 0) (fun d => d.(ds_Health).(h_ECCUncorrectable)) d in
  let ras := from (Unsup 0) (fun d => d.(ds_Health).(h_RASUncorrectable)) d in
  when_supported "gpu_ecc_uncorrectable_total" l MInt (if ecc.(Supported) then ecc else ras).

Definition metric_names : list (string * string) :=
  [("gpu_stability_score", "gauge"); ("gpu_host_capacity_hint", "gauge"); ("gpu_lifecycle_state", "gauge");
   ("gpu_utilization_pct", "gauge"); ("gpu_mem_used_bytes", "gauge"); ("gpu_mem_free_bytes", "gauge");
   ("gpu_temperature_celsius", "gauge"); ("gpu_power_watts", "gauge"); ("gpu_probe_latency_ms", "gauge");
   ("gpu_consecutive_probe_failures", "gauge"); ("gpu_recent_availability", "gauge");
   ("gpu_disconnect_count", "counter"); ("gpu_rejoin_count", "counter"); ("gpu_worker_starts_total", "counter");
   ("gpu_worker_stops_total", "counter"); ("gpu_ecc_uncorrectable_total", "counter")]%string.

(** The observation plane's metrics; a snapshot reaches this point as JSON numbers, and not at all when it
    does not marshal. *)
Definition cacheMetrics (host : string) (snap : option CacheSnapshot) : list metric_line :=
  match snap with
  | None => []
  | Some c =>
      if negb (f64_is_finite c.(cs_Confidence) && f64_is_finite c.(cs_KVHeadroom)) then []
      else
      let provider := if String.eqb c.(cs_Provider) "" then "unknown"%string else c.(cs_Provider) in
      let lbl := [("host"%string, host); ("provider"%string, provider)] in
      let gB name (b : bool) := [MHelp name "gauge"; MSample name lbl (MInt (if b then 1 else 0))] in
      let gF name v := [MHelp name "gauge"; MSample name lbl (MFloat v)] in
      let gZ name z := gF name (f64_of_Z z) in
      gB "gpu_cache_supported"%string c.(cs_Supported) ++
      gB "gpu_cache_match_supported"%string c.(cs_MatchSupported) ++
      gB "gpu_cache_ready"%string c.(cs_Ready) ++
      gF "gpu_cache_confidence"%string c.(cs_Confidence) ++
      gZ "gpu_cache_snapshot_age_ms"%string c.(cs_SnapshotAgeMs) ++
      gZ "gpu_cache_last_event_sequence"%string c.(cs_LastEventSequence) ++
      gZ "gpu_cache_reset_epoch"%string c.(cs_CacheResetEpoch) ++
      gZ "gpu_cache_index_entries"%string c.(cs_IndexEntries) ++
      gF "gpu_cache_kv_headroom"%string c.(cs_KVHeadroom) ++
      gZ "gpu_cache_events_received_total"%string c.(cs_EventsReceivedTotal) ++
      gZ "gpu_cache_events_dropped_total"%string c.(cs_EventsDroppedTotal) ++
      gZ "gpu_cache_sequence_gaps_total"%string c.(cs_SequenceGapsTotal) ++
      gZ "gpu_cache_stale_invalidations_total"%string c.(cs_StaleInvalidations) ++
      gZ "gpu_cache_duplicate_events_total"%string c.(cs_DuplicateEventsTotal) ++
      gZ "gpu_cache_out_of_order_events_total"%string c.(cs_OutOfOrderEventsTotal) ++
      gZ "gpu_cache_resets_total"%string c.(cs_ResetsTotal)
  end.

Definition metrics (s : Server) (now : Z) (sup : Supervisor) : option ApiResponse :=
  hs ← HostStatus_of now sup;
  let host := [("host"%string, hs.(hs_Hostname))] in
  Some (RReply 200 "" (BMetrics (
    [MHelp "gpu_sidecar_up" "gauge"; MSample "gpu_sidecar_up" host (MInt 1);
     MHelp "gpu_sidecar_uptime_seconds" "gauge"; MSample "gpu_sidecar_uptime_seconds" host (MFloat hs.(hs_UptimeSeconds))] ++
    map (fun '(n, t) => MHelp n t) metric_names ++
    flat_map (device_metrics hs) hs.(hs_Devices) ++
    cacheMetrics hs.(hs_Hostname) (fst <$> s.(as_cache))))).

Definition index (s : Server) : ApiResponse := RReply 200 "" (BIndex s.(as_version)).

(** ** The mux *)

Section serve.
  Context `{!SliceSort}.

Definition serve (s : Server) (r : ApiRequest) (now : Z) (sup : Supervisor) : option (Supervisor * ApiResponse) :=
  let p := r.(ar_path) in
  let read (o : option ApiResponse) := a ← o; Some (sup, a) in
  if String.eqb p "/healthz" then read (Some (healthz s now))
  else if String.eqb p "/readyz" then read (readyz r now sup)
  else if String.eqb p "/v1/status" then read (status now sup)
  else if String.eqb p "/v1/history" then read (history r sup)
  else if String.eqb p "/v1/events" then read (events sup)
  else if String.eqb p "/v1/drain" then drain r now sup
  else if String.eqb p "/v1/runtime" then read (Some (runtime s))
  else if String.eqb p "/v1/queue" then read (Some (queue s))
  else if String.eqb p "/v1/cache" then read (Some (cache s))
  else if String.eqb p "/v1/chat/completions" then read (Some (chat s r))
  else if String.eqb p "/metrics" then read (metrics s now sup)
  else read (Some (index s)).
End serve.
