(* ===== verification/AdminFacts.v ===== *)
(** * Properties of the sidecar's HTTP interface

    No request panics, only an accepted drain changes the supervisor, a drain does what it says, and the
    exposition tells the truth about every device. *)

From Stdlib Require Import Floats.SpecFloat Strings.Ascii.
From stdpp Require Import base tactics numbers option list strings gmap.
From S2P Require Import Prelude Ordering GoFloat GoTime GoText GoStrconv Json Model Lifecycle LifecycleFacts Ring History HistoryFacts.
From S2P Require Import Supervisor SupervisorFacts CacheIndex AdminApi.
Open Scope go_scope.

(** ** Totality *)

Lemma mapM_devices {B} (f : deviceState -> option B) s :
  sv_inv s -> (forall d, device_inv d -> is_Some (f d)) ->
  is_Some (mapM (fun k => d ← sv_devices s !! k; f d) (sv_order s)).
Proof.
  intros [Hd Ho] Hf. apply mapM_is_Some, Forall_forall. intros k Hk. unfold compose.
  apply Ho in Hk as [d E]. rewrite E. cbn [mbind option_bind]. apply Hf. exact (Hd k d E).
Qed.

Lemma HostStatus_total now s : sv_inv s -> is_Some (HostStatus_of now s).
Proof.
  intros Hs. unfold HostStatus_of.
  destruct (mapM_devices (fun d => Some (sd_lastStatus d)) s Hs) as [l Hl]; [by eexists|].
  assert (E : mapM (fun k => sd_lastStatus <$> sv_devices s !! k) (sv_order s) = Some l).
  { rewrite <- Hl. apply mapM_ext. intros k. by destruct (sv_devices s !! k). }
  rewrite E. by eexists.
Qed.

Lemma hist_items h : hist_wf h -> is_Some (Points h) /\ is_Some (Events h).
Proof.
  intros Hw. unfold Points, Events.
  destruct Hw as [_ (lp & Hp) (le & He) _ _]; split; eexists; by eapply ring_items_rep.
Qed.

Lemma mjoin_total {B} (f : deviceState -> option (list B)) s :
  sv_inv s -> (forall d, device_inv d -> is_Some (f d)) ->
  is_Some (mjoin <$> mapM (fun k => d ← sv_devices s !! k; f d) (sv_order s)).
Proof. intros Hs Hf. destruct (mapM_devices f s Hs Hf) as [l ->]. by eexists. Qed.

Lemma History_total s : sv_inv s -> is_Some (Supervisor_History s).
Proof. intros Hs. apply mjoin_total; [done|]. intros d Hd. by apply hist_items, Hd. Qed.
Lemma Events_total s : sv_inv s -> is_Some (Supervisor_Events s).
Proof. intros Hs. apply mjoin_total; [done|]. intros d Hd. by apply hist_items, Hd. Qed.

Lemma devices_total s : sv_inv s -> exists ds, mapM (fun k => sv_devices s !! k) (sv_order s) = Some ds.
Proof. intros [_ Ho]. apply lookup_all_Some. intros k. by rewrite Ho. Qed.

Lemma Readiness_total now s : sv_inv s -> is_Some (Readiness s now).
Proof.
  intros Hs. destruct (devices_total s Hs) as [ds Hds].
  destruct (collectorStalled_spec s now ds Hds) as (b & Hb & _).
  destruct (details_spec s now b _ ds Hds) as (dts & Hdts & _).
  unfold Readiness. rewrite Hb. cbn [mbind option_bind]. rewrite Hdts. by eexists.
Qed.

Lemma device_readiness_total now dev s : sv_inv s -> is_Some (device_readiness s dev now).
Proof.
  intros Hs. destruct (devices_total s Hs) as [ds Hds].
  destruct (collectorStalled_spec s now ds Hds) as (b & Hb & _). unfold device_readiness.
  destruct (sv_devices s !! dev) as [d|] eqn:E; [|by eexists]. rewrite Hb. cbn [mbind option_bind].
  destruct (deviceReadinessLocked_spec s dev now b d E) as (dr & -> & _). by eexists.
Qed.

(** ** Drain *)

(** The request [drain] accepts: the device and the target. *)
Definition accepted (r : ApiRequest) : option (string * bool) :=
  if String.eqb r.(ar_method) "POST" || String.eqb r.(ar_method) "PUT" then
    match drain_request r with
    | inl (dev, onStr) => if String.eqb dev "" then None else on ← ParseBool onStr; Some (dev, on)
    | inr _ => None
    end
  else None.

Lemma drain_refused r wall s : accepted r = None ->
  exists code allow msg, drain r wall s = Some (s, RReply code allow (BError msg "")) /\
    (code = 405 /\ r.(ar_method) <> "POST"%string /\ r.(ar_method) <> "PUT"%string \/
     code = 400 /\ (r.(ar_method) = "POST"%string \/ r.(ar_method) = "PUT"%string)).
Proof.
  unfold accepted, drain. destruct (String.eqb_spec (ar_method r) "POST") as [Hp|Hp]; cbn [orb andb negb].
  2: destruct (String.eqb_spec (ar_method r) "PUT") as [Hq|Hq]; cbn [negb].
  2,3: idtac.
  all: try (intros _; do 3 eexists; split; [reflexivity|]; by left).
  all: destruct (drain_request r) as [[dev onStr]|msg]; [|intros _; do 3 eexists; split; [reflexivity|]; right; tauto].
  all: destruct (String.eqb dev ""); [intros _; do 3 eexists; split; [reflexivity|]; right; tauto|].
  all: destruct (ParseBool onStr); [done|intros _; do 3 eexists; split; [reflexivity|]; right; tauto].
Qed.

Lemma drain_accepted r wall s dev on : accepted r = Some (dev, on) -> drain r wall s =
  '(s', (found, changed)) ← Supervisor_SetDraining dev on r.(ar_remote) wall s;
  if negb (found : bool) then Some (s', RReply 404 "" (BError "unknown device" dev))
  else Some (s', RReply 200 "" (BDrained dev on changed)).
Proof.
  unfold accepted, drain. destruct (String.eqb (ar_method r) "POST"); cbn [orb andb negb].
  2: destruct (String.eqb (ar_method r) "PUT"); cbn [negb]; [|done].
  all: destruct (drain_request r) as [[d onStr]|msg]; [|done].
  all: destruct (String.eqb d "") eqn:Ed; [done|].
  all: destruct (ParseBool onStr) as [b|]; [|done].
  all: intros [= -> ->]; reflexivity.
Qed.

Lemma drain_known s dev on src wall :
  sv_inv s -> is_Some (sv_devices s !! dev) ->
  exists s' c, Supervisor_SetDraining dev on src wall s = Some (s', (true, c)) /\ sv_inv s' /\
    Draining dev s' = on /\ c = negb (eqb (Draining dev s) on) /\ sv_order s' = sv_order s /\
    (forall k, k <> dev -> sv_devices s' !! k = sv_devices s !! k).
Proof.
  intros [Hd Ho] [d E]. unfold Supervisor_SetDraining, Draining. rewrite E.
  destruct (device_SetDraining_ok dev on src wall d (Hd dev d E)) as (d' & c & -> & Hi & Hon & Hc).
  cbn [mbind option_bind]. do 2 eexists. split; [reflexivity|]. cbn [sv_devices sv_order with_devices].
  rewrite lookup_insert_eq. split; [|split; [done|split; [done|split; [done|]]]].
  - split; cbn [sv_devices sv_order with_devices]; [by apply map_Forall_insert_2|].
    intros k. rewrite Ho. destruct (decide (k = dev)) as [->|Hne]; [by rewrite lookup_insert_eq, E; split; eexists|].
    by rewrite lookup_insert_ne.
  - intros k Hk. by rewrite lookup_insert_ne.
Qed.

(** ** Answers *)

Definition replies (o : option ApiResponse) : Prop := exists code allow body, o = Some (RReply code allow body).

Lemma readyz_replies r now s : sv_inv s -> replies (readyz r now s).
Proof.
  intros Hs. unfold readyz. destruct (negb _).
  - destruct (device_readiness_total now (ar_query r "device"%string) s Hs) as [[dr|] ->]; by do 3 eexists.
  - destruct (Readiness_total now s Hs) as [res ->]. by do 3 eexists.
Qed.
Lemma status_replies now s : sv_inv s -> replies (status now s).
Proof. intros Hs. unfold status. destruct (HostStatus_total now s Hs) as [hs ->]. by do 3 eexists. Qed.
Lemma history_replies r s : sv_inv s -> replies (history r s).
Proof. intros Hs. unfold history. destruct (History_total s Hs) as [l ->]. by do 3 eexists. Qed.
Lemma events_replies `{!SliceSort} s : sv_inv s -> replies (events s).
Proof. intros Hs. unfold events. destruct (Events_total s Hs) as [l ->]. by do 3 eexists. Qed.
Lemma metrics_replies srv now s : sv_inv s -> replies (metrics srv now s).
Proof. intros Hs. unfold metrics. destruct (HostStatus_total now s Hs) as [hs ->]. by do 3 eexists. Qed.

(** A drain answers, keeps the invariant and is not forwarded. *)
Lemma drain_safe r wall s : sv_inv s ->
  exists s' code allow body, drain r wall s = Some (s', RReply code allow body) /\ sv_inv s'.
Proof.
  intros Hs. destruct (accepted r) as [[dev on]|] eqn:Ha.
  - rewrite (drain_accepted r wall s dev on Ha). destruct (decide (is_Some (sv_devices s !! dev))) as [Hd|Hd].
    + destruct (drain_known s dev on (ar_remote r) wall Hs Hd) as (s' & c & -> & Hi & _). by do 4 eexists.
    + unfold Supervisor_SetDraining. destruct (sv_devices s !! dev); [by destruct Hd; eexists|]. by do 4 eexists.
  - destruct (drain_refused r wall s Ha) as (c & a & m & -> & _). by do 4 eexists.
Qed.

(** ** What the interface guarantees *)

(** C11: the drain endpoint.  A request that is not POST or PUT, or whose body or form is not a device and a
    boolean, is refused with 405 or 400 and changes nothing; an unknown device is a 404 and changes nothing;
    otherwise the answer is 200, the device is draining exactly as asked afterwards, [changed] says whether it
    was not before, and no other device is touched.  So a repeated request is answered with [changed] false. *)
Theorem drain_contract r wall s :
  sv_inv s ->
  match accepted r with
  | None => exists code allow msg, drain r wall s = Some (s, RReply code allow (BError msg "")) /\
      (code = 405 /\ r.(ar_method) <> "POST"%string /\ r.(ar_method) <> "PUT"%string \/
       code = 400 /\ (r.(ar_method) = "POST"%string \/ r.(ar_method) = "PUT"%string))
  | Some (dev, on) =>
      if decide (is_Some (sv_devices s !! dev)) then
        exists s', drain r wall s = Some (s', RReply 200 "" (BDrained dev on (negb (eqb (Draining dev s) on)))) /\
          sv_inv s' /\ Draining dev s' = on /\ (forall k, k <> dev -> sv_devices s' !! k = sv_devices s !! k)
      else drain r wall s = Some (s, RReply 404 "" (BError "unknown device" dev))
  end.
Proof.
  intros Hs. destruct (accepted r) as [[dev on]|] eqn:Ha; [|by apply drain_refused].
  rewrite (drain_accepted r wall s dev on Ha). case_decide as Hd.
  - destruct (drain_known s dev on (ar_remote r) wall Hs Hd) as (s' & c & -> & Hi & Hon & -> & _ & Hk).
    exists s'. by split_and!.
  - unfold Supervisor_SetDraining. destruct (sv_devices s !! dev); [by destruct Hd; eexists|done].
Qed.

Lemma serve_total `{!SliceSort} srv r now s :
  sv_inv s ->
  exists s' resp, serve srv r now s = Some (s', resp) /\ sv_inv s' /\
    (r.(ar_path) <> "/v1/drain"%string -> s' = s) /\
    (resp = RForward <-> r.(ar_path) = "/v1/chat/completions"%string /\ srv.(as_chat) = true /\ r.(ar_method) = "POST"%string).
Proof.
  intros Hs. unfold serve.
  assert (Hread : forall o, replies o -> r.(ar_path) <> "/v1/chat/completions"%string ->
    exists s' resp, (a ← o; Some (s, a)) = Some (s', resp) /\ sv_inv s' /\
      (r.(ar_path) <> "/v1/drain"%string -> s' = s) /\
      (resp = RForward <-> r.(ar_path) = "/v1/chat/completions"%string /\ srv.(as_chat) = true /\ r.(ar_method) = "POST"%string)).
  { intros o (code & allow & body & ->) Hp. do 2 eexists. split; [reflexivity|]. split; [done|]. split; [done|].
    split; [done|tauto]. }
  repeat match goal with
  | |- context [ if String.eqb (ar_path r) ?p then _ else _ ] =>
      let E := fresh "E" in destruct (String.eqb_spec (ar_path r) p) as [E|E]
  end.
  all: try (apply Hread; [by do 3 eexists|congruence]).
  - apply Hread; [by apply readyz_replies|congruence].
  - apply Hread; [by apply status_replies|congruence].
  - apply Hread; [by apply history_replies|congruence].
  - apply Hread; [by apply events_replies|congruence].
  - destruct (drain_safe r now s Hs) as (s' & code & allow & body & -> & Hi). do 2 eexists. split; [reflexivity|].
    split; [done|]. split; [by intros ?|]. split; [done|]. intros [Hp _]. congruence.
  - unfold chat. do 2 eexists. split; [reflexivity|]. split; [done|]. split; [done|].
    destruct (as_chat srv); cbn [negb]; [|split; [done|by intros (_ & ? & _)]].
    destruct (String.eqb_spec (ar_method r) "POST"); cbn [negb]; [by split|]. split; [done|by intros (_ & _ & ?)].
  - apply Hread; [by apply metrics_replies|congruence].
Qed.

(** C12: no request makes the daemon panic, whatever its method, path, headers and body: every request is answered
    (or handed to the proxy, which takes a POST to the completions path of an attached data plane), the
    supervisor's invariant holds afterwards, and no path but the drain endpoint changes the supervisor. *)
Theorem serve_safe `{!SliceSort} srv r now s :
  sv_inv s ->
  exists s' resp, serve srv r now s = Some (s', resp) /\ sv_inv s' /\
    (r.(ar_path) <> "/v1/drain"%string -> s' = s) /\
    (resp = RForward <-> r.(ar_path) = "/v1/chat/completions"%string /\ srv.(as_chat) = true /\ r.(ar_method) = "POST"%string).
Proof. apply serve_total. Qed.

(** ** The exposition *)

Definition is_sample (name : string) (l : metric_line) : bool :=
  match l with MSample n _ _ => String.eqb n name | MHelp _ _ => false end.

(** The state lines with value 1. *)
Definition active_state (l : metric_line) : bool :=
  match l with
  | MSample n _ (MInt z) => String.eqb n "gpu_lifecycle_state" && (z =? 1)
  | _ => false
  end.

Lemma if_same (b : bool) (n : nat) : (if b then n else n) = n.
Proof. by destruct b. Qed.

(** Decide the comparisons of metric names. *)
Ltac eqb_names :=
  repeat match goal with
  | |- context [ String.eqb ?a ?b ] => let v := eval vm_compute in (String.eqb a b) in change (String.eqb a b) with v
  end; cbn [andb].

Lemma countb_when {T} p name l (v : T -> metric_value) f :
  countb p (when_supported name l v f) = if Supported f then (if p (MSample name l (v (Value f))) then 1%nat else 0%nat) else 0%nat.
Proof. unfold when_supported. destruct (Supported f); [|done]. rewrite countb_cons, countb_nil. by destruct (p _). Qed.

Lemma active_states (host : list (string * string)) d :
  countb active_state (map (fun st => MSample "gpu_lifecycle_state" (host ++ [("state"%string, LifecycleState_string st)])
    (MInt (if in_state (Some d) st then 1 else 0))) all_states) = 1%nat /\
  MSample "gpu_lifecycle_state" (host ++ [("state"%string, LifecycleState_string (ds_LifecycleState d))]) (MInt 1)
    ∈ map (fun st => MSample "gpu_lifecycle_state" (host ++ [("state"%string, LifecycleState_string st)])
        (MInt (if in_state (Some d) st then 1 else 0))) all_states.
Proof.
  unfold in_state. split; [by destruct (ds_LifecycleState d)|].
  apply list_elem_of_fmap. exists (ds_LifecycleState d).
  destruct (ds_LifecycleState d); (split; [done|]); apply list_elem_of_In; cbn; tauto.
Qed.

(** The exposition of a polled device.  Of its seven lifecycle lines exactly one has the value 1, that of its
    state; a field the adapter does not support has no line at all (never a zero) and a supported one has
    exactly one; and the uncorrectable errors are the ECC counter or, where that is missing, the RAS counter. *)
Theorem device_metrics_truthful hs d :
  let lines := device_metrics hs (Some d) in
  let one name b := countb (is_sample name) lines = if (b : bool) then 1%nat else 0%nat in
  let h := ds_Health d in
  countb active_state lines = 1%nat /\
  MSample "gpu_lifecycle_state"
    [("host"%string, hs_Hostname hs); ("vendor"%string, Vendor_string (hs_Vendor hs));
     ("device"%string, id_DeviceID (ds_Identity d)); ("state"%string, LifecycleState_string (ds_LifecycleState d))]
    (MInt 1) ∈ lines /\
  one "gpu_utilization_pct"%string (Supported (h_UtilizationGPU h)) /\
  one "gpu_mem_used_bytes"%string (Supported (h_MemUsedBytes h)) /\
  one "gpu_mem_free_bytes"%string (Supported (h_MemFreeBytes h)) /\
  one "gpu_temperature_celsius"%string (Supported (h_TemperatureC h)) /\
  one "gpu_power_watts"%string (Supported (h_PowerWatts h)) /\
  one "gpu_ecc_uncorrectable_total"%string (Supported (h_ECCUncorrectable h) || Supported (h_RASUncorrectable h)).
Proof.
  unfold device_metrics. cbn [id_of from fst snd].
  set (host := [("host"%string, hs_Hostname hs); _; _]).
  destruct (active_states host d) as [Hone Hin]. cbv zeta.
  set (states := map _ all_states) in *.
  assert (Hs : forall n, n <> "gpu_lifecycle_state"%string -> countb (is_sample n) states = 0%nat).
  { intros n Hn. subst states. apply countb_zero, Forall_forall. intros l (st & -> & _)%list_elem_of_fmap.
    unfold is_sample. apply String.eqb_neq. congruence. }
  clearbody states.
  split; [|split].
  - rewrite !countb_app, !countb_when, !countb_cons, !countb_nil, Hone. unfold active_state. eqb_names.
    by rewrite !if_same, ?Nat.add_0_r.
  - apply elem_of_app. right. apply elem_of_app. by left.
  - repeat (split; [|]).
    all: rewrite !countb_app, !countb_when, !countb_cons, !countb_nil, Hs by done; unfold is_sample; eqb_names; rewrite !if_same, ?Nat.add_0_r; try reflexivity.
    by destruct (Supported (h_ECCUncorrectable (ds_Health d))) eqn:E; cbn [orb]; rewrite ?E.
Qed.

(** ** A host *)

Definition drain_text : string :=
  String.append "{" (String.append (dquoted "device") (String.append ":" (String.append (dquoted "0")
    (String.append "," (String.append (dquoted "On") ": true} "))))).
Definition drain_call (method : string) : ApiRequest :=
  {| ar_method := method; ar_path := "/v1/drain"; ar_contentType := "application/json; charset=utf-8";
     ar_query := fun _ => ""%string; ar_form := fun _ => ""%string; ar_body := drain_text; ar_remote := "10.0.0.1:7" |}.

Lemma one_device : exists s, Init [] [sample_identity] sample_host = Some s /\ sv_inv s /\
  is_Some (sv_devices s !! "0"%string) /\ Draining "0" s = false.
Proof.
  assert (Hs : sv_inv sample_host).
  { split; [apply map_Forall_empty|]. intros k. change (sv_devices sample_host) with (∅ : gmap string deviceState).
    change (sv_order sample_host) with (@nil string). rewrite lookup_empty, is_Some_alt. set_solver. }
  assert (Hcaps : caps_ok sample_host) by (repeat split; vm_compute; done).
  destruct (Init_ok [] [sample_identity] sample_host Hcaps Hs) as (s & Hi & Hinv).
  exists s. split; [done|]. split; [done|].
  assert (F : (fun s => (bool_decide (is_Some (sv_devices s !! "0"%string)), Draining "0" s))
                <$> Init [] [sample_identity] sample_host = Some (true, false)) by (by vm_compute).
  rewrite Hi in F. injection F as F1 F2. split; [by apply bool_decide_eq_true in F1|done].
Qed.

Lemma drain_contract_witness :
  exists s s', Init [] [sample_identity] sample_host = Some s /\
    drain (drain_call "PUT") 5 s = Some (s', RReply 200 "" (BDrained "0" true true)) /\ Draining "0" s' = true /\
    drain (drain_call "GET") 5 s = Some (s, RReply 405 "POST, PUT" (BError "drain is state-changing; use POST or PUT" "")).
Proof.
  destruct one_device as (s & Hi & Hinv & Hd & Hdr).
  pose proof (drain_contract (drain_call "PUT") 5 s Hinv) as H.
  assert (Ha : accepted (drain_call "PUT") = Some ("0"%string, true)) by (by vm_compute).
  rewrite Ha in H. destruct (decide (is_Some (sv_devices s !! "0"%string))) as [|Hn]; [|by destruct Hn].
  destruct H as (s' & H1 & _ & H2 & _). rewrite Hdr in H1. exists s, s'. by split_and!.
Defined.

Lemma serve_safe_witness :
  exists s resp, Init [] [sample_identity] sample_host = Some s /\
    serve (New "v1") {| ar_method := "POST"; ar_path := "/v1/chat/completions"; ar_contentType := ""; ar_query := fun _ => ""%string;
      ar_form := fun _ => ""%string; ar_body := ""; ar_remote := "" |} 5 s = Some (s, resp) /\ resp <> RForward.
Proof.
  destruct one_device as (s & Hi & Hinv & _).
  destruct (serve_safe (New "v1") {| ar_method := "POST"; ar_path := "/v1/chat/completions"; ar_contentType := "";
    ar_query := fun _ => ""%string; ar_form := fun _ => ""%string; ar_body := ""; ar_remote := "" |} 5 s Hinv)
    as (s' & resp & H1 & _ & H2 & H3).
  exists s, resp. assert (Es : s' = s) by (apply H2; discriminate). rewrite Es in H1.
  split; [exact Hi|]. split; [exact H1|]. intros E. by apply H3 in E as (_ & ? & _).
Defined.
