(* ===== verification/Config.v ===== *)
(** * The configuration of the daemon ([internal/config/config.go])

    The defaults and the test for a loopback address. *)

From Stdlib Require Import Floats.SpecFloat Strings.Ascii.
From stdpp Require Import base tactics numbers option list strings.
From S2P Require Import Prelude GoFloat GoTime GoText Model Lifecycle Stability Exec.
Open Scope go_scope.

Record Config := {
  cf_ListenAddr : string;
  cf_PollInterval : Z;
  cf_ProbeTimeout : Z;
  cf_AccessProbeEach : bool;
  cf_Devices : list string;
  cf_WindowSeconds : f64;
  cf_ProbeRingCap : Z;
  cf_PointRingCap : Z;
  cf_EventRingCap : Z;
  cf_WorkerCgroupHint : string;
  cf_EnableThroughputProbe : bool;
  cf_PersistPath : string;
  cf_Lifecycle : LifecycleConfig;
  cf_Stability : StabilityConfig;
}.

Definition Default : Config :=
  {| cf_ListenAddr := "127.0.0.1:9095"; cf_PollInterval := 2 * second; cf_ProbeTimeout := 8 * second;
     cf_AccessProbeEach := true; cf_Devices := []; cf_WindowSeconds := f64_of_Z 120; cf_ProbeRingCap := 2048;
     cf_PointRingCap := 4096; cf_EventRingCap := 512; cf_WorkerCgroupHint := ""; cf_EnableThroughputProbe := false;
     cf_PersistPath := ""; cf_Lifecycle := DefaultLifecycleConfig; cf_Stability := DefaultStabilityConfig |}.

(** ** Loopback addresses *)

(** The index of the last [b], or -1. *)
Fixpoint lastIndexByte (s : string) (b : ascii) : Z :=
  match s with
  | EmptyString => -1
  | String c s =>
      let i := lastIndexByte s b in
      if 0 <=? i then i + 1 else if Ascii.eqb c b then 0 else -1
  end.

(** The ascending loop: [i] is the index of the head of [s]. *)
Fixpoint colon_from (s : string) (i idx : Z) : Z :=
  match s with
  | EmptyString => idx
  | String c s => colon_from s (i + 1) (if Ascii.eqb c ":" then i else idx)
  end.

Definition lastColon (s : string) : Z :=
  let idx := colon_from s 0 (-1) in
  let r := lastIndexByte s "]" in
  if (0 <=? r) && (idx <? r) then -1 else idx.

Definition sget (s : string) (i : Z) : ascii := default Ascii.zero (String.get (Z.to_nat i) s).
(** [s[a:b]] *)
Definition sslice (a b : Z) (s : string) : string := String.substring (Z.to_nat a) (Z.to_nat (b - a)) s.

Definition trimBrackets (s : string) : string :=
  if (2 <=? slength s) && Ascii.eqb (sget s 0) "[" && Ascii.eqb (sget s (slength s - 1)) "]"
  then sslice 1 (slength s - 1) s else s.

(** The host part decides. *)
Definition loopback_host (host : string) : bool :=
  if String.eqb host "127.0.0.1" || String.eqb host "::1" || String.eqb host "localhost" then true
  else (4 <=? slength host) && String.eqb (sslice 0 4 host) "127.".

Definition IsLoopback (addr : string) : bool :=
  let i := lastColon addr in
  let host := if 0 <=? i then sslice 0 i addr else addr in
  loopback_host (trimBrackets host).

(** ** Facts *)

Fixpoint no_byte (b : ascii) (s : string) : bool :=
  match s with EmptyString => true | String c s => negb (Ascii.eqb c b) && no_byte b s end.

Lemma slength_cons c s : slength (String c s) = slength s + 1.
Proof. unfold slength. cbn [String.length]. lia. Qed.
Lemma slength_nonneg s : 0 <= slength s.
Proof. unfold slength. lia. Qed.

Lemma colon_from_none s i idx : no_byte ":" s = true -> colon_from s i idx = idx.
Proof.
  revert i idx. induction s as [|c s IH]; intros i idx H; [done|]. cbn [no_byte colon_from] in *.
  apply andb_true_iff in H as [Hc Hs]. destruct (Ascii.eqb c ":"); [done|]. by apply IH.
Qed.

Lemma colon_from_last host port i idx :
  no_byte ":" port = true -> colon_from (host +:+ String ":" port)%stdpp i idx = i + slength host.
Proof.
  intros H. revert i idx. induction host as [|c host IH]; intros i idx.
  - change (("" +:+ String ":" port)%stdpp) with (String ":" port). cbn [colon_from]. rewrite colon_from_none by done.
    change (slength "") with 0. cbn. lia.
  - change ((String c host +:+ String ":" port)%stdpp) with (String c (host +:+ String ":" port)%stdpp).
    cbn [colon_from]. rewrite IH, slength_cons. lia.
Qed.

Lemma lastIndexByte_none s b : no_byte b s = true -> lastIndexByte s b = -1.
Proof.
  induction s as [|c s IH]; intros H; [done|]. cbn [no_byte lastIndexByte] in *. apply andb_true_iff in H as [Hc Hs].
  rewrite IH by done. by destruct (Ascii.eqb c b).
Qed.

Lemma lastIndexByte_app s t b : no_byte b t = true -> lastIndexByte (s +:+ t)%stdpp b < slength s.
Proof.
  intros H. induction s as [|c s IH].
  - change (("" +:+ t)%stdpp) with t. by rewrite lastIndexByte_none.
  - change ((String c s +:+ t)%stdpp) with (String c (s +:+ t)%stdpp). cbn [lastIndexByte]. rewrite slength_cons.
    pose proof (slength_nonneg s). destruct (0 <=? _); [lia|]. destruct (Ascii.eqb c b); lia.
Qed.

Lemma lastColon_port host port :
  no_byte ":" port = true -> no_byte "]" port = true -> lastColon (host +:+ String ":" port)%stdpp = slength host.
Proof.
  intros Hc Hb. unfold lastColon. rewrite colon_from_last by done.
  assert (H : lastIndexByte (host +:+ String ":" port)%stdpp "]" < slength host) by (apply lastIndexByte_app; done).
  rewrite (proj2 (Z.ltb_ge (0 + slength host) _)) by lia. by rewrite andb_false_r.
Qed.

Lemma sslice_prefix s t : sslice 0 (slength s) (s +:+ t)%stdpp = s.
Proof.
  unfold sslice. rewrite Z.sub_0_r. change (String.substring (Z.to_nat 0) (Z.to_nat (slength s)) (s +:+ t)%stdpp)
    with (stake (slength s) (s +:+ t)%stdpp). rewrite stake_app_le by lia. by apply stake_all.
Qed.

Lemma IsLoopback_port host port :
  no_byte ":" port = true -> no_byte "]" port = true ->
  IsLoopback (host +:+ String ":" port)%stdpp = loopback_host (trimBrackets host).
Proof.
  intros Hc Hb. unfold IsLoopback. rewrite lastColon_port by done. rewrite (proj2 (Z.leb_le 0 _)) by apply slength_nonneg.
  by rewrite sslice_prefix.
Qed.

Lemma get_last s c : String.get (String.length s) (s +:+ String c "")%stdpp = Some c.
Proof.
  induction s as [|d s IH]; [done|]. change ((String d s +:+ String c "")%stdpp) with (String d (s +:+ String c "")%stdpp).
  exact IH.
Qed.

Lemma trimBrackets_bracketed h : trimBrackets (String "[" (h +:+ "]"))%stdpp = h.
Proof.
  unfold trimBrackets. rewrite slength_cons, slength_app. change (slength "]") with 1.
  pose proof (slength_nonneg h) as Hn. rewrite (proj2 (Z.leb_le 2 _)) by lia.
  assert (Hl : sget (String "[" (h +:+ "]")%stdpp) (slength h + 1 + 1 - 1) = "]"%char).
  { unfold sget. replace (Z.to_nat (slength h + 1 + 1 - 1)) with (S (String.length h)) by (unfold slength; lia).
    cbn [String.get]. by rewrite get_last. }
  rewrite Hl. cbn [andb sget]. change (Ascii.eqb (sget (String "[" (h +:+ "]")%stdpp) 0) "[") with true. cbn [andb Ascii.eqb].
  unfold sslice. replace (slength h + 1 + 1 - 1 - 1) with (slength h) by lia.
  change (String.substring (Z.to_nat 1) (Z.to_nat (slength h)) (String "[" (h +:+ "]")%stdpp))
    with (stake (slength h) (h +:+ "]")%stdpp). rewrite stake_app_le by lia. by apply stake_all.
Qed.

(** The wildcard and the test addresses of the repository. *)
Example loopback_examples :
  map IsLoopback ["127.0.0.1:9095"; "[::1]:9095"; "localhost:9095"; "127.5.5.5:80"; "[::]:9095"; "0.0.0.0:9095";
                  "192.168.1.10:9095"; "[2401:db00::1]:9095"; ":9095"; "::1"; "[::1]"]%string =
  [true; true; true; true; false; false; false; false; false; false; true].
Proof. by vm_compute. Qed.
(** A name that begins like an address is taken for one. *)
Lemma dns_name_counts : IsLoopback "127.example.com:9095" = true.
Proof. by vm_compute. Qed.

(** The loopback test behind the bind warning.  For every host text and every port text without a colon or a
    closing bracket the test looks exactly at the host, without its brackets: it answers yes for the names
    127.0.0.1, ::1 and localhost and for anything that starts with "127.", and no otherwise - in particular
    for every wildcard address; and the default address of the daemon passes it. *)
Theorem loopback_decided host port :
  no_byte ":" port = true -> no_byte "]" port = true ->
  let names h := h = "127.0.0.1"%string \/ h = "::1"%string \/ h = "localhost"%string \/ exists r, h = ("127." +:+ r)%stdpp in
  (IsLoopback (host +:+ String ":" port)%stdpp = true <-> names (trimBrackets host)) /\
  (IsLoopback (String "[" (host +:+ "]") +:+ String ":" port)%stdpp = true <-> names host) /\
  IsLoopback (String ":" port) = false /\
  IsLoopback ("0.0.0.0" +:+ String ":" port)%stdpp = false /\
  IsLoopback ("[::]" +:+ String ":" port)%stdpp = false /\
  IsLoopback Default.(cf_ListenAddr) = true.
Proof.
  intros Hc Hb names.
  assert (Hn : forall h, loopback_host h = true <-> names h).
  { intros h. unfold loopback_host, names. destruct (String.eqb h "127.0.0.1") eqn:E1; [apply String.eqb_eq in E1; tauto|].
    destruct (String.eqb h "::1") eqn:E2; [apply String.eqb_eq in E2; cbn; tauto|].
    destruct (String.eqb h "localhost") eqn:E3; [apply String.eqb_eq in E3; cbn; tauto|].
    cbn [orb]. rewrite andb_true_iff, Z.leb_le, String.eqb_eq. apply String.eqb_neq in E1, E2, E3. split.
    - intros [Hl Hp]. do 3 right.
      destruct h as [|a [|b [|c [|d r]]]]; try (unfold slength in Hl; cbn [String.length] in Hl; lia). exists r. destruct r; by injection Hp as -> -> -> ->.
    - intros [?|[?|[?|[r ->]]]]; try done. split; [|by destruct r].
      change (("127." +:+ r)%stdpp) with (String "1" (String "2" (String "7" (String "." r)))).
      rewrite !slength_cons. pose proof (slength_nonneg r). lia. }
  rewrite !IsLoopback_port, trimBrackets_bracketed by done. do 2 (split; [apply Hn|]).
  split; [|by repeat split]. change (String ":" port) with ("" +:+ String ":" port)%stdpp. by rewrite IsLoopback_port.
Qed.

Lemma loopback_decided_witness :
  IsLoopback "[::1]:9095" = true /\ IsLoopback ":9095" = false.
Proof.
  destruct (loopback_decided "::1" "9095" eq_refl eq_refl) as (_ & H & H' & _).
  split; [apply (proj2 H); tauto|exact H'].
Defined.
