(* ===== verification/Sidecar.v ===== *)
(** * The wiring of the sidecar daemon ([cmd/sidecar/main.go])

    What [main] adds to the components: the admission gate, the configuration of the queue, the proxy, the
    emitter and the observation plane, the loop that watches the runtime for the observation plane, the
    translation of events, and the queue body. *)

From Stdlib Require Import Floats.SpecFloat Strings.Ascii.
From stdpp Require Import base tactics numbers option list strings gmap.
From S2P Require Import Prelude GoFloat GoTime GoText Model Lifecycle Supervisor CacheIndex CacheProvider.
From S2P Require Import AdmissionQueue WorkAccounting Proxy Vllm Emitter Adapters Detect Exec Config.
Open Scope go_scope.

(** ** Flags *)

Record Flags := {
  fl_listen : string;
  fl_poll : Z;
  fl_probeTimeout : Z;
  fl_accessProbe : bool;
  fl_maxTelAge : Z;
  fl_enableDataPlane : bool;
  fl_vendor : string;
  fl_devicesCSV : string;
  fl_backendID : string;
  fl_dpDeviceID : string;
  fl_vllmBaseURL : string;
  fl_collectorURL : string;
  fl_maxQueued : Z;
  fl_maxInflight : Z;
  fl_queueTimeout : Z;
  fl_cacheObserver : string;
  fl_cacheEventEndpoint : string;
  fl_cacheIndexMax : Z;
  fl_cacheEntryTTL : Z;
  fl_cacheStaleAfter : Z;
  fl_cacheExplicitHeader : bool;
}.

(** The flags without a command line. *)
Definition DefaultFlags : Flags :=
  let c := Default in
  {| fl_listen := c.(cf_ListenAddr); fl_poll := c.(cf_PollInterval); fl_probeTimeout := c.(cf_ProbeTimeout);
     fl_accessProbe := c.(cf_AccessProbeEach); fl_maxTelAge := 15 * second; fl_enableDataPlane := false;
     fl_vendor := "auto"; fl_devicesCSV := ""; fl_backendID := ""; fl_dpDeviceID := "";
     fl_vllmBaseURL := "http://127.0.0.1:8000"; fl_collectorURL := ""; fl_maxQueued := 256; fl_maxInflight := 32;
     fl_queueTimeout := 30 * second; fl_cacheObserver := "disabled"; fl_cacheEventEndpoint := "";
     fl_cacheIndexMax := 100000; fl_cacheEntryTTL := 10 * 60 * second; fl_cacheStaleAfter := 30 * second;
     fl_cacheExplicitHeader := false |}.

(** The configuration the flags leave. *)
Definition flag_config (f : Flags) : Config :=
  let c := Default in
  {| cf_ListenAddr := f.(fl_listen); cf_PollInterval := f.(fl_poll); cf_ProbeTimeout := f.(fl_probeTimeout);
     cf_AccessProbeEach := f.(fl_accessProbe); cf_Devices := c.(cf_Devices); cf_WindowSeconds := c.(cf_WindowSeconds);
     cf_ProbeRingCap := c.(cf_ProbeRingCap); cf_PointRingCap := c.(cf_PointRingCap);
     cf_EventRingCap := c.(cf_EventRingCap); cf_WorkerCgroupHint := c.(cf_WorkerCgroupHint);
     cf_EnableThroughputProbe := c.(cf_EnableThroughputProbe); cf_PersistPath := c.(cf_PersistPath);
     cf_Lifecycle := c.(cf_Lifecycle); cf_Stability := c.(cf_Stability) |}.

(** The warning before the server starts. *)
Definition warns_exposed (f : Flags) : bool := negb (IsLoopback (flag_config f).(cf_ListenAddr)).

(** The devices to monitor; none means all. *)
Definition devFilter (f : Flags) : list string :=
  if negb (String.eqb f.(fl_devicesCSV) "") then split_on ","%char f.(fl_devicesCSV) else [].

Definition backend_id (f : Flags) (host : string) : string :=
  if String.eqb f.(fl_backendID) "" then (host +:+ "-gpu" +:+ f.(fl_dpDeviceID))%stdpp else f.(fl_backendID).

Definition vllm_config (f : Flags) : VllmConfig :=
  let c := DefaultVllmConfig in
  {| vc_BaseURL := f.(fl_vllmBaseURL); vc_HealthPath := c.(vc_HealthPath); vc_MetricsPath := c.(vc_MetricsPath);
     vc_ChatCompletionsPath := c.(vc_ChatCompletionsPath); vc_RequestTimeout := c.(vc_RequestTimeout);
     vc_ConnectTimeout := c.(vc_ConnectTimeout); vc_MetricsTimeout := c.(vc_MetricsTimeout);
     vc_MetricsRefresh := c.(vc_MetricsRefresh); vc_HealthRefresh := c.(vc_HealthRefresh) |}.

Definition emitter_config (f : Flags) (host : string) : EmitterConfig :=
  let c := DefaultEmitterConfig in
  {| ec_Enabled := negb (String.eqb f.(fl_collectorURL) ""); ec_CollectorURL := f.(fl_collectorURL);
     ec_BatchSize := c.(ec_BatchSize); ec_FlushInterval := c.(ec_FlushInterval);
     ec_QueueCapacity := c.(ec_QueueCapacity); ec_RequestTimeout := c.(ec_RequestTimeout);
     ec_LocalFallbackPath := ""; ec_Source := ("sidecar:" +:+ host)%stdpp |}.

Definition queue_config (f : Flags) : QueueConfig :=
  let c := DefaultQueueConfig in
  {| qc_Enabled := c.(qc_Enabled); MaxQueuedRequests := f.(fl_maxQueued); MaxInflightRequests := f.(fl_maxInflight);
     QueueTimeout := f.(fl_queueTimeout); AdmissionMode := c.(AdmissionMode) |}.

Definition proxy_config (f : Flags) (host : string) : ProxyConfig :=
  let c := DefaultProxyConfig in
  {| pc_HostID := host; pc_BackendID := backend_id f host; pc_DeviceID := f.(fl_dpDeviceID);
     pc_MaxBufferBytes := c.(pc_MaxBufferBytes); pc_SlowConsumerWarnMs := c.(pc_SlowConsumerWarnMs);
     pc_LogContent := c.(pc_LogContent); Proxy.pc_ExplicitHeaderEnabled := f.(fl_cacheExplicitHeader);
     pc_MaxPrefixTokens := c.(pc_MaxPrefixTokens) |}.

Definition provider_config (f : Flags) : ProviderConfig :=
  {| pc_Mode := ParseMode f.(fl_cacheObserver);
     pc_Index := {| MaxEntries := f.(fl_cacheIndexMax); EntryTTL := f.(fl_cacheEntryTTL);
                    StaleAfter := f.(fl_cacheStaleAfter); BlockSize := 16 |};
     CacheProvider.pc_ExplicitHeaderEnabled := f.(fl_cacheExplicitHeader); pc_EventEndpoint := f.(fl_cacheEventEndpoint) |}.

(** The observation plane and the token accounting exist together, when the mode is not disabled. *)
Definition observes (f : Flags) : bool := negb (bool_decide (ParseMode f.(fl_cacheObserver) = ModeDisabled)).

(** The bound on the published directory. *)
Definition dir_max (f : Flags) : Z := if 4096 <? f.(fl_cacheIndexMax) then 4096 else f.(fl_cacheIndexMax).

(** ** The supervisor *)

(** What [main] learns before it starts: the host name, the boot id, the instance id and the clock. *)
Record HostFacts := { hf_host : string; hf_bootID : string; hf_instanceID : string; hf_now : Z }.

Definition Version : string := "0.1.0".

(** From the flags to the first poll: [discovered] is the answer of the adapter's [Discover] ([inl] is the
    error, after which the daemon goes on without devices) and [input] what the first poll is fed with. *)
Definition start {A} `{!AdapterOps A} (exp : f64 -> f64) (f : Flags) (h : HostFacts) (adapter : A)
    (discovered : string + list Identity) (input : string -> PollInput) : option Supervisor :=
  let c := flag_config f in
  let sup := NewSupervisor (ad_Vendor adapter) h.(hf_instanceID) h.(hf_host) h.(hf_bootID) Version
               c.(cf_Lifecycle) c.(cf_Stability) c.(cf_WindowSeconds) c.(cf_ProbeRingCap) c.(cf_PointRingCap)
               c.(cf_EventRingCap) c.(cf_AccessProbeEach) h.(hf_now) in
  let sup := SetPollInterval c.(cf_PollInterval) (SetMaxTelemetryAge f.(fl_maxTelAge) sup) in
  sup ← match discovered with inl _ => Some sup | inr ids => Init (devFilter f) ids sup end;
  PollOnce exp input sup.

(** ** The admission gate *)

(** [Some None] admits, the outer [None] is a panic of the supervisor. *)
Definition gate (healthy : bool) (dpDeviceID : string) (now : Z) (sup : Supervisor) : option (option QueueError) :=
  if negb healthy then Some (Some ErrRuntimeUnhealthy)
  else
    st ← device_readiness sup dpDeviceID now;
    let offline := match st with Some dr => bool_decide ("LIFECYCLE_OFFLINE"%string ∈ dr.(dr_Reasons)) | None => false end in
    if offline then Some (Some ErrBackendOffline)
    else if Draining dpDeviceID sup then Some (Some ErrBackendDraining)
    else Some None.

(** ** The runtime watcher of the observation plane *)

Section watcher.
  Context {P : Type} `{!Provider P}.

(** One tick: [kv] is the cache utilization of the runtime's snapshot, [up] its health. *)
Record Tick := { tk_now : Z; tk_kv : Field f64; tk_up : bool }.

Definition watch (t : Tick) (st : bool * P) : bool * P :=
  let '(lastUp, p) := st in
  let p := if t.(tk_kv).(Supported) then p_SetKVHeadroom (f64_sub f64_one t.(tk_kv).(Value)) true p
           else p_SetKVHeadroom f64_zero false p in
  let p := if t.(tk_up) && negb lastUp then p_OnRuntimeRestart t.(tk_now) p else p in
  (t.(tk_up), p).

(** The loop starts with [lastUp] true. *)
Definition watch_all (ticks : list Tick) (p : P) : bool * P := fold_left (fun st t => watch t st) ticks (true, p).
End watcher.

(** ** Events *)

Definition ReqState_string (s : ReqState) : string :=
  match s with
  | StateReceived => "RECEIVED" | StateQueued => "QUEUED" | StateDispatching => "DISPATCHING"
  | StateStreaming => "STREAMING" | StateWaitingFull => "WAITING_FOR_FULL_RESPONSE" | StateCompleted => "COMPLETED"
  | StateRejected => "REJECTED" | StateCancelled => "CANCELLED" | StateTimedOut => "TIMED_OUT"
  | StateUpstreamFail => "UPSTREAM_FAILED" | StatePartialStream => "PARTIAL_STREAM_FAILED"
  end.

(** The trajectory event of a state transition of the queue. *)
Definition transition_event (host : string) (e : TransitionEvent) : TEvent :=
  {| tv_Kind := "STATE_TRANSITION"; tv_Source := ("sidecar:" +:+ host)%stdpp;
     tv_RequestID := e.(te_Ticket).(tk_RequestID); tv_RouteID := e.(te_Ticket).(tk_RouteID);
     tv_BackendID := e.(te_Ticket).(tk_BackendID); tv_HostID := e.(te_Ticket).(tk_HostID);
     tv_DeviceID := e.(te_Ticket).(tk_DeviceID); tv_Wall := e.(te_Wall);
     tv_Fields := [("from"%string, EvString (ReqState_string e.(te_From)));
                   ("to"%string, EvString (ReqState_string e.(te_To))); ("reason"%string, EvString e.(te_Reason))] |}.

(** [SidecarSink.Emit] ([internal/trajectory/sink.go]): the event of the proxy, with the ids the proxy adds. *)
Definition sink_event (cfg : ProxyConfig) (wall : Z) (e : LocalEvent) : TEvent :=
  {| tv_Kind := e.(le_Kind); tv_Source := ""; tv_RequestID := e.(le_RequestID); tv_RouteID := e.(le_RouteID);
     tv_BackendID := cfg.(pc_BackendID); tv_HostID := cfg.(pc_HostID); tv_DeviceID := cfg.(pc_DeviceID);
     tv_Wall := wall; tv_Fields := e.(le_Fields) |}.

(** The body of [/v1/queue]: the queue alone, or with the work accounting. *)
Definition queue_body (qs : QueueSnapshot) (work : option WorkAccountant) : QueueSnapshot * option WorkSnapshot :=
  (qs, WorkSnapshot_of <$> work).

(** [BuildPublicSnapshot] ([internal/cache/http_snapshot.go]). *)
Definition BuildPublicSnapshot {P} `{!Provider P} (clk clk' : nat -> Z) (rng : entry_map -> list (string * IndexEntry))
    (dirMax : Z) (p : P) : P * (CacheSnapshot * gmap string Z) :=
  let '(p, s) := p_Snapshot clk p in (p, (s, p_Directory clk' rng dirMax p)).
