(* ===== verification/SidecarFacts.v ===== *)
(** * Properties of the daemon's wiring

    The admission gate in terms of the supervisor's state, from the vendor tool to the refusal of a request,
    and what a restart of the runtime does to the published locality. *)

From Stdlib Require Import Floats.SpecFloat.
From stdpp Require Import base tactics numbers option list strings gmap.
From S2P Require Import Prelude GoFloat GoTime Model Lifecycle LifecycleFacts Supervisor SupervisorFacts CacheIndex CacheProvider.
From S2P Require Import Stability History AdmissionQueue Proxy Adapters Detect AdapterFacts AdminApi AdminFacts Config Sidecar Ordering.
Open Scope go_scope.

(** ** The gate *)

Lemma elem_of_when x b r : x ∈ when b r <-> b = true /\ x = r.
Proof. unfold when. destruct b; rewrite ?list_elem_of_singleton, ?elem_of_nil; intuition congruence. Qed.

Lemma offline_reason s dev now b d :
  sv_devices s !! dev = Some d ->
  exists dr, deviceReadinessLocked s dev now b = Some dr /\
    ("LIFECYCLE_OFFLINE"%string ∈ dr.(dr_Reasons) <-> last_offline d = true).
Proof.
  intros Hd. unfold deviceReadinessLocked. rewrite Hd. cbn [mbind option_bind]. eexists. split; [reflexivity|].
  cbn [dr_Reasons]. rewrite !elem_of_app, !elem_of_when.
  assert (Hs : "LIFECYCLE_OFFLINE"%string ∈ (if negb (time_is_zero (sd_lastSampleWall d))
    then when (sv_maxTelemetryAge s <? time_sub now (sd_lastSampleWall d)) "TELEMETRY_STALE"
    else ["NO_SUCCESSFUL_SAMPLE"%string]) <-> False).
  { destruct (negb _); [rewrite elem_of_when|rewrite list_elem_of_singleton]; intuition discriminate. }
  rewrite Hs. intuition discriminate.
Qed.

Definition offline_now (s : Supervisor) (dev : string) : bool :=
  match sv_devices s !! dev with Some d => last_offline d | None => false end.

Lemma gate_value healthy dev now s : sv_inv s -> gate healthy dev now s = Some (
  if negb healthy then Some ErrRuntimeUnhealthy
  else if offline_now s dev then Some ErrBackendOffline
  else if Draining dev s then Some ErrBackendDraining else None).
Proof.
  intros Hs. unfold gate, offline_now. destruct healthy; [|done]. cbn [negb]. unfold device_readiness.
  destruct (sv_devices s !! dev) as [d|] eqn:E; [|cbn [mbind option_bind]; by destruct (Draining dev s)].
  destruct (devices_total s Hs) as [ds Hds]. destruct (collectorStalled_spec s now ds Hds) as (b & -> & _).
  cbn [mbind option_bind]. destruct (offline_reason s dev now b d E) as (dr & -> & Hdr). cbn [fmap option_fmap option_map mbind option_bind].
  replace (bool_decide _) with (last_offline d); [by destruct (last_offline d), (Draining dev s)|].
  destruct (last_offline d); symmetry; [apply bool_decide_eq_true, Hdr; done|].
  apply bool_decide_eq_false. intros H. by apply Hdr in H.
Qed.

(** C10: the admission gate of the data plane, exactly, for a device the supervisor manages.  It never panics; it refuses a request with
    RUNTIME_UNHEALTHY when the runtime's last health check failed, else with BACKEND_OFFLINE when the device's
    published state is OFFLINE, else with BACKEND_DRAINING when the device is draining, and it admits
    otherwise. *)
Theorem gate_exact healthy dev now s d :
  sv_inv s -> sv_devices s !! dev = Some d ->
  let draining := d.(sd_machine).(lm_draining) in
  exists g, gate healthy dev now s = Some g /\
    (g = Some ErrRuntimeUnhealthy <-> healthy = false) /\
    (g = Some ErrBackendOffline <-> healthy = true /\ last_offline d = true) /\
    (g = Some ErrBackendDraining <-> healthy = true /\ last_offline d = false /\ draining = true) /\
    (g = None <-> healthy = true /\ last_offline d = false /\ draining = false).
Proof.
  intros Hs Hd. cbv zeta. rewrite (gate_value healthy dev now s Hs). unfold offline_now, Draining. rewrite Hd.
  eexists. split; [reflexivity|].
  destruct healthy, (last_offline d), (lm_draining _); cbn; (repeat split); (done || (by intros (? & ?)) || (by intros (? & ? & ?))).
Qed.

(** ** From the vendor tool to the refusal *)

Lemma published_state d : device_inv d -> is_Some (sd_lastStatus d) ->
  last_offline d = LifecycleState_eqb (lm_state (sd_machine d)) StateOffline.
Proof.
  intros Hd [st E]. destruct (di_status d Hd st E) as (H & _). unfold last_offline. by rewrite E, H.
Qed.

(** C9: end to end inside the daemon.  When the poll of a managed device finds that the device is gone (by the
    evidence of any adapter the daemon can choose), every request that reaches the admission gate afterwards,
    as long as no later poll changes the device, is refused: with BACKEND_OFFLINE, or RUNTIME_UNHEALTHY
    when the runtime is down as well. *)
Theorem gone_device_refused exp now dev i d vendor env smi rocm w s healthy :
  let a := daemon_adapter vendor env smi rocm in
  sv_inv s -> sv_devices s !! dev = Some d -> fed a w dev i -> ad_gone a w dev ->
  exists d', pollDevice exp s.(sv_accessEach) dev i d = Some d' /\
    let s' := with_devices (<[dev := d']> s.(sv_devices)) s.(sv_order) s in
    sv_inv s' /\ (gate healthy dev now s' = Some (Some (if healthy : bool then ErrBackendOffline else ErrRuntimeUnhealthy))).
Proof.
  intros a Hs Hd Hfed Hg. pose proof (si_devices s Hs dev d Hd) as Hi.
  destruct (gone_goes_offline exp (sv_accessEach s) dev i d a w Hi Hfed Hg) as (d' & Hp & Hi' & Hst & Hoff).
  exists d'. split; [done|]. cbv zeta. set (s' := with_devices _ _ _).
  assert (Hs' : sv_inv s').
  { split; cbn; [by apply map_Forall_insert_2; [|apply Hs]|]. intros k. rewrite (si_order s Hs k).
    destruct (decide (k = dev)) as [->|Hne]; [rewrite lookup_insert_eq, Hd; by split; eexists|by rewrite lookup_insert_ne]. }
  split; [done|]. rewrite (gate_value healthy dev now s' Hs').
  assert (Ho : offline_now s' dev = true).
  { unfold offline_now. cbn. rewrite lookup_insert_eq, published_state, Hoff by done. done. }
  rewrite Ho. by destruct healthy.
Qed.

(** ** The daemon as a whole *)

(** What the goroutines of the daemon do to the supervisor: the ticker polls, a request of the HTTP interface
    is answered, the gate is asked. *)
Inductive daemon_op :=
  | DPoll (input : string -> PollInput)
  | DRequest (srv : Server) (r : ApiRequest) (now : Z)
  | DGate (healthy : bool) (dev : string) (now : Z).

Definition daemon_apply `{!SliceSort} (exp : f64 -> f64) (op : daemon_op) (s : Supervisor) : option Supervisor :=
  match op with
  | DPoll input => PollOnce exp input s
  | DRequest srv r now => fst <$> serve srv r now s
  | DGate healthy dev now => (fun _ => s) <$> gate healthy dev now s
  end.

Definition daemon_run `{!SliceSort} (exp : f64 -> f64) (ops : list daemon_op) (s : Supervisor) : option Supervisor :=
  fold_left (fun s op => s ← s; daemon_apply exp op s) ops (Some s).

Lemma daemon_apply_ok `{!SliceSort} exp op s : sv_inv s -> exists s', daemon_apply exp op s = Some s' /\ sv_inv s'.
Proof.
  intros Hs. destruct op as [input|srv r now|healthy dev now]; cbn [daemon_apply].
  - apply (sv_apply_ok exp (OpPoll input) s Hs).
  - destruct (serve_total srv r now s Hs) as (s' & resp & -> & Hs' & _). by exists s'.
  - rewrite gate_value by done. by exists s.
Qed.

Lemma start_ok {A} `{!AdapterOps A} exp f h (a : A) discovered input :
  exists s, start exp f h a discovered input = Some s /\ sv_inv s.
Proof.
  unfold start. set (s := SetPollInterval _ _).
  assert (Hs : sv_inv s) by (split; [apply map_Forall_empty|]; intros k; cbn; rewrite lookup_empty, is_Some_alt; set_solver).
  assert (Hc : caps_ok s) by done.
  destruct discovered as [e|ids]; cbn [mbind option_bind]; [apply (sv_apply_ok exp (OpPoll input) s Hs)|].
  destruct (Init_ok (devFilter f) ids s Hc Hs) as (s' & -> & Hs'). apply (sv_apply_ok exp (OpPoll input) s' Hs').
Qed.

(** C4: the daemon's supervisor never panics and stays sound.  Whatever the flags, the host and the adapter, whether
    discovery fails or whatever it finds, it is set up and polled for the first time; and every interleaving of polls (whatever the vendor tools
    answer), HTTP requests (whatever they hold) and admission checks is executed to its end; and then, for
    every managed device, the offline edge agrees with the lifecycle state, disconnects and rejoins balance,
    and the published state is the machine's with a score in [0,1]. *)
Theorem daemon_never_panics `{!SliceSort} exp f h vendor env smi rocm discovered input ops :
  exists s0 s, start exp f h (daemon_adapter vendor env smi rocm) discovered input = Some s0 /\
    daemon_run exp ops s0 = Some s /\
    (forall dev, dev ∈ sv_order s <-> is_Some (sv_devices s !! dev)) /\
    forall dev d, sv_devices s !! dev = Some d ->
      sd_wasOffline d = LifecycleState_eqb (lm_state (sd_machine d)) StateOffline /\
      balanced (sd_wasOffline d) (counts_of (sd_hist d)) /\
      forall st, sd_lastStatus d = Some st -> ds_LifecycleState st = lm_state (sd_machine d) /\
        in_unit (ss_Score (ds_Stability st)) = true.
Proof.
  destruct (start_ok exp f h (daemon_adapter vendor env smi rocm) discovered input) as (s0 & -> & Hs0). exists s0.
  assert (Hrun : exists s, daemon_run exp ops s0 = Some s /\ sv_inv s).
  { unfold daemon_run. revert s0 Hs0. induction ops as [|op ops IH]; intros s0 Hs0; cbn [fold_left]; [by exists s0|].
    rebind. destruct (daemon_apply_ok exp op s0 Hs0) as (s' & -> & Hs'). by apply IH. }
  destruct Hrun as (s & Hr & [Hd Ho]). exists s. split; [done|]. split; [done|]. split; [done|].
  intros dev d Hl. destruct (Hd dev d Hl) as [_ _ Hw Hb _ Hst]. split; [done|]. split; [done|].
  intros st E. destruct (Hst st E) as (? & ? & _). by split.
Qed.

(** ** The runtime watcher *)

Section watch.
  Context {P : Type} `{!Provider P} (inv : P -> Prop) `{!ProviderHonest P inv}.

Lemma watch_last ticks (p : P) : fst (watch_all ticks p) = match last ticks with Some t => t.(tk_up) | None => true end.
Proof.
  unfold watch_all. induction ticks as [|t ticks _] using rev_ind; [done|].
  rewrite fold_left_app, last_snoc. cbn. by destruct (fold_left _ ticks _).
Qed.

(** C14: the loop that watches the runtime keeps the provider's invariant on every run, and when the runtime comes
    back (the tick finds it up after a tick that found it down) no locality from before is published any more:
    every lookup answers zero tokens and the directory is empty, until new observations arrive. *)
Theorem restart_forgets ticks t0 t (p : P) clk q rng :
  inv p -> (forall m, rng m ≡ₚ map_to_list m) ->
  inv (snd (watch_all (ticks ++ [t0; t]) p)) /\
  (t0.(tk_up) = false -> t.(tk_up) = true ->
   mr_MatchedPrefixTokens (p_Lookup clk q (snd (watch_all (ticks ++ [t0; t]) p))) = 0 /\
   forall clk' max, p_Directory clk' rng max (snd (watch_all (ticks ++ [t0; t]) p)) = ∅).
Proof.
  intros Hp Hr. assert (Hinv : forall ts, inv (snd (watch_all ts p))).
  { intros ts. unfold watch_all. induction ts as [|u ts IH] using rev_ind; [done|].
    rewrite fold_left_app. cbn. destruct (fold_left _ ts _) as [up p1]. cbn in *.
    destruct (tk_up u && negb up); [apply (ph_restart_inv (inv := inv))|];
      destruct (Supported _); by apply (ph_headroom_inv (inv := inv)). }
  split; [apply Hinv|]. intros H0 H1. pose proof (watch_last (ticks ++ [t0]) p) as Hl.
  rewrite last_snoc, H0 in Hl. replace (ticks ++ [t0; t]) with ((ticks ++ [t0]) ++ [t]) by by rewrite <- app_assoc.
  unfold watch_all in *. rewrite (fold_left_app _ (ticks ++ [t0]) [t]). cbn.
  destruct (fold_left _ (ticks ++ [t0]) _) as [up p1]. cbn in Hl. subst up. cbn. rewrite H1. cbn.
  match goal with |- context [ p_OnRuntimeRestart ?n ?x ] => destruct (ph_restart (inv := inv) x n clk q) as [H2 H3] end.
  split; [done|]. intros clk' max. by apply H3.
Qed.
End watch.

(** ** Witnesses *)

(** A fresh device is admitted, a runtime that is down is refused. *)
Lemma gate_exact_witness :
  exists s, Init [] [sample_identity] sample_host = Some s /\
    gate true "0" 5 s = Some None /\ gate false "0" 5 s = Some (Some ErrRuntimeUnhealthy).
Proof.
  destruct one_device as (s & Hi & Hinv & [d Hd] & _). exists s. split; [done|].
  assert (F : (fun s => (fun d => (last_offline d, lm_draining (sd_machine d))) <$> sv_devices s !! "0"%string) <$>
    Init [] [sample_identity] sample_host = Some (Some (false, false))) by (by vm_compute).
  rewrite Hi in F. cbn [fmap option_fmap option_map] in F. rewrite Hd in F. injection F as F1 F2.
  destruct (gate_exact true "0" 5 s d Hinv Hd) as (g & -> & _ & _ & _ & H).
  destruct (gate_exact false "0" 5 s d Hinv Hd) as (g' & -> & H' & _).
  rewrite (proj2 H) by done. by rewrite (proj2 H').
Defined.

(** nvidia-smi says that the GPU is lost: the next request is refused. *)
Lemma gone_device_refused_witness :
  let a := daemon_adapter "nvidia" "" (Some "/usr/bin/nvidia-smi"%string) None in
  let w := hanging (ran "" "GPU is lost." 15 false) in
  let i : PollInput := {| in_mono := second; in_wall := second; in_health := fst (ad_Sample a w "0"); in_access := ad_AccessProbe a w "0" |} in
  exists s d d', Init [] [sample_identity] sample_host = Some s /\ sv_devices s !! "0"%string = Some d /\
    pollDevice (fun _ => f64_one) s.(sv_accessEach) "0" i d = Some d' /\
    gate true "0" second (with_devices (<["0"%string := d']> s.(sv_devices)) s.(sv_order) s) = Some (Some ErrBackendOffline).
Proof.
  intros a w i. destruct one_device as (s & Hi & Hinv & [d Hd] & _). exists s, d.
  destruct (gone_device_refused (fun _ => f64_one) second "0" i d "nvidia" "" (Some "/usr/bin/nvidia-smi"%string) None w s true
    Hinv Hd ltac:(by split)) as (d' & H1 & _ & H2).
  - right. split; [done|]. split; [done|]. exists "gpu is lost"%string. split; [apply list_elem_of_In; cbn; tauto|by vm_compute].
  - exists d'. split_and!; assumption.
Defined.

(** An observed prefix is a match of 32 tokens until the runtime came back. *)
Lemma restart_forgets_witness :
  let cfg := {| pc_Mode := ModeExplicit; pc_Index := DefaultIndexConfig; CacheProvider.pc_ExplicitHeaderEnabled := true; pc_EventEndpoint := "" |} in
  let p := Observe (fun _ => map_to_list) 5 "k" 32 (NewExplicitProvider cfg 0) in
  let q := {| PrefixKeyHash := "k"; PrefixTokens := 64 |} in
  let clk _ := second in
  let t0 := {| tk_now := second; tk_kv := Unsup f64_zero; tk_up := false |} in
  let t := {| tk_now := 2 * second; tk_kv := Unsup f64_zero; tk_up := true |} in
  mr_MatchedPrefixTokens (p_Lookup clk q p) = 32 /\
  mr_MatchedPrefixTokens (p_Lookup clk q (snd (watch_all [t0; t] p))) = 0.
Proof.
  intros cfg p q clk t0 t. split; [by vm_compute|].
  apply (restart_forgets (fun p => tokens_pos (ep_index p)) [] t0 t p clk q map_to_list); [|done|done|done].
  apply tokens_pos_store; [done|]. intros k e He. by vm_compute in He.
Defined.
