(* ===== verification/Publish.v ===== *)
(** * The published bodies as JSON

    What the encoder prints for the bodies the router polls: the members of the structs in the order of their
    fields, the keys of maps sorted.  The model does not tell a nil slice or map from an empty one; the encoder
    writes the one as [null] and the other as empty, so which of the two it writes is an input.  So is the text of a
    time, which depends on the zone of the host. *)

From Stdlib Require Import Floats.SpecFloat.
From stdpp Require Import base tactics numbers option list strings gmap sorting.
From S2P Require Import Prelude Ordering GoFloat GoText GoStrconv Json JsonPrint JsonFloat Model CacheIndex AdmissionQueue.
From S2P Require Import WorkAccounting Vllm Supervisor AdminApi Sidecar.
Open Scope go_scope.

(** A member that cannot be written makes the whole body fail. *)
Definition written_members (l : list (string * option json)) : option (list (string * json)) :=
  mapM (fun '(k, o) => pair k <$> o) l.
Definition object (l : list (string * option json)) : option json := JObj <$> written_members l.
Definition array (l : list (option json)) : option json := JArr <$> mapM (fun o => pair ""%string <$> o) l.

Section bodies.
  Context (time_text : Z -> string) (zero_time : string) (hollow : string -> json).

Definition jstr (s : string) : option json := Some (JStr s).
Definition jbool (b : bool) : option json := Some (JBool b).
Definition jint (n : Z) : option json := Some (JNum (itoa n)).
Definition jfloat (x : f64) : option json := JNum <$> json_float x.
Definition jtime (t : Z) : option json := Some (JStr (time_text t)).

(** A slice or a map, by the name of its member. *)
Definition jlist {A} (name : string) (f : A -> option json) (l : list A) : option json :=
  match l with [] => Some (hollow name) | _ => array (map f l) end.
Definition key_le {A} (a b : string * A) : Prop := string_ltb b.1 a.1 = false.
#[local] Instance key_le_dec {A} (a b : string * A) : Decision (key_le a b).
Proof. unfold key_le. apply _. Defined.
Definition sorted_entries {A} (m : gmap string A) : list (string * A) := merge_sort key_le (map_to_list m).
Definition jmap {A} (name : string) (f : A -> option json) (m : gmap string A) : option json :=
  match sorted_entries m with [] => Some (hollow name) | l => object (map (fun '(k, x) => (k, f x)) l) end.

Definition jfield {A} (f : A -> option json) (x : Field A) : option json :=
  object [("value", f x.(Value)); ("supported", jbool x.(Supported))]%string.

(** ** [/v1/status] *)

(** A part of a device that has been polled, or its zero value. *)
Definition part {A} (zero : A) (f : DeviceStatus -> A) (d : option DeviceStatus) : A :=
  match d with Some d => f d | None => zero end.

Section device.
  Context (d : option DeviceStatus).
Let str (f : DeviceStatus -> string) : option json := jstr (part ""%string f d).
Let bool' (f : DeviceStatus -> bool) : option json := jbool (part false f d).
Let int (f : DeviceStatus -> Z) : option json := jint (part 0 f d).
Let float (f : DeviceStatus -> f64) : option json := jfloat (part f64_zero f d).
Let time (f : DeviceStatus -> Z) : option json := Some (JStr (part zero_time (fun d => time_text (f d)) d)).
Let ffield (f : DeviceStatus -> Field f64) : option json := jfield jfloat (part (Unsup f64_zero) f d).
Let ifield (f : DeviceStatus -> Field Z) : option json := jfield jint (part (Unsup 0) f d).
Let strs (name : string) (f : DeviceStatus -> list string) : option json := jlist name jstr (part [] f d).
Let ptr (f : DeviceStatus -> option Z) : option json :=
    match part None f d with Some t => jtime t | None => Some JNull end.

Definition identity_json : option json :=
  let id f := str (fun d => f d.(ds_Identity)) in
  object [("sidecar_instance_id", id id_SidecarInstanceID); ("hostname", id id_Hostname); ("backend_id", id id_BackendID);
    ("vendor", id (fun i => Vendor_string i.(id_Vendor))); ("device_id", id id_DeviceID); ("gpu_model", id id_GPUModel);
    ("gpu_uuid", id id_GPUUUID); ("driver_version", id id_DriverVersion); ("runtime_version", id id_RuntimeVersion);
    ("boot_id", id id_BootID); ("sidecar_version", id id_SidecarVersion)]%string.

Definition class_text (c : FailureClass) : string :=
  match c with FailureNone => "" | FailureHard => "hard" | FailureSoft => "soft" end.

Definition failure_json : option json :=
  let pf f := str (fun d => f d.(ds_Health).(h_ProbeFailure)) in
  object [("class", pf (fun p => class_text p.(pf_Class))); ("reason", pf pf_Reason); ("detail", pf pf_Detail)]%string.

Definition health_json : option json :=
  let fl f := ffield (fun d => f d.(ds_Health)) in
  let nt f := ifield (fun d => f d.(ds_Health)) in
  let bl f := bool' (fun d => f d.(ds_Health)) in
  object [("timestamp", time (fun d => d.(ds_Health).(h_Timestamp))); ("heartbeat_ok", bl h_HeartbeatOK);
    ("gpu_visible", bl h_GPUVisible); ("gpu_accessible", bl h_GPUAccessible);
    ("utilization_gpu_pct", fl h_UtilizationGPU); ("mem_used_bytes", nt h_MemUsedBytes);
    ("mem_free_bytes", nt h_MemFreeBytes); ("mem_total_bytes", nt h_MemTotalBytes);
    ("temperature_c", fl h_TemperatureC); ("power_watts", fl h_PowerWatts); ("power_limit_watts", fl h_PowerLimitWatts);
    ("sm_clock_mhz", fl h_SMClockMHz); ("mem_clock_mhz", fl h_MemClockMHz); ("compute_proc_count", nt h_ComputeProcs);
    ("effective_free_mem_ratio", float (fun d => d.(ds_Health).(h_EffectiveFreeMemRatio)));
    ("probe_latency_ms", float (fun d => d.(ds_Health).(h_ProbeLatencyMs))); ("probe_failure", failure_json);
    ("ecc_uncorrectable_total", nt h_ECCUncorrectable); ("ecc_correctable_total", nt h_ECCCorrectable);
    ("nvidia_xid_errors", jfield (jlist "nvidia_xid_errors" jint) (part (Unsup []) (fun d => d.(ds_Health).(h_XIDErrors)) d));
    ("amd_ras_uncorrectable", nt h_RASUncorrectable); ("amd_ras_correctable", nt h_RASCorrectable);
    ("unsupported_fields", strs "unsupported_fields" (fun d => d.(ds_Health).(h_UnsupportedFields)))]%string.

Definition lifecycle_json : option json :=
  let nt f := int (fun d => f d.(ds_Lifecycle)) in
  let bl f := bool' (fun d => f d.(ds_Lifecycle)) in
  object [("state", str (fun d => LifecycleState_string d.(ds_Lifecycle).(li_State)));
    ("reason_codes", strs "reason_codes" (fun d => d.(ds_Lifecycle).(li_ReasonCodes)));
    ("consecutive_soft_failures", nt li_ConsecutiveSoftFailures); ("offline_failure_threshold", nt li_OfflineFailureThreshold);
    ("healthy_streak", nt li_HealthyStreak); ("recovery_streak_required", nt li_RecoveryStreakRequired);
    ("hard_offline", bl li_HardOffline); ("recovery_latched", bl li_RecoveryLatched);
    ("recovery_healthy_streak", nt li_RecoveryHealthyStreak)]%string.

Definition reliability_json : option json :=
  let nt f := int (fun d => f d.(ds_Reliability)) in
  let fl f := float (fun d => f d.(ds_Reliability)) in
  object [("last_successful_probe", ptr (fun d => d.(ds_Reliability).(rel_LastSuccessfulProbe)));
    ("last_failed_probe", ptr (fun d => d.(ds_Reliability).(rel_LastFailedProbe)));
    ("consecutive_probe_failures", nt rel_ConsecutiveFailures); ("sidecar_start_count", nt rel_SidecarStartCount);
    ("worker_starts_observed", nt rel_WorkerStarts); ("worker_stops_observed", nt rel_WorkerStops);
    ("disconnect_count", nt rel_DisconnectCount); ("rejoin_count", nt rel_RejoinCount);
    ("last_recovery_duration_ms", fl rel_LastRecoveryMs); ("recent_availability_ratio", fl rel_RecentAvailability);
    ("recent_failure_rate", fl rel_RecentFailureRate); ("probe_latency_p50_ms", fl rel_ProbeLatencyP50Ms);
    ("probe_latency_p95_ms", fl rel_ProbeLatencyP95Ms);
    ("throughput_variance", ffield (fun d => d.(ds_Reliability).(rel_ThroughputVariance)))]%string.

Definition stability_json : option json :=
  object [("score", float (fun d => d.(ds_Stability).(ss_Score)));
    ("components", jmap "components" jfloat (part ∅ (fun d => d.(ds_Stability).(ss_Components)) d));
    ("updated_at", time (fun d => d.(ds_Stability).(ss_UpdatedAt)))]%string.

Definition capacity_json : option json :=
  object [("host_capacity_hint", float (fun d => d.(ds_Capacity).(ch_HostCapacityHint)));
    ("capacity_semantics", str (fun d => d.(ds_Capacity).(ch_CapacitySemantics)));
    ("components", jmap "components" jfloat (part ∅ (fun d => d.(ds_Capacity).(ch_Components)) d));
    ("runtime_serving_capacity_supported", bool' (fun d => d.(ds_Capacity).(ch_RuntimeServingCapacitySupported)))]%string.

Definition device_json : option json :=
  object [("identity", identity_json); ("health", health_json);
    ("lifecycle_state", str (fun d => LifecycleState_string d.(ds_LifecycleState))); ("lifecycle", lifecycle_json);
    ("reliability", reliability_json); ("stability", stability_json); ("capacity", capacity_json)]%string.
End device.

Definition host_json (hs : HostStatus) : option json :=
  object [("sidecar_instance_id", jstr hs.(hs_SidecarInstanceID)); ("hostname", jstr hs.(hs_Hostname));
    ("vendor", jstr (Vendor_string hs.(hs_Vendor))); ("sidecar_version", jstr hs.(hs_SidecarVersion));
    ("boot_id", jstr hs.(hs_BootID)); ("timestamp", jtime hs.(hs_Timestamp));
    ("uptime_seconds", jfloat hs.(hs_UptimeSeconds)); ("devices", jlist "devices" device_json hs.(hs_Devices))]%string.

(** ** [/readyz] *)

Definition device_readiness_json (r : DeviceReadiness) : option json :=
  object [("device_id", jstr r.(dr_DeviceID)); ("ready", jbool r.(dr_Ready)); ("lifecycle_state", jstr r.(dr_LifecycleState));
    ("telemetry_age_ms", jint r.(dr_TelemetryAgeMs)); ("reasons", jlist "reasons" jstr r.(dr_Reasons))]%string.

Definition readiness_json (r : ReadinessResult) : option json :=
  object [("control_plane_ready", jbool r.(rr_ControlPlaneReady)); ("any_device_ready", jbool r.(rr_AnyDeviceReady));
    ("all_devices_ready", jbool r.(rr_AllDevicesReady)); ("ready_device_count", jint r.(rr_ReadyDeviceCount));
    ("total_device_count", jint r.(rr_TotalDeviceCount)); ("ready", jbool r.(rr_Ready));
    ("ready_devices", jint r.(rr_ReadyDevices)); ("total_devices", jint r.(rr_TotalDevices));
    ("reasons", jlist "reasons" jstr r.(rr_Reasons)); ("details", jlist "details" device_readiness_json r.(rr_Details))]%string.

(** ** [/v1/queue] *)

Definition work_json (w : WorkSnapshot) : option json :=
  object [("reserved_uncached_prefill_tokens", jint w.(ReservedUncachedPrefillTokens));
    ("reserved_decode_tokens", jint w.(ReservedDecodeTokens));
    ("active_uncached_prefill_work", jint w.(ActiveUncachedPrefillTokens)); ("active_decode_work", jint w.(ActiveDecodeTokens));
    ("reserved_prefill_tokens_total", jint w.(TotalReservedPrefillTokens));
    ("reserved_decode_tokens_total", jint w.(TotalReservedDecodeTokens))]%string.

(** The queue alone is a struct; with the work accounting it is a map, whose keys are sorted. *)
Definition queue_json (b : QueueBody) : option json :=
  let '(q, work) := b in
  match work with
  | None => object [("enabled", jbool q.(qs_Enabled)); ("queued_requests", jint q.(qs_Queued));
      ("inflight_requests", jint q.(qs_Inflight)); ("max_queued_requests", jint q.(qs_MaxQueued));
      ("max_inflight_requests", jint q.(qs_MaxInflight)); ("oldest_queued_age_ms", jfloat q.(qs_OldestAgeMs));
      ("arrival_rate_per_s", jfloat q.(qs_ArrivalRate)); ("dispatch_rate_per_s", jfloat q.(qs_DispatchRate));
      ("completion_rate_per_s", jfloat q.(qs_CompletionRate)); ("arrivals_total", jint q.(qs_Arrivals));
      ("dispatched_total", jint q.(qs_Dispatched)); ("completed_total", jint q.(qs_Completed));
      ("rejected_total", jint q.(qs_Rejected)); ("queue_timeout_total", jint q.(qs_TimedOut));
      ("cancelled_total", jint q.(qs_Cancelled)); ("queue_wait_p50_ms", jfloat q.(qs_WaitP50Ms));
      ("queue_wait_p95_ms", jfloat q.(qs_WaitP95Ms))]%string
  | Some w => object [("arrival_rate_per_s", jfloat q.(qs_ArrivalRate)); ("arrivals_total", jint q.(qs_Arrivals));
      ("cancelled_total", jint q.(qs_Cancelled)); ("completed_total", jint q.(qs_Completed));
      ("completion_rate_per_s", jfloat q.(qs_CompletionRate)); ("dispatch_rate_per_s", jfloat q.(qs_DispatchRate));
      ("dispatched_total", jint q.(qs_Dispatched)); ("enabled", jbool q.(qs_Enabled));
      ("inflight_requests", jint q.(qs_Inflight)); ("max_inflight_requests", jint q.(qs_MaxInflight));
      ("max_queued_requests", jint q.(qs_MaxQueued)); ("oldest_queued_age_ms", jfloat q.(qs_OldestAgeMs));
      ("queue_timeout_total", jint q.(qs_TimedOut)); ("queue_wait_p50_ms", jfloat q.(qs_WaitP50Ms));
      ("queue_wait_p95_ms", jfloat q.(qs_WaitP95Ms)); ("queued_requests", jint q.(qs_Queued));
      ("rejected_total", jint q.(qs_Rejected)); ("work_accounting", work_json w)]%string
  end.

(** ** [/v1/runtime] *)

Definition runtime_json (m : RuntimeMetrics) : option json :=
  let fl x := jfield jfloat x in
  object [("timestamp", jtime m.(rm_Timestamp)); ("healthy", jbool m.(rm_Healthy)); ("scrape_ok", jbool m.(rm_ScrapeOK));
    ("scrape_age_ms", jfloat m.(rm_ScrapeAgeMs)); ("scrape_latency_ms", jfloat m.(rm_ScrapeLatencyMs));
    ("requests_running", fl m.(rm_RequestsRunning)); ("requests_waiting", fl m.(rm_RequestsWaiting));
    ("kv_cache_utilization", fl m.(rm_KVCacheUtil)); ("active_sequences", fl m.(rm_ActiveSequences));
    ("prompt_tokens_per_s", fl m.(rm_PromptThroughput)); ("generation_tokens_per_s", fl m.(rm_GenThroughput));
    ("request_latency_p50_s", fl m.(rm_RequestLatencyP50)); ("queue_latency_p50_s", fl m.(rm_QueueLatencyP50));
    ("ttft_p50_s", fl m.(rm_TTFTP50)); ("tpot_p50_s", fl m.(rm_TPOTP50)); ("preemptions_total", fl m.(rm_PreemptionsTotal));
    ("prefix_cache_hits_total", fl m.(rm_PrefixCacheHits)); ("prefix_cache_queries_total", fl m.(rm_PrefixCacheQueries));
    ("requests_success_total", fl m.(rm_RequestsSuccess)); ("requests_failed_total", fl m.(rm_RequestsFailed));
    ("model_name", jstr m.(rm_ModelName)); ("runtime_version", jstr m.(rm_RuntimeVersion));
    ("raw_metric_sources", jmap "raw_metric_sources" jstr m.(rm_RawMetricSources));
    ("unsupported_fields", jlist "unsupported_fields" jstr m.(rm_UnsupportedFields))]%string.

(** ** [/v1/cache] *)

(** The embedded snapshot's members come first; an empty directory is left out. *)
Definition cache_members (c : CacheSnapshot) (dir : gmap string Z) : list (string * option json) :=
  [("enabled", jbool c.(cs_Enabled)); ("provider", jstr c.(cs_Provider)); ("supported", jbool c.(cs_Supported));
    ("match_supported", jbool c.(cs_MatchSupported)); ("ready", jbool c.(cs_Ready)); ("confidence", jfloat c.(cs_Confidence));
    ("snapshot_age_ms", jint c.(cs_SnapshotAgeMs)); ("last_event_sequence", jint c.(cs_LastEventSequence));
    ("cache_reset_epoch", jint c.(cs_CacheResetEpoch)); ("index_entries", jint c.(cs_IndexEntries));
    ("index_max_entries", jint c.(cs_IndexMaxEntries)); ("kv_headroom", jfloat c.(cs_KVHeadroom));
    ("kv_headroom_supported", jbool c.(cs_KVHeadroomSupported)); ("events_received_total", jint c.(cs_EventsReceivedTotal));
    ("events_dropped_total", jint c.(cs_EventsDroppedTotal)); ("sequence_gaps_total", jint c.(cs_SequenceGapsTotal));
    ("stale_invalidations_total", jint c.(cs_StaleInvalidations)); ("duplicate_events_total", jint c.(cs_DuplicateEventsTotal));
    ("out_of_order_events_total", jint c.(cs_OutOfOrderEventsTotal)); ("resets_total", jint c.(cs_ResetsTotal));
    ("updated_at", jtime c.(cs_UpdatedAt))]%string ++
  match sorted_entries dir with [] => [] | _ => [("directory"%string, jmap "directory" jint dir)] end.
Definition cache_json (c : CacheSnapshot) (dir : gmap string Z) : option json := object (cache_members c dir).

(** ** The bodies of the polled endpoints *)

Definition disabled_json (what : string) : option json :=
  if String.eqb what "cache" then
    object [("confidence", Some (JNum "0")); ("enabled", jbool false); ("match_supported", jbool false);
      ("provider", jstr "disabled"); ("ready", jbool false); ("supported", jbool false)]%string
  else object [(String.append what "_enabled", jbool false)].

Definition polled_json (b : Body) : option json :=
  match b with
  | BReadiness r => readiness_json r
  | BStatus s => host_json s
  | BQueue q => queue_json q
  | BRuntime m => runtime_json m
  | BCache c dir => cache_json c dir
  | BDisabled what => disabled_json what
  | _ => None
  end.

(** [writeJSON]: what cannot be encoded leaves an empty body. *)
Definition page_of (b : Body) : string :=
  match polled_json b with Some v => encode_indented v | None => "" end.
End bodies.
