(* ===== verification/ControlPlane.v ===== *)
(** * The control plane, end to end

    What the sidecar's HTTP interface publishes, printed as JSON, fetched and decoded by the router's registry: the
    router's state of a backend is what the sidecar said. *)

From Stdlib Require Import Floats.SpecFloat.
From stdpp Require Import base tactics numbers option list strings gmap sorting.
From S2P Require Import Prelude Ordering GoFloat GoTime GoText GoStrconv GoHttp Exec Json JsonFacts JsonPrint JsonFloat Model CacheIndex AdmissionQueue.
From S2P Require Import WorkAccounting Vllm Supervisor SupervisorFacts AdminApi Sidecar Publish Routing Registry GetJson.
Open Scope go_scope.

(** ** Objects as the decoder hands them on *)

Definition find_member {A} (k : string) (l : list (string * A)) : option A :=
  snd <$> List.find (fun kv => String.eqb kv.1 k) l.

Definition ascii_text (s : string) : bool := all_bytes (fun c => byte_at c <? 128) s.

(** Names that no decoding changes and no two of which are the same. *)
Fixpoint good_keys (ks : list string) : bool :=
  match ks with [] => true | k :: ks => ascii_text k && negb (existsb (String.eqb k) ks) && good_keys ks end.

Lemma to_valid_ascii s : ascii_text s = true -> to_valid s 0 = s.
Proof.
  induction s as [|c s IH]; [done|]. unfold ascii_text. cbn [all_bytes]. intros [Hc Hs]%andb_true_iff. cbn [to_valid].
  assert (rune_width (String c s) = 1%nat) as -> by (unfold rune_width; by rewrite Hc). by rewrite IH.
Qed.

Lemma map_set_fresh k v m : existsb (String.eqb k) (map fst m) = false -> map_set k v m = m ++ [(k, v)].
Proof.
  induction m as [|[k' v'] m IH]; [done|]. cbn [map fst existsb map_set]. intros [-> Hm]%orb_false_iff. by rewrite IH.
Qed.

Lemma existsb_app_keys k (a b : list string) : existsb (String.eqb k) (a ++ b) = existsb (String.eqb k) a || existsb (String.eqb k) b.
Proof. apply List.existsb_app. Qed.

Lemma fold_set {A} (f : A -> Registry.Json) (l : list (string * A)) m :
  good_keys (map fst l) = true -> Forall (fun k => existsb (String.eqb k) (map fst m) = false) (map fst l) ->
  fold_left (fun m '(k, x) => map_set k (f x) m) l m = m ++ map (fun '(k, x) => (k, f x)) l.
Proof.
  revert m. induction l as [|[k x] l IH]; intros m Hg Hf; [by rewrite app_nil_r|]. cbn [map fst good_keys fold_left] in *.
  rewrite !andb_true_iff, negb_true_iff in Hg. destruct Hg as [[_ Hk] Hg]. apply Forall_cons in Hf as [Hf0 Hf].
  rewrite map_set_fresh by done. rewrite IH; [by rewrite <- app_assoc|done|].
  - rewrite map_app. rewrite Forall_forall in Hf |- *. intros y Hy. rewrite existsb_app_keys, (Hf y Hy). cbn [map fst existsb orb].
    rewrite orb_false_r. apply String.eqb_neq. intros ->.
    assert (existsb (String.eqb k) (map fst l) = true); [|congruence]. apply List.existsb_exists. exists k.
    split; [by apply list_elem_of_In|apply String.eqb_refl].
Qed.

(** The members of a printed object. *)
Definition seen (p : bool) (d : nat) (x : json) : Registry.Json := any_of (norm p d x).
Definition seen_members (p : bool) (d : nat) (l : list (string * json)) : JsonObj := map (fun '(k, x) => (k, seen p (S d) x)) l.

Lemma seen_object p d l : good_keys (map fst l) = true -> seen p d (Json.JObj l) = JObj (seen_members p d l).
Proof.
  intros Hg. unfold seen, seen_members. cbn [norm any_of]. f_equal.
  assert (Hk : map (fun '(k, x) => (to_valid k 0, norm p (S d) x)) l = map (fun '(k, x) => (k, norm p (S d) x)) l).
  { clear -Hg. induction l as [|[k x] l IH]; [done|]. cbn [map fst good_keys] in *. rewrite !andb_true_iff in Hg.
    destruct Hg as [[Hk _] Hg]. rewrite (to_valid_ascii k Hk). f_equal. by apply IH. }
  rewrite Hk. assert (Hf : map fst (map (fun '(k, x) => (k, norm p (S d) x)) l) = map fst l).
  { rewrite map_map. apply map_ext. by intros [k x]. }
  rewrite (fold_set any_of); [|by rewrite Hf|by apply Forall_true].
  rewrite app_nil_l, map_map. apply map_ext. by intros [k x].
Qed.

Lemma jget_seen p d l k x : find_member k l = Some x -> jget k (seen_members p d l) = seen p (S d) x.
Proof.
  unfold jget, find_member, seen_members. induction l as [|[k' y] l IH]; [done|]. cbn [map List.find fst].
  destruct (String.eqb k' k); [by intros [= ->]|]. apply IH.
Qed.

(** ** What a written object holds *)

Lemma written_find l l' : written_members l = Some l' -> map fst l' = map fst l /\
  forall k o, find_member k l = Some o -> exists x, o = Some x /\ find_member k l' = Some x.
Proof.
  unfold written_members. revert l'. induction l as [|[k' o'] l IH]; intros l'; [by intros [= <-]|]. cbn [mapM].
  destruct o' as [x'|]; [|done]. cbn [fmap option_fmap option_map mbind option_bind].
  destruct (mapM _ l) as [l1|]; [|done]. intros [= <-]. destruct (IH l1 eq_refl) as [Hf Hg]. split; [cbn [map fst]; by rewrite Hf|].
  intros k o. unfold find_member. cbn [List.find fst]. destruct (String.eqb k' k); [|apply Hg]. intros [= <-]. by exists x'.
Qed.

Lemma object_seen l v : object l = Some v -> good_keys (map fst l) = true ->
  exists l', v = Json.JObj l' /\ good_keys (map fst l') = true /\
    forall k o, find_member k l = Some o -> exists x, o = Some x /\ forall p d, jget k (seen_members p d l') = seen p (S d) x.
Proof.
  unfold object. destruct (written_members l) as [l'|] eqn:E; [|done]. intros [= <-] Hg. destruct (written_find l l' E) as [Hf Hm].
  exists l'. split; [done|]. split; [by rewrite Hf|]. intros k o Ho. destruct (Hm k o Ho) as (x & -> & Hx).
  exists x. split; [done|]. intros p d. by apply jget_seen.
Qed.

(** ** From the printed text to the decoded object *)

Lemma in_range_norm p v : forall d, in_range (norm p d v) = in_range v.
Proof.
  induction v as [|b|t|s|l IH|l IH] using json_nested_ind; intros d; try done; cbn [norm in_range];
    (induction IH as [|[k x] l Hx _ IHl]; [done|]; cbn [map forallb]; by rewrite Hx, IHl).
Qed.

(** A body the router can read: its numbers are JSON numbers within the range of a float, it is nested no deeper than
    the decoder reads and, printed, no longer than the registry reads. *)
Definition sendable (v : json) : bool :=
  printable max_depth v && in_range v && (slength (encode_indented v) <=? max_answer).

Lemma decode_answer_page l : sendable (Json.JObj l) = true -> good_keys (map fst l) = true ->
  decode_answer (Some (encode_indented (Json.JObj l))) = Some (seen_members true 0 l).
Proof.
  unfold sendable. rewrite !andb_true_iff, Z.leb_le. intros [[Hp Hr] Hl] Hg. unfold decode_answer. cbn [mbind option_bind].
  change (String.substring 0 (Z.to_nat max_answer) ?s) with (stake max_answer s). rewrite stake_all by done.
  rewrite encode_indented_decodes by done. cbn [mbind option_bind].
  pose proof (in_range_norm true (Json.JObj l) 0) as Hi. rewrite Hr in Hi.
  pose proof (seen_object true 0 l Hg) as Hs. unfold seen in Hs.
  destruct (norm true 0 (Json.JObj l)) as [| | | | |l'] eqn:E; try discriminate E.
  by rewrite Hi, Hs.
Qed.

(** ** Values *)

Lemma seen_bool p d b x : jbool b = Some x -> seen p d x = JBool b.
Proof. by intros [= <-]. Qed.

Lemma seen_string p d s x : jstr s = Some x -> ascii_text s = true -> seen p d x = JStr s.
Proof. intros [= <-] Hs. unfold seen. cbn [norm any_of]. by rewrite to_valid_ascii. Qed.

Lemma seen_int p d n x : jint n = Some x -> 0 <= n < 2 ^ 53 -> seen p d x = JNum (f64_of_Z n) /\ intOf (seen p d x) = n.
Proof.
  intros [= <-] Hn. destruct (int_number n Hn) as [_ Hp]. unfold seen. cbn [norm any_of intOf]. rewrite Hp. split; [done|].
  by apply f64_small_exact.
Qed.

Lemma seen_float p d x v : jfloat x = Some v -> seen p d v = JNum x.
Proof.
  unfold jfloat. destruct (json_float x) as [t|] eqn:E; [|done]. intros [= <-]. unfold seen. cbn [norm any_of].
  destruct (json_float_reads x t E) as [_ ->]. done.
Qed.

Lemma seen_field p d f v : jfield jfloat f = Some v -> fieldVal (seen p d v) = Value f /\ fieldSupported (seen p d v) = Supported f.
Proof.
  intros H. destruct (object_seen _ v H eq_refl) as (l & -> & Hg & Hm). rewrite seen_object by done.
  destruct (Hm "value"%string (jfloat (Value f)) eq_refl) as (x & Hx & Ev).
  destruct (Hm "supported"%string (jbool (Supported f)) eq_refl) as (y & Hy & Es).
  cbn [fieldVal fieldSupported]. rewrite Ev, Es. rewrite (seen_float p (S d) _ _ Hx), (seen_bool p (S d) _ _ Hy). done.
Qed.

(** ** The bodies *)

Lemma jget_missing p d l k : find_member k l = None -> jget k (seen_members p d l) = JNull.
Proof.
  unfold jget, find_member, seen_members. induction l as [|[k' y] l IH]; [done|]. cbn [map List.find fst].
  destruct (String.eqb k' k); [done|]. apply IH.
Qed.

Lemma written_missing l l' k : written_members l = Some l' -> find_member k l = None -> find_member k l' = None.
Proof.
  unfold written_members, find_member. revert l'. induction l as [|[k' o'] l IH]; intros l'; [by intros [= <-]|]. cbn [mapM].
  destruct o' as [x'|]; [|done]. cbn [fmap option_fmap option_map mbind option_bind].
  destruct (mapM _ l) as [l1|]; [|done]. intros [= <-]. cbn [List.find fst]. destruct (String.eqb k' k); [done|]. by apply IH.
Qed.

Lemma written_all {A} (f : A -> json) (l : list (string * A)) :
  written_members (map (fun '(k, x) => (k, Some (f x))) l) = Some (map (fun '(k, x) => (k, f x)) l).
Proof.
  unfold written_members. induction l as [|[k x] l IH]; [done|]. cbn [map mapM fmap option_fmap option_map mbind option_bind].
  by rewrite IH.
Qed.

Lemma good_keys_nodup ks : Forall (fun k => ascii_text k = true) ks -> NoDup ks -> good_keys ks = true.
Proof.
  intros Ha Hn. induction Hn as [|k ks Hk Hn IH]; [done|]. apply Forall_cons in Ha as [Hk' Ha]. cbn [good_keys].
  rewrite Hk', IH by done. rewrite andb_true_l, andb_true_r, negb_true_iff. apply not_true_is_false. intros [k2 [Hi He]]%List.existsb_exists.
  apply String.eqb_eq in He as ->. apply Hk. by apply list_elem_of_In.
Qed.

Definition small (n : Z) : bool := (0 <=? n) && (n <? 2 ^ 53).
Lemma small_range n : small n = true -> 0 <= n < 2 ^ 53.
Proof. unfold small. by rewrite andb_true_iff, Z.leb_le, Z.ltb_lt. Qed.

(** What [pollBackend] reads of an object, by the kind of its members. *)
Definition shows (written : list (string * option json)) (l : list (string * json)) : Prop :=
  forall k o, find_member k written = Some o -> exists x, o = Some x /\ forall p d, jget k (seen_members p d l) = seen p (S d) x.

Section shows.
  Context (written : list (string * option json)) (l : list (string * json)) (p : bool) (d : nat).
  Context (Hs : shows written l).
Let get k := jget k (seen_members p d l).

Lemma shows_bool k b : find_member k written = Some (jbool b) -> as_bool (get k) = b.
Proof. intros H. destruct (Hs _ _ H) as (x & Hx & E). unfold get. by rewrite E, (seen_bool _ _ _ _ Hx). Qed.

Lemma shows_string k s : find_member k written = Some (jstr s) -> ascii_text s = true -> as_str (get k) = s.
Proof. intros H Ha. destruct (Hs _ _ H) as (x & Hx & E). unfold get. by rewrite E, (seen_string _ _ _ _ Hx Ha). Qed.

Lemma shows_int k n : find_member k written = Some (jint n) -> small n = true -> intOf (get k) = n.
Proof. intros H Hn%small_range. destruct (Hs _ _ H) as (x & Hx & E). unfold get. by rewrite E, (proj2 (seen_int p (S d) _ _ Hx Hn)). Qed.

Lemma shows_int64 k n : find_member k written = Some (jint n) -> small n = true -> int64Of (get k) = n.
Proof. apply shows_int. Qed.

Lemma shows_float k x : find_member k written = Some (jfloat x) -> as_num (get k) = x.
Proof. intros H. destruct (Hs _ _ H) as (y & Hy & E). unfold get. by rewrite E, (seen_float _ _ _ _ Hy). Qed.

Lemma shows_age k x : find_member k written = Some (jfloat x) -> int64Of (get k) = f64_to_i64 x.
Proof. intros H. destruct (Hs _ _ H) as (y & Hy & E). unfold get. by rewrite E, (seen_float _ _ _ _ Hy). Qed.

Lemma shows_field k f : find_member k written = Some (jfield jfloat f) ->
  fieldVal (get k) = Value f /\ fieldSupported (get k) = Supported f.
Proof. intros H. destruct (Hs _ _ H) as (y & Hy & E). unfold get. rewrite E. by apply seen_field. Qed.
End shows.

Lemma object_shows l v : object l = Some v -> good_keys (map fst l) = true ->
  exists l', v = Json.JObj l' /\ good_keys (map fst l') = true /\ shows l l'.
Proof. apply object_seen. Qed.

Section published.
  Context (time_text : Z -> string) (zero_time : string) (hollow : string -> json).

Definition fits_queue (q : QueueSnapshot) : bool := small q.(qs_Queued) && small q.(qs_Inflight) && small q.(qs_MaxQueued).

Lemma queue_seen q work v : queue_json (q, work) = Some v -> fits_queue q = true ->
  exists l, v = Json.JObj l /\ good_keys (map fst l) = true /\
  queue_fields (Some (seen_members true 0 l)) = (q.(qs_Queued), q.(qs_Inflight), q.(qs_MaxQueued)).
Proof.
  unfold fits_queue. intros H [[H1 H2]%andb_true_iff H3]%andb_true_iff.
  destruct work as [w|]; cbn [queue_json] in H; (destruct (object_shows _ v H) as (l & -> & Hg & Hm); [by lazy|]); exists l;
    (split; [done|]); (split; [done|]); unfold queue_fields;
    by rewrite (shows_int _ _ true 0 Hm "queued_requests" _ eq_refl H1), (shows_int _ _ true 0 Hm "inflight_requests" _ eq_refl H2),
      (shows_int _ _ true 0 Hm "max_queued_requests" _ eq_refl H3).
Qed.

Lemma runtime_seen m v : runtime_json time_text hollow m = Some v ->
  exists l, v = Json.JObj l /\ good_keys (map fst l) = true /\ let rt k := jget k (seen_members true 0 l) in
  as_bool (rt "healthy"%string) = m.(rm_Healthy) /\
  int64Of (rt "scrape_age_ms"%string) = f64_to_i64 m.(rm_ScrapeAgeMs) /\
  fieldVal (rt "requests_waiting"%string) = Value m.(rm_RequestsWaiting) /\
  fieldVal (rt "requests_running"%string) = Value m.(rm_RequestsRunning) /\
  fieldVal (rt "kv_cache_utilization"%string) = Value m.(rm_KVCacheUtil) /\
  fieldVal (rt "generation_tokens_per_s"%string) = Value m.(rm_GenThroughput) /\
  fieldSupported (rt "generation_tokens_per_s"%string) = Supported m.(rm_GenThroughput).
Proof.
  intros H. destruct (object_shows _ v H) as (l & -> & Hg & Hm); [by lazy|]. exists l. split; [done|]. split; [done|]. cbv beta zeta.
  rewrite (shows_bool _ _ true 0 Hm "healthy" _ eq_refl), (shows_age _ _ true 0 Hm "scrape_age_ms" _ eq_refl).
  rewrite (proj1 (shows_field _ _ true 0 Hm "requests_waiting" _ eq_refl)), (proj1 (shows_field _ _ true 0 Hm "requests_running" _ eq_refl)).
  rewrite (proj1 (shows_field _ _ true 0 Hm "kv_cache_utilization" _ eq_refl)).
  destruct (shows_field _ _ true 0 Hm "generation_tokens_per_s" _ eq_refl) as [-> ->]. done.
Qed.

Lemma ready_seen r v : readiness_json hollow r = Some v ->
  exists l, v = Json.JObj l /\ good_keys (map fst l) = true /\
  as_bool (jget "control_plane_ready" (seen_members true 0 l)) = r.(rr_ControlPlaneReady).
Proof.
  intros H. destruct (object_shows _ v H) as (l & -> & Hg & Hm); [by lazy|]. exists l. split; [done|]. split; [done|].
  by rewrite (shows_bool _ _ true 0 Hm "control_plane_ready" _ eq_refl).
Qed.

(** *** The directory *)

Definition fits_dir (dir : gmap string Z) : bool := forallb (fun '(k, n) => ascii_text k && small n) (map_to_list dir).

Lemma entries_perm {A} (m : gmap string A) : sorted_entries m ≡ₚ map_to_list m.
Proof. apply merge_sort_Permutation. Qed.

Lemma entries_nil {A} (m : gmap string A) : sorted_entries m = [] -> m = ∅.
Proof.
  intros H. pose proof (entries_perm m) as Hp. rewrite H in Hp. apply map_to_list_empty_iff. by apply Permutation_nil in Hp.
Qed.

Lemma entries_nil_empty {A} : sorted_entries (∅ : gmap string A) = [].
Proof. unfold sorted_entries. by rewrite map_to_list_empty. Qed.

Lemma directory_entries dir : fits_dir dir = true ->
  Forall (fun '(k, n) => ascii_text k = true /\ small n = true) (sorted_entries dir).
Proof.
  unfold fits_dir. rewrite List.forallb_forall. intros H. apply Forall_forall. intros [k n] Hi.
  rewrite (entries_perm dir) in Hi. apply list_elem_of_In in Hi. specialize (H _ Hi). cbn in H. by rewrite andb_true_iff in H.
Qed.

Lemma entries_good dir : fits_dir dir = true -> good_keys (map fst (sorted_entries dir)) = true.
Proof.
  intros H. apply good_keys_nodup.
  - apply Forall_map. eapply Forall_impl; [by apply directory_entries|]. by intros [k n] [Hk _].
  - change (NoDup (sorted_entries dir).*1). rewrite (entries_perm dir). apply NoDup_fst_map_to_list.
Qed.

Lemma entries_written dir : sorted_entries dir <> [] ->
  jmap hollow "directory" jint dir = Some (Json.JObj (map (fun '(k, n) => (k, Json.JNum (itoa n))) (sorted_entries dir))).
Proof.
  intros H. unfold jmap. destruct (sorted_entries dir) as [|e l] eqn:E; [done|]. unfold object, jint.
  by rewrite (written_all (fun n => Json.JNum (itoa n))).
Qed.

Lemma entries_read dir p d : fits_dir dir = true ->
  list_to_map (map (fun kv => (kv.1, intOf kv.2))
    (seen_members p d (map (fun '(k, n) => (k, Json.JNum (itoa n))) (sorted_entries dir)))) = dir.
Proof.
  intros H. pose proof (directory_entries dir H) as Hf. unfold seen_members. rewrite !map_map.
  transitivity (list_to_map (sorted_entries dir) : gmap string Z).
  - f_equal. rewrite <- (map_id (sorted_entries dir)) at 2. apply map_ext_Forall. eapply Forall_impl; [exact Hf|].
    intros [k n] [_ Hn]. cbn [fst snd]. f_equal. exact (proj2 (seen_int p (S d) n _ eq_refl (small_range n Hn))).
  - rewrite <- (list_to_map_to_list dir) at 2. apply list_to_map_proper; [|apply entries_perm].
    change (NoDup (sorted_entries dir).*1). rewrite (entries_perm dir). apply NoDup_fst_map_to_list.
Qed.

(** A directory that is not empty, as the registry keeps it. *)
Definition published_dir (dir : gmap string Z) : option (gmap string Z) := if decide (dir = ∅) then None else Some dir.

Definition fits_cache (c : CacheSnapshot) (dir : gmap string Z) : bool :=
  ascii_text c.(cs_Provider) && small c.(cs_SnapshotAgeMs) && small c.(cs_LastEventSequence) && small c.(cs_CacheResetEpoch) &&
  small c.(cs_IndexEntries) && fits_dir dir.

Lemma cache_good c dir : good_keys (map fst (cache_members time_text hollow c dir)) = true.
Proof. unfold cache_members. destruct (sorted_entries dir); by lazy. Qed.

Lemma cache_directory_seen c dir l : fits_dir dir = true -> written_members (cache_members time_text hollow c dir) = Some l ->
  shows (cache_members time_text hollow c dir) l -> cache_directory (seen_members true 0 l) = published_dir dir.
Proof.
  intros Hd Hw Hm. unfold cache_directory, published_dir. destruct (sorted_entries dir) as [|e es] eqn:E.
  - rewrite (entries_nil dir E). rewrite decide_True by done. rewrite jget_missing; [done|].
    apply (written_missing _ _ _ Hw). unfold cache_members. by rewrite E.
  - rewrite decide_False by (intros ->; by rewrite (entries_nil_empty) in E).
    destruct (Hm "directory"%string (jmap hollow "directory" jint dir)) as (x & Hx & ->).
    { unfold cache_members. by rewrite E. }
    rewrite entries_written in Hx by congruence. injection Hx as <-.
    rewrite seen_object by (rewrite map_map; by erewrite map_ext, entries_good; [| |intros [k n]]).
    pose proof (entries_read dir true 1 Hd) as Hr. destruct (seen_members _ _ _) as [|kv d] eqn:Es; [|by rewrite <- Hr].
    rewrite E in Es. by destruct e.
Qed.

Lemma cache_seen c dir v : cache_json time_text hollow c dir = Some v -> fits_cache c dir = true ->
  exists l, v = Json.JObj l /\ good_keys (map fst l) = true /\ let c' k := jget k (seen_members true 0 l) in
  as_bool (c' "supported"%string) = c.(cs_Supported) /\ as_bool (c' "match_supported"%string) = c.(cs_MatchSupported) /\
  as_bool (c' "ready"%string) = c.(cs_Ready) /\ as_num (c' "confidence"%string) = c.(cs_Confidence) /\
  int64Of (c' "snapshot_age_ms"%string) = c.(cs_SnapshotAgeMs) /\
  int64Of (c' "last_event_sequence"%string) = c.(cs_LastEventSequence) /\
  int64Of (c' "cache_reset_epoch"%string) = c.(cs_CacheResetEpoch) /\
  intOf (c' "index_entries"%string) = c.(cs_IndexEntries) /\ as_str (c' "provider"%string) = c.(cs_Provider) /\
  as_num (c' "kv_headroom"%string) = c.(cs_KVHeadroom) /\
  as_bool (c' "kv_headroom_supported"%string) = c.(cs_KVHeadroomSupported) /\
  cache_directory (seen_members true 0 l) = published_dir dir.
Proof.
  unfold fits_cache. rewrite !andb_true_iff. intros H [[[[[Hp H1] H2] H3] H4] Hd].
  destruct (object_shows _ v H (cache_good c dir)) as (l & -> & Hg & Hm). exists l. split; [done|]. split; [done|]. cbv beta zeta.
  rewrite (shows_bool _ _ true 0 Hm "supported" _ eq_refl), (shows_bool _ _ true 0 Hm "match_supported" _ eq_refl).
  rewrite (shows_bool _ _ true 0 Hm "ready" _ eq_refl), (shows_float _ _ true 0 Hm "confidence" _ eq_refl).
  rewrite (shows_int64 _ _ true 0 Hm "snapshot_age_ms" _ eq_refl H1), (shows_int64 _ _ true 0 Hm "last_event_sequence" _ eq_refl H2).
  rewrite (shows_int64 _ _ true 0 Hm "cache_reset_epoch" _ eq_refl H3), (shows_int _ _ true 0 Hm "index_entries" _ eq_refl H4).
  rewrite (shows_string _ _ true 0 Hm "provider" _ eq_refl Hp), (shows_float _ _ true 0 Hm "kv_headroom" _ eq_refl).
  rewrite (shows_bool _ _ true 0 Hm "kv_headroom_supported" _ eq_refl).
  rewrite (cache_directory_seen c dir l Hd); [done| |done]. unfold cache_json, object in H.
  destruct (written_members _) as [l'|]; [|done]. by injection H as ->.
Qed.

(** *** The first device *)

Lemma lifecycle_ascii s : ascii_text (LifecycleState_string s) = true.
Proof. by destruct s. Qed.

(** A member that is an object, and what is read of it. *)
Lemma shows_object written l p d k inner : shows written l -> find_member k written = Some (object inner) ->
  good_keys (map fst inner) = true -> exists l', shows inner l' /\ jget k (seen_members p d l) = JObj (seen_members p (S d) l').
Proof.
  intros Hs Hk Hg. destruct (Hs _ _ Hk) as (x & Hx & E). destruct (object_shows _ _ Hx Hg) as (l' & -> & Hg' & Hs').
  exists l'. split; [done|]. by rewrite E, seen_object.
Qed.

(** What the router takes of a device: its state, its stability and its capacity. *)
Definition device_view (d : option DeviceStatus) : string * f64 * f64 :=
  (part ""%string (fun d => LifecycleState_string d.(ds_LifecycleState)) d, part f64_zero (fun d => d.(ds_Stability).(ss_Score)) d,
   part f64_zero (fun d => d.(ds_Capacity).(ch_HostCapacityHint)) d).
Definition host_view (hs : HostStatus) : string * f64 * f64 :=
  match hs.(hs_Devices) with [] => (""%string, f64_zero, f64_zero) | d :: _ => device_view d end.

Lemma device_seen dev v p d : device_json time_text zero_time hollow dev = Some v -> exists l,
  seen p d v = JObj l /\
  (as_str (jget "lifecycle_state" l),
   match jget "stability" l with JObj stab => as_num (jget "score" stab) | _ => f64_zero end,
   match jget "capacity" l with JObj cap => as_num (jget "host_capacity_hint" cap) | _ => f64_zero end) = device_view dev.
Proof.
  intros H. destruct (object_shows _ v H) as (l & -> & Hg & Hm); [by lazy|]. exists (seen_members p d l). split; [by apply seen_object|].
  rewrite (shows_string _ _ p d Hm "lifecycle_state" _ eq_refl); [|by destruct dev as [dev|]; [apply lifecycle_ascii|]].
  destruct (shows_object _ _ p d "stability" _ Hm eq_refl) as (l1 & Hm1 & ->); [by lazy|].
  destruct (shows_object _ _ p d "capacity" _ Hm eq_refl) as (l2 & Hm2 & ->); [by lazy|].
  by rewrite (shows_float _ _ p (S d) Hm1 "score" _ eq_refl), (shows_float _ _ p (S d) Hm2 "host_capacity_hint" _ eq_refl).
Qed.

(** The encoder writes a nil slice or map as [null], an empty one as empty. *)
Definition empty_value (v : json) : Prop := v = Json.JNull \/ v = Json.JArr [] \/ v = Json.JObj [].

Lemma status_seen hs v : host_json time_text zero_time hollow hs = Some v -> empty_value (hollow "devices") ->
  exists l, v = Json.JObj l /\ good_keys (map fst l) = true /\ status_fields (Some (seen_members true 0 l)) = host_view hs.
Proof.
  intros H He. destruct (object_shows _ v H) as (l & -> & Hg & Hm); [by lazy|]. exists l. split; [done|]. split; [done|].
  unfold status_fields, first_device, host_view. cbn [mbind option_bind].
  destruct (Hm "devices"%string _ eq_refl) as (x & Hx & ->). unfold jlist in Hx.
  destruct (hs_Devices hs) as [|dev devs]; [injection Hx as <-; by destruct He as [-> | [-> | ->]]|].
  unfold array in Hx. cbn [map mapM] in Hx.
  destruct (device_json time_text zero_time hollow dev) as [x0|] eqn:E; [|done]. cbn [fmap option_fmap option_map mbind option_bind] in Hx.
  destruct (mapM _ _) as [xs|]; [|done]. injection Hx as <-.
  destruct (device_seen dev x0 true 2 E) as (l0 & E0 & Ev). unfold seen in E0 |- *. cbn [norm map any_of]. rewrite E0. exact Ev.
Qed.
End published.

(** ** A poll *)

(** The state of the sidecar at the instant a request is served. *)
Record Moment := { mo_server : Server; mo_sup : Supervisor; mo_now : Z }.

Definition get_request (path : string) : ApiRequest :=
  {| ar_method := "GET"; ar_path := path; ar_contentType := ""; ar_query := fun _ => ""%string; ar_form := fun _ => ""%string;
     ar_body := ""; ar_remote := "" |}.

(** What the sidecar tells of a plane that is not attached. *)
Definition no_queue : QueueSnapshot :=
  {| qs_Enabled := false; qs_Queued := 0; qs_Inflight := 0; qs_MaxQueued := 0; qs_MaxInflight := 0; qs_OldestAgeMs := f64_zero;
     qs_ArrivalRate := f64_zero; qs_DispatchRate := f64_zero; qs_CompletionRate := f64_zero; qs_Arrivals := 0;
     qs_Dispatched := 0; qs_Completed := 0; qs_Rejected := 0; qs_TimedOut := 0; qs_Cancelled := 0; qs_WaitP50Ms := f64_zero;
     qs_WaitP95Ms := f64_zero |}.
Definition no_cache : CacheSnapshot :=
  {| cs_Enabled := false; cs_Provider := "disabled"; cs_Supported := false; cs_MatchSupported := false; cs_Ready := false;
     cs_Confidence := f64_zero; cs_SnapshotAgeMs := 0; cs_LastEventSequence := 0; cs_CacheResetEpoch := 0; cs_IndexEntries := 0;
     cs_IndexMaxEntries := 0; cs_KVHeadroom := f64_zero; cs_KVHeadroomSupported := false; cs_EventsReceivedTotal := 0;
     cs_EventsDroppedTotal := 0; cs_SequenceGapsTotal := 0; cs_StaleInvalidations := 0; cs_DuplicateEventsTotal := 0;
     cs_OutOfOrderEventsTotal := 0; cs_ResetsTotal := 0; cs_UpdatedAt := 0 |}.

Definition told_queue (s : Server) : QueueSnapshot := match s.(as_queue) with Some (q, _) => q | None => no_queue end.
Definition told_runtime (s : Server) : RuntimeMetrics :=
  match s.(as_runtime) with Some m => m | None => bare_metrics 0 false f64_zero "" "" [] end.
Definition told_cache (s : Server) : CacheSnapshot * gmap string Z :=
  match s.(as_cache) with Some c => c | None => (no_cache, ∅) end.

(** The state the router is meant to hold, from what the sidecar holds. *)
Definition mirrored (b : Backend) (rr : ReadinessResult) (hs : HostStatus) (q : QueueSnapshot) (m : RuntimeMetrics)
    (c : CacheSnapshot) (rate : f64 * bool) : BackendState :=
  let '(life, stability, capacity) := host_view hs in
  let derived := negb c.(cs_KVHeadroomSupported) && m.(rm_Healthy) in
  {| bs_Backend := b; bs_Reachable := true; bs_LifecycleState := life; bs_ControlPlaneReady := rr.(rr_ControlPlaneReady);
     bs_StabilityScore := stability; bs_HostCapacityHint := capacity; bs_QueueDepth := q.(qs_Queued);
     bs_QueueInflight := q.(qs_Inflight); bs_QueueMax := q.(qs_MaxQueued); bs_RuntimeHealthy := m.(rm_Healthy);
     bs_RuntimeWaiting := Value m.(rm_RequestsWaiting); bs_RuntimeRunning := Value m.(rm_RequestsRunning);
     bs_KVCacheUtil := Value m.(rm_KVCacheUtil); bs_SnapshotAgeMs := f64_to_i64 m.(rm_ScrapeAgeMs);
     bs_GenTokensPerSec := rate.1; bs_ServiceRateSupported := rate.2; bs_CacheObservationSupported := c.(cs_Supported);
     bs_CacheMatchSupported := c.(cs_MatchSupported); bs_CacheReady := c.(cs_Ready); bs_CacheConfidence := c.(cs_Confidence);
     bs_CacheSnapshotAgeMs := c.(cs_SnapshotAgeMs);
     bs_KVHeadroom := if derived then f64_sub f64_one (Value m.(rm_KVCacheUtil)) else c.(cs_KVHeadroom);
     bs_KVHeadroomSupported := c.(cs_KVHeadroomSupported) || derived; bs_CacheEventSequence := c.(cs_LastEventSequence);
     bs_CacheIndexSize := c.(cs_IndexEntries); bs_CacheResetEpoch := c.(cs_CacheResetEpoch);
     bs_CacheProvider := c.(cs_Provider); bs_PrefixMatchedTokens := 0 |}.

Section poll.
  Context `{!SliceSort} `{!UrlParse} (time_text : Z -> string) (zero_time : string) (hollow : string -> json).
Let polled := polled_json time_text zero_time hollow.

Definition fetch (path : string) (m : Moment) : option string :=
  match serve m.(mo_server) (get_request path) m.(mo_now) m.(mo_sup) with
  | Some (_, RReply _ _ body) => Some (page_of time_text zero_time hollow body)
  | _ => None
  end.

(** The five requests of a poll, each served at its own moment. *)
Definition fetched (readyz status queue runtime cache : Moment) (now : Z) : Pages :=
  {| pg_readyz := fetch "/readyz" readyz; pg_status := fetch "/v1/status" status; pg_queue := fetch "/v1/queue" queue;
     pg_runtime := fetch "/v1/runtime" runtime; pg_cache := fetch "/v1/cache" cache; pg_now := now |}.

(** The body is one the router can read. *)
Definition readable (b : Body) : bool := match polled b with Some v => sendable v | None => false end.
Definition reply_body (r : ApiResponse) : Body := match r with RReply _ _ b => b | RForward => BIndex "" end.

Lemma page_read b l : readable b = true -> polled b = Some (Json.JObj l) -> good_keys (map fst l) = true ->
  decode_answer (Some (page_of time_text zero_time hollow b)) = Some (seen_members true 0 l).
Proof. unfold readable, page_of. fold polled. intros Hr Hp Hg. rewrite Hp in Hr |- *. by apply decode_answer_page. Qed.

Lemma readable_some b : readable b = true -> exists v, polled b = Some v.
Proof. unfold readable. destruct (polled b) as [v|]; [by exists v|done]. Qed.

Lemma queue_told s : let b := reply_body (queue s) in readable b = true -> fits_queue (told_queue s) = true ->
  exists o, decode_answer (Some (page_of time_text zero_time hollow b)) = Some o /\
    queue_fields (Some o) = (qs_Queued (told_queue s), qs_Inflight (told_queue s), qs_MaxQueued (told_queue s)).
Proof.
  cbv zeta. unfold queue, told_queue. intros Hr Hf. destruct (readable_some _ Hr) as [v Hv].
  destruct (as_queue s) as [[q w]|]; cbn [reply_body] in *.
  - destruct (queue_seen q w v Hv Hf) as (l & -> & Hg & Hq). eexists. split; [by apply page_read|done].
  - eexists. split; [by apply page_read|done].
Qed.

Lemma runtime_told s : let b := reply_body (runtime s) in let m := told_runtime s in readable b = true ->
  exists o, decode_answer (Some (page_of time_text zero_time hollow b)) = Some o /\ let rt k := jget k o in
  as_bool (rt "healthy"%string) = m.(rm_Healthy) /\
  int64Of (rt "scrape_age_ms"%string) = f64_to_i64 m.(rm_ScrapeAgeMs) /\
  fieldVal (rt "requests_waiting"%string) = Value m.(rm_RequestsWaiting) /\
  fieldVal (rt "requests_running"%string) = Value m.(rm_RequestsRunning) /\
  fieldVal (rt "kv_cache_utilization"%string) = Value m.(rm_KVCacheUtil) /\
  fieldVal (rt "generation_tokens_per_s"%string) = Value m.(rm_GenThroughput) /\
  fieldSupported (rt "generation_tokens_per_s"%string) = Supported m.(rm_GenThroughput).
Proof.
  cbv zeta. unfold runtime, told_runtime. intros Hr. destruct (readable_some _ Hr) as [v Hv].
  destruct (as_runtime s) as [m|]; cbn [reply_body] in *.
  - destruct (runtime_seen time_text hollow m v Hv) as (l & -> & Hg & Hq). eexists. split; [by apply page_read|done].
  - eexists. split; [by apply page_read|done].
Qed.

Lemma cache_told s : let b := reply_body (cache s) in let c := (told_cache s).1 in
  readable b = true -> fits_cache c (told_cache s).2 = true ->
  exists o, decode_answer (Some (page_of time_text zero_time hollow b)) = Some o /\ let c' k := jget k o in
  as_bool (c' "supported"%string) = c.(cs_Supported) /\ as_bool (c' "match_supported"%string) = c.(cs_MatchSupported) /\
  as_bool (c' "ready"%string) = c.(cs_Ready) /\ as_num (c' "confidence"%string) = c.(cs_Confidence) /\
  int64Of (c' "snapshot_age_ms"%string) = c.(cs_SnapshotAgeMs) /\
  int64Of (c' "last_event_sequence"%string) = c.(cs_LastEventSequence) /\
  int64Of (c' "cache_reset_epoch"%string) = c.(cs_CacheResetEpoch) /\
  intOf (c' "index_entries"%string) = c.(cs_IndexEntries) /\ as_str (c' "provider"%string) = c.(cs_Provider) /\
  as_num (c' "kv_headroom"%string) = c.(cs_KVHeadroom) /\
  as_bool (c' "kv_headroom_supported"%string) = c.(cs_KVHeadroomSupported) /\
  cache_directory o = published_dir (told_cache s).2.
Proof.
  cbv zeta. unfold cache, told_cache. intros Hr Hf. destruct (readable_some _ Hr) as [v Hv].
  destruct (as_cache s) as [[c dir]|]; cbn [reply_body fst snd] in *.
  - destruct (cache_seen time_text hollow c dir v Hv Hf) as (l & -> & Hg & Hq). eexists. split; [by apply page_read|done].
  - eexists. split; [by apply page_read|]. split_and!; reflexivity.
Qed.

Lemma fetch_queue m : fetch "/v1/queue" m = Some (page_of time_text zero_time hollow (reply_body (queue m.(mo_server)))).
Proof. done. Qed.
Lemma fetch_runtime m : fetch "/v1/runtime" m = Some (page_of time_text zero_time hollow (reply_body (runtime m.(mo_server)))).
Proof. done. Qed.
Lemma fetch_cache m : fetch "/v1/cache" m = Some (page_of time_text zero_time hollow (reply_body (cache m.(mo_server)))).
Proof. unfold fetch, serve. cbn. unfold cache. by destruct (as_cache _) as [[c dir]|]. Qed.

Lemma ready_told m rr : Readiness m.(mo_sup) m.(mo_now) = Some rr -> readable (BReadiness rr) = true ->
  exists o, decode_answer (fetch "/readyz" m) = Some o /\ as_bool (jget "control_plane_ready" o) = rr.(rr_ControlPlaneReady).
Proof.
  intros E Hr. destruct (readable_some _ Hr) as [v Hv]. destruct (ready_seen hollow rr v Hv) as (l & -> & Hg & Hl).
  exists (seen_members true 0 l). split; [|done]. unfold fetch, serve, readyz. cbn. rewrite E. cbn. by apply page_read.
Qed.

Lemma status_told m hs : HostStatus_of m.(mo_now) m.(mo_sup) = Some hs -> empty_value (hollow "devices") ->
  readable (BStatus hs) = true -> exists o, decode_answer (fetch "/v1/status" m) = Some o /\ status_fields (Some o) = host_view hs.
Proof.
  intros E He Hr. destruct (readable_some _ Hr) as [v Hv].
  destruct (status_seen time_text zero_time hollow hs v Hv He) as (l & -> & Hg & Hl).
  exists (seen_members true 0 l). split; [|done]. unfold fetch, serve, status. cbn. rewrite E. cbn. by apply page_read.
Qed.

(** The router's mirror is faithful, from the sidecar's state through the JSON text to the router's.  When each of
    the five bodies of a poll is one that can be sent (every float in it is finite, it is no longer than 4 MiB and no
    deeper than the decoder goes), the integers the router takes are between 0 and 2^53, the provider and the keys of
    the directory are ASCII, and a slice or map without elements is written as one, then a poll leaves the backend with
    exactly the state of its sidecar at the moments the requests were served: the first device's lifecycle, stability
    and capacity, readiness, the queue, the runtime's gauges, the cache plane and its directory.  A plane that is not
    attached reads as its zero state; the service rate and the KV headroom are derived as from the sidecar's own
    numbers.  When one of the five addresses does not parse the poll panics instead. *)
Theorem router_mirrors_sidecar (b : Backend) prevs (mr ms mq mt mc : Moment) (at_ : Z) (rr : ReadinessResult) (hs : HostStatus) :
  Readiness mr.(mo_sup) mr.(mo_now) = Some rr -> HostStatus_of ms.(mo_now) ms.(mo_sup) = Some hs ->
  empty_value (hollow "devices") ->
  readable (BReadiness rr) = true -> readable (BStatus hs) = true -> readable (reply_body (queue mq.(mo_server))) = true ->
  readable (reply_body (runtime mt.(mo_server))) = true -> readable (reply_body (cache mc.(mo_server))) = true ->
  let q := told_queue mq.(mo_server) in let m := told_runtime mt.(mo_server) in let c := told_cache mc.(mo_server) in
  fits_queue q = true -> fits_cache c.1 c.2 = true ->
  let '(prevs', rate) := serviceRate b.(be_ID) (Value m.(rm_GenThroughput)) (Supported m.(rm_GenThroughput)) at_ prevs in
  poll_pages b (fetched mr ms mq mt mc at_) prevs =
    if polls b then Some (prevs', (mirrored b rr hs q m c.1 rate, published_dir c.2)) else None.
Proof.
  cbv zeta. intros Hrr Hhs He R1 R2 R3 R4 R5 Fq Fc.
  destruct (ready_told mr rr Hrr R1) as (o1 & E1 & H1), (status_told ms hs Hhs He R2) as (o2 & E2 & H2).
  destruct (queue_told _ R3 Fq) as (o3 & E3 & H3), (runtime_told _ R4) as (o4 & E4 & H4 & H5 & H6 & H7 & H8 & H9 & H10).
  destruct (cache_told _ R5 Fc) as (o5 & E5 & J1 & J2 & J3 & J4 & J5 & J6 & J7 & J8 & J9 & J10 & J11 & J12).
  unfold poll_pages. rewrite answers_of_polls. destruct (polls b); [|by destruct (serviceRate _ _ _ _ _)].
  cbn [mbind option_bind]. unfold pollBackend, mirrored.
  cbn [fetched pg_readyz pg_status pg_queue pg_runtime pg_cache pg_now an_readyz an_status an_queue an_runtime an_cache an_now].
  rewrite fetch_queue, fetch_runtime, fetch_cache, E1, E2, E3, E4, E5, H2, H3.
  destruct (host_view hs) as [[life stability] capacity].
  rewrite H9, H10. destruct (serviceRate _ _ _ _ _) as [prevs' rate]. destruct rate as [rate supported].
  by rewrite H1, H4, H5, H6, H7, H8, J1, J2, J3, J4, J5, J6, J7, J8, J9, J10, J11; cbn [mbind option_bind]; rewrite J12.
Qed.
End poll.

(** ** A host with every plane attached *)

Definition sample_queue : QueueSnapshot :=
  {| qs_Enabled := true; qs_Queued := 3; qs_Inflight := 2; qs_MaxQueued := 64; qs_MaxInflight := 8; qs_OldestAgeMs := f64_lit 25 1;
     qs_ArrivalRate := f64_lit 1 1; qs_DispatchRate := f64_zero; qs_CompletionRate := f64_zero; qs_Arrivals := 9;
     qs_Dispatched := 6; qs_Completed := 4; qs_Rejected := 0; qs_TimedOut := 0; qs_Cancelled := 0; qs_WaitP50Ms := f64_lit 1 10;
     qs_WaitP95Ms := f64_zero |}.
Definition sample_metrics : RuntimeMetrics :=
  {| rm_Timestamp := 7; rm_Healthy := true; rm_ScrapeOK := true; rm_ScrapeAgeMs := f64_lit 125 10; rm_ScrapeLatencyMs := f64_lit 3 1;
     rm_RequestsRunning := Sup (f64_of_Z 2); rm_RequestsWaiting := Sup f64_one; rm_KVCacheUtil := Sup (f64_lit 1 4);
     rm_ActiveSequences := no_value; rm_PromptThroughput := no_value; rm_GenThroughput := Sup (f64_of_Z 1500);
     rm_RequestLatencyP50 := no_value; rm_QueueLatencyP50 := no_value; rm_TTFTP50 := no_value; rm_TPOTP50 := no_value;
     rm_PreemptionsTotal := no_value; rm_PrefixCacheHits := no_value; rm_PrefixCacheQueries := no_value;
     rm_RequestsSuccess := no_value; rm_RequestsFailed := no_value; rm_ModelName := "llama <8b>"; rm_RuntimeVersion := "0.6";
     rm_RawMetricSources := {[ "requests_running" := "vllm:num_requests_running" ]}%string; rm_UnsupportedFields := ["ttft_p50_s"%string] |}.
Definition sample_cache : CacheSnapshot * gmap string Z :=
  ({| cs_Enabled := true; cs_Provider := "vllm"; cs_Supported := true; cs_MatchSupported := true; cs_Ready := true;
      cs_Confidence := f64_lit 9 10; cs_SnapshotAgeMs := 12; cs_LastEventSequence := 41; cs_CacheResetEpoch := 1; cs_IndexEntries := 2;
      cs_IndexMaxEntries := 100; cs_KVHeadroom := f64_zero; cs_KVHeadroomSupported := false; cs_EventsReceivedTotal := 41;
      cs_EventsDroppedTotal := 0; cs_SequenceGapsTotal := 0; cs_StaleInvalidations := 0; cs_DuplicateEventsTotal := 0;
      cs_OutOfOrderEventsTotal := 0; cs_ResetsTotal := 1; cs_UpdatedAt := 7 |},
   {[ "k2" := 64; "k1" := 16 ]}%string).
Definition sample_server : Server := AttachCacheObserver sample_cache (AttachDataPlane sample_metrics (sample_queue, None) (New "v1")).

(** A clock that prints the same text at all times, and nil for every empty slice and map. *)
Definition noon (_ : Z) : string := "2024-01-01T12:00:00Z".
Definition nil_value (_ : string) : json := Json.JNull.
Definition moment (s : Supervisor) : Moment := {| mo_server := sample_server; mo_sup := s; mo_now := 106 * second |}.

Definition zero_clock : string := "0001-01-01T00:00:00Z".

Definition sample_fits : bool :=
  match sample_run with
  | Some s =>
      match Readiness s (106 * second), HostStatus_of (106 * second) s with
      | Some rr, Some hs =>
          forallb (readable noon zero_clock nil_value) [BReadiness rr; BStatus hs] &&
          String.eqb (host_view hs).1.1 "RECOVERING"
      | _, _ => false
      end
  | None => false
  end.

Lemma router_mirrors_sidecar_witness :
  let b := {| be_ID := "a"; be_Vendor := "nvidia"; be_SidecarURL := "http://a"; be_SnapshotURL := "http://a" |}%string in
  exists s prevs st, sample_run = Some s /\ let m := moment s in
    @poll_pages control_free b (fetched noon zero_clock nil_value m m m m m 9) ∅ =
      Some (prevs, (st, Some {[ "k1" := 16; "k2" := 64 ]}%string)) /\
    bs_LifecycleState st = "RECOVERING"%string /\ bs_QueueDepth st = 3 /\ bs_KVHeadroom st = f64_lit 3 4 /\
    bs_CacheProvider st = "vllm"%string.
Proof.
  intros b. assert (F : sample_fits = true) by (by vm_compute). unfold sample_fits in F.
  destruct sample_run as [s|]; [|done]. destruct (Readiness s _) as [rr|] eqn:Er; [|done].
  destruct (HostStatus_of _ s) as [hs|] eqn:Eh; [|done]. cbn [forallb] in F. rewrite !andb_true_iff in F.
  destruct F as [[F1 [F2 _]] F3%String.eqb_eq].
  assert (Q : readable noon zero_clock nil_value (reply_body (queue sample_server)) = true) by (by vm_compute).
  assert (R : readable noon zero_clock nil_value (reply_body (runtime sample_server)) = true) by (by vm_compute).
  assert (C : readable noon zero_clock nil_value (reply_body (cache sample_server)) = true) by (by vm_compute).
  pose proof (@router_mirrors_sidecar _ control_free noon zero_clock nil_value b ∅ (moment s) (moment s) (moment s) (moment s) (moment s) 9 rr hs
    Er Eh (or_introl eq_refl) F1 F2 Q R C eq_refl eq_refl) as H. cbv zeta in H.
  destruct (serviceRate _ _ _ _ _) as [prevs rate]. eexists s, prevs, _. split; [done|]. cbv zeta.
  split; [rewrite H; change (@polls control_free b) with true; cbv iota; do 3 f_equal; by vm_compute|]. unfold mirrored. destruct (host_view hs) as [[life st] cap].
  split; [exact F3|]. split_and!; by vm_compute.
Defined.
