(* ===== verification/Daemon.v ===== *)
(** * The daemon as one system ([cmd/sidecar/main.go])

    The components that [main] creates side by side, and everything that its goroutines, its HTTP handlers and the
    requests of the data plane do to them, as a step relation: a step is one call under the lock of the component it
    changes.  The admission gate reads the runtime's health and the supervisor of this very state. *)

From Stdlib Require Import Floats.SpecFloat.
From stdpp Require Import base tactics numbers option list strings gmap.
From S2P Require Import Prelude Ordering GoFloat GoTime GoHttp Model Supervisor Adapters Exec CacheIndex CacheProvider EventTransport.
From S2P Require Import AdmissionQueue WorkAccounting Vllm AdminApi Sidecar.
Open Scope go_scope.

(** ** State *)

Record Plane := {
  pl_flags : Flags;
  pl_vllm : Adapter;
  pl_queue : System;
  pl_work : option WorkAccountant;
  pl_cache : option (bool * AnyProvider);
}.

(** [pl_cache]: the provider and the watcher's [lastUp]. *)
Record Daemon := { dm_sup : Supervisor; dm_plane : option Plane }.

Definition with_sup (s : Supervisor) (d : Daemon) : Daemon := {| dm_sup := s; dm_plane := d.(dm_plane) |}.
Definition with_plane (pl : Plane) (d : Daemon) : Daemon := {| dm_sup := d.(dm_sup); dm_plane := Some pl |}.
Definition set_vllm (a : Adapter) (pl : Plane) : Plane :=
  {| pl_flags := pl.(pl_flags); pl_vllm := a; pl_queue := pl.(pl_queue); pl_work := pl.(pl_work); pl_cache := pl.(pl_cache) |}.
Definition set_queue (q : System) (pl : Plane) : Plane :=
  {| pl_flags := pl.(pl_flags); pl_vllm := pl.(pl_vllm); pl_queue := q; pl_work := pl.(pl_work); pl_cache := pl.(pl_cache) |}.
Definition set_work (w : option WorkAccountant) (pl : Plane) : Plane :=
  {| pl_flags := pl.(pl_flags); pl_vllm := pl.(pl_vllm); pl_queue := pl.(pl_queue); pl_work := w; pl_cache := pl.(pl_cache) |}.
Definition set_cache (c : option (bool * AnyProvider)) (pl : Plane) : Plane :=
  {| pl_flags := pl.(pl_flags); pl_vllm := pl.(pl_vllm); pl_queue := pl.(pl_queue); pl_work := pl.(pl_work); pl_cache := c |}.

(** ** Start *)

(** [provider.Start]: the native provider has no event source, so neither fails. *)
Definition start_provider (p : AnyProvider) : AnyProvider :=
  match p with
  | PExplicit q => PExplicit (explicit_Start q)
  | PVLLM q => PVLLM (vllm_Start true (transport q false 0)).1.(et_provider)
  | PDisabled q => PDisabled q
  end.

Definition start_plane (f : Flags) (now : Z) : Plane :=
  {| pl_flags := f; pl_vllm := Vllm.New (vllm_config f) now; pl_queue := sys_new (queue_config f);
     pl_work := if observes f then Some NewWorkAccountant else None;
     pl_cache := if observes f then Some (true, start_provider (NewProvider (provider_config f) now)) else None |}.

(** [None] is a panic: of the supervisor, or of [time.NewTicker] in the goroutine of the polls, for which the interval
    has to be positive. *)
Definition start_daemon {A} `{!AdapterOps A} (exp : f64 -> f64) (f : Flags) (h : HostFacts) (adapter : A)
    (discovered : string + list Identity) (input : string -> PollInput) (now : Z) : option Daemon :=
  s ← start exp f h adapter discovered input;
  if f.(fl_poll) <=? 0 then None
  else Some {| dm_sup := s; dm_plane := if f.(fl_enableDataPlane) then Some (start_plane f now) else None |}.

(** ** The HTTP interface *)

(** The clock readings of a request and the order of a map's range. *)
Record Reads := { rd_now : Z; rd_snap : nat -> Z; rd_dir : nat -> Z; rd_rng : entry_map -> list (string * IndexEntry) }.

(** The closures given to [AttachDataPlane] and [AttachCacheObserver]: those the request calls.  The place of one that is
    not called is taken by [unread_queue] and [unread_cache]. *)
Definition unread_queue : QueueBody :=
  ({| qs_Enabled := false; qs_Queued := 0; qs_Inflight := 0; qs_MaxQueued := 0; qs_MaxInflight := 0; qs_OldestAgeMs := f64_zero;
      qs_ArrivalRate := f64_zero; qs_DispatchRate := f64_zero; qs_CompletionRate := f64_zero; qs_Arrivals := 0;
      qs_Dispatched := 0; qs_Completed := 0; qs_Rejected := 0; qs_TimedOut := 0; qs_Cancelled := 0; qs_WaitP50Ms := f64_zero;
      qs_WaitP95Ms := f64_zero |}, None).
Definition unread_cache : CacheSnapshot * gmap string Z := (disabled_Snapshot, ∅).

Definition read_queue (c : Reads) (pl : Plane) : option (Plane * QueueBody) :=
  '(q, qs) ← QueueSnapshot_of c.(rd_now) pl.(pl_queue).(sy_q);
  Some (set_queue (with_q (fun _ => q) pl.(pl_queue)) pl, queue_body qs pl.(pl_work)).

Definition read_cache (c : Reads) (pl : Plane) : Plane * option (CacheSnapshot * gmap string Z) :=
  match pl.(pl_cache) with
  | None => (pl, None)
  | Some (up, p) =>
      let '(p, body) := BuildPublicSnapshot c.(rd_snap) c.(rd_dir) c.(rd_rng) (dir_max pl.(pl_flags)) p in
      (set_cache (Some (up, p)) pl, Some body)
  end.

Definition plane_server (c : Reads) (path : string) (pl : Plane) : option (Plane * Server) :=
  '(pl, qb) ← if String.eqb path "/v1/queue" then read_queue c pl else Some (pl, unread_queue);
  let '(pl, cb) :=
    if String.eqb path "/v1/cache" || String.eqb path "/metrics" then read_cache c pl
    else (pl, (fun _ => unread_cache) <$> pl.(pl_cache)) in
  let srv := AttachDataPlane (AdapterSnapshot c.(rd_now) pl.(pl_vllm)) qb (New Version) in
  Some (pl, match cb with Some body => AttachCacheObserver body srv | None => srv end).

Definition daemon_serve `{!SliceSort} (c : Reads) (r : ApiRequest) (d : Daemon) : option (Daemon * ApiResponse) :=
  '(d, srv) ← match d.(dm_plane) with
              | None => Some (d, New Version)
              | Some pl => '(pl, srv) ← plane_server c r.(ar_path) pl; Some (with_plane pl d, srv)
              end;
  '(s, resp) ← serve srv r c.(rd_now) d.(dm_sup);
  Some (with_sup s d, resp).

(** ** Admission *)

(** [Admit] of the proxy's queue, with the daemon's gate; [None] is a panic of the supervisor. *)
Definition daemon_admit (now : Z) (t : Ticket) (pl : Plane) (s : Supervisor) : option (System * (QueueError + Ticket)) :=
  g ← gate pl.(pl_vllm).(va_healthy) pl.(pl_flags).(fl_dpDeviceID) now s;
  let '(q, r) := admit_locked g t pl.(pl_queue).(sy_q) in
  let sys := with_q (fun _ => q) pl.(pl_queue) in
  Some (match r with inl _ => sys | inr _ => add_cell t sys end, r).

(** ** Steps *)

(** What the handlers of the data plane do to the token accounting. *)
Inductive work_call :=
  | WReserve (input matched output : Z) (confidence : f64)
  | WActivate (prefill decode : Z)
  | WRelease (prefill decode : Z).
Definition work_do (c : work_call) (w : WorkAccountant) : WorkAccountant :=
  match c with
  | WReserve i m o conf => fst (ReserveTokens i m o conf w)
  | WActivate p d => Activate p d w
  | WRelease p d => Release p d w
  end.

Section steps.
  Context `{!SliceSort} {url_parser : UrlParse} (exp : f64 -> f64).

Inductive dstep : Daemon -> Daemon -> Prop :=
  (** the ticker of the supervisor *)
  | dstep_poll d input s : PollOnce exp input d.(dm_sup) = Some s -> dstep d (with_sup s d)
  (** a request of the HTTP interface *)
  | dstep_serve d c r d' resp : daemon_serve c r d = Some (d', resp) -> dstep d d'
  (** the loops of the runtime adapter *)
  | dstep_scrape d pl r now latency a : d.(dm_plane) = Some pl -> scrape r now latency pl.(pl_vllm) = Some a ->
      dstep d (with_plane (set_vllm a pl) d)
  | dstep_health d pl r a : d.(dm_plane) = Some pl -> checkHealth r pl.(pl_vllm) = Some a ->
      dstep d (with_plane (set_vllm a pl) d)
  (** the watcher of the runtime *)
  | dstep_watch d pl c now : d.(dm_plane) = Some pl -> pl.(pl_cache) = Some c ->
      let t := {| tk_now := now; tk_kv := (AdapterSnapshot now pl.(pl_vllm)).(rm_KVCacheUtil); tk_up := pl.(pl_vllm).(va_healthy) |} in
      dstep d (with_plane (set_cache (Some (watch t c)) pl) d)
  (** a request of the data plane asks for admission *)
  | dstep_admit d pl now t sys r : d.(dm_plane) = Some pl -> t.(tk_ptr) = length pl.(pl_queue).(sy_cells) ->
      daemon_admit now t pl d.(dm_sup) = Some (sys, r) -> dstep d (with_plane (set_queue sys pl) d)
  (** any other step of the queue's goroutines *)
  | dstep_queue d pl sys : d.(dm_plane) = Some pl -> qstep pl.(pl_queue) sys ->
      length sys.(sy_cells) = length pl.(pl_queue).(sy_cells) -> dstep d (with_plane (set_queue sys pl) d)
  (** the token accounting, and the prefix observation of the explicit provider *)
  | dstep_work d pl w c : d.(dm_plane) = Some pl -> pl.(pl_work) = Some w ->
      dstep d (with_plane (set_work (Some (work_do c w)) pl) d)
  | dstep_observe d pl up p rng now key tokens : d.(dm_plane) = Some pl -> pl.(pl_cache) = Some (up, p) ->
      dstep d (with_plane (set_cache (Some (up, provider_apply p (PObserve rng now key tokens))) pl) d).

Inductive dsteps : Daemon -> Daemon -> Prop :=
  | dsteps_refl d : dsteps d d
  | dsteps_step d1 d2 d3 : dsteps d1 d2 -> dstep d2 d3 -> dsteps d1 d3.
End steps.
