(* ===== verification/DaemonFacts.v ===== *)
(** * Properties of the daemon as one system

    Every reachable state keeps the invariants of all components at once; what the HTTP interface publishes about the
    queue and what admission lets in are about that state; and the router mirrors it. *)

From Stdlib Require Import Floats.SpecFloat.
From stdpp Require Import base tactics numbers option list strings gmap.
From S2P Require Import Prelude Ordering GoFloat GoTime GoHttp Model Stability History Supervisor SupervisorFacts Adapters Detect Exec CacheIndex CacheProvider EventTransport.
From S2P Require Import AdmissionQueue QueueFacts WorkAccounting Vllm AdminApi AdminFacts Sidecar SidecarFacts Json Publish Routing Registry GetJson ControlPlane Daemon.
Open Scope go_scope.

(** ** The invariant *)

Record plane_inv (f : Flags) (pl : Plane) : Prop := {
  pi_flags : pl.(pl_flags) = f;
  pi_vllm : pl.(pl_vllm).(va_cfg) = vllm_config f;
  pi_queue : qsteps (sys_new (queue_config f)) pl.(pl_queue);
  pi_cache : forall up p, pl.(pl_cache) = Some (up, p) -> any_inv p;
}.

Record daemon_inv (f : Flags) (d : Daemon) : Prop := {
  di_sup : sv_inv d.(dm_sup);
  di_plane : forall pl, d.(dm_plane) = Some pl -> plane_inv f pl;
}.

Lemma provider_start_inv f now : any_inv (start_provider (NewProvider (provider_config f) now)).
Proof.
  pose proof (any_inv_run (provider_config f) now []) as H. cbn in H. unfold NewProvider in *.
  by destruct (pc_Mode (provider_config f)).
Qed.

Lemma start_daemon_none {A} `{!AdapterOps A} exp f h (a : A) discovered input now : f.(fl_poll) <= 0 ->
  start_daemon exp f h a discovered input now = None.
Proof. intros Hp. unfold start_daemon. destruct (start exp f h a discovered input); [|done]. cbn. by rewrite (proj2 (Z.leb_le _ _)). Qed.

Lemma start_daemon_ok {A} `{!AdapterOps A} exp f h (a : A) discovered input now : 0 < f.(fl_poll) ->
  exists d, start_daemon exp f h a discovered input now = Some d /\ daemon_inv f d /\
    (is_Some d.(dm_plane) <-> f.(fl_enableDataPlane) = true).
Proof.
  intros Hp. destruct (start_ok exp f h a discovered input) as (s & Hs & Hinv). unfold start_daemon. rewrite Hs. cbn [mbind option_bind].
  rewrite (proj2 (Z.leb_gt _ _)) by done.
  eexists. split; [reflexivity|]. split; [split; [done|]|].
  - cbn. destruct (fl_enableDataPlane f); [|done]. intros pl [= <-]. split; [done|done|constructor|].
    cbn. destruct (observes f); [|done]. intros up p [= _ <-]. apply provider_start_inv.
  - cbn. destruct (fl_enableDataPlane f); [split; [done|by eexists]|]. rewrite is_Some_alt. by split.
Qed.

(** The bound of the flag is a machine integer. *)
Definition flags_ok (f : Flags) : Prop := MaxInflightRequests (queue_config f) <= i64_max.

Lemma reachable_snapshot c f pl : flags_ok f -> plane_inv f pl -> exists q qs,
  QueueSnapshot_of (rd_now c) pl.(pl_queue).(sy_q) = Some (q, qs) /\
  qs_Queued qs = Z.of_nat (length (q_waiting (sy_q pl.(pl_queue)))) /\ qs_Inflight qs = q_inflight (sy_q pl.(pl_queue)) /\
  qs_MaxQueued qs = f.(fl_maxQueued).
Proof.
  intros Hf [H1 HV H2 H3]. destruct (queue_snapshot_total _ _ (rd_now c) Hf H2) as (q & qs & E & Hq & Hi). exists q, qs.
  split; [done|]. split; [done|]. split; [done|]. pose proof (qi_cfg _ _ (qinv_reachable _ _ Hf H2)) as Hc. unfold QueueSnapshot_of in E.
  destruct (pctile _ (f64_of_Z 50)) as [p50|]; cbn [mbind option_bind] in E; [|discriminate E].
  destruct (pctile _ (f64_of_Z 95)) as [p95|]; cbn [mbind option_bind] in E; [|discriminate E]. injection E as _ <-. cbn [qs_MaxQueued].
  by rewrite Hc.
Qed.

Lemma set_queue_inv f pl sys : plane_inv f pl -> qsteps (sys_new (queue_config f)) sys -> plane_inv f (set_queue sys pl).
Proof. by intros [H1 HV H2 H3] H. Qed.
Lemma set_vllm_inv f pl a : plane_inv f pl -> a.(va_cfg) = vllm_config f -> plane_inv f (set_vllm a pl).
Proof. by intros [H1 HV H2 H3] H. Qed.
Lemma set_cache_inv f pl c : plane_inv f pl -> (forall up p, c = Some (up, p) -> any_inv p) -> plane_inv f (set_cache c pl).
Proof. by intros [H1 HV H2 H3] H. Qed.

Lemma read_queue_ok c f pl : flags_ok f -> plane_inv f pl -> exists pl' qs, read_queue c pl = Some (pl', queue_body qs pl.(pl_work)) /\
  plane_inv f pl' /\ pl'.(pl_vllm) = pl.(pl_vllm) /\ pl'.(pl_cache) = pl.(pl_cache) /\ exists q,
  QueueSnapshot_of (rd_now c) pl.(pl_queue).(sy_q) = Some (q, qs).
Proof.
  intros Hf Hp. destruct (reachable_snapshot c f pl Hf Hp) as (q & qs & E & _). unfold read_queue. rewrite E. cbn [mbind option_bind].
  eexists _, qs. split; [reflexivity|]. split; [|split; [done|]; split; [done|by exists q]].
  apply set_queue_inv; [done|]. eapply qsteps_step; [apply Hp|]. by eapply step_snapshot.
Qed.

Lemma read_cache_ok c f pl : plane_inv f pl -> plane_inv f (read_cache c pl).1.
Proof.
  intros Hp. unfold read_cache. destruct (pl_cache pl) as [[up p]|] eqn:E; [|done]. unfold BuildPublicSnapshot.
  pose proof (ph_snapshot_inv (inv := any_inv) p (rd_snap c) (pi_cache _ _ Hp _ _ E)) as Hi.
  destruct (p_Snapshot (rd_snap c) p) as [p' s]. cbn in *. apply set_cache_inv; [done|]. by intros ? ? [= _ <-].
Qed.

Lemma plane_server_ok c path f pl : flags_ok f -> plane_inv f pl ->
  exists pl' srv, plane_server c path pl = Some (pl', srv) /\ plane_inv f pl' /\ srv.(as_chat) = true.
Proof.
  intros Hf Hp. unfold plane_server.
  assert (Hq : exists pl1 qb, (if String.eqb path "/v1/queue" then read_queue c pl else Some (pl, unread_queue)) = Some (pl1, qb) /\ plane_inv f pl1).
  { destruct (String.eqb path "/v1/queue"); [|by eexists _, _]. destruct (read_queue_ok c f pl Hf Hp) as (pl' & qs & E & Hp' & _). by eexists _, _. }
  destruct Hq as (pl1 & qb & -> & Hp1). cbn [mbind option_bind].
  pose proof (read_cache_ok c f pl1 Hp1) as Hc. destruct (_ || _).
  - destruct (read_cache c pl1) as [pl2 cb]. eexists _, _. split; [reflexivity|]. split; [done|]. by destruct cb.
  - eexists _, _. split; [reflexivity|]. split; [done|]. by destruct (_ <$> _).
Qed.

Lemma daemon_serve_ok `{!SliceSort} c r f d : flags_ok f -> daemon_inv f d ->
  exists d' resp, daemon_serve c r d = Some (d', resp) /\ daemon_inv f d' /\
    (resp = RForward <-> r.(ar_path) = "/v1/chat/completions"%string /\ is_Some d.(dm_plane) /\ r.(ar_method) = "POST"%string).
Proof.
  intros Hf [Hs Hp]. unfold daemon_serve. destruct (dm_plane d) as [pl|] eqn:E.
  - destruct (plane_server_ok c (ar_path r) f pl Hf (Hp pl eq_refl)) as (pl' & srv & -> & Hp' & Hchat). cbn [mbind option_bind].
    destruct (serve_total srv r (rd_now c) (dm_sup d) Hs) as (s' & resp & Hsv & Hs' & _ & Hfw).
    cbn [with_plane dm_sup]. rewrite Hsv. cbn [mbind option_bind]. eexists _, resp. split; [reflexivity|]. split.
    + split; [done|]. cbn. by intros ? [= <-].
    + rewrite Hfw, Hchat. split; intros (? & ? & ?); split_and!; done.
  - cbn [mbind option_bind]. destruct (serve_total (New Version) r (rd_now c) (dm_sup d) Hs) as (s' & resp & Hsv & Hs' & _ & Hfw).
    rewrite Hsv. cbn [mbind option_bind]. eexists _, resp. split; [reflexivity|]. split; [split; [done|]; cbn; by rewrite E|].
    rewrite Hfw. split; [by intros (? & ? & ?)|]. intros (_ & H' & _). by apply is_Some_None in H'.
Qed.

(** ** Admission *)

Lemma daemon_admit_ok now t f pl s : flags_ok f -> plane_inv f pl -> sv_inv s -> t.(tk_ptr) = length pl.(pl_queue).(sy_cells) ->
  exists sys r, daemon_admit now t pl s = Some (sys, r) /\ qsteps (sys_new (queue_config f)) sys /\
    forall t', r = inr t' -> pl.(pl_vllm).(va_healthy) = true /\ offline_now s f.(fl_dpDeviceID) = false /\
      Draining f.(fl_dpDeviceID) s = false /\ Z.of_nat (length (q_waiting (sy_q pl.(pl_queue)))) < f.(fl_maxQueued).
Proof.
  intros Hf [H1 HV H2 H3] Hs Ht. unfold daemon_admit. rewrite gate_value by done. cbn [mbind option_bind]. set (g := if negb _ then _ else _).
  destruct (admit_locked g t (sy_q (pl_queue pl))) as [q [e|t']] eqn:E.
  - eexists _, _. split; [reflexivity|]. split; [eapply qsteps_step; [exact H2|]; by eapply step_admit_refused|done].
  - assert (t' = t /\ g = None /\ Z.of_nat (length (q_waiting (sy_q (pl_queue pl)))) < MaxQueuedRequests (q_cfg (sy_q (pl_queue pl)))) as (-> & Hg & Hl).
    { unfold admit_locked in E. destruct (q_closed _); [done|]. destruct g; [done|]. destruct (Z.leb_spec (MaxQueuedRequests (q_cfg (sy_q (pl_queue pl)))) (Z.of_nat (length (q_waiting (sy_q (pl_queue pl)))))); [done|].
      by injection E as _ <-. }
    eexists _, _. split; [reflexivity|]. split; [eapply qsteps_step; [exact H2|]; by eapply step_admit|]. intros _ _. subst g. rewrite H1 in Hg.
    destruct (va_healthy (pl_vllm pl)), (offline_now s (fl_dpDeviceID f)), (Draining (fl_dpDeviceID f) s); try discriminate Hg.
    split_and!; [done..|].
    change (fl_maxQueued f) with (MaxQueuedRequests (queue_config f)). by rewrite <- (qi_cfg _ _ (qinv_reachable _ _ Hf H2)).
Qed.

(** ** Every reachable state *)

Lemma watch_inv t (c : bool * AnyProvider) : any_inv c.2 -> any_inv (watch t c).2.
Proof.
  destruct c as [up p]. unfold watch. cbn [snd]. intros Hp. destruct (tk_up t && negb up); [apply (ph_restart_inv (inv := any_inv))|];
    destruct (Supported (tk_kv t)); by apply (ph_headroom_inv (inv := any_inv)).
Qed.

Section reach.
  Context `{!SliceSort} {url_parser : UrlParse} (exp : f64 -> f64).

Lemma plane_step_inv f d pl : daemon_inv f d -> plane_inv f pl -> daemon_inv f (with_plane pl d).
Proof. intros [Hs _] Hp. split; [done|]. cbn. by intros ? [= <-]. Qed.

Lemma dstep_inv f d d' : flags_ok f -> daemon_inv f d -> dstep exp d d' -> daemon_inv f d'.
Proof.
  intros Hf Hd Hst. destruct Hst as [d input s Hp|d c r d' resp Hp|d pl r now lat a Hp Ha|d pl r a Hp Ha|d pl c now Hp Hc t|d pl now t sys r Hp Ht Ha|d pl sys Hp Hq _|d pl w c Hp Hw|d pl up p rng now key tok Hp Hc].
  - destruct (sv_apply_ok exp (OpPoll input) _ (di_sup _ _ Hd)) as (s' & Hs' & Hi). cbn in Hs'. rewrite Hp in Hs'. injection Hs' as <-.
    split; [done|apply Hd].
  - destruct (daemon_serve_ok c r f d Hf Hd) as (d1 & resp1 & E & Hi & _). rewrite Hp in E. by injection E as <- _.
  - apply plane_step_inv; [done|]. apply set_vllm_inv; [by apply (di_plane _ _ Hd)|].
    unfold scrape in Ha. apply with_request_Some in Ha as [_ <-]. apply (pi_vllm _ _ (di_plane _ _ Hd pl Hp)).
  - apply plane_step_inv; [done|]. apply set_vllm_inv; [by apply (di_plane _ _ Hd)|].
    unfold checkHealth in Ha. apply with_request_Some in Ha as [_ <-]. apply (pi_vllm _ _ (di_plane _ _ Hd pl Hp)).
  - apply plane_step_inv; [done|]. pose proof (di_plane _ _ Hd pl Hp) as Hi. apply set_cache_inv; [done|].
    intros up' p' [= E]. pose proof (watch_inv t c) as Hw. rewrite E in Hw. apply Hw. destruct c as [up p]. by apply (pi_cache _ _ Hi up p).
  - apply plane_step_inv; [done|]. pose proof (di_plane _ _ Hd pl Hp) as Hi.
    destruct (daemon_admit_ok now t f pl (dm_sup d) Hf Hi (di_sup _ _ Hd) Ht) as (sys' & r' & E & Hq & _).
    rewrite Ha in E. injection E as <- _. by apply set_queue_inv.
  - apply plane_step_inv; [done|]. pose proof (di_plane _ _ Hd pl Hp) as Hi. apply set_queue_inv; [done|].
    eapply qsteps_step; [apply Hi|done].
  - apply plane_step_inv; [done|]. by destruct (di_plane _ _ Hd pl Hp).
  - apply plane_step_inv; [done|]. pose proof (di_plane _ _ Hd pl Hp) as Hi. apply set_cache_inv; [done|].
    intros up' p'. intros [= _ <-]. pose proof (pi_cache _ _ Hi _ _ Hc) as Hcache. destruct p as [p|p|p]; [done| |done].
    cbn in *. unfold Observe. destruct (String.eqb key "" || (tok <=? 0)) eqn:E; [done|]. go_bool. by apply tokens_pos_store.
Qed.

Lemma dsteps_inv f d d' : flags_ok f -> daemon_inv f d -> dsteps exp d d' -> daemon_inv f d'.
Proof. intros Hf Hd Hs. induction Hs as [d|d1 d2 d3 _ IH H3]; [done|]. by eapply dstep_inv; [| |exact H3]; [|apply IH]. Qed.
End reach.

Definition queue_request (path : string) : ApiRequest :=
  {| ar_method := "GET"; ar_path := path; ar_contentType := ""; ar_query := fun _ => ""%string; ar_form := fun _ => ""%string;
     ar_body := ""; ar_remote := "" |}.

(** The state after the start keeps the invariant. *)
Lemma started_inv {A} `{!AdapterOps A} exp f h (a : A) discovered input now d0 :
  start_daemon exp f h a discovered input now = Some d0 -> daemon_inv f d0.
Proof.
  intros Hs. destruct (Z.le_gt_cases f.(fl_poll) 0) as [Hp|Hp].
  - by rewrite (start_daemon_none exp f h a discovered input now Hp) in Hs.
  - destruct (start_daemon_ok exp f h a discovered input now Hp) as (d1 & E & Hi & _). rewrite Hs in E. by injection E as <-.
Qed.

(** C1: the daemon as one system.  For all flags, hosts, adapters and discoveries it starts, with the data plane exactly
    when the flag asks for it, unless the poll interval is not positive, which ends the process; and in every state that
    any interleaving of polls, HTTP requests, scrapes, health checks, watcher ticks, admissions, queue steps, token
    accounting and observations reaches, no further poll, request or admission panics; a scrape or a health check of the
    runtime panics exactly when its address does not parse; the queue is within the bounds of the flags, and
    [/v1/queue] reports exactly its waiting and in-flight requests; and a request is admitted only while the last health
    check found the runtime up, the device is neither OFFLINE nor draining and there is room. *)
Theorem daemon_system `{!SliceSort} `{!UrlParse} exp f h vendor env smi rocm discovered input now (Hf : flags_ok f) :
  if f.(fl_poll) <=? 0 then start_daemon exp f h (daemon_adapter vendor env smi rocm) discovered input now = None
  else exists d0, start_daemon exp f h (daemon_adapter vendor env smi rocm) discovered input now = Some d0 /\
    (is_Some d0.(dm_plane) <-> f.(fl_enableDataPlane) = true) /\
    forall d, dsteps exp d0 d ->
      (forall input', is_Some (PollOnce exp input' d.(dm_sup))) /\
      (forall c r, is_Some (daemon_serve c r d)) /\
      forall pl, d.(dm_plane) = Some pl -> let q := pl.(pl_queue).(sy_q) in
        (forall r now' latency, is_Some (scrape r now' latency pl.(pl_vllm)) <-> url_parses (metrics_url (vllm_config f)) = true) /\
        (forall r, is_Some (checkHealth r pl.(pl_vllm)) <-> url_parses (health_url (vllm_config f)) = true) /\
        Z.of_nat (length (q_waiting q)) <= Z.max 0 f.(fl_maxQueued) /\ 0 <= q_inflight q <= Z.max 0 f.(fl_maxInflight) /\
        (forall c, exists d' qs, daemon_serve c (queue_request "/v1/queue") d =
           Some (d', RReply 200 "" (BQueue (queue_body qs pl.(pl_work)))) /\
           qs_Queued qs = Z.of_nat (length (q_waiting q)) /\ qs_Inflight qs = q_inflight q /\ qs_MaxQueued qs = f.(fl_maxQueued)) /\
        forall t now', t.(tk_ptr) = length pl.(pl_queue).(sy_cells) ->
          exists sys r, daemon_admit now' t pl d.(dm_sup) = Some (sys, r) /\ forall t', r = inr t' ->
            pl.(pl_vllm).(va_healthy) = true /\ offline_now d.(dm_sup) f.(fl_dpDeviceID) = false /\
            Draining f.(fl_dpDeviceID) d.(dm_sup) = false /\ Z.of_nat (length (q_waiting q)) < f.(fl_maxQueued).
Proof.
  destruct (Z.leb_spec f.(fl_poll) 0) as [Hpoll|Hpoll]; [by apply start_daemon_none|].
  destruct (start_daemon_ok exp f h (daemon_adapter vendor env smi rocm) discovered input now Hpoll) as (d0 & Hd0 & Hi0 & Hpl).
  exists d0. split; [done|]. split; [done|]. intros d Hr. pose proof (dsteps_inv exp f d0 d Hf Hi0 Hr) as Hi.
  split; [intros input'; destruct (sv_apply_ok exp (OpPoll input') _ (di_sup _ _ Hi)) as (s' & Hs' & _); by exists s'|].
  split; [intros c r; destruct (daemon_serve_ok c r f d Hf Hi) as (d' & resp & E & _); by eexists|].
  intros pl Hp q. pose proof (di_plane _ _ Hi pl Hp) as Hpi. pose proof (qinv_reachable _ _ Hf (pi_queue _ _ Hpi)) as Hq.
  split; [intros r now' latency; unfold scrape; rewrite (pi_vllm _ _ Hpi); apply with_request_is_Some|].
  split; [intros r; unfold checkHealth; rewrite (pi_vllm _ _ Hpi); apply with_request_is_Some|].
  split; [apply (qi_len _ _ Hq)|]. split; [split; [|apply (qi_max _ _ Hq)]|split].
  - subst q. rewrite (qi_inflight _ _ Hq). lia.
  - intros c. destruct (reachable_snapshot c f pl Hf Hpi) as (q' & qs & E & E1 & E2 & E3).
    unfold daemon_serve. rewrite Hp. unfold plane_server. cbn [queue_request ar_path String.eqb]. unfold read_queue. rewrite E.
    cbn. eexists _, qs. split; [|done]. by destruct (pl_cache pl).
  - intros t now' Ht. destruct (daemon_admit_ok now' t f pl (dm_sup d) Hf Hpi (di_sup _ _ Hi) Ht) as (sys & r & E & _ & Hadm).
    by exists sys, r.
Qed.

(** ** What the router mirrors of it *)

Section mirror.
  Context `{!SliceSort} (time_text : Z -> string) (zero_time : string) (hollow : string -> json).
  Context (f : Flags).

(** The page of an endpoint, from the daemon's own state. *)
Definition daemon_page (path : string) (c : Reads) (d : Daemon) : option string :=
  match daemon_serve c (get_request path) d with
  | Some (_, RReply _ _ body) => Some (page_of time_text zero_time hollow body)
  | _ => None
  end.

(** The server the request meets. *)
Definition server_at (path : string) (c : Reads) (d : Daemon) : Server :=
  match d.(dm_plane) with
  | Some pl => match plane_server c path pl with Some (_, srv) => srv | None => New Version end
  | None => New Version
  end.
Definition moment_at (path : string) (c : Reads) (d : Daemon) : Moment :=
  {| mo_server := server_at path c d; mo_sup := d.(dm_sup); mo_now := c.(rd_now) |}.

Lemma daemon_page_fetch path c d : flags_ok f -> daemon_inv f d ->
  daemon_page path c d = fetch time_text zero_time hollow path (moment_at path c d).
Proof.
  intros Hf Hd. unfold daemon_page, daemon_serve, fetch, moment_at, server_at. cbn [mo_server mo_sup mo_now].
  destruct (dm_plane d) as [pl|] eqn:E; cbn [mbind option_bind].
  - change (ar_path (get_request path)) with path.
    destruct (plane_server_ok c path f pl Hf (di_plane _ _ Hd pl E)) as (pl' & srv & -> & _). cbn [mbind option_bind with_plane dm_sup].
    by destruct (serve srv _ _ _) as [[s r]|].
  - by destruct (serve _ _ _ _) as [[s r]|].
Qed.

Definition daemon_pages (cr cs cq ct cc : Reads) (dr ds dq dt dc : Daemon) (now : Z) : Pages :=
  {| pg_readyz := daemon_page "/readyz" cr dr; pg_status := daemon_page "/v1/status" cs ds; pg_queue := daemon_page "/v1/queue" cq dq;
     pg_runtime := daemon_page "/v1/runtime" ct dt; pg_cache := daemon_page "/v1/cache" cc dc; pg_now := now |}.

(** The body that is served can be read. *)
Definition served (path : string) (c : Reads) (d : Daemon) : option Body :=
  match daemon_serve c (get_request path) d with Some (_, RReply _ _ body) => Some body | _ => None end.
Definition page_readable (path : string) (c : Reads) (d : Daemon) : bool :=
  match served path c d with Some body => readable time_text zero_time hollow body | None => false end.

Lemma served_at path c d : flags_ok f -> daemon_inv f d ->
  served path c d = match serve (server_at path c d) (get_request path) c.(rd_now) d.(dm_sup) with
                    | Some (_, RReply _ _ body) => Some body | _ => None end.
Proof.
  intros Hf Hd. unfold served, daemon_serve, server_at.
  destruct (dm_plane d) as [pl|] eqn:E; cbn [mbind option_bind].
  - change (ar_path (get_request path)) with path.
    destruct (plane_server_ok c path f pl Hf (di_plane _ _ Hd pl E)) as (pl' & srv & -> & _). cbn [mbind option_bind with_plane dm_sup].
    by destruct (serve srv _ _ _) as [[s r]|].
  - by destruct (serve _ _ _ _) as [[s r]|].
Qed.

Lemma readable_readyz c d rr : flags_ok f -> daemon_inv f d -> Readiness d.(dm_sup) c.(rd_now) = Some rr ->
  page_readable "/readyz" c d = true -> readable time_text zero_time hollow (BReadiness rr) = true.
Proof. intros Hf Hd Hrr. unfold page_readable. rewrite served_at by done. unfold serve, readyz. cbn. rewrite Hrr. done. Qed.

Lemma readable_status c d hs : flags_ok f -> daemon_inv f d -> HostStatus_of c.(rd_now) d.(dm_sup) = Some hs ->
  page_readable "/v1/status" c d = true -> readable time_text zero_time hollow (BStatus hs) = true.
Proof. intros Hf Hd Hrr. unfold page_readable. rewrite served_at by done. unfold serve, status. cbn. rewrite Hrr. done. Qed.

Lemma readable_queue c d : flags_ok f -> daemon_inv f d -> page_readable "/v1/queue" c d = true ->
  readable time_text zero_time hollow (reply_body (queue (server_at "/v1/queue" c d))) = true.
Proof. intros Hf Hd. unfold page_readable. by rewrite served_at. Qed.

Lemma readable_runtime c d : flags_ok f -> daemon_inv f d -> page_readable "/v1/runtime" c d = true ->
  readable time_text zero_time hollow (reply_body (runtime (server_at "/v1/runtime" c d))) = true.
Proof. intros Hf Hd. unfold page_readable. by rewrite served_at. Qed.

Lemma readable_cache c d : flags_ok f -> daemon_inv f d -> page_readable "/v1/cache" c d = true ->
  readable time_text zero_time hollow (reply_body (cache (server_at "/v1/cache" c d))) = true.
Proof. intros Hf Hd. unfold page_readable. rewrite served_at by done. unfold serve, cache. cbn. by destruct (as_cache _) as [[cs dir]|]. Qed.

(** What the daemon tells of its data plane. *)
Lemma told_queue_at c d pl : flags_ok f -> daemon_inv f d -> d.(dm_plane) = Some pl ->
  let q := told_queue (server_at "/v1/queue" c d) in
  qs_Queued q = Z.of_nat (length (q_waiting (sy_q pl.(pl_queue)))) /\ qs_Inflight q = q_inflight (sy_q pl.(pl_queue)) /\
  qs_MaxQueued q = f.(fl_maxQueued).
Proof.
  intros Hf Hd Hp. destruct (reachable_snapshot c f pl Hf (di_plane _ _ Hd pl Hp)) as (q & qs & E & Hq).
  unfold server_at, plane_server, read_queue. rewrite Hp. cbn [String.eqb]. cbn. rewrite E. cbn.
  unfold told_queue. by destruct (pl_cache pl).
Qed.

Lemma told_runtime_at c d pl : d.(dm_plane) = Some pl -> told_runtime (server_at "/v1/runtime" c d) = AdapterSnapshot c.(rd_now) pl.(pl_vllm).
Proof. intros Hp. unfold server_at. rewrite Hp. cbn. unfold told_runtime. by destruct (pl_cache pl). Qed.
End mirror.

Lemma queue_fits f c d pl : flags_ok f -> daemon_inv f d -> d.(dm_plane) = Some pl -> 0 <= f.(fl_maxQueued) < 2 ^ 53 ->
  f.(fl_maxInflight) < 2 ^ 53 -> fits_queue (told_queue (server_at "/v1/queue" c d)) = true.
Proof.
  intros Hf Hd Hp Hq Hi. destruct (told_queue_at f c d pl Hf Hd Hp) as (E1 & E2 & E3).
  pose proof (qinv_reachable _ _ Hf (pi_queue _ _ (di_plane _ _ Hd pl Hp))) as Hv. pose proof (qi_len _ _ Hv) as Hl.
  pose proof (qi_max _ _ Hv) as Hm. pose proof (qi_inflight _ _ Hv) as Hc. unfold fits_queue, small. rewrite E1, E2, E3.
  change (MaxQueuedRequests (queue_config f)) with (fl_maxQueued f) in Hl.
  change (MaxInflightRequests (queue_config f)) with (fl_maxInflight f) in Hm. clear -Hl Hm Hc Hq Hi. lia.
Qed.

(** What an eligible backend's state says of the sidecar it mirrors. *)
Definition routable (hs : HostStatus) (a : Vllm.Adapter) (q : Queue) (maxQueued : Z) : Prop :=
  a.(va_healthy) = true /\ (0 < maxQueued -> Z.of_nat (length (q_waiting q)) < maxQueued) /\
  forall d rest, hs.(hs_Devices) = Some d :: rest -> d.(ds_LifecycleState) <> StateOffline /\ d.(ds_LifecycleState) <> StateDraining.

Lemma eligible_routable b rr hs qs now a q c rate maxQueued :
  isEligible (mirrored b rr hs qs (AdapterSnapshot now a) c rate) = true -> qs_Queued qs = Z.of_nat (length (q_waiting q)) ->
  qs_MaxQueued qs = maxQueued -> routable hs a q maxQueued.
Proof.
  intros He Hq Hm. apply eligible_test in He. unfold mirrored in He. destruct (host_view hs) as [[life st] cap] eqn:Ev.
  cbn [bs_Reachable bs_RuntimeHealthy bs_LifecycleState bs_QueueMax bs_QueueDepth] in He. destruct He as (_ & Hh & H1 & H2 & Hd).
  split; [exact Hh|]. split; [rewrite <- Hq, <- Hm; lia|]. intros d rest Hdev. unfold host_view, device_view in Ev. rewrite Hdev in Ev.
  injection Ev as <- _ _. cbn [part] in *. split; intros E; rewrite E in *; done.
Qed.

(** C2: the whole control plane.  A sidecar daemon with the data plane on has started and reached, in any interleaving,
    the five states in which it serves the five requests of a poll.  When the bodies it serves can be sent, the
    bounds of its queue are below 2^53 and what it tells of its cache fits, the router's poll decodes the pages to
    exactly the state that mirrors the daemon: lifecycle, stability and capacity of its first device, readiness,
    the runtime's gauges, the cache plane and its directory, and as queue depth, in-flight count and bound
    the tickets that wait, the slots in use and the flag; when one of the five addresses of the backend does not parse,
    the poll panics.  A backend is eligible only if the health check of
    its runtime had succeeded, its queue had room and its first device was neither OFFLINE nor draining. *)
Theorem router_mirrors_daemon `{!SliceSort} `{!UrlParse} time_text zero_time hollow exp f h vendor env smi rocm discovered input now d0
    (cr cs cq ct cc : Reads) (dr ds dq dt dc : Daemon) plq plt (b : Backend) prevs (at_ : Z)
    (Hf : flags_ok f) (Hq : 0 <= f.(fl_maxQueued) < 2 ^ 53) (Hi : f.(fl_maxInflight) < 2 ^ 53)
    (Hs : start_daemon exp f h (daemon_adapter vendor env smi rocm) discovered input now = Some d0)
    (Hr : Forall (dsteps exp d0) [dr; ds; dq; dt; dc]) (Hpq : dq.(dm_plane) = Some plq) (Hpt : dt.(dm_plane) = Some plt)
    (He : empty_value (hollow "devices"%string))
    (Hok : forallb (fun '(path, c, d) => page_readable time_text zero_time hollow path c d)
       [("/readyz", cr, dr); ("/v1/status", cs, ds); ("/v1/queue", cq, dq); ("/v1/runtime", ct, dt); ("/v1/cache", cc, dc)]%string = true) :
  let c := told_cache (server_at "/v1/cache" cc dc) in
  fits_cache c.1 c.2 = true ->
  exists rr hs qs rate prevs',
    Readiness dr.(dm_sup) cr.(rd_now) = Some rr /\ HostStatus_of cs.(rd_now) ds.(dm_sup) = Some hs /\
    qs_Queued qs = Z.of_nat (length (q_waiting (sy_q plq.(pl_queue)))) /\ qs_Inflight qs = q_inflight (sy_q plq.(pl_queue)) /\
    qs_MaxQueued qs = f.(fl_maxQueued) /\
    let st := mirrored b rr hs qs (AdapterSnapshot ct.(rd_now) plt.(pl_vllm)) c.1 rate in
    poll_pages b (daemon_pages time_text zero_time hollow cr cs cq ct cc dr ds dq dt dc at_) prevs =
      (if polls b then Some (prevs', (st, published_dir c.2)) else None) /\
    (isEligible st = true -> routable hs plt.(pl_vllm) (sy_q plq.(pl_queue)) f.(fl_maxQueued)).
Proof.
  intros c Hc. pose proof (started_inv _ _ _ _ _ _ _ _ Hs) as Hi0. assert (Hinv : Forall (daemon_inv f) [dr; ds; dq; dt; dc]).
  { eapply Forall_impl; [exact Hr|]. intros d Hd. by apply (dsteps_inv exp f d0). }
  rewrite !Forall_cons in Hinv. destruct Hinv as (Ir & Is & Iq & It & Ic & _). cbn [forallb] in Hok. rewrite !andb_true_iff in Hok.
  destruct Hok as (R1 & R2 & R3 & R4 & R5 & _).
  destruct (Readiness_total (rd_now cr) (dm_sup dr) (di_sup _ _ Ir)) as [rr Hrr].
  destruct (HostStatus_total (rd_now cs) (dm_sup ds) (di_sup _ _ Is)) as [hs Hhs].
  destruct (told_queue_at f cq dq plq Hf Iq Hpq) as (Q1 & Q2 & Q3).
  pose proof (router_mirrors_sidecar time_text zero_time hollow b prevs (moment_at "/readyz" cr dr) (moment_at "/v1/status" cs ds)
    (moment_at "/v1/queue" cq dq) (moment_at "/v1/runtime" ct dt) (moment_at "/v1/cache" cc dc) at_ rr hs Hrr Hhs He
    (readable_readyz _ _ _ f cr dr rr Hf Ir Hrr R1) (readable_status _ _ _ f cs ds hs Hf Is Hhs R2) (readable_queue _ _ _ f cq dq Hf Iq R3)
    (readable_runtime _ _ _ f ct dt Hf It R4) (readable_cache _ _ _ f cc dc Hf Ic R5) (queue_fits f cq dq plq Hf Iq Hpq Hq Hi) Hc) as Hmir.
  cbv zeta in Hmir. cbn [moment_at mo_server] in Hmir. rewrite (told_runtime_at ct dt plt Hpt) in Hmir.
  destruct (serviceRate _ _ _ _ _) as [prevs' rate]. exists rr, hs, (told_queue (server_at "/v1/queue" cq dq)), rate, prevs'.
  split; [done|]. split; [done|]. split; [done|]. split; [done|]. split; [done|]. split.
  - unfold daemon_pages. rewrite !(daemon_page_fetch _ _ _ f) by done. exact Hmir.
  - intros He'. by eapply eligible_routable.
Qed.

(** ** A concrete daemon

    One device, the data plane on with explicit observation; after the start a health check succeeds and a request
    is admitted. *)

Definition sample_flags : Flags :=
  {| fl_listen := ""; fl_poll := second; fl_probeTimeout := second; fl_accessProbe := false; fl_maxTelAge := 15 * second;
     fl_enableDataPlane := true; fl_vendor := "generic"; fl_devicesCSV := ""; fl_backendID := ""; fl_dpDeviceID := "0";
     fl_vllmBaseURL := ""; fl_collectorURL := ""; fl_maxQueued := 4; fl_maxInflight := 2; fl_queueTimeout := second;
     fl_cacheObserver := "explicit"; fl_cacheEventEndpoint := ""; fl_cacheIndexMax := 10; fl_cacheEntryTTL := second;
     fl_cacheStaleAfter := second; fl_cacheExplicitHeader := true |}.
Definition sample_facts : HostFacts := {| hf_host := "h"; hf_bootID := "b"; hf_instanceID := "i"; hf_now := 100 * second |}.
Definition sample_start : option Daemon :=
  start_daemon (fun _ => f64_one) sample_flags sample_facts (daemon_adapter "generic" "" None None) (inr [sample_identity])
    (fun _ => {| in_mono := second; in_wall := 101 * second; in_health := sample_health true 1 500 (101 * second); in_access := true |})
    (100 * second).
Definition sample_reads : Reads :=
  {| rd_now := 102 * second; rd_snap := fun _ => 102 * second; rd_dir := fun _ => 102 * second; rd_rng := map_to_list |}.

(** The health check, then the admission. *)
#[local] Existing Instance control_free.

Definition checked_vllm : Vllm.Adapter :=
  let a := Vllm.New (vllm_config sample_flags) (100 * second) in default a (checkHealth (inr (200, "", "")%string) a).
Definition checked_plane : Plane := set_vllm checked_vllm (start_plane sample_flags (100 * second)).
Definition admitted (d : Daemon) : option Daemon :=
  '(sys, r) ← daemon_admit (102 * second) (ticket_n 0) checked_plane d.(dm_sup);
  match r with inr _ => Some (with_plane (set_queue sys checked_plane) (with_plane checked_plane d)) | inl _ => None end.

Definition sample_pages (d : Daemon) : bool :=
  let r := sample_reads in
  forallb (fun '(path, c, d) => page_readable noon zero_clock nil_value path c d)
    [("/readyz", r, d); ("/v1/status", r, d); ("/v1/queue", r, d); ("/v1/runtime", r, d); ("/v1/cache", r, d)]%string.
Definition sample_fine : bool :=
  match sample_start ≫= admitted with
  | Some d => sample_pages d && (let c := told_cache (server_at "/v1/cache" sample_reads d) in fits_cache c.1 c.2) &&
      match d.(dm_plane) with Some pl => (length (q_waiting (sy_q pl.(pl_queue))) =? 1)%nat | None => false end
  | None => false
  end.

Lemma start_daemon_plane {A} `{!AdapterOps A} exp f h (a : A) discovered input now d0 :
  start_daemon exp f h a discovered input now = Some d0 -> d0.(dm_plane) = if f.(fl_enableDataPlane) then Some (start_plane f now) else None.
Proof. unfold start_daemon. destruct (start _ _ _ _ _ _); [|done]. cbn. destruct (fl_poll f <=? 0); [done|]. by intros [= <-]. Qed.

Lemma admitted_reached d0 d : sample_start = Some d0 -> admitted d0 = Some d -> dsteps (fun _ => f64_one) d0 d.
Proof.
  intros Hs Ha. unfold sample_start in Hs. pose proof (start_daemon_plane _ _ _ _ _ _ _ _ Hs) as Hp.
  change (fl_enableDataPlane sample_flags) with true in Hp.
  unfold admitted in Ha. destruct (daemon_admit _ _ _ _) as [[sys [e|t]]|] eqn:E; cbn [mbind option_bind] in Ha; try discriminate Ha.
  injection Ha as <-. eapply dsteps_step.
  - eapply dsteps_step; [apply dsteps_refl|]. exact (dstep_health _ d0 _ (inr (200, "", "")%string) checked_vllm Hp eq_refl).
  - exact (dstep_admit _ (with_plane checked_plane d0) checked_plane _ (ticket_n 0) sys (inr t) eq_refl eq_refl E).
Qed.

Definition told_of (d : Daemon) : string * option (gmap string Z) * option bool :=
  let c := told_cache (server_at "/v1/cache" sample_reads d) in (cs_Provider c.1, published_dir c.2, va_healthy <$> (pl_vllm <$> dm_plane d)).

Lemma sample_states : exists d0 d pl, sample_start = Some d0 /\ admitted d0 = Some d /\ dm_plane d = Some pl /\ sample_pages d = true /\
  (let c := told_cache (server_at "/v1/cache" sample_reads d) in fits_cache c.1 c.2) = true /\
  length (q_waiting (sy_q pl.(pl_queue))) = 1%nat /\ told_of d = ("explicit"%string, None, Some true).
Proof.
  assert (F : sample_fine = true) by (by vm_compute). assert (G : told_of <$> (sample_start ≫= admitted) = Some ("explicit"%string, None, Some true)) by (by vm_compute).
  revert F G. unfold sample_fine. generalize sample_start. intros [d0|]; cbn [mbind option_bind]; [|discriminate].
  generalize (eq_refl (admitted d0)). generalize (admitted d0) at 1 3 4. intros [d|] Ha; [|discriminate]. symmetry in Ha.
  rewrite !andb_true_iff. intros [[F1 F2] F3] G. destruct (dm_plane d) as [pl|] eqn:Hp; [|discriminate F3]. apply Nat.eqb_eq in F3.
  cbn [fmap option_fmap option_map] in G. apply (inj Some) in G. exists d0, d, pl. split; [reflexivity|].
  split; [exact Ha|]. split; [exact Hp|]. split; [exact F1|]. split; [exact F2|]. split; [exact F3|exact G].
Qed.

Lemma daemon_system_witness :
  flags_ok sample_flags /\ exists d0 d pl, sample_start = Some d0 /\ dsteps (fun _ => f64_one) d0 d /\ d.(dm_plane) = Some pl /\
    length (q_waiting (sy_q pl.(pl_queue))) = 1%nat /\ 0 <= q_inflight (sy_q pl.(pl_queue)) <= 2.
Proof.
  split; [done|]. destruct sample_states as (d0 & d & pl & Hs & Ha & Hp & _ & _ & F & _). pose proof (admitted_reached d0 d Hs Ha) as Hr.
  destruct (daemon_system (fun _ => f64_one) sample_flags sample_facts "generic" "" None None (inr [sample_identity])
    (fun _ => {| in_mono := second; in_wall := 101 * second; in_health := sample_health true 1 500 (101 * second); in_access := true |})
    (100 * second) ltac:(done)) as (d0' & Hs' & _ & H). unfold sample_start in Hs. rewrite Hs in Hs'. injection Hs' as <-.
  exists d0, d, pl. split; [exact Hs|]. split; [exact Hr|]. split; [exact Hp|]. split; [exact F|].
  destruct (H d Hr) as (_ & _ & Hq). exact (proj1 (proj2 (proj2 (proj2 (Hq pl Hp))))).
Defined.

Lemma router_mirrors_daemon_witness :
  let b := {| be_ID := "a"; be_Vendor := ""; be_SidecarURL := "http://a"; be_SnapshotURL := "http://a" |}%string in
  exists d0 d st prevs', sample_start = Some d0 /\ dsteps (fun _ => f64_one) d0 d /\ let r := sample_reads in
    @poll_pages control_free b (daemon_pages noon zero_clock nil_value r r r r r d d d d d 9) ∅ = Some (prevs', (st, None)) /\
    bs_QueueDepth st = 1 /\ bs_QueueMax st = 4 /\ bs_CacheProvider st = "explicit"%string.
Proof.
  intros b. destruct sample_states as (d0 & d & pl & Hs & Ha & Hp & F1 & F2 & F3 & G). pose proof (admitted_reached d0 d Hs Ha) as Hr.
  unfold told_of in G. cbv zeta in G. injection G as G1 G2 _. unfold sample_start in Hs. unfold sample_pages in F1. cbv zeta in F1, F2.
  destruct (@router_mirrors_daemon insertion_slice_sort control_free noon zero_clock nil_value (fun _ => f64_one) sample_flags sample_facts "generic" "" None None (inr [sample_identity])
    (fun _ => {| in_mono := second; in_wall := 101 * second; in_health := sample_health true 1 500 (101 * second); in_access := true |})
    (100 * second) d0 sample_reads sample_reads sample_reads sample_reads sample_reads d d d d d pl pl b ∅ 9 ltac:(done) ltac:(cbn; lia) ltac:(cbn; lia)
    Hs ltac:(repeat (apply Forall_cons; split; [exact Hr|]); constructor) Hp Hp (or_introl eq_refl) F1 F2) as (rr & hs & qs & rate & prevs' & _ & _ & Q1 & _ & Q3 & H & _).
  eexists d0, d, _, prevs'. split; [exact Hs|]. split; [exact Hr|]. cbv zeta. rewrite H, G2. split; [change (@polls control_free b) with true; reflexivity|]. unfold mirrored.
  destruct (host_view hs) as [[life st] cap]. cbn [bs_QueueDepth bs_QueueMax bs_CacheProvider]. rewrite Q1, Q3, F3, G1. by split_and!.
Defined.
