(* ===== verification/RouterMain.v ===== *)
(** * The router command ([cmd/router/main.go])

    From the flags to the registry, the policy, the gateway and the emitter, and the mux over them.  A run is the
    sequence of what the process does: refreshes of the registry's loop and requests, during which the loop goes on.
    The flag package, the HTTP server and the signals are not modelled. *)

From Stdlib Require Import Floats.SpecFloat.
From stdpp Require Import base tactics numbers option list strings gmap.
From S2P Require Import Prelude GoFloat GoTime GoText GoHttp Json Unmarshal JsonPrint Publish Routing CacheAware Registry GetJson Gateway Emitter Ordering.
Open Scope go_scope.

(** ** The flags *)

Record RouterFlags := {
  rof_listen : string;
  rof_backendsJSON : string;
  rof_policyName : string;
  rof_collectorURL : string;
  rof_snapInterval : Z;
  rof_maxRetries : Z;
}.

Definition DefaultRouterFlags : RouterFlags :=
  {| rof_listen := "127.0.0.1:9090"; rof_backendsJSON := ""; rof_policyName := "least_queued"; rof_collectorURL := "";
     rof_snapInterval := 500 * millisecond; rof_maxRetries := 1 |}.

(** ** [-backends] *)

Definition zero_backend : Backend := {| be_ID := ""; be_Vendor := ""; be_SidecarURL := ""; be_SnapshotURL := "" |}.

(** The decoder of one field, over what the struct holds. *)
Definition into_part {A B} (get : A -> B) (set : B -> A -> A) (d : into B) : into A := fun v a =>
  let '(x, ok) := d v (get a) in (set x a, ok).

Definition into_backend : into Backend := into_struct (fun k =>
  if names "id" k then Some (into_part be_ID (fun x b =>
    {| be_ID := x; be_Vendor := b.(be_Vendor); be_SidecarURL := b.(be_SidecarURL); be_SnapshotURL := b.(be_SnapshotURL) |}) into_string)
  else if names "vendor" k then Some (into_part be_Vendor (fun x b =>
    {| be_ID := b.(be_ID); be_Vendor := x; be_SidecarURL := b.(be_SidecarURL); be_SnapshotURL := b.(be_SnapshotURL) |}) into_string)
  else if names "sidecar_url" k then Some (into_part be_SidecarURL (fun x b =>
    {| be_ID := b.(be_ID); be_Vendor := b.(be_Vendor); be_SidecarURL := x; be_SnapshotURL := b.(be_SnapshotURL) |}) into_string)
  else if names "snapshot_url" k then Some (into_part be_SnapshotURL (fun x b =>
    {| be_ID := b.(be_ID); be_Vendor := b.(be_Vendor); be_SidecarURL := b.(be_SidecarURL); be_SnapshotURL := x |}) into_string)
  else None).

(** [None] is the error of the decoding. *)
Definition parse_backends (text : string) : option (list Backend) :=
  if String.eqb text "" then Some []
  else shown <$> checked (Unmarshal (into_slice zero_backend (fun _ => into_backend)) text no_slice).

(** ** The start *)

Record Router := {
  ro_reg : Registry;
  ro_policy : AnyPolicy;
  ro_gw : Gateway;
  ro_emitter : Emitter;
}.

(** The process ends: a fatal log line, or the panic of a ticker whose interval is not positive. *)
Inductive StartError := ParseBackends | NoBackends | NonPositiveInterval.

Definition router_emitter (f : RouterFlags) : EmitterConfig :=
  let c := DefaultEmitterConfig in
  {| ec_Enabled := negb (String.eqb f.(rof_collectorURL) ""); ec_CollectorURL := f.(rof_collectorURL);
     ec_BatchSize := c.(ec_BatchSize); ec_FlushInterval := c.(ec_FlushInterval); ec_QueueCapacity := c.(ec_QueueCapacity);
     ec_RequestTimeout := c.(ec_RequestTimeout); ec_LocalFallbackPath := c.(ec_LocalFallbackPath); ec_Source := "router" |}.

Definition router_start (f : RouterFlags) (now : Z) : StartError + Router :=
  match parse_backends f.(rof_backendsJSON) with
  | None => inl ParseBackends
  | Some [] => inl NoBackends
  | Some backends =>
      let reg := NewRegistry backends f.(rof_snapInterval) now in
      if f.(rof_snapInterval) <=? 0 then inl NonPositiveInterval
      else inr {| ro_reg := reg; ro_policy := PolicyByNameWithLocator f.(rof_policyName) (Some (LookupPrefixTokens reg));
                  ro_gw := NewGateway true f.(rof_maxRetries); ro_emitter := Emitter.New (router_emitter f) false |}
  end.

(** The policy's locator is the registry itself, whatever it holds by now. *)
Definition with_locator (reg : Registry) (p : AnyPolicy) : AnyPolicy :=
  match p with
  | AnyCacheAware c => AnyCacheAware {| cap_cfg := c.(cap_cfg); cap_locator := Some (LookupPrefixTokens reg) |}
  | AnyAffinity _ => AnyAffinity {| aff_locator := Some (LookupPrefixTokens reg) |}
  | p => p
  end.

(** ** A run *)

(** A refresh: the pages of the backends, the order the polls end in, and the clock. *)
Record RefreshInput := { ri_pages : nat -> Pages; ri_order : list nat; ri_now : Z }.

Definition no_answers : Answers :=
  {| an_readyz := None; an_status := None; an_queue := None; an_runtime := None; an_cache := None; an_now := 0 |}.

Section refresh.
  Context {url_parser : UrlParse}.

(** What the goroutines of the polls decode, backend by backend. *)
Fixpoint answers_all (pages : nat -> Pages) (k : nat) (bs : list Backend) : option (list Answers) :=
  match bs with
  | [] => Some []
  | b :: bs => a ← answers_of b (pages k); rest ← answers_all pages (S k) bs; Some (a :: rest)
  end.

(** [refresh] over the texts.  A panic in one of its goroutines is not recovered and ends the process: [None]. *)
Definition refresh_pages (i : RefreshInput) (reg : Registry) : option Registry :=
  all ← answers_all i.(ri_pages) 0 reg.(rg_backends);
  Some (refresh (fun k => default no_answers (all !! k)) i.(ri_order) i.(ri_now) reg).

Fixpoint refreshes (l : list RefreshInput) (reg : Registry) : option Registry :=
  match l with
  | [] => Some reg
  | i :: l => reg ← refresh_pages i reg; refreshes l reg
  end.
End refresh.

(** A client's request: what the sidecars answer to each attempt, the refreshes after each, and the clock in each. *)
Record RouterRequest := {
  rq_path : string;
  rq_client : ClientRequest;
  rq_flushable : bool;
  rq_up : nat -> string -> Upstream;
  rq_between : nat -> list RefreshInput;
  rq_clock : nat -> Z * Z * Z;
}.

(** The refreshes before attempt [n]. *)
Definition refreshed_by (q : RouterRequest) (n : nat) : list RefreshInput := concat (map q.(rq_between) (seq 0 n)).

Definition request_env `{!UrlParse} (reg : Registry) (q : RouterRequest) (k : nat) : AttemptEnv :=
  let '(start, decided, failed) := q.(rq_clock) k in
  {| ae_up := q.(rq_up) k; ae_next := (default reg (refreshes (refreshed_by q (S k)) reg)).(rg_snap);
     ae_start := start; ae_decided := decided; ae_failed := failed |}.

Inductive RouterReply :=
  | RChat (effects : list Effect) (e : Ending)
  | RAlive
  | RBackends (snap : BackendSnapshot)
  | RNotFound.

Section run.
  Context `{!SliceSort} {url_parser : UrlParse} (sha256 : string -> list Z).

(** The mux.  [None] is the end of the process in a refresh, or a panic of the policy; other panics of a handler are
    recovered by [net/http]. *)
Definition router_serve (q : RouterRequest) (rt : Router) : option (Router * RouterReply) :=
  let reg := rt.(ro_reg) in
  if String.eqb q.(rq_path) "/v1/chat/completions" then
    later ← refreshes (refreshed_by q (Z.to_nat (rt.(ro_gw).(gw_maxRetries) + 1))) reg;
    '(p, t, e) ← ChatCompletions sha256 rt.(ro_gw) reg (with_locator reg rt.(ro_policy)) q.(rq_client) q.(rq_flushable)
                   (request_env reg q);
    Some ({| ro_reg := later; ro_policy := p; ro_gw := rt.(ro_gw); ro_emitter := rt.(ro_emitter) |}, RChat t e)
  else Some (rt,
    if String.eqb q.(rq_path) "/healthz" then RAlive
    else if String.eqb q.(rq_path) "/v1/backends" then RBackends reg.(rg_snap)
    else RNotFound).

Inductive router_op := OpRefresh (i : RefreshInput) | OpRequest (q : RouterRequest).

Definition router_step (op : router_op) (rt : Router) : option (Router * list RouterReply) :=
  match op with
  | OpRefresh i =>
      reg ← refresh_pages i rt.(ro_reg);
      Some ({| ro_reg := reg; ro_policy := rt.(ro_policy); ro_gw := rt.(ro_gw); ro_emitter := rt.(ro_emitter) |}, [])
  | OpRequest q => '(rt, reply) ← router_serve q rt; Some (rt, [reply])
  end.

Fixpoint router_run (ops : list router_op) (rt : Router) : option (Router * list RouterReply) :=
  match ops with
  | [] => Some (rt, [])
  | op :: ops =>
      '(rt, out) ← router_step op rt;
      '(rt, outs) ← router_run ops rt;
      Some (rt, out ++ outs)
  end.
End run.

(** ** The bodies of [/healthz] and [/v1/backends] *)

Section bodies.
  Context (time_text : Z -> string) (hollow : string -> json).

Definition backend_json (b : Backend) : option json :=
  object [("id", jstr b.(be_ID)); ("vendor", jstr b.(be_Vendor)); ("sidecar_url", jstr b.(be_SidecarURL));
    ("snapshot_url", jstr b.(be_SnapshotURL))]%string.

Definition backend_state_json (b : BackendState) : option json :=
  object [("backend", backend_json b.(bs_Backend)); ("reachable", jbool b.(bs_Reachable));
    ("lifecycle_state", jstr b.(bs_LifecycleState)); ("control_plane_ready", jbool b.(bs_ControlPlaneReady));
    ("stability_score", jfloat b.(bs_StabilityScore)); ("host_capacity_hint", jfloat b.(bs_HostCapacityHint));
    ("queue_depth", jint b.(bs_QueueDepth)); ("queue_inflight", jint b.(bs_QueueInflight)); ("queue_max", jint b.(bs_QueueMax));
    ("runtime_healthy", jbool b.(bs_RuntimeHealthy)); ("runtime_waiting", jfloat b.(bs_RuntimeWaiting));
    ("runtime_running", jfloat b.(bs_RuntimeRunning)); ("kv_cache_util", jfloat b.(bs_KVCacheUtil));
    ("snapshot_age_ms", jint b.(bs_SnapshotAgeMs)); ("gen_tokens_per_sec", jfloat b.(bs_GenTokensPerSec));
    ("service_rate_supported", jbool b.(bs_ServiceRateSupported));
    ("cache_observation_supported", jbool b.(bs_CacheObservationSupported));
    ("cache_match_supported", jbool b.(bs_CacheMatchSupported)); ("cache_ready", jbool b.(bs_CacheReady));
    ("cache_confidence", jfloat b.(bs_CacheConfidence)); ("cache_snapshot_age_ms", jint b.(bs_CacheSnapshotAgeMs));
    ("kv_headroom", jfloat b.(bs_KVHeadroom)); ("kv_headroom_supported", jbool b.(bs_KVHeadroomSupported));
    ("cache_event_sequence", jint b.(bs_CacheEventSequence)); ("cache_index_size", jint b.(bs_CacheIndexSize));
    ("cache_reset_epoch", jint b.(bs_CacheResetEpoch)); ("cache_provider", jstr b.(bs_CacheProvider))]%string.

Definition snapshot_json (s : BackendSnapshot) : option json :=
  object [("backends", jlist hollow "backends" backend_state_json s.(sn_Backends)); ("timestamp", jtime time_text s.(sn_Timestamp))]%string.

(** The status and the body; a chat completion writes its own, and a snapshot that cannot be encoded leaves an empty
    body. *)
Definition router_body (r : RouterReply) : option (Z * string) :=
  match r with
  | RChat _ _ => None
  | RAlive => Some (200, ("{" +:+ dquoted "status" +:+ ":" +:+ dquoted "alive" +:+ "}")%stdpp)
  | RBackends s =>
      Some (200, match snapshot_json s with Some v => String.append (marshal v) (String lf "") | None => ""%string end)
  | RNotFound => Some (404, String.append "404 page not found" (String lf ""))
  end.
End bodies.

Definition sample_flag : string :=
  ("[{" +:+ dquoted "id" +:+ ":" +:+ dquoted "a" +:+ ", " +:+ dquoted "Sidecar_URL" +:+ ":" +:+ dquoted "http://a" +:+ ", "
   +:+ dquoted "weight" +:+ ":3}, null]")%stdpp.
Example parse1 : parse_backends sample_flag =
    Some [{| be_ID := "a"; be_Vendor := ""; be_SidecarURL := "http://a"; be_SnapshotURL := "" |}; zero_backend] /\
  map parse_backends [""; "null"; "{}"; "[1]"]%string = [Some []; Some []; None; None].
Proof. by vm_compute. Qed.
