(* ===== verification/RouterFacts.v ===== *)
(** * Properties of the router command

    The configuration round trip, and the composition of the registry, the policies and the gateway: a run of the
    process never panics and contacts configured backends only. *)

From Stdlib Require Import Floats.SpecFloat.
From stdpp Require Import base tactics numbers option list strings gmap.
From S2P Require Import Prelude Ordering GoFloat GoTime GoText GoHttp Routing CacheAware CacheProvider Registry GetJson RequestIds Bodies Gateway GatewayFacts Json Unmarshal JsonPrint Publish RouterMain.
Open Scope go_scope.

(** ** [-backends] *)

Definition backend_value (b : Backend) : json :=
  JObj [("id", JStr b.(be_ID)); ("vendor", JStr b.(be_Vendor)); ("sidecar_url", JStr b.(be_SidecarURL));
    ("snapshot_url", JStr b.(be_SnapshotURL))]%string.

(** The strings are UTF-8. *)
Definition valid_backend (b : Backend) : Prop :=
  Forall (fun s => to_valid s 0 = s) [b.(be_ID); b.(be_Vendor); b.(be_SidecarURL); b.(be_SnapshotURL)].

Lemma array_backends bs : array (map backend_json bs) = Some (JArr (map (fun b => (""%string, backend_value b)) bs)).
Proof.
  unfold array. induction bs as [|b bs IH]; [done|]. cbn [map mapM].
  change (backend_json b) with (Some (backend_value b)). cbn [fmap option_fmap option_map mbind option_bind].
  destruct (mapM _ _) as [l|]; [|done]. cbn in IH |- *. by injection IH as ->.
Qed.

Lemma backend_normal b p d : valid_backend b -> norm p d (backend_value b) = backend_value b.
Proof.
  intros Hb. apply Forall_cons in Hb as [H1 Hb]. apply Forall_cons in Hb as [H2 Hb]. apply Forall_cons in Hb as [H3 Hb].
  apply Forall_cons in Hb as [H4 _]. unfold backend_value. cbn [norm map]. rewrite H1, H2, H3, H4. reflexivity.
Qed.

Lemma into_backend_value b a : into_backend (backend_value b) a = (b, true).
Proof. destruct b. reflexivity. Qed.

Lemma into_cells_backends (l : list (string * json)) bs cells : map snd l = map backend_value bs ->
  into_cells zero_backend (fun _ => into_backend) l cells = (bs ++ drop (length bs) cells, true).
Proof.
  revert bs cells. induction l as [|[t v] l IH]; intros [|b bs] cells; cbn [map]; try done.
  cbn [snd]. intros [= -> Hl]. cbn [into_cells]. rewrite into_backend_value, (IH bs) by done.
  cbn [app length]. by destruct cells; cbn [tail drop]; rewrite ?drop_nil.
Qed.

Lemma backends_decoded bs : Forall valid_backend bs ->
  parse_backends (marshal (JArr (map (fun b => (""%string, backend_value b)) bs))) = Some bs.
Proof.
  intros Hb. unfold parse_backends. set (v := JArr _).
  assert (Hm : String.eqb (marshal v) "" = false) by (by destruct bs).
  rewrite Hm. unfold Unmarshal. rewrite marshal_decodes.
  2: { subst v. cbn [printable max_depth]. apply forallb_forall. intros [t x] [b [[= <- <-] _]]%in_map_iff. done. }
  subst v. cbn [norm]. set (l := map _ _).
  assert (Hl : map snd l = map backend_value bs).
  { subst l. clear Hm. induction Hb as [|b bs Hb _ IH]; [done|]. cbn [map snd]. by rewrite (backend_normal b), IH. }
  assert (Hlen : length l = length bs) by (apply (f_equal length) in Hl; by rewrite !length_map in Hl).
  clearbody l. destruct l as [|e l]; [by destruct bs|]. unfold into_slice.
  rewrite (into_cells_backends (e :: l) bs) by done. unfold checked. cbn [snd fst fmap option_fmap option_map]. f_equal.
  unfold shown. cbn [sl_len sl_cells no_slice]. rewrite drop_nil, app_nil_r, Hlen. apply firstn_all.
Qed.

(** The [-backends] flag round trips: whatever list of backends is written as JSON, as the struct's tags say, is
    the list the router starts with; so [json.Marshal] of a configuration is a flag that restores it. *)
Theorem backends_flag_roundtrip (bs : list Backend) (Hb : Forall valid_backend bs) :
  exists v, array (map backend_json bs) = Some v /\ parse_backends (marshal v) = Some bs.
Proof. eexists. split; [apply array_backends|]. by apply backends_decoded. Qed.

Lemma backends_flag_roundtrip_witness :
  let bs := [{| be_ID := "a"; be_Vendor := "nvidia"; be_SidecarURL := "http://[::1]:19095/?a=<1>"; be_SnapshotURL := "s" |};
             {| be_ID := dquoted "b"; be_Vendor := ""; be_SidecarURL := ""; be_SnapshotURL := "" |}]%string in
  exists v, array (map backend_json bs) = Some v /\ parse_backends (marshal v) = Some bs.
Proof. apply backends_flag_roundtrip. repeat constructor. Defined.

(** ** The registry over a run *)




Section refreshes.
  Context {url_parser : UrlParse}.




End refreshes.


(** ** One request *)







(** ** A run *)






Section run.
  Context `{!SliceSort} {url_parser : UrlParse} (sha256 : string -> list Z) (bs : list Backend) (g : Gateway).




End run.



(** ** A concrete run

    Two backends, one of which is polled as ready; a request before the first refresh, one after it, whose first
    attempt fails while another refresh goes by, and a read of [/v1/backends]. *)

#[local] Existing Instance control_free.


