(* ===== verification/StatusDoc.v ===== *)
(** * A host's status as its reader decodes it ([json.NewDecoder(body).Decode(&hs)] into [core.HostStatus])

    The decoders of the structs of [internal/core/model.go], from their field tags, every field of which can make the
    decoding fail.  Of the values they leave, the documents keep those that the polling collector reads.  The text of
    a time is read by a parameter, given the decoded string (Go reads the raw text, in which an escape is an
    error). *)

From Stdlib Require Import Floats.SpecFloat.
From stdpp Require Import base tactics numbers option list strings.
From S2P Require Import Prelude GoFloat GoTime GoStrconv Json Unmarshal Model.
Open Scope go_scope.

(** ** Structs by their tags *)

(** The field a key names. *)
Definition tagged {A} (l : list (string * into A)) (k : string) : option (into A) :=
  snd <$> List.find (fun f => names f.1 k) l.
Definition fields {A} (l : list (string * into A)) : into A := into_struct (tagged l).

(** A field of the document. *)
Definition sets {A B} (get : A -> B) (set : B -> A -> A) (d : into B) : into A :=
  fun v a => let '(b, ok) := d v (get a) in (set b a, ok).

(** A field nobody reads: only its type errors matter. *)
Definition unread {A X} (zero : X) (d : into X) : into A := fun v a => (a, (d v zero).2).

Definition into_uint : into Z := fun v a =>
  match v with
  | JNum t => match ParseUint t with Some n => (n, true) | None => (a, false) end
  | JNull => (a, true)
  | _ => (a, false)
  end.

(** The values of a map, none of which is kept. *)
Definition into_values {X} (zero : X) (d : into X) : into unit := fun v a =>
  match v with
  | JObj l => (a, forallb (fun '(_, x) => (d x zero).2) l)
  | JNull => (a, true)
  | _ => (a, false)
  end.

Definition into_Field {A} (d : into A) : into (Field A) :=
  fields [("value", sets Value (fun x f => mkField x f.(Supported)) d);
    ("supported", sets Supported (fun b f => mkField f.(Value) b) into_bool)]%string.

Definition into_strings : into (slice string) := into_slice ""%string (fun _ => into_string).

(** ** The documents *)

Definition HealthDoc : Type := Z * Field Z.

(** Backend and device; the newest sample's time and free memory; the state; the failures in a row; the score; the
    capacity and what it means. *)
Record DeviceDoc := {
  dd_Identity : string * string;
  dd_Health : HealthDoc;
  dd_LifecycleState : string;
  dd_Failures : Z;
  dd_Score : f64;
  dd_Capacity : f64 * string;
}.

Record HostDoc := { hd_Hostname : string; hd_Vendor : string; hd_Devices : slice DeviceDoc }.

Definition zero_device : DeviceDoc :=
  {| dd_Identity := ("", ""); dd_Health := (time_zero, Unsup 0); dd_LifecycleState := ""; dd_Failures := 0;
     dd_Score := f64_zero; dd_Capacity := (f64_zero, "") |}.
Definition zero_host : HostDoc := {| hd_Hostname := ""; hd_Vendor := ""; hd_Devices := no_slice |}.

(** ** The decoders *)

Section decoders.
  Context (parse_time : string -> option Z).

(** [Time.UnmarshalJSON] *)
Definition into_time : into Z := fun v t =>
  match v with
  | JNull => (t, true)
  | JStr s => match parse_time s with Some t => (t, true) | None => (time_zero, false) end
  | _ => (t, false)
  end.

Definition unread_string {A} : into A := unread ""%string into_string.
Definition unread_bool {A} : into A := unread false into_bool.
Definition unread_int {A} : into A := unread 0 into_int.
Definition unread_float {A} : into A := unread f64_zero into_float.
Definition unread_time {A} : into A := unread time_zero into_time.
Definition unread_strings {A} : into A := unread no_slice into_strings.
Definition unread_floats {A} : into A := unread tt (into_values f64_zero into_float).
Definition unread_ffield {A} : into A := unread (Unsup f64_zero) (into_Field into_float).
Definition unread_ifield {A} : into A := unread (Unsup 0) (into_Field into_int).
Definition unread_ufield {A} : into A := unread (Unsup 0) (into_Field into_uint).

Definition into_Identity : into (string * string) :=
  fields [("sidecar_instance_id", unread_string); ("hostname", unread_string); ("backend_id", at_fst into_string);
    ("vendor", unread_string); ("device_id", at_snd into_string); ("gpu_model", unread_string); ("gpu_uuid", unread_string);
    ("driver_version", unread_string); ("runtime_version", unread_string); ("boot_id", unread_string);
    ("sidecar_version", unread_string)]%string.

Definition into_ProbeFailure : into unit :=
  fields [("class", unread_string); ("reason", unread_string); ("detail", unread_string)]%string.

Definition into_Health : into HealthDoc :=
  fields [("timestamp", at_fst into_time); ("heartbeat_ok", unread_bool); ("gpu_visible", unread_bool);
    ("gpu_accessible", unread_bool); ("utilization_gpu_pct", unread_ffield); ("mem_used_bytes", unread_ufield);
    ("mem_free_bytes", at_snd (into_Field into_uint)); ("mem_total_bytes", unread_ufield); ("temperature_c", unread_ffield);
    ("power_watts", unread_ffield); ("power_limit_watts", unread_ffield); ("sm_clock_mhz", unread_ffield);
    ("mem_clock_mhz", unread_ffield); ("compute_proc_count", unread_ifield); ("effective_free_mem_ratio", unread_float);
    ("probe_latency_ms", unread_float); ("probe_failure", unread tt into_ProbeFailure);
    ("ecc_uncorrectable_total", unread_ufield); ("ecc_correctable_total", unread_ufield);
    ("nvidia_xid_errors", unread (Unsup no_slice) (into_Field (into_slice 0 (fun _ => into_int))));
    ("amd_ras_uncorrectable", unread_ufield); ("amd_ras_correctable", unread_ufield); ("unsupported_fields", unread_strings)]%string.

Definition into_LifecycleInfo : into unit :=
  fields [("state", unread_string); ("reason_codes", unread_strings); ("consecutive_soft_failures", unread_int);
    ("offline_failure_threshold", unread_int); ("healthy_streak", unread_int); ("recovery_streak_required", unread_int);
    ("hard_offline", unread_bool); ("recovery_latched", unread_bool); ("recovery_healthy_streak", unread_int)]%string.

Definition into_Reliability : into Z :=
  fields [("last_successful_probe", unread None (into_ptr time_zero into_time));
    ("last_failed_probe", unread None (into_ptr time_zero into_time)); ("consecutive_probe_failures", into_int);
    ("sidecar_start_count", unread_int); ("worker_starts_observed", unread_int); ("worker_stops_observed", unread_int);
    ("disconnect_count", unread_int); ("rejoin_count", unread_int); ("last_recovery_duration_ms", unread_float);
    ("recent_availability_ratio", unread_float); ("recent_failure_rate", unread_float); ("probe_latency_p50_ms", unread_float);
    ("probe_latency_p95_ms", unread_float); ("throughput_variance", unread_ffield)]%string.

Definition into_StabilityScore : into f64 :=
  fields [("score", into_float); ("components", unread_floats); ("updated_at", unread_time)]%string.

Definition into_RuntimeServingCapacity : into unit :=
  fields [("source", unread_string); ("queue_depth", unread_ifield); ("kv_cache_utilization", unread_ffield);
    ("max_admissible_batch", unread_ifield); ("active_sequences", unread_ifield); ("ttft_ms", unread_ffield);
    ("tpot_ms", unread_ffield)]%string.

Definition into_CapacityHint : into (f64 * string) :=
  fields [("host_capacity_hint", at_fst into_float); ("capacity_semantics", at_snd into_string); ("components", unread_floats);
    ("runtime_serving_capacity_supported", unread_bool);
    ("runtime_serving_capacity", unread None (into_ptr tt into_RuntimeServingCapacity))]%string.

Definition into_DeviceStatus : into DeviceDoc :=
  let doc i h s f c k := {| dd_Identity := i; dd_Health := h; dd_LifecycleState := s; dd_Failures := f; dd_Score := c; dd_Capacity := k |} in
  fields [
    ("identity", sets dd_Identity (fun i '(Build_DeviceDoc _ h s f c k) => doc i h s f c k) into_Identity);
    ("health", sets dd_Health (fun h '(Build_DeviceDoc i _ s f c k) => doc i h s f c k) into_Health);
    ("lifecycle_state", sets dd_LifecycleState (fun s '(Build_DeviceDoc i h _ f c k) => doc i h s f c k) into_string);
    ("lifecycle", unread tt into_LifecycleInfo);
    ("reliability", sets dd_Failures (fun f '(Build_DeviceDoc i h s _ c k) => doc i h s f c k) into_Reliability);
    ("stability", sets dd_Score (fun c '(Build_DeviceDoc i h s f _ k) => doc i h s f c k) into_StabilityScore);
    ("capacity", sets dd_Capacity (fun k '(Build_DeviceDoc i h s f c _) => doc i h s f c k) into_CapacityHint)]%string.

Definition into_HostStatus : into HostDoc :=
  let doc h v d := {| hd_Hostname := h; hd_Vendor := v; hd_Devices := d |} in
  fields [("sidecar_instance_id", unread_string);
    ("hostname", sets hd_Hostname (fun h '(Build_HostDoc _ v d) => doc h v d) into_string);
    ("vendor", sets hd_Vendor (fun v '(Build_HostDoc h _ d) => doc h v d) into_string);
    ("sidecar_version", unread_string); ("boot_id", unread_string); ("timestamp", unread_time); ("uptime_seconds", unread_float);
    ("devices", sets hd_Devices (fun d '(Build_HostDoc h v _) => doc h v d) (into_slice zero_device (fun _ => into_DeviceStatus)))]%string.

(** [None] is the error; what follows the first value is not looked at. *)
Definition decode_status (body : string) : option HostDoc := checked (Decode into_HostStatus body zero_host).
End decoders.

Example status1 :
  let f name v := (dquoted name +:+ ":" +:+ v)%stdpp in
  let q := dquoted in
  let dev := ("{" +:+ f "identity" ("{" +:+ f "device_id" (q "3") +:+ "}") +:+ "," +:+
    f "health" ("{" +:+ f "timestamp" (q "7") +:+ "," +:+ f "mem_free_bytes" ("{" +:+ f "value" "5" +:+ "}") +:+ "}") +:+ "}")%stdpp in
  let host extra := ("{" +:+ f "Hostname" (q "h") +:+ "," +:+ f "devices" ("[" +:+ dev +:+ "]") +:+ extra +:+ "} tail")%stdpp in
  (fun d => (hd_Hostname d, map (fun x => (x.(dd_Identity), x.(dd_Health))) (shown (hd_Devices d)))) <$> decode_status atoi (host "") =
    Some ("h"%string, [((""%string, "3"%string), (7, mkField 5 false))]) /\
  decode_status atoi (host ("," +:+ f "uptime_seconds" (q "x")))%stdpp = None /\
  decode_status atoi (host ("," +:+ f "boot_id" "null" +:+ "," +:+ f "more" "[1]"))%stdpp <> None.
Proof. by vm_compute. Qed.
