(* ===== verification/Collector.v ===== *)
(** * The polling collector ([cmd/collector/main.go])

    One normalized view of every device of every polled sidecar.  What a sidecar answers is an input: the
    error of the request, or the text of the body.  What it prints is a text. *)

From Stdlib Require Import Floats.SpecFloat Strings.Ascii.
From stdpp Require Import base tactics numbers option list sets strings.
From S2P Require Import Prelude Ordering GoFloat GoTime GoText GoStrconv GoHttp Exec Json JsonPrint Unmarshal Model Publish StatusDoc.
Open Scope go_scope.

(** The vendor and the state are texts: [""] in the view of a host that did not answer. *)
Record BackendView := {
  bv_BackendID : string;
  bv_Hostname : string;
  bv_Vendor : string;
  bv_DeviceID : string;
  bv_LifecycleState : string;
  bv_StabilityScore : f64;
  bv_HostCapacityHint : f64;
  bv_CapacitySemantics : string;
  bv_LastHeartbeatAgeMs : Z;
  bv_RecentFailureCount : Z;
  bv_Recovering : bool;
  bv_Reachable : bool;
  bv_Stale : bool;
  bv_MemFreeBytes : Z;
  bv_Error : string;
}.

Definition staleThresholdMs : Z := 10000.

(** ** Targets *)

Record target := { tg_name : string; tg_url : string }.

(** [name=url,...]: a pair without "=" is skipped, trailing slashes are dropped. *)
Definition target_of (pair : string) : option target :=
  match cut_at (fun c => Ascii.eqb c "=") pair with
  | Some (name, String _ url) => Some {| tg_name := name; tg_url := trim_right_of (fun c => Ascii.eqb c "/") url |}
  | _ => None
  end.
Definition parse_targets (csv : string) : list target := omap target_of (split_on "," csv).

(** ** Views *)

(** The zero view with a name, a host and an error. *)
Definition bare_view (id host : string) (reachable : bool) (err : string) : BackendView :=
  {| bv_BackendID := id; bv_Hostname := host; bv_Vendor := ""; bv_DeviceID := ""; bv_LifecycleState := "";
     bv_StabilityScore := f64_zero; bv_HostCapacityHint := f64_zero; bv_CapacitySemantics := "";
     bv_LastHeartbeatAgeMs := 0; bv_RecentFailureCount := 0; bv_Recovering := false; bv_Reachable := reachable;
     bv_Stale := false; bv_MemFreeBytes := 0; bv_Error := err |}.

(** The age of a device's newest sample. *)
Definition view_age (now t : Z) : Z := let age := dur_milliseconds (time_sub now t) in if age <? 0 then 0 else age.

Definition view_of (host vendor : string) (now : Z) (d : DeviceDoc) : BackendView :=
  let age := view_age now d.(dd_Health).1 in
  let free := d.(dd_Health).2 in
  {| bv_BackendID := d.(dd_Identity).1; bv_Hostname := host; bv_Vendor := vendor; bv_DeviceID := d.(dd_Identity).2;
     bv_LifecycleState := d.(dd_LifecycleState); bv_StabilityScore := d.(dd_Score); bv_HostCapacityHint := d.(dd_Capacity).1;
     bv_CapacitySemantics := d.(dd_Capacity).2; bv_LastHeartbeatAgeMs := age; bv_RecentFailureCount := d.(dd_Failures);
     bv_Recovering := String.eqb d.(dd_LifecycleState) (LifecycleState_string StateRecovering); bv_Reachable := true;
     bv_Stale := staleThresholdMs <? age; bv_MemFreeBytes := if free.(Supported) then free.(Value) else 0; bv_Error := "" |}.

Definition viewsFromStatus (name : string) (hs : HostDoc) (now : Z) : list BackendView :=
  match map (view_of hs.(hd_Hostname) hs.(hd_Vendor) now) (shown hs.(hd_Devices)) with
  | [] => [bare_view name hs.(hd_Hostname) true "no devices"]
  | views => views
  end.

(** The views from what the sidecar answered: [inl] is the text of the request's error, [inr] what could be read of the
    body.  The text of the decoder's error is a parameter. *)
Definition views_from (parse_time : string -> option Z) (decode_error : string -> string) (name : string)
    (answer : string + string) (now : Z) : list BackendView :=
  match answer with
  | inl e => [bare_view name name false e]
  | inr body =>
      match decode_status parse_time body with
      | Some hs => viewsFromStatus name hs now
      | None => [bare_view name name false (decode_error body)]
      end
  end.

Definition status_url (t : target) : string := (t.(tg_url) +:+ "/v1/status")%stdpp.

(** [None] is the panic of [client.Do] on a nil request. *)
Definition pollOne `{!UrlParse} (parse_time : string -> option Z) (decode_error : string -> string) (t : target)
    (answer : string + string) (now : Z) : option (list BackendView) :=
  with_request (status_url t) (views_from parse_time decode_error t.(tg_name) answer now).

(** ** One round *)

Definition view_less (a b : BackendView) : bool :=
  if negb (String.eqb a.(bv_Hostname) b.(bv_Hostname)) then string_ltb a.(bv_Hostname) b.(bv_Hostname)
  else string_ltb a.(bv_DeviceID) b.(bv_DeviceID).

(** A target, what it answered and the clock at the end of its poll. *)
Record Fetched := { ft_target : target; ft_answer : string + string; ft_now : Z }.

Section poll.
  Context `{!SliceSort} {url_parser : UrlParse} (parse_time : string -> option Z) (decode_error : string -> string).

(** [arrivals]: the targets in the order in which their goroutines took the lock.  A panic in one of them is not
    recovered and ends the process: [None]. *)
Definition poll (arrivals : list Fetched) : option (list BackendView) :=
  views ← mapM (fun a => pollOne parse_time decode_error a.(ft_target) a.(ft_answer) a.(ft_now)) arrivals;
  Some (slice_sort BackendView view_less (mjoin views)).
End poll.

(** The name in the table; "…" has three bytes. *)
Definition truncate (s : string) (n : Z) : string :=
  if slength s <=? n then s else (stake (n - 1) s +:+ bytes_of [226; 128; 166]%nat)%stdpp.

(** ** What is printed *)

(** [utf8.RuneCountInString]: a byte that starts no valid rune counts as one. *)
Fixpoint rune_count (s : string) (copy : nat) : nat :=
  match s with
  | EmptyString => 0
  | String _ s' => match copy with S k => rune_count s' k | O => S (rune_count s' (pred (rune_width s))) end
  end.

(** [%-ns] and [%ns] *)
Definition pad_right (n : nat) (s : string) : string := (s +:+ blanks (n - rune_count s 0))%stdpp.
Definition pad_left (n : nat) (s : string) : string := (blanks (n - rune_count s 0) +:+ s)%stdpp.

Definition columns (l : list string) : string := (String.concat " " l +:+ String lf "")%stdpp.
Definition table_row (v : BackendView) : string :=
  if negb v.(bv_Reachable) then
    (String.concat " " [pad_right 28 v.(bv_BackendID); pad_right 8 v.(bv_Vendor); pad_right 4 "-"; pad_right 11 "OFFLINE"] +:+
     "   UNREACHABLE: " +:+ v.(bv_Error) +:+ String lf "")%stdpp
  else columns [pad_right 28 (truncate v.(bv_BackendID) 28); pad_right 8 v.(bv_Vendor); pad_right 4 v.(bv_DeviceID);
    pad_right 11 v.(bv_LifecycleState); pad_left 7 (FormatFixed 3 v.(bv_StabilityScore));
    pad_left 7 (FormatFixed 3 v.(bv_HostCapacityHint)); pad_left 9 (itoa v.(bv_LastHeartbeatAgeMs));
    pad_left 6 (itoa v.(bv_RecentFailureCount));
    pad_left 6 (FormatFixed 1 (f64_div (f64_of_Z v.(bv_MemFreeBytes)) (f64_of_Z 1000000000)))].
Definition printTable (views : list BackendView) : string :=
  (columns [pad_right 28 "BACKEND"; pad_right 8 "VENDOR"; pad_right 4 "DEV"; pad_right 11 "STATE"; pad_left 7 "STABIL";
    pad_left 7 "CAPHINT"; pad_left 9 "HB_AGE_MS"; pad_left 6 "FAILS"; pad_left 6 "FREEGB"] +:+
   String.concat "" (repeat "-" 100) +:+ String lf "" +:+ String.concat "" (map table_row views))%stdpp%string.

Definition view_json (v : BackendView) : option json :=
  object ([("backend_id", jstr v.(bv_BackendID)); ("hostname", jstr v.(bv_Hostname)); ("vendor", jstr v.(bv_Vendor));
    ("device_id", jstr v.(bv_DeviceID)); ("lifecycle_state", jstr v.(bv_LifecycleState));
    ("stability_score", jfloat v.(bv_StabilityScore)); ("host_capacity_hint", jfloat v.(bv_HostCapacityHint));
    ("capacity_semantics", jstr v.(bv_CapacitySemantics)); ("last_heartbeat_age_ms", jint v.(bv_LastHeartbeatAgeMs));
    ("recent_failure_count", jint v.(bv_RecentFailureCount)); ("recovering", jbool v.(bv_Recovering));
    ("reachable", jbool v.(bv_Reachable)); ("stale", jbool v.(bv_Stale)); ("mem_free_bytes", jint v.(bv_MemFreeBytes))]%string ++
    if String.eqb v.(bv_Error) "" then [] else [("error"%string, jstr v.(bv_Error))]).

(** No views is the nil slice, and what cannot be encoded prints nothing. *)
Definition render (format : string) (views : list BackendView) : string :=
  if String.eqb format "json" then
    match jlist (fun _ => JNull) "" view_json views with Some v => encode_indented v | None => ""%string end
  else printTable views.

(** ** Facts *)

Definition view_key (v : BackendView) : string * string := (v.(bv_Hostname), v.(bv_DeviceID)).

Definition key_less (a b : string * string) : bool :=
  if negb (String.eqb a.1 b.1) then string_ltb a.1 b.1 else string_ltb a.2 b.2.

Lemma view_less_key a b : view_less a b = key_less (view_key a) (view_key b).
Proof. done. Qed.

Lemma key_less_true a b : key_less a b = true <-> string_ltb a.1 b.1 = true \/ a.1 = b.1 /\ string_ltb a.2 b.2 = true.
Proof.
  unfold key_less. destruct (String.eqb_spec a.1 b.1) as [->|Hne]; cbn [negb].
  - rewrite string_ltb_irrefl. intuition discriminate.
  - intuition.
Qed.

Lemma key_less_false a b : key_less a b = false <->
  string_ltb a.1 b.1 = false /\ (a.1 = b.1 -> string_ltb a.2 b.2 = false).
Proof. rewrite <- not_true_iff_false, key_less_true, <- !not_true_iff_false. tauto. Qed.

#[export] Instance key_total : StrictTotal (fun _ => True) key_less.
Proof.
  split; [split|]; intros.
  - apply key_less_false. by rewrite !string_ltb_irrefl.
  - rewrite !key_less_true in *. destruct H2 as [H2|[E2 H2]], H3 as [H3|[E3 H3]].
    + left. by eapply string_ltb_trans.
    + left. by rewrite <- E3.
    + left. by rewrite E2.
    + right. split; [congruence|]. by eapply string_ltb_trans.
  - rewrite !key_less_false in *. destruct H2 as [H2 D2], H3 as [H3 D3]. split.
    + by eapply (sw_incomp (lt := string_ltb)).
    + intros E. assert (Exy : x.1 = y.1).
      { rewrite <- E in H3. apply string_ltb_total; [done|]. exact H3. }
      eapply (sw_incomp (lt := string_ltb) _ y.2); [done..|by apply D2|apply D3; congruence].
  - rewrite !key_less_false in *. destruct H1 as [H1 D1], H2 as [H2 D2]. destruct x as [x1 x2], y as [y1 y2]. cbn in *.
    assert (x1 = y1) as -> by by apply string_ltb_total. f_equal. apply string_ltb_total; auto.
Qed.

#[export] Instance view_weak : StrictWeak (fun _ => True) view_less.
Proof.
  destruct (st_weak (lt := key_less)) as [H1 H2 H3].
  split; intros; rewrite !view_less_key in *; [by apply H1|by eapply (H2 _ (view_key y))|by eapply (H3 _ (view_key y))].
Qed.

Lemma sorted_keys l : sorted_by view_less l -> sorted_by key_less (map view_key l).
Proof. induction 1 as [|x l Hs IH Hx]; [constructor|]. cbn. constructor; [done|]. by apply Forall_map. Qed.

Lemma view_age_nonneg now t : 0 <= view_age now t.
Proof. unfold view_age. destruct (Z.ltb_spec (dur_milliseconds (time_sub now t)) 0); lia. Qed.

Lemma stale_iff now t : staleThresholdMs < view_age now t <-> 10001 * millisecond <= now - t.
Proof.
  unfold view_age, dur_milliseconds, staleThresholdMs, millisecond.
  assert (H : 10001 * 1000000 <= time_sub now t <-> 10001 * 1000000 <= now - t)
    by (unfold time_sub, i64_min, i64_max; lia).
  rewrite <- H. set (x := time_sub now t). clearbody x.
  destruct (Z.ltb_spec (Z.quot x 1000000) 0) as [Hq|Hq]; Z.to_euclidean_division_equations; lia.
Qed.

Lemma unique_total (l : list BackendView) : NoDup (map view_key l) -> StrictTotal (fun v => v ∈ l) view_less.
Proof.
  intros Hn. split.
  - destruct view_weak as [H1 H2 H3]. split; intros; [by apply H1|by eapply (H2 x y z)|by eapply (H3 x y z)].
  - intros x y Hx Hy. rewrite !view_less_key. intros E1 E2.
    assert (Ek : view_key x = view_key y) by (by apply (st_total (lt := key_less))).
    clear -Hn Hx Hy Ek. induction l as [|z l IH]; [by apply elem_of_nil in Hx|]. cbn in Hn. apply NoDup_cons in Hn as [Hz Hn].
    apply elem_of_cons in Hx as [->|Hx], Hy as [->|Hy]; [done| | |by apply IH].
    + exfalso. apply Hz. rewrite Ek. change (map ?f ?l) with (f <$> l). by apply list_elem_of_fmap_2.
    + exfalso. apply Hz. rewrite <- Ek. change (map ?f ?l) with (f <$> l). by apply list_elem_of_fmap_2.
Qed.

(** Two sorted lists of the same views: the same hosts and devices in the same order, and the same list when no two
    views name the same device of the same host. *)
Lemma sorted_views l k : l ≡ₚ k -> sorted_by view_less l -> sorted_by view_less k ->
  map view_key l = map view_key k /\ (NoDup (map view_key l) -> l = k).
Proof.
  intros Hp Hl Hk. split.
  - apply (sorted_by_unique (fun _ => True) key_less); [by apply Forall_forall|by apply sorted_keys..|].
    by apply (Permutation_map view_key).
  - intros Hn. pose proof (unique_total l Hn). apply (sorted_by_unique (fun v => v ∈ l) view_less); [|done..].
    by apply Forall_forall.
Qed.

Section round.
  Context `{!SliceSort} {url_parser : UrlParse} (parse_time : string -> option Z) (decode_error : string -> string).

Definition views_of (a : Fetched) : list BackendView := views_from parse_time decode_error a.(ft_target).(tg_name) a.(ft_answer) a.(ft_now).
Definition addressed (a : Fetched) : bool := url_parses (status_url a.(ft_target)).

Lemma poll_views arrivals : poll parse_time decode_error arrivals =
  if forallb addressed arrivals then Some (slice_sort BackendView view_less (mjoin (map views_of arrivals))) else None.
Proof.
  unfold poll. assert (E : mapM (fun a => pollOne parse_time decode_error a.(ft_target) a.(ft_answer) a.(ft_now)) arrivals =
    if forallb addressed arrivals then Some (map views_of arrivals) else None).
  { induction arrivals as [|a l IH]; [done|]. cbn [mapM forallb map]. rewrite IH. unfold pollOne, with_request, addressed.
    destruct (url_parses _); cbn [mbind option_bind andb]; [|done]. by destruct (forallb _ l). }
  rewrite E. by destruct (forallb _ _).
Qed.

Lemma addressed_perm arrivals arrivals' : arrivals ≡ₚ arrivals' -> forallb addressed arrivals = forallb addressed arrivals'.
Proof. induction 1; cbn; [done|congruence|by rewrite !andb_assoc, (andb_comm (addressed y))|congruence]. Qed.

(** C39: what a round of the collector owes to the order in which the sidecars answer.  When some address does not parse
    the process ends, in any order; otherwise the result is always the views of all targets, ordered by host name and
    then by device, with the same hosts and devices in the same places.  When no two views name the same device
    of the same host it is the same list in any order; of views that do, only the order among each other is open. *)
Theorem poll_deterministic arrivals arrivals' :
  arrivals ≡ₚ arrivals' ->
  if forallb addressed arrivals then
    exists views views', poll parse_time decode_error arrivals = Some views /\
      poll parse_time decode_error arrivals' = Some views' /\
      views ≡ₚ mjoin (map views_of arrivals) /\ views ≡ₚ views' /\ sorted_by view_less views /\ sorted_by view_less views' /\
      map view_key views = map view_key views' /\ (NoDup (map view_key views) -> views = views')
  else poll parse_time decode_error arrivals = None /\ poll parse_time decode_error arrivals' = None.
Proof.
  intros Hp. rewrite !poll_views, <- (addressed_perm _ _ Hp). destruct (forallb addressed arrivals); [|done].
  assert (Hs : forall l, sorted_by view_less (slice_sort BackendView view_less l)).
  { intros l. apply (slice_sort_sorted _ (fun _ => True)); [apply view_weak|by apply Forall_forall]. }
  set (l := mjoin (map views_of arrivals)). set (k := mjoin (map views_of arrivals')).
  assert (Hlk : slice_sort BackendView view_less l ≡ₚ slice_sort BackendView view_less k).
  { rewrite !slice_sort_perm. unfold l, k. by rewrite Hp. }
  eexists _, _. split; [reflexivity|]. split; [reflexivity|]. split; [apply slice_sort_perm|]. split; [done|].
  split; [done|]. split; [done|]. by apply sorted_views.
Qed.
End round.

(** Two hosts, one of them unreachable, answer in either order. *)
Lemma poll_deterministic_witness :
  let target name := {| tg_name := name; tg_url := "http://" +:+ name |}%stdpp in
  let a := {| ft_target := target "h100"; ft_answer := inl "refused"; ft_now := 5 |}%string in
  let b := {| ft_target := target "a100"; ft_answer := inr "{"; ft_now := 5 |}%string in
  let round := @poll _ control_free (fun _ => None) (fun _ => "syntax"%string) in
  exists views, round [a; b] = Some views /\ round [b; a] = Some views /\ map bv_Hostname views = ["a100"; "h100"]%string.
Proof.
  intros target a b round.
  pose proof (@poll_deterministic _ control_free (fun _ => None) (fun _ => "syntax"%string) [a; b] [b; a] ltac:(by apply Permutation_swap)) as H.
  change (forallb _ _) with true in H. destruct H as (views & views' & E & E' & _ & _ & _ & _ & _ & Hu). exists views.
  assert (F : map bv_Hostname <$> round [a; b] = Some ["a100"; "h100"]%string) by (by vm_compute).
  assert (G : map view_key <$> round [a; b] = Some [("a100", ""); ("h100", "")]%string) by (by vm_compute).
  unfold round in *. rewrite E in F, G. injection F as F. injection G as G. split; [exact E|]. split; [|exact F].
  rewrite E'. f_equal. symmetry. apply Hu. rewrite G. repeat (apply NoDup_cons; split; [set_solver|]). apply NoDup_nil_2.
Defined.

Example targets_example :
  parse_targets "h100=http://[::1]:19095/,bad,x=http://a?b=c//" =
  [{| tg_name := "h100"; tg_url := "http://[::1]:19095" |}; {| tg_name := "x"; tg_url := "http://a?b=c" |}].
Proof. by vm_compute. Qed.

Definition demo_view : BackendView :=
  {| bv_BackendID := "h-nvidia-gpu-0"; bv_Hostname := "h"; bv_Vendor := "nvidia"; bv_DeviceID := "0"; bv_LifecycleState := "READY";
     bv_StabilityScore := f64_lit 15 16; bv_HostCapacityHint := f64_lit 1 2; bv_CapacitySemantics := "heuristic_host_derived";
     bv_LastHeartbeatAgeMs := 812; bv_RecentFailureCount := 0; bv_Recovering := false; bv_Reachable := true; bv_Stale := false;
     bv_MemFreeBytes := 79450000000; bv_Error := "" |}.

Example rows_example : map table_row [demo_view; bare_view "b" "b" false "refused"] =
  [("h-nvidia-gpu-0               nvidia   0    READY         0.938   0.500       812      0   79.5" +:+ String lf "")%stdpp;
   ("b                                     -    OFFLINE       UNREACHABLE: refused" +:+ String lf "")%stdpp]%string.
Proof. by vm_compute. Qed.
Example json_example :
  render "json" [] = ("null" +:+ String lf "")%stdpp /\
  (unmarshal (render "json" [bare_view "b" "b" false "refused"]) <> None).
Proof. by vm_compute. Qed.
