(* ===== verification/TrajCollector.v ===== *)
(** * The trajectory collector service ([cmd/trajcollector/main.go])

    The sink of the events: a POST with a batch appends one line per event to a file.  What a write of the file
    takes is an input.  Writing is done under one lock, so a request is one operation on the file; the counter
    is increased after the lock is released, which only a reader of the counter could see. *)

From Stdlib Require Import Strings.Ascii.
From stdpp Require Import base tactics numbers option list sets strings.
From S2P Require Import Prelude GoText GoStrconv Json JsonFacts Exec.
Open Scope go_scope.

Record Sink := { sk_file : string; sk_received : Z }.

Record SinkRequest := { sr_method : string; sr_path : string; sr_body : string }.

(** What the k-th write of a request takes: everything, or only so many bytes. *)
Definition Disk : Type := nat -> option Z.
Definition written (d : option Z) (text : string) : string :=
  match d with None => text | Some n => stake n text end.

Definition max_body : Z := 16 * 1024 * 1024.

(** U+017F folds to "s", the only letter of the field's name with such a partner outside ASCII. *)
Fixpoint fold_long_s (s : string) : string :=
  match s with
  | EmptyString => EmptyString
  | String a s' =>
      match s' with
      | String b s'' =>
          if Ascii.eqb a (ascii_of_nat 197) && Ascii.eqb b (ascii_of_nat 191) then String "s" (fold_long_s s'')
          else String a (fold_long_s s')
      | EmptyString => s
      end
  end.

(** [struct{Events []json.RawMessage}]: the last field that matches counts, [null] empties it, any other type is
    an error ([None]). *)
Definition events_member (acc : option (list string)) (kv : string * json) : option (list string) :=
  evs ← acc;
  let '(k, v) := kv in
  if equal_fold (fold_long_s k) "events" then
    match v with JArr l => Some (map fst l) | JNull => Some [] | _ => None end
  else Some evs.

Definition decode_batch (body : string) : option (list string) :=
  v ← unmarshal body;
  match v with
  | JObj l => fold_left events_member l (Some [])
  | JNull => Some []
  | _ => None
  end.

(** The two writes per event; their errors are ignored. *)
Fixpoint write_events (disk : Disk) (k : nat) (evs : list string) (file : string) : string :=
  match evs with
  | [] => file
  | ev :: evs =>
      write_events disk (k + 2) evs
        (file +:+ written (disk k) ev +:+ written (disk (S k)) (String lf ""))%stdpp
  end.

(** What a request is answered: the status and, for the two reports, the counter. *)
Inductive SinkReply := SStatus (code : Z) | SAlive (received : Z) | SStats (received : Z) | SNotFound.

Definition post_events (disk : Disk) (r : SinkRequest) (s : Sink) : Sink * SinkReply :=
  if negb (String.eqb r.(sr_method) "POST") then (s, SStatus 405)
  else match decode_batch (stake max_body r.(sr_body)) with
  | None => (s, SStatus 400)
  | Some evs =>
      ({| sk_file := write_events disk 0 evs s.(sk_file);
          sk_received := uwrap64 (s.(sk_received) + uwrap64 (Z.of_nat (length evs))) |}, SStatus 204)
  end.

Definition serve_sink (disk : Disk) (r : SinkRequest) (s : Sink) : Sink * SinkReply :=
  if String.eqb r.(sr_path) "/v1/events" then post_events disk r s
  else if String.eqb r.(sr_path) "/healthz" then (s, SAlive s.(sk_received))
  else if String.eqb r.(sr_path) "/stats" then (s, SStats s.(sk_received))
  else (s, SNotFound).

(** The requests in the order in which they took the lock, each with what its writes took. *)
Definition sink_run (rs : list (Disk * SinkRequest)) (s : Sink) : Sink :=
  fold_left (fun s '(d, r) => fst (serve_sink d r s)) rs s.

(** [dirOf]: the text before the last slash. *)
Fixpoint dir_of (p : string) : option string :=
  match p with
  | EmptyString => None
  | String c p =>
      match dir_of p with
      | Some d => Some (String c d)
      | None => if Ascii.eqb c "/" then Some ""%string else None
      end
  end.
Definition dirOf (p : string) : string := default "."%string (dir_of p).

(** ** Facts *)

(** One terminated line per event. *)
Fixpoint lines_of (evs : list string) : string :=
  match evs with [] => ""%string | ev :: evs => (ev +:+ String lf (lines_of evs))%stdpp end.

(** Every write takes all it is given. *)
Definition healthy (disk : Disk) : Prop := forall k, disk k = None.

(** The body the emitter posts: [json.Marshal(map[string]any{"events": batch})] of the printed events. *)
Definition batch_body (evs : list string) : string :=
  ("{" +:+ dquoted "events" +:+ ":[" +:+ joined evs +:+ "}")%stdpp.

(** What a request adds to the file. *)
Definition accepted_events (r : SinkRequest) : list string :=
  if String.eqb r.(sr_path) "/v1/events" && String.eqb r.(sr_method) "POST"
  then default [] (decode_batch (stake max_body r.(sr_body))) else [].

Lemma lines_app a b : lines_of (a ++ b) = (lines_of a +:+ lines_of b)%stdpp.
Proof.
  induction a as [|e a IH]; [done|]. cbn [lines_of app]. rewrite IH, <- sapp_assoc. do 2 f_equal.
Qed.

Lemma write_events_healthy disk k evs file : healthy disk -> write_events disk k evs file = (file +:+ lines_of evs)%stdpp.
Proof.
  intros Hd. revert k file. induction evs as [|ev evs IH]; intros k file; cbn [write_events lines_of]; [by rewrite sapp_nil_r|].
  rewrite IH, !Hd. cbn [written]. by rewrite <- !sapp_assoc.
Qed.

Lemma serve_sink_healthy disk r s : healthy disk -> in_u64 s.(sk_received) ->
  fst (serve_sink disk r s) =
    {| sk_file := (s.(sk_file) +:+ lines_of (accepted_events r))%stdpp;
       sk_received := uwrap64 (s.(sk_received) + Z.of_nat (length (accepted_events r))) |}.
Proof.
  intros Hd Hs. assert (Hid : s = {| sk_file := (sk_file s +:+ lines_of [])%stdpp; sk_received := uwrap64 (sk_received s + 0) |}).
  { destruct s as [f n]. cbn in *. by rewrite sapp_nil_r, Z.add_0_r, uwrap64_id. }
  unfold serve_sink, accepted_events, post_events.
  destruct (String.eqb (sr_path r) "/v1/events"); cbn [andb].
  2: { by repeat (destruct (String.eqb _ _)). }
  destruct (String.eqb (sr_method r) "POST"); cbn [negb]; [|done].
  destruct (decode_batch _) as [evs|]; [|done]. cbn [fst default].
  rewrite write_events_healthy by done. by rewrite uwrap64_add_r.
Qed.

(** The ledger.  After any sequence of requests, each with whatever method, path and body, the file is the old file
    followed by the events of the accepted batches, one terminated line each, in the order of the requests and
    within a batch in its order, and the counter is the number of these lines modulo 2^64; a request that is
    refused (not a POST, not JSON, [events] of another type) changes neither. *)
Theorem sink_ledger rs s :
  Forall (fun dr => healthy dr.1) rs -> in_u64 s.(sk_received) ->
  let events := concat (map (fun dr => accepted_events dr.2) rs) in
  (sink_run rs s).(sk_file) = (s.(sk_file) +:+ lines_of events)%stdpp /\
  (sink_run rs s).(sk_received) = uwrap64 (s.(sk_received) + Z.of_nat (length events)) /\
  forall disk r, (serve_sink disk r s).2 <> SStatus 204 -> (serve_sink disk r s).1 = s.
Proof.
  intros Hrs Hs events. assert (H : sink_run rs s = {| sk_file := (sk_file s +:+ lines_of events)%stdpp;
    sk_received := uwrap64 (sk_received s + Z.of_nat (length events)) |}).
  { subst events. unfold sink_run. revert s Hs. induction Hrs as [|[d r] rs Hd _ IH]; intros s Hs.
    - destruct s as [f n]. cbn in *. by rewrite sapp_nil_r, Z.add_0_r, uwrap64_id.
    - cbn [fold_left map concat]. rewrite serve_sink_healthy by done. rewrite IH by apply uwrap64_range. cbn [sk_file sk_received].
      cbn [snd]. rewrite lines_app, length_app, uwrap64_add_l, Nat2Z.inj_add, Z.add_assoc. f_equal. by rewrite sapp_assoc. }
  rewrite H. split; [done|]. split; [done|]. intros disk r. unfold serve_sink, post_events.
  repeat (destruct (String.eqb _ _); cbn [negb fst snd]); try done. by destruct (decode_batch _).
Qed.

(** The nesting left for an event inside the batch. *)
Definition event_depth : nat := Z.to_nat 9998.

Lemma depth_left : max_depth = S (S event_depth).
Proof. unfold max_depth, event_depth. lia. Qed.

Lemma decode_batch_body evs : evs <> [] -> Forall (json_text event_depth) evs -> decode_batch (batch_body evs) = Some evs.
Proof.
  intros Hne Hes. unfold decode_batch, unmarshal, decode_value. rewrite depth_left.
  assert (Hl : (String.length (String.append (joined evs) "}") + 11 = String.length (batch_body evs))%nat)
    by (change (String.length (batch_body evs)) with (11 + String.length (String.append (joined evs) "}"))%nat; lia).
  remember (2 * String.length (batch_body evs) + 2)%nat as F eqn:HF.
  destruct F as [|[|[|f]]]; [lia..|].
  destruct (elements_joined f event_depth evs "}" Hne Hes) as (l & He & Hm); [lia|].
  assert (Hopen : value (S f) (S event_depth) (String "[" (String.append (joined evs) "}")) = Parsed (JArr l) "}").
  { change (value (S f) (S event_depth) (String "[" (String.append (joined evs) "}")))
      with (opened "]" (JArr []) JArr (elements f event_depth) (String.append (joined evs) "}")).
    unfold opened. assert (exists c r, String.append (joined evs) "}" = String c r /\ json_space c = false /\ Ascii.eqb c "]" = false)
      as (c & r & Ej & Hs & Hb).
    { destruct evs as [|e evs]; [done|]. apply Forall_cons in Hes as [He1 _].
      destruct (head_not_closing _ e He1) as (c & r & -> & ? & ?). destruct evs; do 2 eexists; (split; [reflexivity|done]). }
    rewrite Ej in *. cbn [skip_space]. rewrite Hs, Hb, He. done. }
  change (value (S (S (S f))) (S (S event_depth)) (batch_body evs))
    with (pmap JObj (pbind (value (S f) (S event_depth) (String "[" (String.append (joined evs) "}"))) (fun v r =>
      next "}" (Parsed [("events"%string, v)]) (fun r => pmap (cons ("events"%string, v)) (members (S f) (S event_depth) r)) r))).
  rewrite Hopen, <- Hm. reflexivity.
Qed.

Lemma split_lines evs : Forall (fun e => all_bytes (fun c => negb (Ascii.eqb c lf)) e = true) evs ->
  split_on lf (lines_of evs) = evs ++ [""%string].
Proof. induction 1 as [|e evs He _ IH]; [done|]. cbn [lines_of app]. by rewrite split_on_app, IH. Qed.

(** C40: what the emitters post is what is kept.  For every non-empty batch of printed events (each one JSON value,
    as json.Marshal prints it) that fits 16 MiB, the POST of the batch is answered 204, the file grows by exactly
    the texts of the events, one terminated line each and in order, and the counter by their number; and when no
    event holds a line break, splitting the new text into lines gives the events back. *)
Theorem batch_stored evs disk s :
  evs <> [] -> Forall (json_text event_depth) evs -> slength (batch_body evs) <= max_body -> healthy disk ->
  serve_sink disk {| sr_method := "POST"; sr_path := "/v1/events"; sr_body := batch_body evs |} s =
    ({| sk_file := (s.(sk_file) +:+ lines_of evs)%stdpp;
        sk_received := uwrap64 (s.(sk_received) + Z.of_nat (length evs)) |}, SStatus 204) /\
  (Forall (fun e => all_bytes (fun c => negb (Ascii.eqb c lf)) e = true) evs ->
   split_on lf (lines_of evs) = evs ++ [""%string]).
Proof.
  intros Hne Hes Hlen Hd. split; [|apply split_lines].
  change (serve_sink disk _ s) with (post_events disk {| sr_method := "POST"; sr_path := "/v1/events"; sr_body := batch_body evs |} s).
  unfold post_events. cbn [sr_method sr_body]. change (negb (String.eqb "POST" "POST")) with false. cbn iota.
  rewrite stake_all, decode_batch_body by done. by rewrite write_events_healthy, uwrap64_add_r.
Qed.

(** Two posts of one batch, as a retry after a lost answer makes them, are stored twice. *)
Lemma retry_duplicates evs disk s :
  evs <> [] -> Forall (json_text event_depth) evs -> slength (batch_body evs) <= max_body -> healthy disk ->
  in_u64 s.(sk_received) ->
  let r := {| sr_method := "POST"; sr_path := "/v1/events"; sr_body := batch_body evs |} in
  (sink_run [(disk, r); (disk, r)] s).(sk_file) = (s.(sk_file) +:+ lines_of (evs ++ evs))%stdpp.
Proof.
  intros Hne Hes Hlen Hd Hs r. assert (Ha : accepted_events r = evs).
  { change (accepted_events r) with (default [] (decode_batch (stake max_body (batch_body evs)))).
    by rewrite stake_all, decode_batch_body. }
  clearbody r. unfold sink_run. cbn [fold_left]. rewrite (serve_sink_healthy disk r s) by done.
  rewrite serve_sink_healthy by (done || apply uwrap64_range).
  cbn [sk_file]. by rewrite Ha, lines_app, sapp_assoc.
Qed.

(** ** Witnesses *)

Definition demo_event (kind : string) : string := ("{" +:+ dquoted "kind" +:+ ":" +:+ dquoted kind +:+ "}")%stdpp.

Lemma demo_texts : Forall (json_text event_depth) [demo_event "A"; demo_event "B"].
Proof.
  assert (H : exists d, event_depth = S d) by (exists (Z.to_nat 9997); unfold event_depth; lia).
  destruct H as [d ->]. repeat constructor; exists 9%nat; eexists; vm_compute; reflexivity.
Qed.

Lemma batch_stored_witness :
  serve_sink (fun _ => None) {| sr_method := "POST"; sr_path := "/v1/events"; sr_body := batch_body [demo_event "A"; demo_event "B"] |}
    {| sk_file := ""; sk_received := 0 |} =
  ({| sk_file := lines_of [demo_event "A"; demo_event "B"]; sk_received := 2 |}, SStatus 204).
Proof. apply (batch_stored [demo_event "A"; demo_event "B"]); [done|apply demo_texts|by vm_compute|done]. Defined.

Lemma sink_ledger_witness :
  let post b := ((fun _ => None) : Disk, {| sr_method := "POST"; sr_path := "/v1/events"; sr_body := b |}) in
  (sink_run [post (batch_body [demo_event "A"]); post "nonsense"%string; post (batch_body [demo_event "B"])]
     {| sk_file := ""; sk_received := 0 |}).(sk_received) = 2.
Proof.
  intros post.
  destruct (sink_ledger [post (batch_body [demo_event "A"]); post "nonsense"%string; post (batch_body [demo_event "B"])]
    {| sk_file := ""; sk_received := 0 |} ltac:(by repeat constructor) ltac:(done)) as (_ & -> & _).
  cbn [map concat snd post]. pose proof demo_texts as [HA HB]%Forall_cons.
  replace (accepted_events {| sr_method := "POST"; sr_path := "/v1/events"; sr_body := batch_body [demo_event "A"] |}) with [demo_event "A"].
  2: { unfold accepted_events. cbn [sr_path sr_method sr_body]. rewrite stake_all by (by vm_compute). rewrite decode_batch_body; [done|done|by constructor]. }
  replace (accepted_events {| sr_method := "POST"; sr_path := "/v1/events"; sr_body := batch_body [demo_event "B"] |}) with [demo_event "B"].
  2: { unfold accepted_events. cbn [sr_path sr_method sr_body]. rewrite stake_all by (by vm_compute). by rewrite decode_batch_body. }
  by vm_compute.
Defined.

Example dir_examples : map dirOf ["a/b/c.jsonl"; "x"; "/x"; "a/"]%string = ["a/b"; "."; ""; "a"]%string.
Proof. by vm_compute. Qed.
