(* ===== verification/CollectorFacts.v ===== *)
(** * What the collector sees of a daemon

    The status a daemon publishes, printed and decoded again, arrives in the collector's views unchanged. *)

From Stdlib Require Import Floats.SpecFloat Strings.Ascii.
From stdpp Require Import base tactics numbers option list strings gmap.
From S2P Require Import Prelude Ordering GoFloat GoTime GoText GoStrconv GoHttp Json JsonFacts JsonPrint JsonFloat Unmarshal Model Supervisor SupervisorFacts.
From S2P Require Import Adapters Detect AdminApi AdminFacts Sidecar Publish ControlPlane Daemon DaemonFacts StatusDoc Collector.
Open Scope go_scope.

(** ** Integers in decimal *)

Lemma digits_val_dec s : forall acc, digits s = true -> digits_val s acc = Some (dec_val s acc).
Proof.
  induction s as [|c s IH]; intros acc; [done|]. unfold digits. cbn [all_bytes]. intros [Hc Hs]%andb_true_iff.
  cbn [digits_val dec_val]. unfold is_digit in Hc. apply andb_true_iff in Hc as [H1%Z.leb_le H2%Z.leb_le]. unfold byte_at in *.
  rewrite (proj2 (Z.leb_le 0 _)), (proj2 (Z.leb_le _ 9)) by lia. by apply IH.
Qed.

Lemma digit_not_sign c s : digits (String c s) = true -> Ascii.eqb c "-"%char = false /\ Ascii.eqb c "+"%char = false.
Proof. unfold digits. cbn [all_bytes]. intros [Hc _]%andb_true_iff. split; apply Ascii.eqb_neq; by intros ->. Qed.

Lemma ParseUint_itoa n : 0 <= n < u64_mod -> ParseUint (itoa n) = Some n.
Proof.
  intros Hn. destruct (itoa_digits n) as (c & s & -> & Hd & Hv & _); [unfold u64_mod in Hn; lia|]. unfold ParseUint.
  rewrite digits_val_dec by done. cbn [mbind option_bind]. rewrite Hv. by rewrite (proj2 (Z.ltb_lt n u64_mod)) by lia.
Qed.

Lemma atoi_digits c s : digits (String c s) = true -> atoi (String c s) = if in_i64b (dec_val (String c s) 0) then Some (dec_val (String c s) 0) else None.
Proof.
  intros Hd. destruct (digit_not_sign c s Hd) as [H1 H2]. unfold atoi. rewrite H1, H2. by rewrite digits_val_dec.
Qed.

Lemma atoi_itoa n : in_i64 n -> atoi (itoa n) = Some n.
Proof.
  intros Hn. destruct (Z.ltb_spec n 0) as [H|H].
  - destruct (itoa_digits (- n)) as (c & s & E & Hd & Hv & _); [unfold in_i64, i64_min, i64_max in Hn; lia|].
    assert (itoa n = String "-" (itoa (- n))) as ->.
    { unfold itoa. rewrite (proj2 (Z.ltb_lt n 0)), (proj2 (Z.ltb_ge (- n) 0)) by lia. done. }
    rewrite E. unfold atoi. cbn [Ascii.eqb Bool.eqb]. rewrite digits_val_dec by done. cbn [mbind option_bind]. rewrite Hv, Z.opp_involutive.
    by rewrite (proj2 (in_i64b_spec n) Hn).
  - destruct (itoa_digits n) as (c & s & -> & Hd & Hv & _); [unfold in_i64, i64_max in Hn; lia|]. rewrite atoi_digits by done.
    rewrite Hv. by rewrite (proj2 (in_i64b_spec n) Hn).
Qed.

(** ** What a decoder takes out of a printed value *)

Definition takes {A} (d : into A) (x : json) (a b : A) : Prop := forall n, d (norm true n x) a = (b, true).
(** The same for a value that may not be printable. *)
Definition puts {A} (o : option json) (d : into A) (a b : A) : Prop := forall x, o = Some x -> takes d x a b.

Lemma puts_string s a : puts (jstr s) into_string a (to_valid s 0).
Proof. by intros x [= <-] n. Qed.
Lemma puts_bool b a : puts (jbool b) into_bool a b.
Proof. by intros x [= <-] n. Qed.
Lemma puts_int i a : in_i64b i = true -> puts (jint i) into_int a i.
Proof. intros H%in_i64b_spec x [= <-] n. cbn. by rewrite atoi_itoa. Qed.
Lemma puts_uint i a : (0 <=? i) && (i <? u64_mod) = true -> puts (jint i) into_uint a i.
Proof. rewrite andb_true_iff, Z.leb_le, Z.ltb_lt. intros H x [= <-] n. cbn. by rewrite ParseUint_itoa. Qed.
Lemma puts_float f a : puts (jfloat f) into_float a f.
Proof.
  intros x. unfold jfloat. destruct (json_float f) as [t|] eqn:E; [|done]. intros [= <-] n. cbn.
  by destruct (json_float_reads f t E) as [_ ->].
Qed.

Lemma puts_unread {A X} (zero z : X) (d : into X) o (a : A) : puts o d zero z -> puts o (unread zero d) a a.
Proof. intros H x Hx n. unfold unread. by rewrite (H x Hx n). Qed.
Lemma puts_sets {A B} (get : A -> B) set (d : into B) o a b : puts o d (get a) b -> puts o (sets get set d) a (set b a).
Proof. intros H x Hx n. unfold sets. by rewrite (H x Hx n). Qed.
Lemma puts_fst {A B} (d : into A) o (a : A * B) b : puts o d a.1 b -> puts o (at_fst d) a (b, a.2).
Proof. intros H x Hx n. unfold at_fst. by rewrite (H x Hx n). Qed.
Lemma puts_snd {A B} (d : into B) o (a : A * B) b : puts o d a.2 b -> puts o (at_snd d) a (a.1, b).
Proof. intros H x Hx n. unfold at_snd. by rewrite (H x Hx n). Qed.

(** *** Structs *)

Fixpoint first_named (ks : list string) (k : string) : option nat :=
  match ks with [] => None | f :: ks => if names f k then Some 0%nat else S <$> first_named ks k end.

Lemma tagged_first {A} (tbl : list (string * into A)) k i f d :
  first_named (map fst tbl) k = Some i -> tbl !! i = Some (f, d) -> tagged tbl k = Some d.
Proof.
  unfold tagged. revert i. induction tbl as [|[g e] tbl IH]; intros i; [done|]. cbn [map fst first_named List.find].
  destruct (names g k); [by intros [= <-] [= -> ->]|]. destruct (first_named (map fst tbl) k) as [j|]; [|done].
  intros [= <-]. by apply IH.
Qed.

(** The members in order, each into the field of its name. *)
Inductive chain {A} (tbl : list (string * into A)) : list (string * option json) -> A -> A -> Prop :=
  | chain_nil a : chain tbl [] a a
  | chain_cons k o l i f d a b c :
      ascii_text k = true -> first_named (map fst tbl) k = Some i -> tbl !! i = Some (f, d) -> puts o d a b ->
      chain tbl l b c -> chain tbl ((k, o) :: l) a c.

Lemma puts_fields {A} (tbl : list (string * into A)) l a b : chain tbl l a b -> puts (object l) (fields tbl) a b.
Proof.
  intros Hc x Hx n. unfold object in Hx. destruct (written_members l) as [l'|] eqn:E; [|done]. injection Hx as <-.
  unfold fields. cbn [norm into_struct]. revert l' E. induction Hc as [a|k o l i f d a b c Hk Hi Hd Hp Hc IH]; intros l' E.
  - injection E as <-. done.
  - unfold written_members in E. cbn [mapM] in E. destruct o as [x|]; [|done]. cbn [fmap option_fmap option_map mbind option_bind] in E.
    fold (written_members l) in E. destruct (written_members l) as [l1|]; [|done]. injection E as <-. cbn [map fold_left].
    unfold into_member at 2. cbn [fst snd]. rewrite to_valid_ascii by done. rewrite (tagged_first tbl k i f d Hi Hd), (Hp x eq_refl (S n)).
    by apply IH.
Qed.

Lemma puts_members {A} (tbl : list (string * into A)) l a b c : chain tbl l a b -> b = c -> puts (object l) (fields tbl) a c.
Proof. intros H <-. by apply puts_fields. Qed.

Lemma puts_Field {A B} (f : B -> option json) (d : into A) (fld : Field B) a b :
  puts (f fld.(Value)) d a.(Value) b -> puts (jfield f fld) (into_Field d) a (mkField b fld.(Supported)).
Proof.
  intros H. apply puts_fields. eapply chain_cons; [done|by vm_compute|reflexivity|by apply puts_sets|].
  eapply chain_cons; [done|by vm_compute|reflexivity|apply puts_sets, puts_bool|]. apply chain_nil.
Qed.

Lemma puts_same_Field {A} (f : A -> option json) (d : into A) (fld a : Field A) :
  puts (f fld.(Value)) d a.(Value) fld.(Value) -> puts (jfield f fld) (into_Field d) a fld.
Proof. intros H. destruct fld as [v b] eqn:E. rewrite <- E at 1. replace b with (Supported fld) by by subst. subst. by apply puts_Field. Qed.

(** *** Slices, maps, pointers *)

Definition nil_list (v : json) : Prop := v = JNull \/ v = JArr [].
Definition nil_map (v : json) : Prop := v = JNull \/ v = JObj [].

Lemma cells_of {A B} (zero : A) (d : into A) (f : B -> option json) (g : B -> A) l xs n :
  Forall (fun x => puts (f x) d zero (g x)) l -> mapM (fun o => pair ""%string <$> o) (map f l) = Some xs ->
  into_cells zero (fun _ => d) (map (fun '(_, x) => (print true (S n) x, norm true (S n) x)) xs) [] = (map g l, true) /\ length xs = length l.
Proof.
  intros Hf. revert xs. induction Hf as [|x l Hx Hf IH]; intros xs E; [by injection E as <-|]. cbn [map mapM] in E.
  destruct (f x) as [v|] eqn:Ev; [|done]. cbn [fmap option_fmap option_map mbind option_bind] in E.
  destruct (mapM _ (map f l)) as [xs'|]; [|done]. injection E as <-. destruct (IH xs' eq_refl) as [H1 H2].
  cbn [map into_cells head default tail length]. rewrite (Hx v eq_refl (S n)). unfold tail. rewrite H1. by rewrite H2.
Qed.

Lemma puts_list {A B} hollow name (zero : A) (d : into A) (f : B -> option json) (g : B -> A) l :
  nil_list (hollow name) -> Forall (fun x => puts (f x) d zero (g x)) l ->
  puts (jlist hollow name f l) (into_slice zero (fun _ => d)) no_slice {| sl_cells := map g l; sl_len := length l |}.
Proof.
  intros Hn Hf x Hx n. unfold jlist in Hx. destruct l as [|y l].
  - injection Hx as <-. by destruct Hn as [-> | ->].
  - unfold array in Hx. destruct (mapM _ _) as [xs|] eqn:E; [|done]. injection Hx as <-.
    destruct (cells_of zero d f g (y :: l) xs n Hf E) as [H1 H2]. cbn [norm into_slice].
    destruct xs as [|[t z] xs]; [done|]. cbn [map] in H1 |- *. cbn [sl_cells no_slice]. rewrite H1. cbn [length] in H2 |- *. by rewrite length_map, H2.
Qed.

Lemma puts_strings hollow name l : nil_list (hollow name) -> exists s, puts (jlist hollow name jstr l) into_strings no_slice s.
Proof.
  intros Hn. eexists. apply (puts_list _ _ _ _ _ (fun s => to_valid s 0) _ Hn). apply Forall_true. intros s. apply puts_string.
Qed.

Lemma puts_floats hollow name m : nil_map (hollow name) -> puts (jmap hollow name jfloat m) (into_values f64_zero into_float) tt tt.
Proof.
  intros Hn x Hx n. unfold jmap in Hx. destruct (sorted_entries m) as [|e l] eqn:E; [injection Hx as <-; by destruct Hn as [-> | ->]|].
  clear E. unfold object in Hx. destruct (written_members _) as [xs|] eqn:E; [|done]. injection Hx as <-. cbn [norm into_values]. f_equal.
  revert xs E. generalize (e :: l) as l0. clear. induction l0 as [|[k y] l IH]; intros xs E; [by injection E as <-|].
  unfold written_members in E. cbn [map mapM] in E. destruct (jfloat y) as [v|] eqn:Ev; [|done].
  cbn [fmap option_fmap option_map mbind option_bind] in E. fold (written_members (map (fun '(k, x) => (k, jfloat x)) l)) in E.
  destruct (written_members _) as [xs'|]; [|done]. injection E as <-. cbn [map forallb].
  rewrite (puts_float y f64_zero v Ev (S n)). cbn [snd andb]. by apply IH.
Qed.

(** ** The status *)

Section wire.
  Context {url_parser : UrlParse} (time_text : Z -> string) (zero_time : string) (hollow : string -> json) (parse_time : string -> option Z).

(** The reader's clock format undoes the writer's. *)
Definition read_back (text : string) (t : Z) : bool := bool_decide (parse_time (to_valid text 0) = Some t).

(** What the encoder writes for a nil slice or map. *)
Record hollow_ok : Prop := {
  ho_lists : Forall (fun name => nil_list (hollow name)) ["devices"; "reason_codes"; "unsupported_fields"; "nvidia_xid_errors"]%string;
  ho_maps : nil_map (hollow "components"%string);
}.

(** Integers within the width of their types, times the reader can read. *)
Definition fits_u64 (n : Z) : bool := (0 <=? n) && (n <? u64_mod).
Definition fits_optional (o : option Z) : bool := match o with Some t => read_back (time_text t) t | None => true end.
Definition fits_device (d : DeviceStatus) : bool :=
  let h := d.(ds_Health) in let li := d.(ds_Lifecycle) in let r := d.(ds_Reliability) in
  forallb in_i64b [Value h.(h_ComputeProcs); li.(li_ConsecutiveSoftFailures); li.(li_OfflineFailureThreshold);
    li.(li_HealthyStreak); li.(li_RecoveryStreakRequired); li.(li_RecoveryHealthyStreak); r.(rel_ConsecutiveFailures);
    r.(rel_SidecarStartCount); r.(rel_WorkerStarts); r.(rel_WorkerStops); r.(rel_DisconnectCount); r.(rel_RejoinCount)] &&
  forallb in_i64b (Value h.(h_XIDErrors)) &&
  forallb fits_u64 [Value h.(h_MemUsedBytes); Value h.(h_MemFreeBytes); Value h.(h_MemTotalBytes); Value h.(h_ECCUncorrectable);
    Value h.(h_ECCCorrectable); Value h.(h_RASUncorrectable); Value h.(h_RASCorrectable)] &&
  forallb (fun t => read_back (time_text t) t) [h.(h_Timestamp); d.(ds_Stability).(ss_UpdatedAt)] &&
  forallb fits_optional [r.(rel_LastSuccessfulProbe); r.(rel_LastFailedProbe)].
Definition fits_status (hs : HostStatus) : bool :=
  read_back (time_text hs.(hs_Timestamp)) hs.(hs_Timestamp) && read_back zero_time time_zero &&
  forallb (fun d => match d with Some d => fits_device d | None => true end) hs.(hs_Devices).

(** The document of a device: text that is not UTF-8 arrives with U+FFFD for what is not. *)
Definition device_doc (d : option DeviceStatus) : DeviceDoc :=
  let text f := to_valid (part ""%string f d) 0 in
  {| dd_Identity := (text (fun d => d.(ds_Identity).(id_BackendID)), text (fun d => d.(ds_Identity).(id_DeviceID)));
     dd_Health := (part time_zero (fun d => d.(ds_Health).(h_Timestamp)) d, part (Unsup 0) (fun d => d.(ds_Health).(h_MemFreeBytes)) d);
     dd_LifecycleState := text (fun d => LifecycleState_string d.(ds_LifecycleState));
     dd_Failures := part 0 (fun d => d.(ds_Reliability).(rel_ConsecutiveFailures)) d;
     dd_Score := part f64_zero (fun d => d.(ds_Stability).(ss_Score)) d;
     dd_Capacity := (part f64_zero (fun d => d.(ds_Capacity).(ch_HostCapacityHint)) d, text (fun d => d.(ds_Capacity).(ch_CapacitySemantics))) |}.
Definition host_doc (hs : HostStatus) : HostDoc :=
  {| hd_Hostname := to_valid hs.(hs_Hostname) 0; hd_Vendor := to_valid (Vendor_string hs.(hs_Vendor)) 0;
     hd_Devices := {| sl_cells := map device_doc hs.(hs_Devices); sl_len := length hs.(hs_Devices) |} |}.

Lemma puts_time text t a : read_back text t = true -> puts (Some (JStr text)) (into_time parse_time) a t.
Proof. intros H%bool_decide_eq_true x [= <-] n. cbn. by rewrite H. Qed.
Lemma puts_optional o : fits_optional o = true ->
  puts (match o with Some t => jtime time_text t | None => Some JNull end) (into_ptr time_zero (into_time parse_time)) None o.
Proof.
  destruct o as [t|]; cbn [fits_optional]; [|by intros _ x [= <-] n].
  intros H%bool_decide_eq_true x [= <-] n. cbn. by rewrite H.
Qed.

(** One member: the decoders of [StatusDoc] over the encoders of [Publish]. *)
Ltac put :=
  lazymatch goal with
  | H : puts ?o ?d _ _ |- puts ?o (unread _ ?d) _ _ => exact (puts_unread _ _ _ _ _ H)
  | |- puts _ (unread _ _) _ _ => eapply puts_unread; put
  | |- puts _ (sets _ _ _) _ _ => eapply puts_sets; put
  | |- puts _ (at_fst _) _ _ => eapply puts_fst; put
  | |- puts _ (at_snd _) _ _ => eapply puts_snd; put
  | |- puts _ into_string _ _ => apply puts_string
  | |- puts _ into_bool _ _ => apply puts_bool
  | |- puts _ into_float _ _ => apply puts_float
  | |- puts _ into_int _ _ => apply puts_int; first [assumption|reflexivity]
  | |- puts _ into_uint _ _ => apply puts_uint; first [assumption|reflexivity]
  | |- puts _ (into_time _) _ _ => eapply puts_time; eassumption
  | |- puts _ (into_Field _) _ _ => eapply puts_same_Field; put
  | |- puts _ (into_values _ _) _ _ => apply puts_floats; assumption
  | |- puts _ into_strings _ _ => first [eassumption|reflexivity]
  | _ => eassumption
  end.

(** A struct: its members in the order of the table. *)
Ltac members :=
  eapply puts_members; [repeat (eapply chain_cons; [reflexivity|by vm_compute|reflexivity|put|]); apply chain_nil|reflexivity].

(** The parts of a device whose numbers fit. *)
Section device.
  Context (Hh : hollow_ok) (Hz : read_back zero_time time_zero = true) (d : option DeviceStatus).
  Context (Hd : match d with Some d => fits_device d | None => true end = true).

Lemma identity_read : puts (identity_json d) into_Identity ("", "")%string (device_doc d).(dd_Identity).
Proof. unfold identity_json, into_Identity, unread_string. members. Qed.

Ltac device := destruct Hh as [Hl Hm]; repeat (apply Forall_cons in Hl as [? Hl]); clear Hl; destruct d as [d'|]; cbn [part];
  [unfold fits_device in Hd; cbn [forallb] in Hd; rewrite !andb_true_iff in Hd; destruct_and! Hd|].

Lemma failure_read : puts (failure_json d) into_ProbeFailure tt tt.
Proof. unfold failure_json, into_ProbeFailure, unread_string. members. Qed.

Lemma xids_read : exists s, puts (jfield (jlist hollow "nvidia_xid_errors" jint) (part (Unsup []) (fun d => d.(ds_Health).(h_XIDErrors)) d))
  (into_Field (into_slice 0 (fun _ => into_int))) (Unsup no_slice) s.
Proof.
  eexists. eapply puts_Field, puts_list; [destruct Hh as [Hl _]; rewrite !Forall_cons in Hl; tauto|]. apply Forall_forall. intros x Hx.
  apply puts_int. destruct d as [d'|]; cbn [part] in Hx; [|by apply not_elem_of_nil in Hx]. unfold fits_device in Hd. rewrite !andb_true_iff in Hd.
  destruct Hd as [[[[_ H] _] _] _]. rewrite forallb_forall in H. apply H. by apply list_elem_of_In.
Qed.

Lemma health_read : puts (health_json time_text zero_time hollow d) (into_Health parse_time) (time_zero, Unsup 0) (device_doc d).(dd_Health).
Proof.
  pose proof failure_read as Hf. destruct xids_read as [s Hx]. 
  destruct (puts_strings hollow "unsupported_fields" (part [] (fun d => d.(ds_Health).(h_UnsupportedFields)) d)) as [u Hu];
    [destruct Hh as [Hl _]; rewrite !Forall_cons in Hl; tauto|].
  unfold health_json, into_Health. 
  unfold unread_bool, unread_float, unread_ffield, unread_ufield, unread_ifield, unread_strings. device.
  - cbn [part] in *. members.
  - cbn [part] in *. members.
Qed.

Lemma strings_read name (f : DeviceStatus -> list string) : name ∈ ["reason_codes"; "unsupported_fields"]%string ->
  exists s, puts (jlist hollow name jstr (part [] f d)) into_strings no_slice s.
Proof. intros Hn. apply puts_strings. destruct Hh as [Hl _]. rewrite Forall_forall in Hl. apply Hl. set_solver. Qed.

Lemma lifecycle_read : puts (lifecycle_json hollow d) into_LifecycleInfo tt tt.
Proof.
  destruct (strings_read "reason_codes" (fun d => d.(ds_Lifecycle).(li_ReasonCodes))) as [u Hu]; [set_solver|].
  unfold lifecycle_json, into_LifecycleInfo, unread_string, unread_strings, unread_int, unread_bool. device; cbn [part] in *; members.
Qed.

Lemma reliability_read : puts (reliability_json time_text d) (into_Reliability parse_time) 0 (device_doc d).(dd_Failures).
Proof.
  unfold reliability_json, into_Reliability, unread_int, unread_float, unread_ffield. device; cbn [part] in *.
  - pose proof (puts_optional _ H28) as Hs. pose proof (puts_optional _ H4) as Hf. members.
  - pose proof (puts_optional None eq_refl) as Hs. members.
Qed.

Lemma stability_read : puts (stability_json time_text zero_time hollow d) (into_StabilityScore parse_time) f64_zero (device_doc d).(dd_Score).
Proof. unfold stability_json, into_StabilityScore, unread_time, unread_floats. device; cbn [part] in *; members. Qed.

Lemma capacity_read : puts (capacity_json hollow d) into_CapacityHint (f64_zero, ""%string) (device_doc d).(dd_Capacity).
Proof. unfold capacity_json, into_CapacityHint, unread_floats, unread_bool. device; cbn [part] in *; members. Qed.

Lemma device_read : puts (device_json time_text zero_time hollow d) (into_DeviceStatus parse_time) zero_device (device_doc d).
Proof.
  pose proof identity_read as H1. pose proof health_read as H2. pose proof lifecycle_read as H3. pose proof reliability_read as H4.
  pose proof stability_read as H5. pose proof capacity_read as H6. unfold device_json, into_DeviceStatus. members.
Qed.
End device.

Lemma host_read hs : hollow_ok -> fits_status hs = true ->
  puts (host_json time_text zero_time hollow hs) (into_HostStatus parse_time) zero_host (host_doc hs).
Proof.
  intros Hh. unfold fits_status. rewrite !andb_true_iff, forallb_forall. intros [[Ht Hz] Hd].
  unfold host_json, into_HostStatus, unread_string, unread_float, unread_time.
  assert (Hl : puts (jlist hollow "devices" (device_json time_text zero_time hollow) hs.(hs_Devices))
    (into_slice zero_device (fun _ => into_DeviceStatus parse_time)) no_slice (hd_Devices (host_doc hs))).
  { apply puts_list; [destruct Hh as [Hl _]; by apply Forall_cons in Hl as [Hl _]|]. apply Forall_forall. intros d Hin.
    apply device_read; [done|done|]. apply Hd. by apply list_elem_of_In. }
  members.
Qed.

(** The document a printed status decodes to. *)
Lemma status_decodes hs : hollow_ok -> fits_status hs = true -> readable time_text zero_time hollow (BStatus hs) = true ->
  decode_status parse_time (page_of time_text zero_time hollow (BStatus hs)) = Some (host_doc hs).
Proof.
  intros Hh Hf Hr. unfold readable, page_of in *. cbn [polled_json] in *.
  destruct (host_json time_text zero_time hollow hs) as [v|] eqn:E; [|done]. unfold sendable in Hr. rewrite !andb_true_iff in Hr.
  destruct Hr as [[Hp _] _]. unfold decode_status, Decode, encode_indented.
  rewrite (parses_decode _ (norm true 0 v)); [|by apply print_parses|right; by constructor; set_solver].
  by rewrite (host_read hs Hh Hf v E 0%nat).
Qed.

(** ** A round over daemons *)

(** A target that cannot be reached, or a daemon with the state in which it serves the request and the instants at which it
    reads its clocks and the collector its own. *)
Inductive Polled :=
  | Down (t : target) (err : string)
  | Up (t : target) (f : Flags) (c : Reads) (d : Daemon) (now : Z).

(** Every state the program reaches from some start. *)
Definition reachable (f : Flags) (d : Daemon) : Prop :=
  exists exp h vendor env smi rocm discovered input now d0,
    start_daemon exp f h (daemon_adapter vendor env smi rocm) discovered input now = Some d0 /\ dsteps exp d0 d.

Definition polled_target (p : Polled) : target := match p with Down t _ | Up t _ _ _ _ => t end.

(** What a poll of the target gets; a daemon that does not answer is not [polled_ok]. *)
Definition fetched_from (p : Polled) : Fetched :=
  match p with
  | Down t e => {| ft_target := t; ft_answer := inl e; ft_now := 0 |}
  | Up t _ c d now =>
      {| ft_target := t; ft_now := now;
         ft_answer := match daemon_page time_text zero_time hollow "/v1/status" c d with Some page => inr page | None => inl ""%string end |}
  end.
Definition collected (decode_error : string -> string) (p : Polled) : list BackendView := views_of parse_time decode_error (fetched_from p).

(** What a daemon holds can be printed and fits the types of its reader. *)
Definition page_fits (c : Reads) (d : Daemon) : bool :=
  page_readable time_text zero_time hollow "/v1/status" c d &&
  match HostStatus_of c.(rd_now) d.(dm_sup) with Some hs => fits_status hs | None => false end.

Definition polled_ok (p : Polled) : Prop :=
  match p with Down _ _ => True | Up _ f c d _ => flags_ok f /\ reachable f d /\ page_fits c d = true end.

(** The view of a device is the device: names, state, score, capacity and failures in a row as it holds them, marked
    recovering exactly in that state, free memory only if the vendor tool reported it, and stale exactly when the
    newest sample is older than 10 s by a full millisecond. *)
Definition views_device (hs : HostStatus) (now : Z) (d : option DeviceStatus) (v : BackendView) : Prop :=
  v.(bv_Reachable) = true /\ v.(bv_Error) = ""%string /\ v.(bv_Hostname) = to_valid hs.(hs_Hostname) 0 /\
  v.(bv_Vendor) = Vendor_string hs.(hs_Vendor) /\
  (v.(bv_DeviceID), v.(bv_BackendID)) = (to_valid (id_of d).1 0, to_valid (id_of d).2 0) /\
  v.(bv_LifecycleState) = from ""%string (fun d => LifecycleState_string d.(ds_LifecycleState)) d /\
  v.(bv_StabilityScore) = from f64_zero (fun d => d.(ds_Stability).(ss_Score)) d /\
  v.(bv_HostCapacityHint) = from f64_zero (fun d => d.(ds_Capacity).(ch_HostCapacityHint)) d /\
  v.(bv_RecentFailureCount) = from 0 (fun d => d.(ds_Reliability).(rel_ConsecutiveFailures)) d /\
  (v.(bv_Recovering) = true <-> exists s, d = Some s /\ s.(ds_LifecycleState) = StateRecovering) /\
  v.(bv_MemFreeBytes) = from 0 (fun d => let m := d.(ds_Health).(h_MemFreeBytes) in if m.(Supported) then m.(Value) else 0) d /\
  0 <= v.(bv_LastHeartbeatAgeMs) /\
  (v.(bv_Stale) = true <-> 10001 * millisecond <= now - from time_zero (fun d => d.(ds_Health).(h_Timestamp)) d).

Lemma view_of_device hs now d : views_device hs now d (view_of (hd_Hostname (host_doc hs)) (hd_Vendor (host_doc hs)) now (device_doc d)).
Proof.
  unfold views_device, view_of. cbn [bv_Reachable bv_Error bv_Hostname bv_Vendor bv_DeviceID bv_BackendID bv_LifecycleState bv_StabilityScore
    bv_HostCapacityHint bv_RecentFailureCount bv_Recovering bv_MemFreeBytes bv_LastHeartbeatAgeMs bv_Stale host_doc hd_Vendor hd_Hostname].
  do 3 (split; [done|]). split; [by destruct (hs_Vendor hs)|]. split; [by destruct d|].
  split; [destruct d as [d|]; [exact (to_valid_ascii _ (lifecycle_ascii _))|done]|]. do 3 (split; [by destruct d|]). split.
  - destruct d as [d|]; [|split; [done|by intros (s & ? & _)]]. cbn [device_doc dd_LifecycleState part]. split.
    + intros H. exists d. split; [done|]. by destruct (ds_LifecycleState d).
    + intros (s & [= <-] & ->). reflexivity.
  - split; [by destruct d|]. split; [apply view_age_nonneg|]. rewrite Z.ltb_lt, stale_iff. by destruct d.
Qed.

(** What the collector should show for a daemon. *)
Definition shows_daemon (name : string) (hs : HostStatus) (now : Z) (vs : list BackendView) : Prop :=
  match hs.(hs_Devices) with
  | [] => vs = [bare_view name (to_valid hs.(hs_Hostname) 0) true "no devices"]
  | ds => Forall2 (views_device hs now) ds vs
  end.

Lemma views_of_doc name hs now : shows_daemon name hs now (viewsFromStatus name (host_doc hs) now).
Proof.
  unfold shows_daemon, viewsFromStatus, shown. cbn [host_doc hd_Devices sl_len sl_cells]. rewrite firstn_all2 by (by rewrite length_map).
  destruct (hs_Devices hs) as [|d ds] eqn:E; [done|]. rewrite map_map. cbn [map]. constructor; [apply view_of_device|].
  clear E. induction ds as [|d' ds IH]; [by constructor|]. cbn [map]. constructor; [apply view_of_device|exact IH].
Qed.

Lemma collected_daemon decode_error t f c d now : hollow_ok -> polled_ok (Up t f c d now) -> exists hs,
  HostStatus_of c.(rd_now) d.(dm_sup) = Some hs /\ shows_daemon t.(tg_name) hs now (collected decode_error (Up t f c d now)).
Proof.
  intros Hh (Hf & (exp & h & vendor & env & smi & rocm & discovered & input & now0 & d0 & Hs & Hr) & Hp).
  pose proof (started_inv _ _ _ _ _ _ _ _ Hs) as Hi.
  assert (Hinv : daemon_inv f d) by (by apply (dsteps_inv exp f d0)).
  destruct (HostStatus_total (rd_now c) (dm_sup d) (di_sup _ _ Hinv)) as [hs Hhs]. exists hs. split; [done|].
  unfold page_fits in Hp. rewrite Hhs in Hp. apply andb_true_iff in Hp as [Hp Hfit].
  pose proof (readable_status _ _ _ f c d hs Hf Hinv Hhs Hp) as Hread. unfold collected, views_of. cbn [fetched_from ft_answer ft_target ft_now].
  rewrite (daemon_page_fetch _ _ _ f) by done. unfold fetch, serve, status. cbn. rewrite Hhs. cbn -[page_of views_from].
  unfold views_from. rewrite (status_decodes hs Hh Hfit Hread). apply views_of_doc.
Qed.

(** What the collector should show for a target. *)
Definition shows_target (p : Polled) (vs : list BackendView) : Prop :=
  match p with
  | Down t e => vs = [bare_view t.(tg_name) t.(tg_name) false e]
  | Up t _ c d now => exists hs, HostStatus_of c.(rd_now) d.(dm_sup) = Some hs /\ shows_daemon t.(tg_name) hs now vs
  end.

Lemma collected_target decode_error p : hollow_ok -> polled_ok p -> shows_target p (collected decode_error p).
Proof. destruct p as [name e|name f c d now]; intros Hh Hp; [done|by apply collected_daemon]. Qed.

(** C3: the collector, end to end.  A round polls any targets: some that cannot be reached, the others daemons that were
    started with any flags, host and vendor tools and reached, in any interleaving, the state in which they serve the
    request.  When what they hold can be printed, fits the integer types of its reader and the reader's time format
    undoes the writer's, then in whatever order the answers arrive the round is sorted by host and device and consists of
    exactly the targets' views: for a daemon one view per device in the daemon's own order, each showing that device
    as the daemon holds it, or one view that says there is none; for the others one that carries the error.  If the
    address of some target does not parse, the round ends the process instead. *)
Theorem collector_mirrors_daemons `{!SliceSort} decode_error hosts arrivals :
  hollow_ok -> Forall polled_ok hosts -> arrivals ≡ₚ map fetched_from hosts ->
  if forallb (fun p => url_parses (status_url (polled_target p))) hosts then
    exists views, poll parse_time decode_error arrivals = Some views /\ sorted_by view_less views /\
    exists told, Forall2 shows_target hosts told /\ views ≡ₚ mjoin told
  else poll parse_time decode_error arrivals = None.
Proof.
  intros Hh Hok Hp. rewrite poll_views, (addressed_perm _ _ Hp).
  assert (E : forallb addressed (map fetched_from hosts) = forallb (fun p => url_parses (status_url (polled_target p))) hosts).
  { clear. induction hosts as [|p l IH]; [done|]. cbn. rewrite IH. by destruct p. }
  rewrite E. destruct (forallb _ hosts); [|done]. eexists. split; [reflexivity|]. split.
  - apply (slice_sort_sorted _ (fun _ => True)); [apply view_weak|by apply Forall_forall].
  - exists (map (collected decode_error) hosts). split.
    + clear Hp E. induction Hok as [|p hosts Hp Hok IH]; cbn [map]; constructor; [by apply collected_target|exact IH].
    + rewrite slice_sort_perm, Hp, map_map. done.
Qed.
End wire.

(** ** Two targets

    The daemon of [DaemonFacts] and one that refuses the connection.  Times are written and read as integers. *)

Definition time_digits (t : Z) : string := itoa t.

Definition sample_polled (d : Daemon) : list Polled :=
  [Down {| tg_name := "b"; tg_url := "http://b" |} "refused";
   Up {| tg_name := "a"; tg_url := "http://a" |} sample_flags sample_reads d (200 * second)]%string.

Definition sample_page_fits : bool :=
  match sample_start ≫= admitted with
  | Some d => page_fits time_digits "0" nil_value atoi sample_reads d
  | None => false
  end.

Definition sample_arrivals (d : Daemon) : list Fetched := reverse (map (fetched_from time_digits "0" nil_value) (sample_polled d)).
Definition sample_round (d : Daemon) : option (list BackendView) :=
  @poll _ control_free atoi (fun _ => "syntax"%string) (sample_arrivals d).
Definition sample_view (v : BackendView) : string * string * bool * bool * string :=
  (v.(bv_Hostname), v.(bv_DeviceID), v.(bv_Reachable), v.(bv_Stale), v.(bv_Error)).

Lemma collector_mirrors_daemons_witness :
  exists d views told, Some d = sample_start ≫= admitted /\ sample_round d = Some views /\
    Forall2 shows_target (sample_polled d) told /\ views ≡ₚ mjoin told /\
    map sample_view views = [("b", "", false, false, "refused"); ("h", "0", true, true, "")]%string.
Proof.
  assert (F : sample_page_fits = true) by (by vm_compute). unfold sample_page_fits in F.
  assert (G : (fun d => map sample_view <$> sample_round d) <$> (sample_start ≫= admitted) =
    Some (Some [("b", "", false, false, "refused"); ("h", "0", true, true, "")])%string) by (by vm_compute).
  destruct sample_states as (d0 & d & pl & Hs & Ha & _). rewrite Hs in F, G |- *. cbn [mbind option_bind] in F, G |- *. rewrite Ha in F, G |- *.
  apply (inj Some) in G. assert (Hh : hollow_ok nil_value) by (split; [repeat constructor|by left]).
  assert (Hr : @reachable control_free sample_flags d) by (unfold reachable; do 9 eexists; exists d0; split; [exact Hs|exact (admitted_reached d0 d Hs Ha)]).
  assert (Hok : Forall (@polled_ok control_free time_digits "0" nil_value atoi) (sample_polled d)).
  { apply Forall_cons. split; [exact I|]. apply Forall_cons. split; [|constructor]. split; [done|]. split; [exact Hr|exact F]. }
  pose proof (@collector_mirrors_daemons control_free time_digits "0" nil_value atoi insertion_slice_sort (fun _ => "syntax"%string) (sample_polled d)
    (sample_arrivals d) Hh Hok (reverse_Permutation _)) as H.
  change (forallb _ (sample_polled d)) with true in H. destruct H as (views & E & _ & told & Ht & Hp).
  exists d, views, told. split; [reflexivity|]. split; [exact E|]. split; [exact Ht|]. split; [exact Hp|].
  unfold sample_round in G. rewrite E in G. by injection G.
Defined.
